(* ===== verification/_CoqProject ===== *)
-Q . S2P
Prelude.v
Ring.v
Mem.v
Riscv.v
Kalloc.v
Vm.v
Uvm.v
Pagetable.v
VmSpec.v
Kstate.v
Asm.v
AsmSpec.v
Spinlock.v
Proc.v
Sched.v
ProcMem.v
ProcAlloc.v
Process.v
Wait.v
ProcSpec.v
Initcode.v
Growproc.v
Signal.v
SignalSpec.v
SignalFrame.v
Sigaction.v
Kthread.v
Bsem.v
Csem.v
Syscall.v
Trap.v
FsState.v
Bio.v
Virtio.v
VirtioSpec.v
Log.v
BioSpec.v
BioWp.v
LogSpec.v
LogCrash.v
Fs.v
Console.v
ConsoleSpec.v
File.v
PipeSpec.v
Exec.v
Boot.v
BootSpec.v
Sysfile.v
User.v
Ulib.v
Grep.v
Umalloc.v
UPrintf.v
UProgs.v
Sh.v
ShSpec.v
