(* ===== verification/Prelude.v ===== *)
(** * A verification library for the xv6 kernel with signals, threads and
    binary semaphores

    The program is the RISC-V teaching kernel xv6, extended with signals, several
    threads per process and binary semaphores (src/kernel), and its user
    library and programs (src/user).  This library models it function by
    function as executable definitions and proves what makes its parts
    correct.  Definitions have the names of the C functions.

    ** How code is modelled

    - A w-bit integer is a [Z], with its wrap-around written out ([u16],
      [u32], [u64], [i32], below).  A byte is a [byte]; RAM is a finite map from
      addresses to bytes (Mem.v).
    - A function that changes state is a term of the monad [M E S A], whose
      runs are of the type [run]: the result and the new state, a panic with its
      message, an event, or no fuel.  An event is a point at which others act: a
      context switch, a sleep, a block written to the disk, a turn of the
      device.  The rest of the run is a function of the state in which the code
      is resumed, so a theorem can quantify over all that others do.  [wp] is
      the rely-guarantee reading of this: what holds at each event, and what
      the others may change.
    - A loop whose end depends on others takes fuel, the number of times it may be
      woken.  Loops bounded by their data have a bound from the source (NPROC,
      NUM, the length of a string), and their theorems show that it is enough:
      the handler of the disk ends within [NUM + 1] rounds, the parser of the
      shell within the length of the line, [malloc] within the length of its
      list.  Where a wait can last for ever, a theorem says that the only other
      end is running out of fuel ([patient] in VirtioSpec.v), or what state the
      code sleeps in.
    - A record is a [Record] with [Setter]s for [r <| f := v |>]; a tagged
      union is an inductive type; a pointer into a table is an index.
    - Code outside of src/ is a parameter: the addresses that the linker gives
      ([KernelSymbols]), the translation of addresses by the hardware (AsmSpec.v),
      the disk (any relation that the virtio specification allows,
      [dev_spec]), what a C function called from assembly does to the
      registers ([conventional]).

    ** The parts and their files

    Memory.  Kalloc.v is kalloc.c; Vm.v, Uvm.v and Pagetable.v are vm.c and the
    page tables of proc.c.  VmSpec.v shows that page tables in RAM implement a
    map from addresses to pages, that address spaces are created, grown,
    copied and destroyed without losing a page, and that copyin reads what
    copyout wrote.  Kalloc.v shows that no page is lost or given out twice.

    Processes.  Kstate.v has the process table; Spinlock.v is spinlock.c;
    Proc.v, Process.v and Sched.v are proc.c.  ProcMem.v states who owns
    which page; ProcAlloc.v, Wait.v, ProcSpec.v and Growproc.v prove what
    allocproc, wait, wakeup, kill and growproc do on every path.

    Signals, threads, semaphores.  Signal.v, Kthread.v and Bsem.v are the rest of
    proc.c.  SignalSpec.v, SignalFrame.v and Sigaction.v show which signal is
    delivered and that a handler's return restores the interrupted state.  Csem.v
    is user/Csemaphore.c, with its safety and progress under every
    interleaving.

    Entry and exit.  Asm.v is the assembly, as lists of instructions with an
    interpreter; AsmSpec.v shows that the trampoline, kernelvec and swtch
    keep every register.  Trap.v is trap.c, Syscall.v is syscall.c and sysproc.c.
    Boot.v is start.c, main.c and plic.c, and BootSpec.v takes a hart from
    reset to main, with a timer that ticks.  Initcode.v runs the machine code of the
    first process.

    Disk and files.  Virtio.v is virtio_disk.c and VirtioSpec.v its correctness
    against any device that follows the specification.  FsState.v has the state
    of the file system; Bio.v, Log.v, Fs.v, File.v, Exec.v and Sysfile.v are
    bio.c and sleeplock.c, log.c, fs.c, file.c and pipe.c, exec.c and sysfile.c.
    They rely on the disk driver by [disk_transfer].  BioSpec.v, BioWp.v, LogSpec.v
    and LogCrash.v show that transactions are atomic under power
    failure, also during recovery.  PipeSpec.v shows that pipes are queues
    (Ring.v).  Console.v is console.c, uart.c and printf.c, with ConsoleSpec.v.

    User programs.  User.v is the monad of system calls, Ulib.v, Umalloc.v and
    UPrintf.v the library, Grep.v, UProgs.v and Sh.v the programs.  The theorems:
    malloc keeps its invariant and loses no byte, grep's matcher decides
    the language of its pattern, cat and wc compute what they print, and the shell
    parses its grammar (ShSpec.v) and runs what the line means.

    ** What is not modelled

    - The bodies of the test programs (usertests.c, grind.c, forktest.c,
      stressfs.c, test.c, test1.c, test2_5.c): drivers that only call what
      is modelled here.
    - mkfs.c, a tool of the host; ramdisk.c, which is not built; semaphore.c, which
      is one comment.
    - True parallelism inside a critical section.  A spinlock that another
      hart holds only delays, so a hart is modelled alone between events.
    - The file system has definitions for all of fs.c, and theorems for the log and
      the cache below it; the operations on inodes and directories have none.
    - Caches and the order of memory accesses, apart from the turns that the disk
      gets at the barriers of its driver. *)

From Stdlib Require Export ZArith Lia.
From stdpp Require Export base tactics option list gmap strings.
From coqutil Require Export Byte Word.LittleEndianList.
From Stdlib Require Strings.Byte.
Export Init.Byte.

#[export] Set Default Goal Selector "!".
Open Scope Z_scope.
#[export] Instance byte_inhabited : Inhabited byte := populate x00.

(** ** Outcomes of a run

    A kernel function is a run on an explicit state [S].  [Event] is a point
    at which the code hands control to the rest of the system (the file system
    calls [sleep] and [wakeup], a thread calls [swtch]); the continuation
    receives the state in which it is resumed, so every interference of other
    threads is an argument of the continuation.  [Panic] is [panic()], [NoFuel]
    an exhausted loop bound of the model. *)
Inductive run (E S A : Type) : Type :=
| Ok (a : A) (s : S)
| Panic (msg : string)
| Event (e : E) (s : S) (k : S → run E S A)
| NoFuel.
Arguments Ok {E S A} a s.
Arguments Panic {E S A} msg.
Arguments Event {E S A} e s k.
Arguments NoFuel {E S A}.

Definition M (E S A : Type) : Type := S → run E S A.

Fixpoint run_bind {E S A B : Type} (r : run E S A) (f : A → M E S B) : run E S B :=
  match r with
  | Ok a s => f a s
  | Panic msg => Panic msg
  | Event e s k => Event e s (λ s', run_bind (k s') f)
  | NoFuel => NoFuel
  end.

Definition ret {E S A : Type} (a : A) : M E S A := λ s, Ok a s.
Definition bind {E S A B : Type} (m : M E S A) (f : A → M E S B) : M E S B :=
  λ s, run_bind (m s) f.
Definition panic {E S A : Type} (msg : string) : M E S A := λ _, Panic msg.
Definition out_of_fuel {E S A : Type} : M E S A := λ _, NoFuel.
Definition get {E S : Type} : M E S S := λ s, Ok s s.
Definition gets {E S A : Type} (f : S → A) : M E S A := λ s, Ok (f s) s.
Definition put {E S : Type} (s : S) : M E S unit := λ _, Ok tt s.
Definition modify {E S : Type} (f : S → S) : M E S unit := λ s, Ok tt (f s).
Definition emit {E S : Type} (e : E) : M E S unit := λ s, Event e s (λ s', Ok tt s').

Declare Scope xv6_scope.
Delimit Scope xv6_scope with xv6.
Notation "'let*' x := m 'in' k" := (bind m (λ x, k))
  (at level 10, x name, m at level 100, k at level 200) : xv6_scope.
Notation "'let*' ' p := m 'in' k" := (bind m (λ x, match x with p => k end))
  (at level 10, p pattern, m at level 100, k at level 200) : xv6_scope.
Notation "m ;;; k" := (bind m (λ _, k))
  (at level 100, k at level 200, right associativity) : xv6_scope.
Open Scope xv6_scope.

Definition when {E S : Type} (b : bool) (m : M E S unit) : M E S unit :=
  if b then m else ret tt.

(** The C idiom of a loop that runs while its body asks for another round:
    the body returns [inl] to continue and [inr] to leave the loop. *)
Fixpoint iterate {E S A B : Type} (fuel : nat) (body : A → M E S (A + B)) (a : A) : M E S B :=
  match fuel with
  | O => out_of_fuel
  | S fuel' =>
      let* r := body a in
      match r with
      | inl a' => iterate fuel' body a'
      | inr b => ret b
      end
  end.

(** [for(x in xs) f(x)]. *)
Fixpoint for_each {E S A : Type} (xs : list A) (f : A → M E S unit) : M E S unit :=
  match xs with
  | [] => ret tt
  | x :: xs' => f x ;;; for_each xs' f
  end.

(** a loop with a [return] in its body: the first result that is not [None] *)
Fixpoint for_until {E S A B : Type} (xs : list A) (f : A → M E S (option B)) : M E S (option B) :=
  match xs with
  | [] => ret None
  | x :: xs' =>
      let* r := f x in
      match r with
      | Some b => ret (Some b)
      | None => for_until xs' f
      end
  end.

(** Running a function on a component of a larger state.  The handler says
    what an event of the component does to the large state. *)
Fixpoint zoom_run {E1 E2 S1 S2 A : Type} (view : S2 → S1) (upd : S1 → S2 → S2)
    (handler : E1 → M E2 S2 unit) (outer : S2) (r : run E1 S1 A) : run E2 S2 A :=
  match r with
  | Ok a s => Ok a (upd s outer)
  | Panic msg => Panic msg
  | Event e s k =>
      run_bind (handler e (upd s outer))
        (λ _ outer', zoom_run view upd handler outer' (k (view outer')))
  | NoFuel => NoFuel
  end.
Definition zoom {E1 E2 S1 S2 A : Type} (view : S2 → S1) (upd : S1 → S2 → S2)
    (handler : E1 → M E2 S2 unit) (m : M E1 S1 A) : M E2 S2 A :=
  λ s, zoom_run view upd handler s (m (view s)).

(** Weakest preconditions of a run.  [guar e s] must hold when the code hands
    over control with event [e] in state [s], and [rely e s s'] bounds what the
    rest of the system may do until it is resumed in [s'].  [out] says how
    the run may end without a result: [out (Some msg)] by [panic(msg)], and
    [out None] by reaching the bound of a loop that waits for another thread. *)
Fixpoint wp {E S A : Type} (out : option string → Prop) (guar : E → S → Prop) (rely : E → S → S → Prop)
    (r : run E S A) (Q : A → S → Prop) : Prop :=
  match r with
  | Ok a s => Q a s
  | Panic msg => out (Some msg)
  | Event e s k => guar e s ∧ ∀ s', rely e s s' → wp out guar rely (k s') Q
  | NoFuel => out None
  end.

Section Wp.
Context {E S : Type} (out : option string → Prop) (guar : E → S → Prop) (rely : E → S → S → Prop).

Lemma wp_bind {A B} (r : run E S A) (f : A → M E S B) (Q : B → S → Prop) :
  wp out guar rely r (λ a s, wp out guar rely (f a s) Q) → wp out guar rely (run_bind r f) Q.
Proof. induction r as [| |e s k IH|]; simpl; try done. intros [Hg Hk]. split; [done|]. auto. Qed.

Lemma wp_mono {A} (r : run E S A) (Q Q' : A → S → Prop) :
  (∀ a s, Q a s → Q' a s) → wp out guar rely r Q → wp out guar rely r Q'.
Proof. intros HQ. induction r as [| |e s k IH|]; simpl; auto. intros [Hg Hk]. split; auto. Qed.

Lemma wp_forall {A X} (r : run E S A) (P : X → Prop) (Q : X → A → S → Prop) x0 : P x0 →
  (∀ x, P x → wp out guar rely r (Q x)) → wp out guar rely r (λ a s, ∀ x, P x → Q x a s).
Proof.
  intros H0 HQ. assert (Hr := HQ x0 H0). induction r as [| |e s k IH|]; simpl in *; auto.
  split; [apply Hr|]. intros s' Hs'. apply IH; [|by apply Hr]. intros x Hx. by apply (HQ x Hx).
Qed.

Lemma wp_emit {A} (e : E) (m : M E S A) (Q : A → S → Prop) s :
  guar e s → (∀ s', rely e s s' → wp out guar rely (m s') Q) → wp out guar rely ((emit e ;;; m) s) Q.
Proof. intros Hg Hm. split; [done|]. intros s' Hs'. by apply Hm. Qed.

Lemma wp_bind' {A B} (m : M E S A) (f : A → M E S B) (R : A → S → Prop) (Q : B → S → Prop) s :
  wp out guar rely (m s) R → (∀ a s', R a s' → wp out guar rely (f a s') Q) →
  wp out guar rely (bind m f s) Q.
Proof. intros Hm Hf. apply wp_bind. eapply wp_mono; [|exact Hm]. auto. Qed.

(** a loop over [i, i+1, ..., i+n-1] whose invariant depends on the index *)
Lemma wp_for_seq (f : nat → M E S unit) (I : nat → S → Prop) n : ∀ i s,
  I i s → (∀ k s, (i ≤ k < i + n)%nat → I k s → wp out guar rely (f k s) (λ _, I (Datatypes.S k))) →
  wp out guar rely (for_each (seq i n) f s) (λ _, I (i + n)%nat).
Proof.
  induction n as [|n IH]; intros i s Hs Hf; simpl.
  { by rewrite Nat.add_0_r. }
  eapply wp_bind'; [apply Hf; [lia|done]|]. intros [] s' Hs'. rewrite <- Nat.add_succ_comm.
  apply IH; [done|]. intros k s2 Hk. apply Hf. lia.
Qed.

(** a loop that waits: each round either leaves with the postcondition or
    goes around with the invariant *)
Lemma wp_iterate {A B} (body : A → M E S (A + B)) (I : A → S → Prop) (Q : B → S → Prop) n : ∀ a s,
  out None → I a s →
  (∀ a s, I a s → wp out guar rely (body a s) (λ r s', match r with inl a' => I a' s' | inr b => Q b s' end)) →
  wp out guar rely (iterate n body a s) Q.
Proof.
  induction n as [|n IH]; intros a s Ho Ha Hb; simpl; [done|].
  eapply wp_bind'; [by apply Hb|]. intros [a'|b] s' Hr; [by apply IH|done].
Qed.

(** a loop whose measure decreases *)
Lemma wp_iterate_lt {A B} (body : A → M E S (A + B)) (I : A → S → Prop) (Q : B → S → Prop) (measure : S → nat) n : ∀ a s,
  (measure s < n)%nat → I a s →
  (∀ a s, I a s → wp out guar rely (body a s)
    (λ r s', match r with inl a' => I a' s' ∧ (measure s' < measure s)%nat | inr b => Q b s' end)) →
  wp out guar rely (iterate n body a s) Q.
Proof.
  induction n as [|n IH]; intros a s Hn Ha Hb; simpl; [lia|].
  eapply wp_bind'; [by apply Hb|]. intros [a'|b] s' Hr; [|done]. destruct Hr. apply IH; [lia|done..].
Qed.

(** a loop over [xs] with invariant [I] *)
Lemma wp_for_each {A} (xs : list A) (f : A → M E S unit) (I : S → Prop) s :
  I s → (∀ x s, x ∈ xs → I s → wp out guar rely (f x s) (λ _, I)) →
  wp out guar rely (for_each xs f s) (λ _, I).
Proof.
  revert s. induction xs as [|x xs IH]; intros s Hs Hf; simpl; [done|].
  apply wp_bind. eapply wp_mono; [|apply Hf; [set_solver|done]]. intros [] s' Hs'.
  apply IH; [done|]. intros y s2 Hy. apply Hf. set_solver.
Qed.
End Wp.

Lemma bind_Ok {E S A B : Type} (m : M E S A) (f : A → M E S B) s a s' :
  m s = Ok a s' → bind m f s = f a s'.
Proof. intros H. unfold bind. by rewrite H. Qed.

Lemma zoom_Ok {E1 E2 S1 S2 A : Type} (view : S2 → S1) upd (h : E1 → M E2 S2 unit) (m : M E1 S1 A) s a x :
  m (view s) = Ok a x → zoom view upd h m s = Ok a (upd x s).
Proof. intros H. unfold zoom. by rewrite H. Qed.

(** one round of a loop *)
Lemma iterate_done {E S A B : Type} n (body : A → M E S (A + B)) a s b s' :
  body a s = Ok (inr b) s' → iterate (Datatypes.S n) body a s = Ok b s'.
Proof. intros Hb. simpl. by rewrite (bind_Ok _ _ _ _ _ Hb). Qed.
Lemma iterate_next {E S A B : Type} n (body : A → M E S (A + B)) a s a' s' :
  body a s = Ok (inl a') s' → iterate (Datatypes.S n) body a s = iterate n body a' s'.
Proof. intros Hb. simpl. by rewrite (bind_Ok _ _ _ _ _ Hb). Qed.
Lemma iterate_event {E S A B : Type} n (body : A → M E S (A + B)) a s e s' k :
  body a s = Event e s' k → ∃ k', iterate (Datatypes.S n) body a s = Event e s' k'.
Proof. intros Hb. simpl. unfold bind. rewrite Hb. simpl. eauto. Qed.

Lemma iterate_suspend {E S A B : Type} n (body : A → M E S (A + B)) a s e s' k :
  body a s = Event e s' k → iterate (Datatypes.S n) body a s =
    Event e s' (λ s2, run_bind (k s2) (λ r, match r with inl a' => iterate n body a' | inr b => ret b end)).
Proof. intros Hb. simpl. unfold bind. by rewrite Hb. Qed.

(** loops over an index, given the state before each iteration *)
Lemma for_each_seq {E S : Type} (body : nat → M E S unit) (st : nat → S) n i :
  (∀ k, (i ≤ k < i + n)%nat → body k (st k) = Ok tt (st (Datatypes.S k))) →
  for_each (seq i n) body (st i) = Ok tt (st (i + n)%nat).
Proof.
  revert i. induction n as [|n IH]; intros i Hb; simpl.
  { by rewrite Nat.add_0_r. }
  rewrite (bind_Ok _ _ _ _ _ (Hb i ltac:(lia))), IH by (intros; apply Hb; lia).
  do 2 f_equal. lia.
Qed.

Lemma for_until_seq {E S B : Type} (body : nat → M E S (option B)) (st : nat → S) n i j b s' :
  (i ≤ j < i + n)%nat → (∀ k, (i ≤ k < j)%nat → body k (st k) = Ok None (st (Datatypes.S k))) →
  body j (st j) = Ok (Some b) s' → for_until (seq i n) body (st i) = Ok (Some b) s'.
Proof.
  revert i. induction n as [|n IH]; intros i Hj Hb Hs; simpl; [lia|].
  destruct (decide (i = j)) as [->|Hne].
  - by rewrite (bind_Ok _ _ _ _ _ Hs).
  - rewrite (bind_Ok _ _ _ _ _ (Hb i ltac:(lia))). apply IH; [lia| |done]. intros. apply Hb. lia.
Qed.

Lemma for_until_none {E S B : Type} (body : nat → M E S (option B)) (st : nat → S) n i :
  (∀ k, (i ≤ k < i + n)%nat → body k (st k) = Ok None (st (Datatypes.S k))) →
  for_until (seq i n) body (st i) = Ok None (st (i + n)%nat).
Proof.
  revert i. induction n as [|n IH]; intros i Hb; simpl.
  { by rewrite Nat.add_0_r. }
  rewrite (bind_Ok _ _ _ _ _ (Hb i ltac:(lia))), IH by (intros; apply Hb; lia).
  do 2 f_equal. lia.
Qed.

(** the same with an invariant in place of the states *)
Lemma for_each_inv {E S : Type} (body : nat → M E S unit) (P : nat → S → Prop) n : ∀ i s,
  P i s → (∀ k s, (i ≤ k < i + n)%nat → P k s → ∃ s', body k s = Ok tt s' ∧ P (Datatypes.S k) s') →
  ∃ s', for_each (seq i n) body s = Ok tt s' ∧ P (i + n)%nat s'.
Proof.
  induction n as [|n IH]; intros i s Hs Hb; simpl.
  { exists s. by rewrite Nat.add_0_r. }
  destruct (Hb i s ltac:(lia) Hs) as (s1 & H1 & Hs1). rewrite (bind_Ok _ _ _ _ _ H1).
  rewrite <- Nat.add_succ_comm. apply IH; [done|]. intros k s2 Hk. apply Hb. lia.
Qed.

Lemma bind_Ok_inv {E S A B : Type} (m : M E S A) (f : A → M E S B) s b s'' :
  (∀ e s1 k, m s ≠ Event e s1 k) →
  bind m f s = Ok b s'' → ∃ a s', m s = Ok a s' ∧ f a s' = Ok b s''.
Proof.
  unfold bind. intros Hev H. destruct (m s) eqn:Em; simpl in H; try discriminate.
  eauto.
Qed.

#[export] Instance byte_eq_decision : EqDecision byte := Strings.Byte.byte_eq_dec.
#[export] Instance byte_countable : Countable byte := inj_countable Strings.Byte.to_N Strings.Byte.of_N Strings.Byte.of_to_N.

(** ** Machine integers *)
Definition u8 (z : Z) : Z := z mod 2 ^ 8.
Definition u16 (z : Z) : Z := z mod 2 ^ 16.
Definition u32 (z : Z) : Z := z mod 2 ^ 32.
Definition u64 (z : Z) : Z := z mod 2 ^ 64.
(** conversion to [int] (two's complement) *)
Definition i32 (z : Z) : Z := (z + 2 ^ 31) mod 2 ^ 32 - 2 ^ 31.

Lemma u32_small z : 0 ≤ z < 2 ^ 32 → u32 z = z.
Proof. intros. by apply Z.mod_small. Qed.
Lemma u64_small z : 0 ≤ z < 2 ^ 64 → u64 z = z.
Proof. intros. by apply Z.mod_small. Qed.
Lemma u32_range z : 0 ≤ u32 z < 2 ^ 32.
Proof. by apply Z.mod_pos_bound. Qed.
Lemma u64_range z : 0 ≤ u64 z < 2 ^ 64.
Proof. by apply Z.mod_pos_bound. Qed.
Lemma i32_range z : - 2 ^ 31 ≤ i32 z < 2 ^ 31.
Proof. unfold i32. pose proof (Z.mod_pos_bound (z + 2 ^ 31) (2 ^ 32)). lia. Qed.
Lemma i32_small z : - 2 ^ 31 ≤ z < 2 ^ 31 → i32 z = z.
Proof. intros. unfold i32. rewrite Z.mod_small; lia. Qed.

(** ** Field update

    [r <| f := v |>] is the record [r] with field [f] set to [v]; each record
    of the development declares one [Setter] instance per field. *)
Class Setter {R T : Type} (proj : R → T) : Type := set_field : (T → T) → R → R.
Arguments set_field {R T} proj {_} f r.
Notation "r <| f := v |>" := (set_field f (λ _, v) r)
  (at level 1, f at level 0, format "r <| f  :=  v |>") : xv6_scope.
Notation "r <| f ::= g |>" := (set_field f g r)
  (at level 1, f at level 0, format "r <| f  ::=  g |>") : xv6_scope.

(** ** Automation *)
Create HintDb xv6.
Create HintDb xv6_len.

Ltac case_if :=
  match goal with
  | |- context [if ?b then _ else _] =>
      match type of b with
      | bool => let E := fresh "E" in destruct b eqn:E
      | _ => let E := fresh "E" in destruct b as [E | E]
      end
  end.

Ltac case_if_in H :=
  match type of H with
  | context [if ?b then _ else _] =>
      match type of b with
      | bool => let E := fresh "E" in destruct b eqn:E
      | _ => let E := fresh "E" in destruct b as [E | E]
      end
  end.

(** [lia] with the equations of division and remainder *)
Ltac dlia := Z.to_euclidean_division_equations; lia.

(** turns boolean integer comparisons into propositions *)
Ltac zbool :=
  repeat match goal with
  | H : (_ <? _)%Z = true |- _ => apply Z.ltb_lt in H
  | H : (_ <? _)%Z = false |- _ => apply Z.ltb_ge in H
  | H : (_ <=? _)%Z = true |- _ => apply Z.leb_le in H
  | H : (_ <=? _)%Z = false |- _ => apply Z.leb_gt in H
  | H : (_ =? _)%Z = true |- _ => apply Z.eqb_eq in H
  | H : (_ =? _)%Z = false |- _ => apply Z.eqb_neq in H
  | H : (_ && _)%bool = true |- _ => apply andb_prop in H as [? ?]
  | H : (_ && _)%bool = false |- _ => apply andb_false_iff in H
  | H : (_ || _)%bool = false |- _ => apply orb_false_iff in H as [? ?]
  | H : (_ || _)%bool = true |- _ => apply orb_true_iff in H
  | H : negb _ = true |- _ => apply negb_true_iff in H
  | H : negb _ = false |- _ => apply negb_false_iff in H
  end.

(** ** Lists *)
Lemma flat_map_ext_in {A B : Type} (f g : A → list B) l :
  (∀ x, x ∈ l → f x = g x) → flat_map f l = flat_map g l.
Proof.
  induction l as [|a l IH]; simpl; intros Hx; [done|]. rewrite Hx by set_solver.
  rewrite IH; [done|]. intros x Hx'. apply Hx. set_solver.
Qed.

Lemma elem_of_flat_map {A B : Type} (f : A → list B) l y :
  y ∈ flat_map f l ↔ ∃ x, x ∈ l ∧ y ∈ f x.
Proof.
  rewrite list_elem_of_In, in_flat_map. f_equiv. intros x. by rewrite !list_elem_of_In.
Qed.

Lemma NoDup_flat_map {A B : Type} (f : A → list B) l :
  NoDup l → (∀ x, x ∈ l → NoDup (f x)) →
  (∀ x y z, x ∈ l → y ∈ l → z ∈ f x → z ∈ f y → x = y) → NoDup (flat_map f l).
Proof.
  induction l as [|a l IH]; simpl; intros Hl Hf Hd; [constructor|].
  apply NoDup_cons in Hl as [Ha Hl]. apply NoDup_app. split_and!.
  - apply Hf. set_solver.
  - intros z Hz Hz'. apply elem_of_flat_map in Hz' as (y & Hy & Hz').
    assert (a = y) as -> by (apply (Hd a y z); set_solver). done.
  - apply IH; [done|..]; intros; [apply Hf|eapply Hd]; set_solver.
Qed.

Lemma list_insert_same {A} (l : list A) i x : l !! i = Some x → <[i := x]> l = l.
Proof. apply list_insert_id. Qed.

(** index of the first element that satisfies a test: the C scan
    [for(i = 0; i < n; i++) if(test(a[i])) ...] *)
Fixpoint find_index {A} (f : A → bool) (l : list A) : option nat :=
  match l with
  | [] => None
  | x :: l' => if f x then Some O else S <$> find_index f l'
  end.

Lemma find_index_Some {A} (f : A → bool) l i :
  find_index f l = Some i ↔
  (∃ x, l !! i = Some x ∧ f x = true) ∧ ∀ j y, (j < i)%nat → l !! j = Some y → f y = false.
Proof.
  revert i. induction l as [|x l IH]; intros i; simpl.
  { split; [done|]. intros [[x [H _]] _]. by rewrite lookup_nil in H. }
  destruct (f x) eqn:Ex.
  - split.
    + intros [= <-]. split; [by exists x|]. intros. lia.
    + intros [_ H]. destruct i as [|i]; [done|].
      specialize (H O x ltac:(lia) eq_refl). congruence.
  - rewrite fmap_Some. split.
    + intros (i' & Hi & ->). apply IH in Hi as [Hx Hj]. split; [done|].
      intros [|j] y Hlt Hy; simpl in Hy; [congruence|]. apply (Hj j); [lia|done].
    + intros [[y [Hy Hf]] Hj]. destruct i as [|i]; simpl in Hy; [congruence|].
      exists i. split; [|done]. apply IH. split; [by exists y|].
      intros j z Hlt Hz. apply (Hj (S j)); [lia|done].
Qed.

Lemma find_index_None {A} (f : A → bool) l :
  find_index f l = None ↔ ∀ i x, l !! i = Some x → f x = false.
Proof.
  induction l as [|x l IH]; simpl; [by split|].
  destruct (f x) eqn:Ex.
  - split; [done|]. intros H. specialize (H O x eq_refl). congruence.
  - rewrite fmap_None, IH. split.
    + intros H [|i] y Hy; simpl in Hy; [congruence|eauto].
    + intros H i y Hy. apply (H (S i)). done.
Qed.

Lemma find_index_lt {A} (f : A → bool) l i :
  find_index f l = Some i → (i < length l)%nat.
Proof.
  intros H. apply find_index_Some in H as [[x [H _]] _]. by eapply lookup_lt_Some.
Qed.

(** the list after a loop that updates each element in turn has done [n] *)
Definition upto {A} (n : nat) (f : nat → A → A) (l : list A) : list A :=
  imap (λ k x, if decide (k < n)%nat then f k x else x) l.

Lemma upto_0 {A} (f : nat → A → A) l : upto 0 f l = l.
Proof.
  unfold upto. apply list_eq. intros i. rewrite list_lookup_imap.
  destruct (l !! i) as [x|]; [|done].
  change (Some (if decide (i < 0)%nat then f i x else x) = Some x). by rewrite decide_False by lia.
Qed.

Lemma upto_all {A} (f : nat → A → A) l n : (length l ≤ n)%nat → upto n f l = imap f l.
Proof.
  intros Hl. unfold upto. apply list_eq. intros i. rewrite !list_lookup_imap.
  destruct (l !! i) eqn:E; simpl; [|done]. apply lookup_lt_Some in E. by rewrite decide_True by lia.
Qed.

Lemma upto_S {A} (f : nat → A → A) l n : alter (f n) n (upto n f l) = upto (S n) f l.
Proof.
  apply list_eq. intros i. unfold upto. destruct (decide (i = n)) as [->|Hne].
  - rewrite list_lookup_alter_eq, !list_lookup_imap. destruct (l !! n); simpl; [|done].
    by rewrite decide_False, decide_True by lia.
  - rewrite list_lookup_alter_ne, !list_lookup_imap by done. destruct (l !! i); simpl; [|done].
    repeat case_decide; done || lia.
Qed.

Lemma length_upto {A} (f : nat → A → A) l n : length (upto n f l) = length l.
Proof. apply length_imap. Qed.

Lemma lookup_upto {A} (f : nat → A → A) l n i :
  upto n f l !! i = (λ x, if decide (i < n)%nat then f i x else x) <$> l !! i.
Proof. apply list_lookup_imap. Qed.

(** total lookup after an update in place *)
Lemma lookup_total_alter {A} `{Inhabited A} (f : A → A) (l : list A) i j :
  (i < length l)%nat → alter f i l !!! j = if decide (i = j) then f (l !!! j) else l !!! j.
Proof.
  intros Hi. rewrite !list_lookup_total_alt. case_decide as E.
  - subst. rewrite list_lookup_alter_eq. destruct (l !! j) eqn:El; [done|].
    apply lookup_ge_None in El. lia.
  - by rewrite list_lookup_alter_ne.
Qed.

Lemma lookup_total_upto {A} `{Inhabited A} (f : nat → A → A) l n i :
  (i < length l)%nat → upto n f l !!! i = if decide (i < n)%nat then f i (l !!! i) else l !!! i.
Proof.
  intros Hi. rewrite !list_lookup_total_alt, lookup_upto. destruct (l !! i) eqn:El; [done|].
  apply lookup_ge_None in El. lia.
Qed.

Lemma insert_alter {A} (f : A → A) (l : list A) i x : l !! i = Some x → alter f i l = <[i := f x]> l.
Proof.
  intros Hx. apply list_eq. intros j. destruct (decide (i = j)) as [->|Hne].
  - rewrite list_lookup_alter_eq, list_lookup_insert_eq, Hx by (by eapply lookup_lt_Some). done.
  - by rewrite list_lookup_alter_ne, list_lookup_insert_ne.
Qed.

Lemma alter_insert_same {A} (f : A → A) (l : list A) i x : alter f i (<[i := x]> l) = <[i := f x]> l.
Proof.
  apply list_eq. intros j. destruct (decide (i = j)) as [->|Hne].
  - rewrite list_lookup_alter_eq. destruct (decide (j < length l)%nat).
    + by rewrite !list_lookup_insert_eq.
    + rewrite !list_insert_ge by lia. by rewrite lookup_ge_None_2 by lia.
  - by rewrite list_lookup_alter_ne, !list_lookup_insert_ne.
Qed.
