(* ===== verification/Ring.v ===== *)
(** * Ring buffers

    An array indexed modulo its size by 32-bit counters that wrap around, as in
    pipe.c and console.c: the elements between two counters are a queue.  The
    lemmas on segments serve the 16-bit counters of virtio_disk.c too. *)

From S2P Require Import Prelude.

Section Ring.
Context {A : Type} `{!Inhabited A} (size : Z) (Hsize : 0 < size) (Hdiv : (size | 2 ^ 32)).

(** the [n] elements from index [a] on *)
Definition ring_seg (buf : list A) (a : Z) (n : nat) : list A :=
  (λ k, buf !!! Z.to_nat ((a + Z.of_nat k) mod size)) <$> seq 0 n.
Definition ring_len (r w : Z) : Z := u32 (w - r).
Definition ring_queue (buf : list A) (r w : Z) : list A := ring_seg buf r (Z.to_nat (ring_len r w)).

Lemma length_seg buf a n : length (ring_seg buf a n) = n.
Proof. unfold ring_seg. by rewrite length_fmap, length_seq. Qed.
Lemma ring_len_range r w : 0 ≤ ring_len r w < 2 ^ 32.
Proof. apply u32_range. Qed.
Lemma length_ring buf r w : Z.of_nat (length (ring_queue buf r w)) = ring_len r w.
Proof. unfold ring_queue. rewrite length_seg. pose proof (ring_len_range r w). lia. Qed.

Lemma ring_len_case r w : 0 ≤ r < 2 ^ 32 → 0 ≤ w < 2 ^ 32 →
  ring_len r w = if r <=? w then w - r else w - r + 2 ^ 32.
Proof.
  intros Hr Hw. unfold ring_len, u32. destruct (Z.leb_spec r w).
  - apply Z.mod_small. lia.
  - symmetry. apply Z.mod_unique with (-1); [left; lia|lia].
Qed.

(** the tests of the code *)
Lemma ring_full_test r w : 0 ≤ r < 2 ^ 32 → 0 ≤ w < 2 ^ 32 → size < 2 ^ 32 →
  (w =? u32 (r + size)) = (ring_len r w =? size).
Proof.
  intros Hr Hw H32. rewrite ring_len_case by done.
  assert (Hu : u32 (r + size) = if r + size <? 2 ^ 32 then r + size else r + size - 2 ^ 32).
  { unfold u32. destruct (Z.ltb_spec (r + size) (2 ^ 32)); [apply Z.mod_small; lia|].
    symmetry. apply Z.mod_unique with 1; [left; lia|lia]. }
  rewrite Hu. destruct (Z.ltb_spec (r + size) (2 ^ 32)), (Z.leb_spec r w); lia.
Qed.
Lemma ring_empty_test r w : 0 ≤ r < 2 ^ 32 → 0 ≤ w < 2 ^ 32 → (r =? w) = (ring_len r w =? 0).
Proof. intros Hr Hw. rewrite ring_len_case by done. destruct (Z.leb_spec r w); lia. Qed.

(** the size divides 2^32, so an index does not see the wrap of a counter *)
Lemma ring_index a : u32 a mod size = a mod size.
Proof. unfold u32. by apply Z.mod_mod_divide. Qed.
Lemma seg_u32 buf a n : ring_seg buf (u32 a) n = ring_seg buf a n.
Proof.
  apply list_fmap_ext. intros i k _. cbn. do 2 f_equal. rewrite <- (ring_index (a + _)), <- (ring_index (u32 a + _)).
  unfold u32. by rewrite Zplus_mod_idemp_l.
Qed.
Lemma seg_app buf a n m : ring_seg buf a (n + m) = ring_seg buf a n ++ ring_seg buf (a + Z.of_nat n) m.
Proof.
  unfold ring_seg. rewrite seq_app, fmap_app. f_equal.
  replace (seq (0 + n) m) with (Nat.add n <$> seq 0 m) by (rewrite fmap_add_seq; f_equal; lia). rewrite <- list_fmap_compose.
  apply list_fmap_ext. intros i k _. cbn. do 3 f_equal. lia.
Qed.
Lemma seg_S buf a n : ring_seg buf a (S n) = buf !!! Z.to_nat (a mod size) :: ring_seg buf (a + 1) n.
Proof. rewrite <- Nat.add_1_l, seg_app. cbn. by rewrite Z.add_0_r. Qed.
Lemma seg_snoc buf a n : ring_seg buf a (S n) = ring_seg buf a n ++ [buf !!! Z.to_nat ((a + Z.of_nat n) mod size)].
Proof. rewrite <- Nat.add_1_r, seg_app. cbn. by rewrite Z.add_0_r. Qed.

(** the slot after [m < size] bytes is none of theirs *)
Lemma seg_insert buf a n m c : (n ≤ m)%nat → Z.of_nat m < size →
  ring_seg (<[Z.to_nat ((a + Z.of_nat m) mod size) := c]> buf) a n = ring_seg buf a n.
Proof.
  intros Hn Hm. apply list_fmap_ext. intros i k [-> Hi]%lookup_seq. cbn. rewrite list_lookup_total_insert_ne; [done|].
  intros He. pose proof (Z.mod_pos_bound (a + Z.of_nat m) size Hsize). pose proof (Z.mod_pos_bound (a + Z.of_nat i) size Hsize).
  assert (Hq : (a + Z.of_nat m) mod size = (a + Z.of_nat i) mod size) by lia.
  assert (Hz : (Z.of_nat m - Z.of_nat i) mod size = 0).
  { replace (Z.of_nat m - Z.of_nat i) with (a + Z.of_nat m - (a + Z.of_nat i)) by lia. by rewrite Zminus_mod, Hq, Z.sub_diag. }
  rewrite Z.mod_small in Hz by lia. lia.
Qed.

(** ** Adding and removing at the ends *)

Lemma ring_len_inc r w : ring_len r w + 1 < 2 ^ 32 → ring_len r (u32 (w + 1)) = ring_len r w + 1.
Proof.
  intros Hl. pose proof (ring_len_range r w). unfold ring_len, u32 in *. rewrite Zminus_mod_idemp_l.
  replace (w + 1 - r) with (w - r + 1) by lia. rewrite <- Zplus_mod_idemp_l. apply Z.mod_small. lia.
Qed.
Lemma ring_len_dec r w : 0 < ring_len r w → ring_len r (u32 (w - 1)) = ring_len r w - 1.
Proof.
  intros Hl. pose proof (ring_len_range r w). unfold ring_len, u32 in *. rewrite Zminus_mod_idemp_l.
  replace (w - 1 - r) with (w - r - 1) by lia. rewrite <- Zminus_mod_idemp_l. apply Z.mod_small. lia.
Qed.
Lemma ring_len_pop r w : 0 < ring_len r w → ring_len (u32 (r + 1)) w = ring_len r w - 1.
Proof.
  intros Hl. pose proof (ring_len_range r w). unfold ring_len, u32 in *. rewrite Zminus_mod_idemp_r.
  replace (w - (r + 1)) with (w - r - 1) by lia. rewrite <- Zminus_mod_idemp_l. apply Z.mod_small. lia.
Qed.
Lemma ring_end r w : (r + ring_len r w) mod size = w mod size.
Proof.
  unfold ring_len. rewrite <- (ring_index (r + _)), <- (ring_index w). unfold u32. rewrite Zplus_mod_idemp_r. do 2 f_equal. lia.
Qed.

Lemma ring_push buf r w c : length buf = Z.to_nat size → size < 2 ^ 32 → ring_len r w < size →
  ring_queue (<[Z.to_nat (w mod size) := c]> buf) r (u32 (w + 1)) = ring_queue buf r w ++ [c].
Proof.
  intros Hb H32 Hl. pose proof (ring_len_range r w). unfold ring_queue. rewrite ring_len_inc by lia.
  rewrite Z2Nat.inj_add, Nat.add_1_r, seg_snoc, Z2Nat.id by lia. rewrite ring_end.
  rewrite list_lookup_total_insert_eq by (pose proof (Z.mod_pos_bound w size Hsize); lia). f_equal.
  rewrite <- (ring_end r w). rewrite <- (Z2Nat.id (ring_len r w)) at 1 by lia. apply seg_insert; lia.
Qed.
(** a byte written after [e] is outside of an initial part of the queue *)
Lemma ring_insert buf r w e c : ring_len r w ≤ ring_len r e → ring_len r e < size →
  ring_queue (<[Z.to_nat (e mod size) := c]> buf) r w = ring_queue buf r w.
Proof.
  intros Hl Hs. pose proof (ring_len_range r w). pose proof (ring_len_range r e). unfold ring_queue.
  rewrite <- (ring_end r e). rewrite <- (Z2Nat.id (ring_len r e)) by lia. apply seg_insert; lia.
Qed.
Lemma ring_pop buf r w : 0 < ring_len r w →
  ring_queue buf r w = buf !!! Z.to_nat (r mod size) :: ring_queue buf (u32 (r + 1)) w.
Proof.
  intros Hl. unfold ring_queue. rewrite ring_len_pop, seg_u32 by done.
  replace (Z.to_nat (ring_len r w)) with (S (Z.to_nat (ring_len r w - 1))) by lia. apply seg_S.
Qed.
(** the last byte is taken back *)
Lemma ring_unpush buf r w : 0 < ring_len r w →
  ring_queue buf r w = ring_queue buf r (u32 (w - 1)) ++ [buf !!! Z.to_nat (u32 (w - 1) mod size)].
Proof.
  intros Hl. unfold ring_queue. rewrite ring_len_dec by done.
  replace (Z.to_nat (ring_len r w)) with (S (Z.to_nat (ring_len r w - 1))) by lia. rewrite seg_snoc. do 4 f_equal.
  rewrite Z2Nat.id by lia. rewrite <- ring_len_dec by done. apply ring_end.
Qed.
(** two adjacent queues *)
Lemma ring_app buf r w e : ring_len r w ≤ ring_len r e →
  ring_queue buf r e = ring_queue buf r w ++ ring_queue buf w e ∧ ring_len w e = ring_len r e - ring_len r w.
Proof.
  intros Hl. pose proof (ring_len_range r w). pose proof (ring_len_range r e).
  assert (He : ring_len w e = ring_len r e - ring_len r w).
  { unfold ring_len, u32 in *. replace (e - w) with (e - r - (w - r)) by lia. rewrite Zminus_mod. apply Z.mod_small. lia. }
  split; [|done]. unfold ring_queue. rewrite He.
  replace (Z.to_nat (ring_len r e)) with (Z.to_nat (ring_len r w) + Z.to_nat (ring_len r e - ring_len r w))%nat by lia.
  rewrite seg_app. f_equal. rewrite Z2Nat.id by lia. rewrite <- seg_u32, <- (seg_u32 buf w). f_equal.
  unfold ring_len, u32. rewrite Zplus_mod_idemp_r. f_equal. lia.
Qed.
End Ring.
