(* ===== verification/Mem.v ===== *)
(** * Physical memory and the C string routines

    Byte-addressed RAM as a finite map (an address that was never written
    reads 0), little-endian 64-bit and 32-bit accesses, and the functions of
    src/kernel/string.c as loops on that memory.  The theorems give each loop
    its closed form: what every byte of memory is afterwards. *)

From S2P Require Import Prelude.

(** ** Accesses *)

Definition ld8 (m : gmap Z byte) (a : Z) : byte := default x00 (m !! a).
Definition ldb (m : gmap Z byte) (a : Z) : Z := byte.unsigned (ld8 m a).

Definition ldbytes (n : nat) (m : gmap Z byte) (a : Z) : list byte :=
  map (λ i, ld8 m (a + Z.of_nat i)) (seq 0 n).

Fixpoint stbytes (a : Z) (bs : list byte) (m : gmap Z byte) : gmap Z byte :=
  match bs with
  | [] => m
  | b :: bs' => stbytes (a + 1) bs' (<[a := b]> m)
  end.

Definition ld64 (m : gmap Z byte) (a : Z) : Z := le_combine (ldbytes 8 m a).
Definition st64 (a v : Z) (m : gmap Z byte) : gmap Z byte := stbytes a (le_split 8 v) m.
Definition ld32 (m : gmap Z byte) (a : Z) : Z := le_combine (ldbytes 4 m a).
Definition st32 (a v : Z) (m : gmap Z byte) : gmap Z byte := stbytes a (le_split 4 v) m.

(** ** string.c *)

Fixpoint memset_loop (n : nat) (cdst : Z) (c : byte) (m : gmap Z byte) : gmap Z byte :=
  match n with
  | O => m
  | S n' => memset_loop n' (cdst + 1) c (<[cdst := c]> m)
  end.
Definition memset (dst c n : Z) (m : gmap Z byte) : gmap Z byte :=
  memset_loop (Z.to_nat n) dst (byte.of_Z c) m.

Fixpoint memcmp_loop (n : nat) (s1 s2 : Z) (m : gmap Z byte) : Z :=
  match n with
  | O => 0
  | S n' =>
      if negb (ldb m s1 =? ldb m s2) then ldb m s1 - ldb m s2
      else memcmp_loop n' (s1 + 1) (s2 + 1) m
  end.
Definition memcmp (v1 v2 n : Z) (m : gmap Z byte) : Z := memcmp_loop (Z.to_nat n) v1 v2 m.

Fixpoint copy_up (n : nat) (d s : Z) (m : gmap Z byte) : gmap Z byte :=
  match n with
  | O => m
  | S n' => copy_up n' (d + 1) (s + 1) (<[d := ld8 m s]> m)
  end.
Fixpoint copy_down (n : nat) (d s : Z) (m : gmap Z byte) : gmap Z byte :=
  match n with
  | O => m
  | S n' => copy_down n' (d - 1) (s - 1) (<[d - 1 := ld8 m (s - 1)]> m)
  end.
Definition memmove (dst src n : Z) (m : gmap Z byte) : gmap Z byte :=
  if (src <? dst) && (dst <? src + n)
  then copy_down (Z.to_nat n) (dst + n) (src + n) m
  else copy_up (Z.to_nat n) dst src m.

Definition memcpy (dst src n : Z) (m : gmap Z byte) : gmap Z byte := memmove dst src n m.

Fixpoint strncmp_loop (n : nat) (p q : Z) (m : gmap Z byte) : Z :=
  match n with
  | O => 0
  | S n' =>
      if negb (ldb m p =? 0) && (ldb m p =? ldb m q)
      then strncmp_loop n' (p + 1) (q + 1) m
      else ldb m p - ldb m q
  end.
Definition strncmp (p q n : Z) (m : gmap Z byte) : Z := strncmp_loop (Z.to_nat n) p q m.

Fixpoint strncpy_loop (n : nat) (s t : Z) (m : gmap Z byte) : gmap Z byte :=
  match n with
  | O => m
  | S n' =>
      let c := ld8 m t in
      let m' := <[s := c]> m in
      if byte.unsigned c =? 0
      then memset_loop n' (s + 1) x00 m'
      else strncpy_loop n' (s + 1) (t + 1) m'
  end.
Definition strncpy (s t n : Z) (m : gmap Z byte) : gmap Z byte := strncpy_loop (Z.to_nat n) s t m.

(** The copying loop of [safestrcpy] runs while [--n > 0]; after the NUL byte
    it has advanced [s] past it, so the final store lands one byte later. *)
Fixpoint safestrcpy_loop (n : nat) (s t : Z) (m : gmap Z byte) : gmap Z byte :=
  match n with
  | O => <[s := x00]> m
  | S n' =>
      let c := ld8 m t in
      let m' := <[s := c]> m in
      if byte.unsigned c =? 0
      then <[s + 1 := x00]> m'
      else safestrcpy_loop n' (s + 1) (t + 1) m'
  end.
Definition safestrcpy (s t n : Z) (m : gmap Z byte) : gmap Z byte :=
  if n <=? 0 then m else safestrcpy_loop (Z.to_nat (n - 1)) s t m.

Fixpoint strlen_loop (fuel : nat) (s n : Z) (m : gmap Z byte) : option Z :=
  match fuel with
  | O => None
  | S fuel' => if ldb m (s + n) =? 0 then Some n else strlen_loop fuel' s (n + 1) m
  end.
Definition strlen (fuel : nat) (s : Z) (m : gmap Z byte) : option Z := strlen_loop fuel s 0 m.

(** the bytes [l] followed by a NUL, at address [a] *)
Fixpoint cstr (m : gmap Z byte) (a : Z) (l : list byte) : Prop :=
  match l with
  | [] => ld8 m a = x00
  | c :: l' => ld8 m a = c ∧ c ≠ x00 ∧ cstr m (a + 1) l'
  end.

(** ** Lemmas on accesses *)

Lemma length_ldbytes n m a : length (ldbytes n m a) = n.
Proof. unfold ldbytes. by rewrite length_map, length_seq. Qed.

Lemma ldbytes_lookup n m a i :
  (i < n)%nat → ldbytes n m a !! i = Some (ld8 m (a + Z.of_nat i)).
Proof.
  intros Hi. unfold ldbytes. rewrite list_lookup_fmap, lookup_seq_lt by done. done.
Qed.

Lemma stbytes_lookup bs a m x :
  stbytes a bs m !! x =
    if decide (a ≤ x < a + Z.of_nat (length bs))
    then bs !! Z.to_nat (x - a) else m !! x.
Proof.
  revert a m. induction bs as [|b bs IH]; intros a m; simpl.
  { case_decide; [lia|done]. }
  rewrite IH. clear IH. destruct (decide (x = a)) as [->|Hne].
  - rewrite lookup_insert_eq, Z.sub_diag. repeat case_decide; try lia. done.
  - rewrite lookup_insert_ne by done. repeat case_decide; try lia; [|done].
    by replace (Z.to_nat (x - a)) with (S (Z.to_nat (x - (a + 1)))) by lia.
Qed.

Lemma stbytes_nil a m : stbytes a [] m = m.
Proof. done. Qed.

Lemma ld8_stbytes_in bs a m x i b :
  bs !! i = Some b → x = a + Z.of_nat i → ld8 (stbytes a bs m) x = b.
Proof.
  intros Hi ->. unfold ld8. rewrite stbytes_lookup.
  pose proof (lookup_lt_Some _ _ _ Hi). case_decide; [|lia].
  replace (Z.to_nat (a + Z.of_nat i - a)) with i by lia. by rewrite Hi.
Qed.

Lemma ld8_stbytes_out bs a m x :
  ¬ (a ≤ x < a + Z.of_nat (length bs)) → ld8 (stbytes a bs m) x = ld8 m x.
Proof. intros H. unfold ld8. rewrite stbytes_lookup. by rewrite decide_False. Qed.

Lemma ldbytes_ext n m m' a a' :
  (∀ i, (i < n)%nat → ld8 m (a + Z.of_nat i) = ld8 m' (a' + Z.of_nat i)) →
  ldbytes n m a = ldbytes n m' a'.
Proof.
  intros H. apply list_eq. intros i. destruct (decide (i < n)%nat) as [Hi|Hi].
  - rewrite !ldbytes_lookup by done. by rewrite H.
  - by rewrite !lookup_ge_None_2 by (rewrite length_ldbytes; lia).
Qed.

Lemma ldbytes_stbytes_same bs a m : ldbytes (length bs) (stbytes a bs m) a = bs.
Proof.
  apply list_eq. intros i. destruct (bs !! i) as [b|] eqn:Hi.
  - pose proof (lookup_lt_Some _ _ _ Hi). rewrite ldbytes_lookup by done.
    by rewrite (ld8_stbytes_in bs a m _ i b).
  - apply lookup_ge_None in Hi. apply lookup_ge_None_2. by rewrite length_ldbytes.
Qed.

Lemma ldbytes_stbytes_out n bs a b m :
  b + Z.of_nat n ≤ a ∨ a + Z.of_nat (length bs) ≤ b →
  ldbytes n (stbytes a bs m) b = ldbytes n m b.
Proof. intros H. apply ldbytes_ext. intros i Hi. apply ld8_stbytes_out. lia. Qed.

Lemma ld64_range m a : 0 ≤ ld64 m a < 2 ^ 64.
Proof. pose proof (le_combine_bound (ldbytes 8 m a)) as H. by rewrite length_ldbytes in H. Qed.

Lemma ld64_st64_same a v m : 0 ≤ v < 2 ^ 64 → ld64 (st64 a v m) a = v.
Proof.
  intros Hv. unfold ld64, st64.
  rewrite <- (length_le_split 8 v) at 1. rewrite ldbytes_stbytes_same, le_combine_split.
  by apply Z.mod_small.
Qed.

Lemma ld64_st64_out a b v m : b + 8 ≤ a ∨ a + 8 ≤ b → ld64 (st64 a v m) b = ld64 m b.
Proof.
  intros H. unfold ld64, st64. rewrite ldbytes_stbytes_out; [done|].
  rewrite length_le_split. lia.
Qed.

Lemma ld8_st64_out a x v m : ¬ (a ≤ x < a + 8) → ld8 (st64 a v m) x = ld8 m x.
Proof.
  intros H. unfold st64. apply ld8_stbytes_out. rewrite length_le_split. lia.
Qed.

Lemma ld64_ext m m' a a' :
  (∀ i, 0 ≤ i < 8 → ld8 m (a + i) = ld8 m' (a' + i)) → ld64 m a = ld64 m' a'.
Proof. intros H. unfold ld64. f_equal. apply ldbytes_ext. intros i Hi. apply H. lia. Qed.

(** ** Closed forms of the loops of string.c *)

Lemma memset_stbytes n d c m : memset_loop n d c m = stbytes d (replicate n c) m.
Proof. revert d m. induction n as [|n IH]; intros; simpl; [done|]. apply IH. Qed.

Lemma ld8_memset dst c n m x :
  ld8 (memset dst c n m) x =
    if decide (dst ≤ x < dst + n) then byte.of_Z c else ld8 m x.
Proof.
  unfold memset. rewrite memset_stbytes. case_decide.
  - apply (ld8_stbytes_in _ _ _ _ (Z.to_nat (x - dst))); [|lia].
    apply lookup_replicate. split; [done|lia].
  - apply ld8_stbytes_out. rewrite length_replicate. lia.
Qed.

Lemma ld64_memset_out dst c n m a :
  a + 8 ≤ dst ∨ dst + n ≤ a → ld64 (memset dst c n m) a = ld64 m a.
Proof.
  intros H. apply ld64_ext. intros i Hi. rewrite ld8_memset. rewrite decide_False by lia. done.
Qed.

Lemma ld64_memset_0 dst n m a : dst ≤ a → a + 8 ≤ dst + n → ld64 (memset dst 0 n m) a = 0.
Proof.
  intros H1 H2. unfold ld64.
  replace (ldbytes 8 (memset dst 0 n m) a) with (replicate 8 x00); [done|].
  apply list_eq. intros i. destruct (decide (i < 8)%nat).
  - rewrite ldbytes_lookup by done. rewrite ld8_memset, decide_True by lia.
    by apply lookup_replicate.
  - rewrite !lookup_ge_None_2; [done| |]; rewrite ?length_replicate, ?length_ldbytes; lia.
Qed.

Lemma copy_up_lookup n d s m x :
  d ≤ s ∨ s + Z.of_nat n ≤ d →
  copy_up n d s m !! x =
    if decide (d ≤ x < d + Z.of_nat n) then Some (ld8 m (s + (x - d))) else m !! x.
Proof.
  revert d s m. induction n as [|n IH]; intros d s m H; simpl.
  { rewrite decide_False by lia. done. }
  rewrite IH by lia. destruct (decide (x = d)) as [->|Hne].
  - rewrite (decide_False (P := d + 1 ≤ d < _)) by lia.
    rewrite decide_True by lia. rewrite lookup_insert_eq. do 2 f_equal. lia.
  - repeat case_decide; try lia.
    + unfold ld8. rewrite lookup_insert_ne by lia. do 3 f_equal. lia.
    + by rewrite lookup_insert_ne.
Qed.

Lemma copy_down_lookup n d s m x :
  s ≤ d ∨ d + Z.of_nat n ≤ s →
  copy_down n d s m !! x =
    if decide (d - Z.of_nat n ≤ x < d) then Some (ld8 m (s + (x - d))) else m !! x.
Proof.
  revert d s m. induction n as [|n IH]; intros d s m H; simpl.
  { rewrite decide_False by lia. done. }
  rewrite IH by lia. destruct (decide (x = d - 1)) as [->|Hne].
  - rewrite (decide_False (P := _ ≤ d - 1 < d - 1)) by lia.
    rewrite decide_True by lia. rewrite lookup_insert_eq. do 2 f_equal. lia.
  - repeat case_decide; try lia.
    + unfold ld8. rewrite lookup_insert_ne by lia. do 3 f_equal. lia.
    + by rewrite lookup_insert_ne.
Qed.

Lemma memmove_stbytes dst src n m :
  0 ≤ n → memmove dst src n m = stbytes dst (ldbytes (Z.to_nat n) m src) m.
Proof.
  intros Hn. apply map_eq. intros x. rewrite stbytes_lookup, length_ldbytes.
  assert (Hin : dst ≤ x < dst + n →
    ldbytes (Z.to_nat n) m src !! Z.to_nat (x - dst) = Some (ld8 m (src + (x - dst)))).
  { intros H. rewrite ldbytes_lookup by lia. do 3 f_equal. lia. }
  unfold memmove. case_if.
  - zbool. rewrite copy_down_lookup by lia. repeat case_decide; try lia; [|done].
    rewrite Hin by lia. do 2 f_equal. lia.
  - rewrite copy_up_lookup by (zbool; lia). repeat case_decide; try lia; [|done].
    by rewrite Hin by lia.
Qed.

Lemma ld8_memmove dst src n m x :
  0 ≤ n →
  ld8 (memmove dst src n m) x =
    if decide (dst ≤ x < dst + n) then ld8 m (src + (x - dst)) else ld8 m x.
Proof.
  intros Hn. rewrite memmove_stbytes by done. case_decide.
  - apply (ld8_stbytes_in _ _ _ _ (Z.to_nat (x - dst))); [|lia].
    rewrite ldbytes_lookup by lia. do 3 f_equal. lia.
  - apply ld8_stbytes_out. rewrite length_ldbytes. lia.
Qed.

Lemma unsigned_eq_0 c : (byte.unsigned c =? 0) = bool_decide (c = x00).
Proof.
  case_bool_decide as H; [by subst|]. apply Z.eqb_neq. intros Hc. apply H.
  by apply byte.unsigned_inj.
Qed.

Lemma cstr_ext m m' a l :
  (∀ x, a ≤ x ≤ a + Z.of_nat (length l) → ld8 m' x = ld8 m x) → cstr m a l → cstr m' a l.
Proof.
  revert a. induction l as [|c l IH]; simpl; intros a Hext H.
  - rewrite Hext by lia. done.
  - destruct H as (H1 & H2 & H3). rewrite Hext by lia. split_and!; [done..|].
    apply IH; [|done]. intros x Hx. apply Hext. lia.
Qed.

Lemma ld8_insert_ne m a b c : a ≠ b → ld8 (<[a := c]> m) b = ld8 m b.
Proof. intros H. unfold ld8. by rewrite lookup_insert_ne. Qed.
Lemma ld8_insert_eq m a c : ld8 (<[a := c]> m) a = c.
Proof. unfold ld8. by rewrite lookup_insert_eq. Qed.

Lemma cstr_insert m a l s c :
  ¬ (a ≤ s ≤ a + Z.of_nat (length l)) → cstr m a l → cstr (<[s := c]> m) a l.
Proof. intros Hs. apply cstr_ext. intros x Hx. apply ld8_insert_ne. lia. Qed.

Lemma strlen_cstr fuel s n m l :
  cstr m (s + n) l → (length l < fuel)%nat →
  strlen_loop fuel s n m = Some (n + Z.of_nat (length l)).
Proof.
  revert n fuel. induction l as [|c l IH]; intros n [|fuel] H Hf; simpl in *; try lia.
  - unfold ldb. rewrite H. simpl. f_equal. lia.
  - destruct H as (H1 & H2 & H3). unfold ldb. rewrite H1, unsigned_eq_0, bool_decide_false by done.
    rewrite IH; [f_equal; lia| |lia]. by replace (s + (n + 1)) with (s + n + 1) by lia.
Qed.

Lemma strncpy_stbytes n s t l m :
  cstr m t l → s + Z.of_nat n ≤ t ∨ t + Z.of_nat (length l) < s →
  strncpy_loop n s t m = stbytes s (take n (l ++ replicate n x00)) m.
Proof.
  revert s t l m. induction n as [|n IH]; intros s t l m H Hd; [done|].
  destruct l as [|c l]; simpl in H |- *.
  - rewrite H. simpl. rewrite memset_stbytes, take_ge; [done|]. by rewrite length_replicate.
  - destruct H as (-> & Hc & H). simpl in Hd. rewrite unsigned_eq_0, bool_decide_false by done.
    rewrite (IH _ _ l); [|apply cstr_insert; [lia|done]|lia].
    f_equal. rewrite !take_app. f_equal. change (x00 :: replicate n x00) with (replicate (S n) x00).
    rewrite !take_replicate. f_equal. lia.
Qed.

Lemma safestrcpy_cstr n s t l m :
  cstr m t l → s + Z.of_nat n < t ∨ t + Z.of_nat (length l) < s →
  cstr (safestrcpy_loop n s t m) s (take n l) ∧
  ∀ x, ¬ (s ≤ x ≤ s + Z.of_nat n) → ld8 (safestrcpy_loop n s t m) x = ld8 m x.
Proof.
  revert s t l m. induction n as [|n IH]; intros s t l m H Hd; simpl.
  { split; [apply ld8_insert_eq|]. intros x Hx. apply ld8_insert_ne. lia. }
  destruct l as [|c l]; simpl in H |- *.
  - rewrite H. simpl. split.
    + rewrite ld8_insert_ne by lia. apply ld8_insert_eq.
    + intros x Hx. rewrite !ld8_insert_ne by lia. done.
  - destruct H as (-> & Hc & H). simpl in Hd. rewrite unsigned_eq_0, bool_decide_false by done.
    destruct (IH (s + 1) (t + 1) l (<[s := c]> m)) as [IH1 IH2];
      [apply cstr_insert; [lia|done]|lia|]. split.
    + split_and!; [|done|done]. rewrite IH2 by lia. apply ld8_insert_eq.
    + intros x Hx. rewrite IH2 by lia. apply ld8_insert_ne. lia.
Qed.

Lemma strncmp_cstr n p q l1 l2 m :
  cstr m p l1 → cstr m q l2 → strncmp_loop n p q m = 0 ↔ take n l1 = take n l2.
Proof.
  revert p q l1 l2. induction n as [|n IH]; intros p q l1 l2 H1 H2; [done|].
  simpl. unfold ldb. rewrite unsigned_eq_0.
  destruct l1 as [|c1 l1]; simpl in H1.
  - rewrite H1. simpl. destruct l2 as [|c2 l2]; simpl in H2.
    + by rewrite H2.
    + destruct H2 as (-> & Hc & _). split; [|done]. intros E. destruct Hc.
      apply byte.unsigned_inj. simpl. lia.
  - destruct H1 as (-> & Hc1 & H1). rewrite bool_decide_false by done. simpl.
    destruct l2 as [|c2 l2]; simpl in H2.
    + rewrite H2. case_if; [zbool; by destruct Hc1; apply byte.unsigned_inj|].
      zbool. split; [|done]. simpl in *. lia.
    + destruct H2 as (-> & Hc2 & H2). simpl. case_if; zbool.
      * rewrite IH by done. apply byte.unsigned_inj in E. subst. split; [by intros ->|by intros [= ->]].
      * split; [lia|]. intros [= -> _]. done.
Qed.

Lemma memcmp_ldbytes n p q m : memcmp_loop n p q m = 0 ↔ ldbytes n m p = ldbytes n m q.
Proof.
  assert (Hs : ∀ k a, ldbytes (S k) m a = ld8 m a :: ldbytes k m (a + 1)).
  { intros k a. unfold ldbytes. simpl. rewrite Z.add_0_r. f_equal.
    rewrite <- seq_shift, map_map. apply map_ext. intros i. f_equal. lia. }
  revert p q. induction n as [|n IH]; intros p q; [done|].
  rewrite !Hs. simpl. unfold ldb. case_if; zbool.
  - split; [lia|]. intros [= Eb _]. by rewrite Eb in *.
  - rewrite IH. apply byte.unsigned_inj in E. rewrite E. split; [by intros ->|by intros [= ->]].
Qed.

Arguments memset : simpl never.
Arguments memmove : simpl never.
Arguments ld64 : simpl never.
Arguments st64 : simpl never.
Arguments ld32 : simpl never.
Arguments st32 : simpl never.
#[global] Opaque memset memmove.

(** ** Properties *)

(** [memmove] copies correctly whether or not the two ranges overlap: the
    destination holds the bytes that the source held before the call, and no
    byte outside the destination changes. *)
Theorem memmove_overlap dst src n m :
  0 ≤ n →
  ldbytes (Z.to_nat n) (memmove dst src n m) dst = ldbytes (Z.to_nat n) m src ∧
  ∀ x, ¬ (dst ≤ x < dst + n) → ld8 (memmove dst src n m) x = ld8 m x.
Proof.
  intros Hn. split.
  - apply ldbytes_ext. intros i Hi. rewrite ld8_memmove, decide_True by lia. f_equal. lia.
  - intros x Hx. by rewrite ld8_memmove, decide_False.
Qed.

Definition abcd : gmap Z byte := stbytes 100 [x61; x62; x63; x64] ∅.

(** the source overlaps the destination from below *)
Lemma memmove_overlap_witness :
  ldbytes 3 (memmove 101 100 3 abcd) 101 = [x61; x62; x63].
Proof. destruct (memmove_overlap 101 100 3 abcd) as [H _]; [lia|]. exact H. Defined.

(** [safestrcpy] always leaves a NUL-terminated string: for a positive [n]
    the destination holds the longest prefix of the source string that fits
    into [n] bytes with its terminator, no byte beyond those [n] changes, and
    for [n <= 0] nothing is written. *)
Theorem safestrcpy_terminates s t n l m :
  cstr m t l → s + n ≤ t ∨ t + Z.of_nat (length l) < s →
  (0 < n → cstr (safestrcpy s t n m) s (take (Z.to_nat (n - 1)) l)) ∧
  (∀ x, ¬ (s ≤ x < s + n) → ld8 (safestrcpy s t n m) x = ld8 m x).
Proof.
  intros Hl Hd. unfold safestrcpy. case_if; zbool; [split; [lia|done]|].
  destruct (safestrcpy_cstr (Z.to_nat (n - 1)) s t l m) as [H1 H2]; [done|lia|].
  split; [done|]. intros x Hx. apply H2. lia.
Qed.

Lemma safestrcpy_terminates_witness :
  cstr (safestrcpy 200 100 3 abcd) 200 [x61; x62] ∧ ld8 (safestrcpy 200 100 3 abcd) 203 = x00.
Proof.
  destruct (safestrcpy_terminates 200 100 3 [x61; x62; x63; x64] abcd) as [H1 H2].
  - by vm_compute.
  - simpl. lia.
  - split; [by apply H1|]. rewrite H2; [by vm_compute|lia].
Defined.
