(* ===== verification/Riscv.v ===== *)
(** * Constants and macros of riscv.h, memlayout.h and param.h, and the
    constants that the kernel shares with user programs

    The address arithmetic of the page tables, on 64-bit integers kept as [Z],
    with the facts that turn the bit operations into arithmetic. *)

From S2P Require Import Prelude Mem.

(** ** param.h *)
Definition NPROC : nat := 64.
Definition NTHREAD : nat := 8.
Definition NOFILE : nat := 16.
Definition MAX_BSEM : nat := 128.
Definition ROOTDEV : Z := 1.
Definition SIG_DFL : Z := 0.
Definition SIG_IGN : Z := 1.
Definition SIGKILL : Z := 9.
Definition SIGSTOP : Z := 17.
Definition SIGCONT : Z := 19.
Definition MAX_STACK_SIZE : Z := 4000.

(** ** fs.h, stat.h, fcntl.h, file.h *)
Definition DIRSIZ : Z := 14.
Definition T_DIR : Z := 1.
Definition T_FILE : Z := 2.
Definition T_DEVICE : Z := 3.
Definition O_RDONLY : Z := 0x000.
Definition O_WRONLY : Z := 0x001.
Definition O_RDWR : Z := 0x002.
Definition O_CREATE : Z := 0x200.
Definition O_TRUNC : Z := 0x400.
Definition CONSOLE : Z := 1.

(** ** syscall.h *)
Inductive sysno :=
| SYS_fork | SYS_exit | SYS_wait | SYS_pipe | SYS_read | SYS_kill | SYS_exec | SYS_fstat
| SYS_chdir | SYS_dup | SYS_getpid | SYS_sbrk | SYS_sleep | SYS_uptime | SYS_open | SYS_write
| SYS_mknod | SYS_unlink | SYS_link | SYS_mkdir | SYS_close | SYS_sigprocmask | SYS_sigaction | SYS_sigret
| SYS_kthread_create | SYS_kthread_id | SYS_kthread_exit | SYS_kthread_join | SYS_bsem_alloc | SYS_bsem_free | SYS_bsem_down | SYS_bsem_up.
Definition sysnum (n : sysno) : Z :=
  match n with
  | SYS_fork => 1 | SYS_exit => 2 | SYS_wait => 3 | SYS_pipe => 4 | SYS_read => 5 | SYS_kill => 6
  | SYS_exec => 7 | SYS_fstat => 8 | SYS_chdir => 9 | SYS_dup => 10 | SYS_getpid => 11 | SYS_sbrk => 12
  | SYS_sleep => 13 | SYS_uptime => 14 | SYS_open => 15 | SYS_write => 16 | SYS_mknod => 17 | SYS_unlink => 18
  | SYS_link => 19 | SYS_mkdir => 20 | SYS_close => 21 | SYS_sigprocmask => 22 | SYS_sigaction => 23 | SYS_sigret => 24
  | SYS_kthread_create => 25 | SYS_kthread_id => 26 | SYS_kthread_exit => 27 | SYS_kthread_join => 28 | SYS_bsem_alloc => 29 | SYS_bsem_free => 30
  | SYS_bsem_down => 31 | SYS_bsem_up => 32
  end.

(** ** riscv.h *)
Definition PGSIZE : Z := 4096.
Definition PGSHIFT : Z := 12.
Definition PGROUNDUP (sz : Z) : Z := Z.land (u64 (sz + PGSIZE - 1)) (Z.lnot (PGSIZE - 1)).
Definition PGROUNDDOWN (a : Z) : Z := Z.land a (Z.lnot (PGSIZE - 1)).

Definition PTE_V : Z := Z.shiftl 1 0.
Definition PTE_R : Z := Z.shiftl 1 1.
Definition PTE_W : Z := Z.shiftl 1 2.
Definition PTE_X : Z := Z.shiftl 1 3.
Definition PTE_U : Z := Z.shiftl 1 4.

Definition PA2PTE (pa : Z) : Z := u64 (Z.shiftl (Z.shiftr pa 12) 10).
Definition PTE2PA (pte : Z) : Z := u64 (Z.shiftl (Z.shiftr pte 10) 12).
Definition PTE_FLAGS (pte : Z) : Z := Z.land pte 0x3FF.

Definition PXMASK : Z := 0x1FF.
Definition PXSHIFT (level : nat) : Z := PGSHIFT + 9 * Z.of_nat level.
Definition PX (level : nat) (va : Z) : Z := Z.land (Z.shiftr va (PXSHIFT level)) PXMASK.

Definition MAXVA : Z := Z.shiftl 1 (9 + 9 + 9 + 12 - 1).

(** ** memlayout.h *)
Definition UART0 : Z := 0x10000000.
Definition VIRTIO0 : Z := 0x10001000.
Definition PLIC : Z := 0x0c000000.
Definition KERNBASE : Z := 0x80000000.
Definition PHYSTOP : Z := KERNBASE + 128 * 1024 * 1024.
Definition TRAMPOLINE : Z := MAXVA - PGSIZE.
Definition KSTACK (p : Z) : Z := TRAMPOLINE - (p + 1) * 2 * PGSIZE.
Definition TRAPFRAME : Z := TRAMPOLINE - PGSIZE.

(** Addresses that the linker script and the assembly files define. *)
Class KernelSymbols := {
  sym_end : Z;            (* kernel.ld: first address after the kernel *)
  sym_etext : Z;          (* kernel.ld: end of the kernel text *)
  sym_trampoline : Z;     (* trampoline.S *)
  sym_forkret : Z;        (* proc.c: forkret, as a code address *)
  sym_startCalcSize : Z;  (* swtch.S: the injected call of sigret *)
  sym_endFunc : Z         (* swtch.S: its end *)
}.

(** ** Address arithmetic *)

Lemma PGROUNDDOWN_eq a : PGROUNDDOWN a = a - a mod PGSIZE.
Proof.
  unfold PGROUNDDOWN, PGSIZE. replace (Z.lnot (4096 - 1)) with (Z.lnot (Z.ones 12)) by done.
  rewrite <- Z.ldiff_land, Z.ldiff_ones_r by lia.
  rewrite Z.shiftl_mul_pow2, Z.shiftr_div_pow2 by lia. change (2 ^ 12) with 4096. dlia.
Qed.

Lemma PGROUNDUP_eq sz :
  0 ≤ sz → sz + PGSIZE ≤ 2 ^ 64 → PGROUNDUP sz = (sz + PGSIZE - 1) / PGSIZE * PGSIZE.
Proof.
  intros H0 H1. unfold PGROUNDUP. rewrite u64_small by (unfold PGSIZE in *; lia).
  fold (PGROUNDDOWN (sz + PGSIZE - 1)). rewrite PGROUNDDOWN_eq. unfold PGSIZE in *. dlia.
Qed.

Lemma PGROUNDDOWN_aligned a : PGROUNDDOWN a mod PGSIZE = 0.
Proof. rewrite PGROUNDDOWN_eq. unfold PGSIZE. dlia. Qed.

Lemma PGROUNDDOWN_page a : 0 ≤ a → PGROUNDDOWN a / PGSIZE = a / PGSIZE.
Proof. intros Ha. rewrite PGROUNDDOWN_eq. unfold PGSIZE. dlia. Qed.

Lemma same_page a v : a mod PGSIZE = 0 → v / PGSIZE = a / PGSIZE ↔ a ≤ v < a + PGSIZE.
Proof. unfold PGSIZE. dlia. Qed.

Lemma page_next a : a mod PGSIZE = 0 → (a + PGSIZE) mod PGSIZE = 0.
Proof. unfold PGSIZE. dlia. Qed.

Lemma PGROUNDDOWN_id a : a mod PGSIZE = 0 → PGROUNDDOWN a = a.
Proof. intros H. rewrite PGROUNDDOWN_eq, H. lia. Qed.

Lemma PGROUNDUP_aligned sz : PGROUNDUP sz mod PGSIZE = 0.
Proof. unfold PGROUNDUP. apply PGROUNDDOWN_aligned. Qed.

Lemma PGROUNDUP_id a :
  0 ≤ a → a + PGSIZE ≤ 2 ^ 64 → a mod PGSIZE = 0 → PGROUNDUP a = a.
Proof. intros H0 H1 H2. rewrite PGROUNDUP_eq by done. unfold PGSIZE in *. dlia. Qed.

Lemma PX_eq level va : PX level va = va / 2 ^ PXSHIFT level mod 512.
Proof.
  unfold PX, PXMASK. change 0x1FF with (Z.ones 9).
  assert (0 ≤ PXSHIFT level) by (unfold PXSHIFT, PGSHIFT; lia).
  rewrite Z.land_ones, Z.shiftr_div_pow2 by lia. done.
Qed.

Lemma PX_range level va : 0 ≤ PX level va < 512.
Proof. rewrite PX_eq. by apply Z.mod_pos_bound. Qed.

Lemma PX2_low va : 0 ≤ va < MAXVA → PX 2 va < 256.
Proof.
  intros Hva. rewrite PX_eq. unfold PXSHIFT, PGSHIFT. change (2 ^ (12 + 9 * Z.of_nat 2)) with 1073741824.
  change MAXVA with 274877906944 in Hva. dlia.
Qed.

(** a page number as its three 9-bit indices *)
Lemma PX_split va :
  0 ≤ va < MAXVA →
  va / PGSIZE = PX 2 va * 2 ^ 18 + PX 1 va * 2 ^ 9 + PX 0 va.
Proof.
  intros H. rewrite !PX_eq. unfold MAXVA in H. change (Z.shiftl 1 _) with (2 ^ 38) in H.
  unfold PXSHIFT, PGSHIFT, PGSIZE.
  change (12 + 9 * Z.of_nat 2) with 30. change (12 + 9 * Z.of_nat 1) with 21.
  change (12 + 9 * Z.of_nat 0) with 12. dlia.
Qed.

(** the address with given indices *)
Definition va_of (i j k : Z) : Z := i * 2 ^ 30 + j * 2 ^ 21 + k * 2 ^ 12.

Lemma PX_va_of i j k :
  0 ≤ i < 256 → 0 ≤ j < 512 → 0 ≤ k < 512 →
  0 ≤ va_of i j k < MAXVA ∧ PX 2 (va_of i j k) = i ∧ PX 1 (va_of i j k) = j ∧ PX 0 (va_of i j k) = k.
Proof.
  intros Hi Hj Hk. rewrite !PX_eq. unfold va_of, PXSHIFT, PGSHIFT.
  change MAXVA with 274877906944.
  change (12 + 9 * Z.of_nat 2) with 30. change (12 + 9 * Z.of_nat 1) with 21.
  change (12 + 9 * Z.of_nat 0) with 12. dlia.
Qed.

Lemma PX_inj va va' :
  0 ≤ va < MAXVA → 0 ≤ va' < MAXVA →
  PX 2 va = PX 2 va' → PX 1 va = PX 1 va' → PX 0 va = PX 0 va' →
  va / PGSIZE = va' / PGSIZE.
Proof. intros. rewrite !PX_split by done. congruence. Qed.

(** page-aligned 56-bit physical addresses survive the trip through a PTE *)
Lemma PTE2PA_PA2PTE pa flags :
  0 ≤ pa < 2 ^ 56 → pa mod PGSIZE = 0 → 0 ≤ flags < 2 ^ 10 →
  PTE2PA (Z.lor (PA2PTE pa) flags) = pa.
Proof.
  intros H0 H1 H2. unfold PTE2PA, PA2PTE, PGSIZE in *.
  change (2 ^ 56) with 72057594037927936 in H0. change (2 ^ 10) with 1024 in H2.
  assert (H64 : 2 ^ 64 = 18446744073709551616) by done.
  rewrite (Z.shiftl_mul_pow2 _ 10), (Z.shiftr_div_pow2 pa) by lia.
  change (2 ^ 12) with 4096. change (2 ^ 10) with 1024.
  rewrite (u64_small (pa / 4096 * 1024)) by (rewrite H64; dlia).
  rewrite Z.shiftr_lor, !Z.shiftr_div_pow2 by lia. change (2 ^ 10) with 1024.
  rewrite (Z.div_small flags), Z.lor_0_r, Z.div_mul by lia.
  rewrite Z.shiftl_mul_pow2 by lia. change (2 ^ 12) with 4096.
  rewrite u64_small by (rewrite H64; dlia). dlia.
Qed.

Lemma PA2PTE_land pa flags mask :
  0 ≤ mask < 2 ^ 10 → Z.land (Z.lor (PA2PTE pa) flags) mask = Z.land flags mask.
Proof.
  intros Hm. rewrite Z.land_lor_distr_l.
  replace (Z.land (PA2PTE pa) mask) with 0; [done|]. symmetry.
  apply Z.bits_inj_0. intros n. destruct (Z.lt_ge_cases n 0); [by apply Z.testbit_neg_r|].
  rewrite Z.land_spec. destruct (Z.lt_ge_cases n 10).
  - unfold PA2PTE, u64. rewrite Z.mod_pow2_bits_low by lia.
    rewrite Z.shiftl_spec_low by lia. done.
  - rewrite <- (Z.mod_small mask (2 ^ 10)) by done. rewrite Z.mod_pow2_bits_high by lia.
    by rewrite andb_false_r.
Qed.

Lemma lor_range a b n : 0 ≤ n → 0 ≤ a < 2 ^ n → 0 ≤ b < 2 ^ n → 0 ≤ Z.lor a b < 2 ^ n.
Proof.
  intros Hn Ha Hb. split; [apply Z.lor_nonneg; lia|].
  destruct (Z.eq_dec (Z.lor a b) 0) as [->|Hne]; [by apply Z.pow_pos_nonneg|].
  assert (0 ≤ Z.lor a b) by (apply Z.lor_nonneg; lia).
  apply Z.log2_lt_pow2; [lia|]. rewrite Z.log2_lor by lia.
  destruct (Z.eq_dec a 0) as [->|]; destruct (Z.eq_dec b 0) as [->|].
  - by destruct Hne.
  - simpl. rewrite Z.max_r by apply Z.log2_nonneg. apply Z.log2_lt_pow2; lia.
  - simpl. rewrite Z.max_l by apply Z.log2_nonneg. apply Z.log2_lt_pow2; lia.
  - apply Z.max_lub_lt; apply Z.log2_lt_pow2; lia.
Qed.
