(* ===== verification/Kalloc.v ===== *)
(** * The physical page allocator (src/kernel/kalloc.c)

    The free pages are a list threaded through the pages themselves: the first
    eight bytes of a free page hold the address of the next one, exactly as
    [struct run] does.  The theorems relate the pointer structure to the list
    of pages it represents. *)

From S2P Require Import Prelude Mem Riscv.

(** RAM and [kmem.freelist].  [kmem.lock] makes each operation below atomic. *)
Record machine := mkMachine { ram : gmap Z byte; freelist : Z }.

#[export] Instance set_ram : Setter ram := λ f s, mkMachine (f (ram s)) (freelist s).
#[export] Instance set_freelist : Setter freelist := λ f s, mkMachine (ram s) (f (freelist s)).

Section Kalloc.
Context `{KernelSymbols} {E : Type}.

Definition kfree (pa : Z) : M E machine unit := λ s,
  if negb (pa mod PGSIZE =? 0) || (pa <? sym_end) || (PHYSTOP <=? pa)
  then Panic "kfree"
  else
    let m := memset pa 1 PGSIZE (ram s) in
    Ok tt (mkMachine (st64 pa (freelist s) m) pa).

Definition kalloc : M E machine Z := λ s,
  let r := freelist s in
  if r =? 0 then Ok r s
  else Ok r (mkMachine (memset r 5 PGSIZE (ram s)) (ld64 (ram s) r)).

(** [for(; p + PGSIZE <= pa_end; p += PGSIZE) kfree(p)] *)
Fixpoint freerange_loop (fuel : nat) (p pa_end : Z) : M E machine unit :=
  if p + PGSIZE <=? pa_end then
    match fuel with
    | O => out_of_fuel
    | S fuel' => kfree p ;;; freerange_loop fuel' (p + PGSIZE) pa_end
    end
  else ret tt.
Definition freerange (pa_start pa_end : Z) : M E machine unit :=
  freerange_loop (Z.to_nat ((pa_end - PGROUNDUP pa_start) / PGSIZE)) (PGROUNDUP pa_start) pa_end.

Definition kinit : M E machine unit := freerange sym_end PHYSTOP.

(** ** The list of free pages *)

Definition valid_page (pa : Z) : Prop :=
  pa mod PGSIZE = 0 ∧ sym_end ≤ pa ∧ 0 < pa < PHYSTOP.

Fixpoint free_pages (m : gmap Z byte) (head : Z) (pages : list Z) : Prop :=
  match pages with
  | [] => head = 0
  | p :: ps => head = p ∧ valid_page p ∧ free_pages m (ld64 m p) ps
  end.

(** the pages [pages] are free, distinct, and in allocation order *)
Definition kmem_ok (s : machine) (pages : list Z) : Prop :=
  free_pages (ram s) (freelist s) pages ∧ NoDup pages.

Lemma valid_pages_disjoint p q :
  valid_page p → valid_page q → p ≠ q → p + PGSIZE ≤ q ∨ q + PGSIZE ≤ p.
Proof. unfold valid_page, PGSIZE. dlia. Qed.

Lemma free_pages_valid m h ps : free_pages m h ps → Forall valid_page ps.
Proof.
  revert h. induction ps as [|p ps IH]; intros h Hf; constructor; simpl in Hf.
  - tauto.
  - eapply IH. apply Hf.
Qed.

Lemma kmem_valid s free p : kmem_ok s free → p ∈ free → valid_page p.
Proof. intros [Hf _]. apply free_pages_valid in Hf. rewrite Forall_forall in Hf. apply Hf. Qed.

Lemma free_pages_ext m m' h ps :
  (∀ p x, p ∈ ps → p ≤ x < p + PGSIZE → ld8 m' x = ld8 m x) →
  free_pages m h ps → free_pages m' h ps.
Proof.
  revert h. induction ps as [|p ps IH]; intros h Hext Hf; simpl in *; [done|].
  destruct Hf as (-> & Hv & Hf). split_and!; [done..|].
  replace (ld64 m' p) with (ld64 m p).
  - apply IH; [|done]. intros q x Hq Hx. apply (Hext q x); [set_solver|done].
  - apply ld64_ext. intros i Hi. symmetry. apply (Hext p); [set_solver|unfold PGSIZE; lia].
Qed.

Lemma free_pages_head m h ps : free_pages m h ps → h = 0 ↔ ps = [].
Proof.
  destruct ps as [|p ps]; simpl; [by intros ->|].
  intros (-> & Hv & _). unfold valid_page in Hv. split; [lia|done].
Qed.

Lemma page_st64_kfree (s : machine) pa :
  ld64 (st64 pa (freelist s) (memset pa 1 PGSIZE (ram s))) pa = u64 (freelist s).
Proof.
  unfold ld64, st64. rewrite <- (length_le_split 8 (freelist s)) at 1.
  rewrite ldbytes_stbytes_same, le_combine_split. done.
Qed.

Lemma kfree_ram_out (s : machine) pa x :
  ¬ (pa ≤ x < pa + PGSIZE) →
  ld8 (st64 pa (freelist s) (memset pa 1 PGSIZE (ram s))) x = ld8 (ram s) x.
Proof.
  intros Hx. rewrite ld8_st64_out by (unfold PGSIZE in Hx; lia).
  rewrite ld8_memset, decide_False by lia. done.
Qed.

Lemma kfree_ok s pa pages :
  kmem_ok s pages → valid_page pa → pa ∉ pages →
  ∃ s', kfree pa s = Ok tt s' ∧ kmem_ok s' (pa :: pages) ∧
    ∀ x, ¬ (pa ≤ x < pa + PGSIZE) → ld8 (ram s') x = ld8 (ram s) x.
Proof.
  intros [Hf Hnd] Hv Hn. unfold kfree.
  assert ((negb (pa mod PGSIZE =? 0) || (pa <? sym_end) || (PHYSTOP <=? pa)) = false) as ->.
  { unfold valid_page in Hv. repeat (apply orb_false_iff; split).
    - apply negb_false_iff, Z.eqb_eq. tauto.
    - apply Z.ltb_ge. lia.
    - apply Z.leb_gt. lia. }
  eexists. split; [done|]. split; [|intros; simpl; by apply kfree_ram_out].
  split; [|by constructor]. simpl. split_and!; [done..|].
  rewrite page_st64_kfree.
  assert (u64 (freelist s) = freelist s) as ->.
  { apply u64_small. destruct pages as [|q qs]; simpl in Hf.
    - rewrite Hf. lia.
    - destruct Hf as (-> & Hq & _). unfold valid_page, PHYSTOP, KERNBASE in Hq. lia. }
  apply (free_pages_ext (ram s)); [|done]. intros q x Hq Hx. apply kfree_ram_out.
  assert (valid_page q).
  { apply free_pages_valid in Hf. rewrite Forall_forall in Hf. by apply Hf. }
  destruct (valid_pages_disjoint pa q); [done..|set_solver|lia|lia].
Qed.

Lemma kalloc_ok s pages :
  kmem_ok s pages →
  match pages with
  | [] => kalloc s = Ok 0 s
  | p :: ps =>
      ∃ s', kalloc s = Ok p s' ∧ kmem_ok s' ps ∧ valid_page p ∧ p ∉ ps ∧
        (∀ x, ¬ (p ≤ x < p + PGSIZE) → ld8 (ram s') x = ld8 (ram s) x)
  end.
Proof.
  intros [Hf Hnd]. unfold kalloc. destruct pages as [|p ps]; simpl in Hf.
  { by rewrite Hf. }
  destruct Hf as (-> & Hv & Hf). apply NoDup_cons in Hnd as [Hp Hnd].
  assert ((p =? 0) = false) as -> by (unfold valid_page in Hv; apply Z.eqb_neq; lia).
  eexists. split; [done|]. simpl. split_and!; [|done|done|].
  - split; [|done]. simpl. apply (free_pages_ext (ram s)); [|done].
    intros q x Hq Hx. rewrite ld8_memset, decide_False; [done|].
    assert (valid_page q).
    { apply free_pages_valid in Hf. rewrite Forall_forall in Hf. by apply Hf. }
    destruct (valid_pages_disjoint p q); [done..|set_solver|lia|lia].
  - intros x Hx. rewrite ld8_memset, decide_False; done.
Qed.

(** ** Building the initial free list *)

(** [n] consecutive pages from [p] on *)
Fixpoint page_range (p : Z) (n : nat) : list Z :=
  match n with
  | O => []
  | S n' => p :: page_range (p + PGSIZE) n'
  end.

Lemma page_range_bound n p q :
  q ∈ page_range p n → p ≤ q ∧ q + PGSIZE ≤ p + Z.of_nat n * PGSIZE.
Proof.
  revert p. induction n as [|n IH]; simpl; intros p Hq; [set_solver|].
  apply elem_of_cons in Hq as [->|Hq].
  - unfold PGSIZE. lia.
  - apply IH in Hq. unfold PGSIZE in *. lia.
Qed.

Lemma freerange_loop_ok n p pa_end s pages :
  kmem_ok s pages → p mod PGSIZE = 0 → sym_end ≤ p → 0 < p → pa_end ≤ PHYSTOP →
  (pa_end - p) / PGSIZE = Z.of_nat n → (∀ q, q ∈ page_range p n → q ∉ pages) →
  ∃ s', freerange_loop n p pa_end s = Ok tt s' ∧
    kmem_ok s' (rev (page_range p n) ++ pages).
Proof.
  revert p s pages. induction n as [|n IH]; intros p s pages Hk Hal Hlo Hp Hhi Hn Hd; simpl.
  - assert ((p + PGSIZE <=? pa_end) = false) as ->.
    { apply Z.leb_gt. unfold PGSIZE in *. dlia. }
    eexists. done.
  - assert (p + PGSIZE ≤ pa_end) as Hle by (unfold PGSIZE in *; dlia).
    rewrite (proj2 (Z.leb_le _ _) Hle).
    destruct (kfree_ok s p pages) as (s1 & Hs1 & Hk1 & _); [done|..].
    { unfold valid_page. unfold PGSIZE in *. lia. }
    { apply Hd. set_solver. }
    rewrite (bind_Ok _ _ _ _ _ Hs1).
    destruct (IH (p + PGSIZE) s1 (p :: pages)) as (s2 & Hs2 & Hk2).
    + done.
    + unfold PGSIZE in *. dlia.
    + unfold PGSIZE in *. lia.
    + unfold PGSIZE in *. lia.
    + done.
    + unfold PGSIZE in *. dlia.
    + intros q Hq. pose proof (page_range_bound _ _ _ Hq).
      apply not_elem_of_cons. split; [unfold PGSIZE in *; lia|].
      apply Hd. simpl. set_solver.
    + exists s2. split; [done|]. by rewrite <- app_assoc.
Qed.

(** ** Pages in the hands of the rest of the kernel

    [own] is the list of pages that were allocated and not yet freed.  Between
    allocator calls their owners may write anything into them. *)
Inductive kstep : machine * list Z → machine * list Z → Prop :=
| step_alloc s own p s' :
    kalloc s = Ok p s' → p ≠ 0 → kstep (s, own) (s', p :: own)
| step_nomem s own s' :
    kalloc s = Ok 0 s' → kstep (s, own) (s', own)
| step_free s own1 pa own2 s' :
    kfree pa s = Ok tt s' → kstep (s, own1 ++ pa :: own2) (s', own1 ++ own2)
| step_write s own pa m' :
    pa ∈ own → (∀ x, ¬ (pa ≤ x < pa + PGSIZE) → ld8 m' x = ld8 (ram s) x) →
    kstep (s, own) (mkMachine m' (freelist s), own).

(** every page is on the free list or owned, never both, never twice *)
Definition pages_ok (total : list Z) (c : machine * list Z) : Prop :=
  ∃ free, kmem_ok c.1 free ∧ free ++ c.2 ≡ₚ total ∧ NoDup (free ++ c.2) ∧
    Forall valid_page c.2.

Lemma kstep_pages_ok total c c' : kstep c c' → pages_ok total c → pages_ok total c'.
Proof.
  intros Hs (free & Hk & Hperm & Hnd & Hv). destruct Hs; simpl in *.
  - pose proof (kalloc_ok s free Hk) as Ha. destruct free as [|q qs]; [congruence|].
    destruct Ha as (s1 & Hs1 & Hk1 & Hq & _). rewrite Hs1 in H0. injection H0 as <- <-.
    exists qs. split_and!; simpl; [done| | |by constructor].
    + by rewrite <- Permutation_middle.
    + by rewrite <- Permutation_middle.
  - pose proof (kalloc_ok s free Hk) as Ha. destruct free as [|q qs].
    + rewrite Ha in H0. injection H0 as <-. by exists [].
    + destruct Ha as (s1 & Hs1 & Hk1 & Hq & _). rewrite Hs1 in H0. injection H0 as -> _.
      unfold valid_page in Hq. lia.
  - apply Forall_app in Hv as [Hv1 Hv2]. inversion Hv2 as [|? ? Hpa Hv3]; subst.
    destruct (kfree_ok s pa free) as (s1 & Hs1 & Hk1 & _); [done..| |].
    { intros Hin. apply NoDup_app in Hnd as (_ & Hnd & _). apply (Hnd pa Hin). set_solver. }
    rewrite Hs1 in H0. injection H0 as <-.
    assert ((pa :: free) ++ own1 ++ own2 ≡ₚ free ++ own1 ++ pa :: own2) as Hp.
    { rewrite <- (Permutation_middle own1). by rewrite <- Permutation_middle. }
    exists (pa :: free). split_and!; simpl; [done| | |by apply Forall_app].
    + by rewrite <- Hperm, <- Hp.
    + by rewrite <- Hp in Hnd.
  - destruct Hk as [Hf Hndf]. exists free. split_and!; [|done..]. split; [|done]. simpl.
    apply (free_pages_ext (ram s)); [|done]. intros q x Hq Hx. apply H1.
    assert (valid_page pa) by (rewrite Forall_forall in Hv; by apply Hv).
    assert (valid_page q).
    { apply free_pages_valid in Hf. rewrite Forall_forall in Hf. by apply Hf. }
    assert (pa ≠ q) by (intros ->; apply NoDup_app in Hnd as (_ & Hnd & _); by apply (Hnd q)).
    destruct (valid_pages_disjoint pa q); [done..|lia|lia].
Qed.

(** the pages between the end of the kernel and the end of RAM *)
Definition all_pages : list Z :=
  page_range (PGROUNDUP sym_end) (Z.to_nat ((PHYSTOP - PGROUNDUP sym_end) / PGSIZE)).

Lemma kinit_ok s0 :
  0 < sym_end ≤ PHYSTOP → freelist s0 = 0 →
  ∃ s1, kinit s0 = Ok tt s1 ∧ kmem_ok s1 (rev all_pages).
Proof.
  intros He Hf. unfold kinit, freerange, all_pages.
  assert (Hr : PGROUNDUP sym_end = (sym_end + PGSIZE - 1) / PGSIZE * PGSIZE).
  { apply PGROUNDUP_eq; unfold PHYSTOP, KERNBASE, PGSIZE in *; lia. }
  assert (PHYSTOP mod PGSIZE = 0) as Hpm by done.
  destruct (freerange_loop_ok (Z.to_nat ((PHYSTOP - PGROUNDUP sym_end) / PGSIZE))
    (PGROUNDUP sym_end) PHYSTOP s0 []) as (s1 & Hs1 & Hk).
  - split; [done|constructor].
  - rewrite Hr. unfold PGSIZE. dlia.
  - rewrite Hr. unfold PGSIZE. dlia.
  - rewrite Hr. unfold PGSIZE. dlia.
  - lia.
  - rewrite Hr. unfold PGSIZE in *. dlia.
  - set_solver.
  - exists s1. split; [done|]. by rewrite app_nil_r in Hk.
Qed.

Lemma pages_ok_run total c c' : rtc kstep c c' → pages_ok total c → pages_ok total c'.
Proof. induction 1; eauto using kstep_pages_ok. Qed.

(** C5: The page allocator never loses, duplicates or double-allocates a page.
    After [kinit], in every state that any sequence of allocations, frees of
    allocated pages and arbitrary writes into allocated pages leads to: the
    allocated pages are distinct pages of the range that [kinit] freed;
    [kfree] of an allocated page does not panic; and [kalloc] hands out a page
    that nobody has, and returns 0 exactly when every page is allocated. *)
Theorem kalloc_conservation s0 :
  0 < sym_end ≤ PHYSTOP → freelist s0 = 0 →
  ∃ s1, kinit s0 = Ok tt s1 ∧
    ∀ s own, rtc kstep (s1, []) (s, own) →
      NoDup own ∧ own ⊆ all_pages ∧
      (∀ pa, pa ∈ own → ∃ s', kfree pa s = Ok tt s') ∧
      ∃ p s', kalloc s = Ok p s' ∧ (p = 0 ↔ own ≡ₚ all_pages) ∧
        (p ≠ 0 → p ∈ all_pages ∧ p ∉ own).
Proof.
  intros He Hf. destruct (kinit_ok s0 He Hf) as (s1 & Hs1 & Hk1).
  exists s1. split; [done|]. intros s own Hrun.
  apply (pages_ok_run all_pages) in Hrun as (free & Hk & Hperm & Hnd & Hv); simpl in *.
  2: { exists (rev all_pages). simpl. rewrite app_nil_r. split_and!; [done| |apply Hk1|done].
       symmetry. apply Permutation_rev. }
  apply NoDup_app in Hnd as (Hndf & Hdisj & Hndo). split_and!; [done| | |].
  - intros p Hp. rewrite <- Hperm. set_solver.
  - intros pa Hpa. rewrite Forall_forall in Hv.
    destruct (kfree_ok s pa free) as (s' & Hs' & _); [done|by apply Hv|set_solver|eauto].
  - pose proof (kalloc_ok s free Hk) as Ha. destruct free as [|p ps]; simpl in *.
    + exists 0, s. split_and!; done.
    + destruct Ha as (s' & Hs' & _ & Hvp & _). exists p, s'. split_and!; [done| |].
      * unfold valid_page in Hvp. split; [lia|]. intros Ho. rewrite <- Ho in Hperm.
        apply Permutation_length in Hperm. simpl in Hperm. rewrite length_app in Hperm. lia.
      * intros _. split; [rewrite <- Hperm; set_solver|set_solver].
Qed.
End Kalloc.

(** the symbols of an image whose kernel ends at 0x80025d40 *)
Definition image_symbols : KernelSymbols := {|
  sym_end := 0x80025d40; sym_etext := 0x80009000; sym_trampoline := 0x80008000;
  sym_forkret := 0x80001c2a; sym_startCalcSize := 0x80002f00; sym_endFunc := 0x80002f08
|}.

Lemma kalloc_conservation_witness :
  ∃ s1, @kinit image_symbols Empty_set (mkMachine ∅ 0) = Ok tt s1 ∧
    ∃ p s', @kalloc Empty_set s1 = Ok p s' ∧ (p = 0 ↔ [] ≡ₚ @all_pages image_symbols).
Proof.
  destruct (@kalloc_conservation image_symbols Empty_set (mkMachine ∅ 0)) as (s1 & H1 & H2).
  - unfold sym_end, image_symbols, PHYSTOP, KERNBASE. lia.
  - reflexivity.
  - exists s1. split; [exact H1|]. destruct (H2 s1 [] (rtc_refl _ _)) as (_ & _ & _ & p & s' & H3 & H4 & _).
    exists p, s'. split; [exact H3|exact H4].
Defined.
