(* ===== verification/Vm.v ===== *)
(** * Virtual memory (src/kernel/vm.c)

    Sv39 page tables as the kernel keeps them: 512 64-bit entries per
    page-table page, in RAM, walked and grown by [walk].  The operations are
    the ones of vm.c; the second half of the file gives them their meaning on
    the mapping (page number to leaf entry) that the tree in memory encodes. *)

From S2P Require Import Prelude Mem Riscv Kalloc.

Section Vm.
Context `{KernelSymbols} {E : Type}.

Abbreviation MM := (M E machine).

Definition store64 (a v : Z) : MM unit := modify (λ s, s <| ram ::= st64 a v |>).
Definition load64 (a : Z) : MM Z := gets (λ s, ld64 (ram s) a).
Definition mem_set (dst c n : Z) : MM unit := modify (λ s, s <| ram ::= memset dst c n |>).
Definition mem_move (dst src n : Z) : MM unit := modify (λ s, s <| ram ::= memmove dst src n |>).
Definition has (flags bit : Z) : bool := negb (Z.land flags bit =? 0).

(** ** Page-table walks *)

(** the loop [for(int level = 2; level > 0; level--)] of [walk]; 0 is the
    null pointer *)
Fixpoint walk_loop (level : nat) (pagetable va : Z) (alloc : bool) : MM Z :=
  match level with
  | O => ret (pagetable + 8 * PX 0 va)
  | S level' =>
      let pte := pagetable + 8 * PX level va in
      let* v := load64 pte in
      if has v PTE_V then walk_loop level' (PTE2PA v) va alloc
      else if negb alloc then ret 0
      else
        let* pt := kalloc in
        if pt =? 0 then ret 0
        else
          mem_set pt 0 PGSIZE ;;;
          store64 pte (Z.lor (PA2PTE pt) PTE_V) ;;;
          walk_loop level' pt va alloc
  end.
Definition walk (pagetable va : Z) (alloc : bool) : MM Z :=
  if MAXVA <=? va then panic "walk" else walk_loop 2 pagetable va alloc.

Definition walkaddr (pagetable va : Z) : MM Z :=
  if MAXVA <=? va then ret 0
  else
    let* pte := walk pagetable va false in
    if pte =? 0 then ret 0
    else
      let* v := load64 pte in
      if negb (has v PTE_V) then ret 0
      else if negb (has v PTE_U) then ret 0
      else ret (PTE2PA v).

(** ** Mapping and unmapping *)

Fixpoint mappages_loop (fuel : nat) (pagetable a last pa perm : Z) : MM Z :=
  match fuel with
  | O => out_of_fuel
  | S fuel' =>
      let* pte := walk pagetable a true in
      if pte =? 0 then ret (-1)
      else
        let* v := load64 pte in
        if has v PTE_V then panic "remap"
        else
          store64 pte (Z.lor (Z.lor (PA2PTE pa) perm) PTE_V) ;;;
          if a =? last then ret 0
          else mappages_loop fuel' pagetable (u64 (a + PGSIZE)) last (u64 (pa + PGSIZE)) perm
  end.
(** The loop leaves at [last]; when [last] is below the first page (an empty
    or wrapping range) it runs into the end of the address space instead. *)
Definition mappages_fuel (a last : Z) : nat :=
  S (Z.to_nat (((if a <=? last then last else MAXVA) - a) / PGSIZE)).
Definition mappages (pagetable va size pa perm : Z) : MM Z :=
  let a := PGROUNDDOWN va in
  let last := PGROUNDDOWN (u64 (va + size - 1)) in
  mappages_loop (mappages_fuel a last) pagetable a last pa perm.

Definition kvmmap (kpgtbl va pa sz perm : Z) : MM unit :=
  let* r := mappages kpgtbl va sz pa perm in
  if negb (r =? 0) then panic "kvmmap" else ret tt.

Fixpoint uvmunmap_loop (fuel : nat) (pagetable a lim : Z) (do_free : bool) : MM unit :=
  if a <? lim then
    match fuel with
    | O => out_of_fuel
    | S fuel' =>
        let* pte := walk pagetable a false in
        if pte =? 0 then panic "uvmunmap: walk"
        else
          let* v := load64 pte in
          if negb (has v PTE_V) then panic "uvmunmap: not mapped"
          else if PTE_FLAGS v =? PTE_V then panic "uvmunmap: not a leaf"
          else
            when do_free (kfree (PTE2PA v)) ;;;
            store64 pte 0 ;;;
            uvmunmap_loop fuel' pagetable (u64 (a + PGSIZE)) lim do_free
    end
  else ret tt.
Definition uvmunmap (pagetable va npages : Z) (do_free : bool) : MM unit :=
  if negb (va mod PGSIZE =? 0) then panic "uvmunmap: not aligned"
  else uvmunmap_loop (Z.to_nat npages) pagetable va (u64 (va + npages * PGSIZE)) do_free.

(** ** The kernel page table *)

(** [proc_mapstacks] of proc.c: one stack page per thread slot, each above an
    unmapped guard page *)
Definition proc_mapstacks (kpgtbl : Z) : MM unit :=
  for_each (seq 0 NPROC) (λ p,
    for_each (seq 0 NTHREAD) (λ t,
      let* pa := kalloc in
      if pa =? 0 then panic "kalloc"
      else
        let va := KSTACK (Z.of_nat (NTHREAD * p + t)) in
        kvmmap kpgtbl va pa PGSIZE (Z.lor PTE_R PTE_W))).

Definition kvmmake : MM Z :=
  let* kpgtbl := kalloc in
  mem_set kpgtbl 0 PGSIZE ;;;
  kvmmap kpgtbl UART0 UART0 PGSIZE (Z.lor PTE_R PTE_W) ;;;
  kvmmap kpgtbl VIRTIO0 VIRTIO0 PGSIZE (Z.lor PTE_R PTE_W) ;;;
  kvmmap kpgtbl PLIC PLIC 0x400000 (Z.lor PTE_R PTE_W) ;;;
  kvmmap kpgtbl KERNBASE KERNBASE (sym_etext - KERNBASE) (Z.lor PTE_R PTE_X) ;;;
  kvmmap kpgtbl sym_etext sym_etext (PHYSTOP - sym_etext) (Z.lor PTE_R PTE_W) ;;;
  kvmmap kpgtbl TRAMPOLINE sym_trampoline PGSIZE (Z.lor PTE_R PTE_X) ;;;
  proc_mapstacks kpgtbl ;;;
  ret kpgtbl.

(** ** User address spaces *)

Definition uvmcreate : MM Z :=
  let* pagetable := kalloc in
  if pagetable =? 0 then ret 0
  else mem_set pagetable 0 PGSIZE ;;; ret pagetable.

Definition uvminit (pagetable : Z) (src : list byte) : MM unit :=
  if PGSIZE <=? Z.of_nat (length src) then panic "inituvm: more than a page"
  else
    let* mem := kalloc in
    mem_set mem 0 PGSIZE ;;;
    mappages pagetable 0 PGSIZE mem (Z.lor (Z.lor (Z.lor PTE_W PTE_R) PTE_X) PTE_U) ;;;
    modify (λ s, s <| ram ::= stbytes mem src |>).

Definition uvmdealloc (pagetable oldsz newsz : Z) : MM Z :=
  if oldsz <=? newsz then ret oldsz
  else
    when (PGROUNDUP newsz <? PGROUNDUP oldsz)
      (uvmunmap pagetable (PGROUNDUP newsz)
         (u64 (i32 ((PGROUNDUP oldsz - PGROUNDUP newsz) / PGSIZE))) true) ;;;
    ret newsz.

Fixpoint uvmalloc_loop (fuel : nat) (pagetable a oldsz newsz : Z) : MM Z :=
  if a <? newsz then
    match fuel with
    | O => out_of_fuel
    | S fuel' =>
        let* mem := kalloc in
        if mem =? 0 then uvmdealloc pagetable a oldsz ;;; ret 0
        else
          mem_set mem 0 PGSIZE ;;;
          let* r := mappages pagetable a PGSIZE mem (Z.lor (Z.lor (Z.lor PTE_W PTE_X) PTE_R) PTE_U) in
          if negb (r =? 0) then kfree mem ;;; uvmdealloc pagetable a oldsz ;;; ret 0
          else uvmalloc_loop fuel' pagetable (u64 (a + PGSIZE)) oldsz newsz
    end
  else ret newsz.
Definition uvmalloc (pagetable oldsz newsz : Z) : MM Z :=
  if newsz <? oldsz then ret oldsz
  else
    let oldsz := PGROUNDUP oldsz in
    uvmalloc_loop (Z.to_nat ((newsz - oldsz) / PGSIZE + 1)) pagetable oldsz oldsz newsz.

(** [freewalk] descends one level per unit of fuel. *)
Fixpoint freewalk (fuel : nat) (pagetable : Z) : MM unit :=
  match fuel with
  | O => out_of_fuel
  | S fuel' =>
      for_each (seq 0 512) (λ i,
        let* pte := load64 (pagetable + 8 * Z.of_nat i) in
        if has pte PTE_V && negb (has pte (Z.lor (Z.lor PTE_R PTE_W) PTE_X)) then
          freewalk fuel' (PTE2PA pte) ;;;
          store64 (pagetable + 8 * Z.of_nat i) 0
        else if has pte PTE_V then panic "freewalk: leaf"
        else ret tt) ;;;
      kfree pagetable
  end.

Definition uvmfree (pagetable sz : Z) : MM unit :=
  when (0 <? sz) (uvmunmap pagetable 0 (PGROUNDUP sz / PGSIZE) true) ;;;
  freewalk 3 pagetable.

Fixpoint uvmcopy_loop (fuel : nat) (old new i sz : Z) : MM Z :=
  if i <? sz then
    match fuel with
    | O => out_of_fuel
    | S fuel' =>
        let* pte := walk old i false in
        if pte =? 0 then panic "uvmcopy: pte should exist"
        else
          let* v := load64 pte in
          if negb (has v PTE_V) then panic "uvmcopy: page not present"
          else
            let* mem := kalloc in
            if mem =? 0 then uvmunmap new 0 (i / PGSIZE) true ;;; ret (-1)
            else
              mem_move mem (PTE2PA v) PGSIZE ;;;
              let* r := mappages new i PGSIZE mem (PTE_FLAGS v) in
              if negb (r =? 0) then
                kfree mem ;;; uvmunmap new 0 (i / PGSIZE) true ;;; ret (-1)
              else uvmcopy_loop fuel' old new (u64 (i + PGSIZE)) sz
    end
  else ret 0.
Definition uvmcopy (old new sz : Z) : MM Z :=
  uvmcopy_loop (Z.to_nat (sz / PGSIZE + 1)) old new 0 sz.

Definition uvmclear (pagetable va : Z) : MM unit :=
  let* pte := walk pagetable va false in
  if pte =? 0 then panic "uvmclear"
  else
    let* v := load64 pte in
    store64 pte (Z.land v (Z.lnot PTE_U)).

(** ** Copies between the kernel and user space

    A kernel buffer is the list of its bytes: the source of [copyout], and
    what [copyin] and [copyinstr] have stored into theirs when they return. *)

Fixpoint copyout_loop (fuel : nat) (pagetable dstva : Z) (src : list byte) : MM Z :=
  match src with
  | [] => ret 0
  | _ =>
      match fuel with
      | O => out_of_fuel
      | S fuel' =>
          let va0 := PGROUNDDOWN dstva in
          let* pa0 := walkaddr pagetable va0 in
          if pa0 =? 0 then ret (-1)
          else
            let n := Z.min (PGSIZE - (dstva - va0)) (Z.of_nat (length src)) in
            modify (λ s, s <| ram ::= stbytes (pa0 + (dstva - va0)) (take (Z.to_nat n) src) |>) ;;;
            copyout_loop fuel' pagetable (u64 (va0 + PGSIZE)) (drop (Z.to_nat n) src)
      end
  end.
Definition copyout (pagetable dstva : Z) (src : list byte) : MM Z :=
  copyout_loop (length src) pagetable dstva src.

Fixpoint copyin_loop (fuel : nat) (pagetable srcva len : Z) (dst : list byte) : MM (Z * list byte) :=
  if len <=? 0 then ret (0, dst)
  else
    match fuel with
    | O => out_of_fuel
    | S fuel' =>
        let va0 := PGROUNDDOWN srcva in
        let* pa0 := walkaddr pagetable va0 in
        if pa0 =? 0 then ret (-1, dst)
        else
          let n := Z.min (PGSIZE - (srcva - va0)) len in
          let* bs := gets (λ s, ldbytes (Z.to_nat n) (ram s) (pa0 + (srcva - va0))) in
          copyin_loop fuel' pagetable (u64 (va0 + PGSIZE)) (len - n) (dst ++ bs)
    end.
Definition copyin (pagetable srcva len : Z) : MM (Z * list byte) :=
  copyin_loop (Z.to_nat len) pagetable srcva len [].

(** the inner loop [while(n > 0)] of [copyinstr]: the bytes stored, and whether
    the terminating NUL was among them *)
Fixpoint copyinstr_page (n : nat) (p : Z) (m : gmap Z byte) : list byte * bool :=
  match n with
  | O => ([], false)
  | S n' =>
      let c := ld8 m p in
      if ldb m p =? 0 then ([x00], true)
      else let '(bs, got_null) := copyinstr_page n' (p + 1) m in (c :: bs, got_null)
  end.
Fixpoint copyinstr_loop (fuel : nat) (pagetable srcva max : Z) (dst : list byte) : MM (Z * list byte) :=
  if max <=? 0 then ret (-1, dst)
  else
    match fuel with
    | O => out_of_fuel
    | S fuel' =>
        let va0 := PGROUNDDOWN srcva in
        let* pa0 := walkaddr pagetable va0 in
        if pa0 =? 0 then ret (-1, dst)
        else
          let n := Z.min (PGSIZE - (srcva - va0)) max in
          let* r := gets (λ s, copyinstr_page (Z.to_nat n) (pa0 + (srcva - va0)) (ram s)) in
          if r.2 then ret (0, dst ++ r.1)
          else copyinstr_loop fuel' pagetable (u64 (va0 + PGSIZE)) (max - n) (dst ++ r.1)
    end.
Definition copyinstr (pagetable srcva max : Z) : MM (Z * list byte) :=
  copyinstr_loop (Z.to_nat max) pagetable srcva max [].

(** ** The mapping encoded by a page table *)

(** the page-table pages of a tree, named by their path from the root *)
Inductive tableid := TRoot | TL1 (i2 : Z) | TL0 (i2 i1 : Z).

#[export] Instance tableid_eq_dec : EqDecision tableid.
Proof. solve_decision. Defined.

Definition tableid_ok (id : tableid) : Prop :=
  match id with
  | TRoot => True
  | TL1 i => 0 ≤ i < 512
  | TL0 i j => 0 ≤ i < 512 ∧ 0 ≤ j < 512
  end.

Definition child (m : gmap Z byte) (t i : Z) : option Z :=
  let e := ld64 m (t + 8 * i) in if has e PTE_V then Some (PTE2PA e) else None.

Definition table (m : gmap Z byte) (pt : Z) (id : tableid) : option Z :=
  match id with
  | TRoot => Some pt
  | TL1 i => child m pt i
  | TL0 i j => t1 ← child m pt i; child m t1 j
  end.

Definition leaf_addr (m : gmap Z byte) (pt va : Z) : option Z :=
  t0 ← table m pt (TL0 (PX 2 va) (PX 1 va)); Some (t0 + 8 * PX 0 va).

(** the leaf entry for [va], 0 when a table on the path is missing *)
Definition pte_at (m : gmap Z byte) (pt va : Z) : Z :=
  match leaf_addr m pt va with Some a => ld64 m a | None => 0 end.

(** the tree is a tree: its tables are distinct pages, none of them free *)
Record pt_ok (m : gmap Z byte) (pt : Z) (free : list Z) : Prop := {
  pt_page id t : tableid_ok id → table m pt id = Some t → valid_page t ∧ t ∉ free;
  pt_inj id id' t : tableid_ok id → tableid_ok id' →
    table m pt id = Some t → table m pt id' = Some t → id = id'
}.

(** a valid entry above the leaf level is a pointer: no permission bit is set;
    and the upper half of the root, beyond MAXVA, is not used *)
Definition RWX : Z := Z.lor (Z.lor PTE_R PTE_W) PTE_X.
Definition ptrs_ok (m : gmap Z byte) (pt : Z) : Prop :=
  (∀ id t i, tableid_ok id → (∀ j k, id ≠ TL0 j k) → table m pt id = Some t → 0 ≤ i < 512 →
    has (ld64 m (t + 8 * i)) PTE_V = true → has (ld64 m (t + 8 * i)) RWX = false) ∧
  (∀ i, 256 ≤ i < 512 → has (ld64 m (pt + 8 * i)) PTE_V = false).

(** pages that the operations on [pt] may write: its tables and free pages *)
Definition footprint (m : gmap Z byte) (pt : Z) (free : list Z) (t : Z) : Prop :=
  (∃ id, tableid_ok id ∧ table m pt id = Some t) ∨ t ∈ free.

Definition in_page (t x : Z) : Prop := t ≤ x < t + PGSIZE.

Lemma pt_ok_tables m m' pt free :
  (∀ id, tableid_ok id → table m' pt id = table m pt id) → pt_ok m pt free → pt_ok m' pt free.
Proof.
  intros Htab Hpt. constructor.
  - intros id t Hid. rewrite Htab by done. by apply Hpt.
  - intros id id' t Hid Hid'. rewrite !Htab by done. by apply Hpt.
Qed.

Lemma footprint_tables m m' pt free t :
  (∀ id, tableid_ok id → table m' pt id = table m pt id) →
  footprint m' pt free t ↔ footprint m pt free t.
Proof.
  intros Htab. unfold footprint. f_equiv. f_equiv. intros id. split; intros [Hid Ht];
    (split; [done|]); [by rewrite <- Htab|by rewrite Htab].
Qed.

(** what every operation that only grows the tables guarantees *)
Record vm_ext (pt : Z) (s : machine) (free : list Z) (s' : machine) (free' : list Z) : Prop := {
  ext_kmem : kmem_ok s' free';
  ext_pt : pt_ok (ram s') pt free';
  ext_fp t : footprint (ram s') pt free' t ↔ footprint (ram s) pt free t;
  ext_ptr : ptrs_ok (ram s) pt → ptrs_ok (ram s') pt;
  ext_frame x : (∀ t, footprint (ram s) pt free t → ¬ in_page t x) →
    ld8 (ram s') x = ld8 (ram s) x
}.

Lemma vm_ext_refl pt s free : kmem_ok s free → pt_ok (ram s) pt free → vm_ext pt s free s free.
Proof. by constructor. Qed.

Lemma vm_ext_trans pt s1 f1 s2 f2 s3 f3 :
  vm_ext pt s1 f1 s2 f2 → vm_ext pt s2 f2 s3 f3 → vm_ext pt s1 f1 s3 f3.
Proof.
  intros H1 H2. constructor; [apply H2..| | |].
  - intros t. by rewrite (ext_fp _ _ _ _ _ H2), (ext_fp _ _ _ _ _ H1).
  - intros Hp. apply (ext_ptr _ _ _ _ _ H2), (ext_ptr _ _ _ _ _ H1), Hp.
  - intros x Hx. rewrite (ext_frame _ _ _ _ _ H2).
    + apply (ext_frame _ _ _ _ _ H1). done.
    + intros t Ht. apply Hx. by apply (ext_fp _ _ _ _ _ H1).
Qed.

Lemma entry_in_page t i : 0 ≤ i < 512 → ∀ k, 0 ≤ k < 8 → in_page t (t + 8 * i + k).
Proof. unfold in_page, PGSIZE. lia. Qed.

Lemma child_ext m m' t i :
  0 ≤ i < 512 → (∀ x, in_page t x → ld8 m' x = ld8 m x) → child m' t i = child m t i.
Proof.
  intros Hi Hx. unfold child. replace (ld64 m' (t + 8 * i)) with (ld64 m (t + 8 * i)); [done|].
  apply ld64_ext. intros k Hk. symmetry. apply Hx. by apply entry_in_page.
Qed.

(** the tree only reads its root and its level-1 tables *)
Lemma table_ext m m' pt :
  (∀ x, in_page pt x → ld8 m' x = ld8 m x) →
  (∀ i t x, 0 ≤ i < 512 → child m pt i = Some t → in_page t x → ld8 m' x = ld8 m x) →
  ∀ id, tableid_ok id → table m' pt id = table m pt id.
Proof.
  intros H0 H1 [|i|i j] Hid; simpl in *; [done|by apply child_ext|].
  rewrite (child_ext m m' pt i) by tauto.
  destruct (child m pt i) as [t1|] eqn:E1; simpl; [|done].
  apply child_ext; [tauto|]. intros x. eapply H1; [|done]. tauto.
Qed.

Lemma walk_lookup pt va s :
  0 ≤ va < MAXVA → walk pt va false s = Ok (default 0 (leaf_addr (ram s) pt va)) s.
Proof.
  intros Hva. unfold walk. rewrite (proj2 (Z.leb_gt _ _)) by lia.
  unfold leaf_addr. simpl. unfold child, bind, load64, gets. simpl.
  destruct (has (ld64 (ram s) (pt + 8 * PX 2 va)) PTE_V) eqn:E2; simpl; [|done].
  set (t1 := PTE2PA _). destruct (has (ld64 (ram s) (t1 + 8 * PX 1 va)) PTE_V) eqn:E1; done.
Qed.

(** ** Growing the tree by one zeroed table *)

(** [m'] is [m] with the fresh page [p] hooked in as table [c] *)
Definition table_added (m m' : gmap Z byte) (pt : Z) (c : tableid) (p : Z) : Prop :=
  table m pt c = None ∧
  (∀ id, tableid_ok id → table m' pt id = if decide (id = c) then Some p else table m pt id).

(** the bytes that hooking [p] into entry [i] of table [t] changes *)
Record hooked (m m' : gmap Z byte) (t i p : Z) : Prop := {
  hook_out x : ¬ in_page p x → ¬ in_page t x → ld8 m' x = ld8 m x;
  hook_entry k : 0 ≤ k < 512 → k ≠ i → ld64 m' (t + 8 * k) = ld64 m (t + 8 * k);
  hook_new : child m' t i = Some p;
  hook_ptr : has (ld64 m' (t + 8 * i)) RWX = false;
  hook_zero k : 0 ≤ k < 512 → ld64 m' (p + 8 * k) = 0
}.

Lemma child_zero m p k : ld64 m (p + 8 * k) = 0 → child m p k = None.
Proof. intros H0. unfold child. by rewrite H0. Qed.

Lemma in_page_disjoint t p x :
  valid_page t → valid_page p → t ≠ p → in_page t x → ¬ in_page p x.
Proof. intros Ht Hp Hne. pose proof (valid_pages_disjoint _ _ Ht Hp Hne). unfold in_page. lia. Qed.

Section Hook.
Variables (m m' : gmap Z byte) (pt p : Z) (ps : list Z).
Hypothesis (Hpt : pt_ok m pt (p :: ps)) (Hp : valid_page p).

Lemma table_fresh id t : tableid_ok id → table m pt id = Some t → valid_page t ∧ t ≠ p ∧ t ∉ ps.
Proof. intros Hid Ht. destruct (pt_page _ _ _ Hpt id t Hid Ht). set_solver. Qed.

Lemma tables_disjoint id id' t t' x :
  tableid_ok id → tableid_ok id' → table m pt id = Some t → table m pt id' = Some t' →
  id ≠ id' → in_page t x → ¬ in_page t' x.
Proof.
  intros Hid Hid' Ht Ht' Hne. apply in_page_disjoint.
  - by apply (table_fresh id).
  - by apply (table_fresh id').
  - intros ->. apply Hne. by eapply pt_inj.
Qed.

Lemma hook_root i :
  0 ≤ i < 512 → child m pt i = None → hooked m m' pt i p → table_added m m' pt (TL1 i) p.
Proof.
  intros Hi Hnone Hh. split; [done|].
  assert (H1 : ∀ k, 0 ≤ k < 512 → child m' pt k = if decide (k = i) then Some p else child m pt k).
  { intros k Hk. case_decide; [subst; apply Hh|unfold child; by rewrite (hook_entry _ _ _ _ _ Hh)]. }
  intros [|k|k j] Hid; simpl in *.
  - done.
  - rewrite H1 by done. repeat case_decide; congruence.
  - rewrite H1 by tauto. case_decide as Ek; simpl.
    + subst k. rewrite Hnone. simpl. apply child_zero, Hh. tauto.
    + destruct (child m pt k) as [t1|] eqn:E1; simpl; [|done].
      apply child_ext; [tauto|]. intros x Hx. apply (hook_out _ _ _ _ _ Hh).
      * destruct (table_fresh (TL1 k) t1) as (Hv & Hne & _); [simpl; tauto|done|].
        by apply (in_page_disjoint t1).
      * apply (tables_disjoint (TL1 k) TRoot t1); simpl; tauto || congruence.
Qed.

Lemma hook_l1 i2 t1 i :
  0 ≤ i2 < 512 → child m pt i2 = Some t1 → 0 ≤ i < 512 → child m t1 i = None →
  hooked m m' t1 i p → table_added m m' pt (TL0 i2 i) p.
Proof.
  intros Hi2 Ht1 Hi Hnone Hh. split; [simpl; by rewrite Ht1|].
  assert (Hsame : ∀ id t x, tableid_ok id → table m pt id = Some t → id ≠ TL1 i2 →
    in_page t x → ld8 m' x = ld8 m x).
  { intros id t x Hid Ht Hne Hx. apply (hook_out _ _ _ _ _ Hh).
    - destruct (table_fresh id t) as (Hv & Hne' & _); [done..|]. by apply (in_page_disjoint t).
    - apply (tables_disjoint id (TL1 i2) t); simpl; tauto || congruence. }
  assert (Hroot : ∀ k, 0 ≤ k < 512 → child m' pt k = child m pt k).
  { intros k Hk. apply child_ext; [done|]. intros x. by apply (Hsame TRoot). }
  intros [|k|k j] Hid; simpl in *.
  - done.
  - rewrite Hroot by done. done.
  - rewrite Hroot by tauto. destruct (decide (k = i2)) as [->|Hk].
    + rewrite Ht1. simpl. case_decide as Ej.
      * injection Ej as ->. apply Hh.
      * unfold child. rewrite (hook_entry _ _ _ _ _ Hh); [done|tauto|congruence].
    + rewrite decide_False by congruence.
      destruct (child m pt k) as [tk|] eqn:Ek; simpl; [|done].
      apply child_ext; [tauto|]. intros x. apply (Hsame (TL1 k)); [simpl; tauto|done|congruence].
Qed.

Lemma table_added_ok c :
  tableid_ok c → table_added m m' pt c p → p ∉ ps → pt_ok m' pt ps.
Proof.
  intros Hc [Hnone Hadd] Hnp. constructor.
  - intros id t Hid Ht. rewrite Hadd in Ht by done. case_decide.
    + injection Ht as <-. done.
    + destruct (table_fresh id t) as (? & ? & ?); done.
  - intros id id' t Hid Hid' Ht Ht'. rewrite Hadd in Ht, Ht' by done.
    repeat case_decide; subst; try done.
    + injection Ht' as <-. destruct (table_fresh id p) as (? & ? & ?); done.
    + injection Ht as <-. destruct (table_fresh id' p) as (? & ? & ?); done.
    + by eapply pt_inj.
Qed.

Lemma table_added_fp c t :
  tableid_ok c → table_added m m' pt c p → footprint m' pt ps t ↔ footprint m pt (p :: ps) t.
Proof.
  intros Hc [Hnone Hadd]. unfold footprint. rewrite elem_of_cons. split.
  - intros [(id & Hid & Ht)|Ht]; [|tauto].
    rewrite Hadd in Ht by done. case_decide; [right; left; congruence|left; eauto].
  - intros [(id & Hid & Ht)|[->|Ht]]; [|left; exists c|tauto].
    + left. exists id. rewrite Hadd, decide_False by (done || congruence). done.
    + by rewrite Hadd, decide_True.
Qed.

(** leaf entries do not change: the new table is not a leaf table with
    entries, and its parent is not one either *)
Lemma table_added_pte c pid t i va :
  tableid_ok c → table_added m m' pt c p →
  tableid_ok pid → table m pt pid = Some t → (∀ j k, pid ≠ TL0 j k) →
  hooked m m' t i p → pte_at m' pt va = pte_at m pt va.
Proof.
  intros Hc [Hnone Hadd] Hpid Ht Hpl0 Hh. unfold pte_at, leaf_addr.
  set (id := TL0 (PX 2 va) (PX 1 va)).
  assert (Hid : tableid_ok id) by (split; apply PX_range).
  rewrite Hadd by done. case_decide as Ec.
  - rewrite Ec, Hnone. cbn [mbind option_bind]. apply (hook_zero _ _ _ _ _ Hh), PX_range.
  - destruct (table m pt id) as [t0|] eqn:Et0; cbn [mbind option_bind]; [|done].
    apply ld64_ext. intros k Hk.
    assert (Hx : in_page t0 (t0 + 8 * PX 0 va + k)) by (apply entry_in_page; [apply PX_range|done]).
    apply (hook_out _ _ _ _ _ Hh).
    + destruct (table_fresh id t0) as (? & ? & _); [done..|]. by apply (in_page_disjoint t0).
    + apply (tables_disjoint id pid t0); [done..| |done]. unfold id. congruence.
Qed.

Lemma table_added_ptr c pid t i :
  table_added m m' pt c p → tableid_ok pid → table m pt pid = Some t → hooked m m' t i p →
  (pid = TRoot → i < 256) → ptrs_ok m pt → ptrs_ok m' pt.
Proof.
  intros [Hnone Hadd] Hpid Ht Hh Hlow [Hptr Hup].
  assert (Hother : ∀ id t' k, tableid_ok id → table m pt id = Some t' → id ≠ pid → 0 ≤ k < 512 →
    ld64 m' (t' + 8 * k) = ld64 m (t' + 8 * k)).
  { intros id t' k Hid Ht' Hne Hk. apply ld64_ext. intros j Hj. apply (hook_out _ _ _ _ _ Hh).
    - destruct (table_fresh id t') as (? & ? & _); [done..|].
      apply (in_page_disjoint t'); [done..|]. by apply entry_in_page.
    - apply (tables_disjoint id pid t'); [done..|]. by apply entry_in_page. }
  split; cycle 1.
  { intros k Hk. destruct (decide (TRoot = pid)) as [<-|Hne].
    - simpl in Ht. injection Ht as <-. rewrite (hook_entry _ _ _ _ _ Hh); [by apply Hup|lia|].
      specialize (Hlow eq_refl). lia.
    - rewrite (Hother TRoot); [by apply Hup|done..|lia]. }
  intros id t' k Hid Hnl Ht' Hk HV.
  rewrite Hadd in Ht' by done. case_decide as Ec.
  { injection Ht' as <-. by rewrite (hook_zero _ _ _ _ _ Hh) in HV. }
  destruct (decide (id = pid)) as [->|Hne].
  - assert (t' = t) as -> by congruence. destruct (decide (k = i)) as [->|Hki].
    + apply (hook_ptr _ _ _ _ _ Hh).
    + rewrite (hook_entry _ _ _ _ _ Hh) in * by done. by apply (Hptr pid).
  - rewrite (Hother id) in * by done. by apply (Hptr id).
Qed.
End Hook.

(** the stores of [walk] that follow a successful [kalloc] *)
Lemma hook_stores s s1 t i p ps :
  kmem_ok s1 ps → valid_page p → valid_page t → t ≠ p → t ∉ ps → p ∉ ps → 0 ≤ i < 512 →
  (∀ x, ¬ in_page p x → ld8 (ram s1) x = ld8 (ram s) x) →
  let m' := st64 (t + 8 * i) (Z.lor (PA2PTE p) PTE_V) (memset p 0 PGSIZE (ram s1)) in
  hooked (ram s) m' t i p ∧ kmem_ok (mkMachine m' (freelist s1)) ps.
Proof.
  intros Hk Hp Ht Htp Hts Hps Hi Hs1 m'.
  assert (Hpos : 0 ≤ p < 2 ^ 56) by (unfold valid_page, PHYSTOP, KERNBASE in Hp; lia).
  assert (He : 0 ≤ Z.lor (PA2PTE p) PTE_V < 2 ^ 64).
  { apply lor_range; [lia|apply u64_range|change PTE_V with 1; lia]. }
  assert (Hout : ∀ x, ¬ in_page p x → ¬ in_page t x → ld8 m' x = ld8 (ram s) x).
  { intros x Hxp Hxt. unfold m'. unfold in_page, PGSIZE in *.
    rewrite ld8_st64_out by lia. rewrite ld8_memset, decide_False by done. by apply Hs1. }
  split; [constructor|split].
  - done.
  - intros k Hkr Hki. unfold m'. rewrite ld64_st64_out by lia. apply ld64_ext. intros j Hj.
    assert (¬ in_page p (t + 8 * k + j)).
    { apply (in_page_disjoint t); [done..|]. by apply entry_in_page. }
    rewrite ld8_memset, decide_False by done. by apply Hs1.
  - unfold child, m'. rewrite ld64_st64_same by done.
    unfold has. rewrite PA2PTE_land by (change PTE_V with 1; lia). simpl.
    f_equal. apply PTE2PA_PA2PTE; [done|apply Hp|change PTE_V with 1; lia].
  - unfold m'. rewrite ld64_st64_same by done. unfold has. by rewrite PA2PTE_land by done.
  - intros k Hkr. unfold m'. pose proof (valid_pages_disjoint _ _ Ht Hp Htp).
    unfold PGSIZE in *. rewrite ld64_st64_out by lia. apply ld64_memset_0; lia.
  - simpl. apply (free_pages_ext (ram s1)); [|apply Hk]. intros q x Hq Hx.
    assert (Hqv : valid_page q).
    { destruct Hk as [Hf _]. apply free_pages_valid in Hf. rewrite Forall_forall in Hf. by apply Hf. }
    unfold m'. rewrite ld8_st64_out.
    + rewrite ld8_memset, decide_False; [done|].
      apply (in_page_disjoint q p); [done..|set_solver|done].
    + assert (¬ in_page t x) by (apply (in_page_disjoint q t); [done..|set_solver|done]).
      unfold in_page, PGSIZE in *. lia.
  - apply Hk.
Qed.

(** parent [pid], index [i], and the table that entry denotes *)
Definition child_id (pid : tableid) (i : Z) (c : tableid) : Prop :=
  (pid = TRoot ∧ c = TL1 i) ∨ (∃ i2, pid = TL1 i2 ∧ c = TL0 i2 i).

Lemma grow_ok pt s p ps pid c t i :
  kmem_ok s (p :: ps) → pt_ok (ram s) pt (p :: ps) →
  tableid_ok pid → table (ram s) pt pid = Some t → child_id pid i c → 0 ≤ i < 512 →
  (pid = TRoot → i < 256) → child (ram s) t i = None →
  ∃ s1, kalloc (E := E) s = Ok p s1 ∧ p ≠ 0 ∧
    let s2 := mkMachine (st64 (t + 8 * i) (Z.lor (PA2PTE p) PTE_V)
                (memset p 0 PGSIZE (ram s1))) (freelist s1) in
    vm_ext pt s (p :: ps) s2 ps ∧ table (ram s2) pt c = Some p ∧
    ∀ va, pte_at (ram s2) pt va = pte_at (ram s) pt va.
Proof.
  intros Hk Hpt Hpid Ht Hc Hi Hlow Hnone.
  destruct (kalloc_ok (E := E) s (p :: ps) Hk) as (s1 & Hs1 & Hk1 & Hp & Hnp & Hfr).
  exists s1. split; [done|]. split; [unfold valid_page in Hp; lia|].
  destruct (table_fresh _ _ _ _ Hpt Hp pid t Hpid Ht) as (Htv & Htp & Hts).
  destruct (hook_stores s s1 t i p ps) as [Hh Hk2]; [done..|].
  assert (Hcok : tableid_ok c).
  { destruct Hc as [[_ ->]|(i2 & -> & ->)]; simpl in *; [done|]. split; done. }
  assert (Hadd : table_added (ram s) (st64 (t + 8 * i) (Z.lor (PA2PTE p) PTE_V)
                (memset p 0 PGSIZE (ram s1))) pt c p).
  { destruct Hc as [[-> ->]|(i2 & -> & ->)]; simpl in Ht, Hpid.
    - injection Ht as <-. by apply (hook_root _ _ _ _ ps).
    - by apply (hook_l1 _ _ _ _ ps) with t. }
  intros s2. split; [constructor|split].
  - done.
  - by apply (table_added_ok (ram s) _ _ p _ Hpt Hp c).
  - intros q. by apply (table_added_fp (ram s) _ _ p _ c).
  - by apply (table_added_ptr (ram s) _ _ p _ Hpt Hp c pid t i).
  - intros x Hx. apply (hook_out _ _ _ _ _ Hh).
    + apply Hx. right. set_solver.
    + apply Hx. left. eauto.
  - simpl. rewrite (proj2 Hadd) by done. by rewrite decide_True.
  - intros va. apply (table_added_pte (ram s) _ _ p ps Hpt Hp c pid t i); try done.
    intros j k ->. destruct Hc as [[? _]|(? & ? & _)]; done.
Qed.

Record walk_post (pt va : Z) (s : machine) (free : list Z) (r : Z) (s' : machine)
    (free' : list Z) : Prop := {
  walk_ext : vm_ext pt s free s' free';
  walk_same va' : pte_at (ram s') pt va' = pte_at (ram s) pt va';
  walk_cost : (length free ≤ length free' + 2)%nat;
  walk_res : (r = 0 ∧ free' = []) ∨ (r ≠ 0 ∧ leaf_addr (ram s') pt va = Some r)
}.

Lemma leaf_table_ok va : tableid_ok (TL0 (PX 2 va) (PX 1 va)).
Proof. split; apply PX_range. Qed.

Lemma leaf_addr_pos pt va m free r :
  pt_ok m pt free → leaf_addr m pt va = Some r → 0 < r < 2 ^ 64 - 8.
Proof.
  intros Hpt Hr. unfold leaf_addr in Hr.
  destruct (table m pt (TL0 (PX 2 va) (PX 1 va))) as [t0|] eqn:Et; [|done].
  cbn in Hr. injection Hr as <-. destruct (pt_page _ _ _ Hpt _ _ (leaf_table_ok va) Et) as [Hv _].
  pose proof (PX_range 0 va). unfold valid_page, PHYSTOP, KERNBASE in Hv. lia.
Qed.

(** the last level of the walk, from a level-1 table that exists *)
Lemma walk_level1 pt va s free t1 :
  kmem_ok s free → pt_ok (ram s) pt free → child (ram s) pt (PX 2 va) = Some t1 →
  ∃ r s' free', walk_loop 1 t1 va true s = Ok r s' ∧ walk_post pt va s free r s' free' ∧
    (length free ≤ length free' + 1)%nat.
Proof.
  intros Hk Hpt Ht1. simpl. unfold bind at 1, load64, gets. simpl.
  destruct (has (ld64 (ram s) (t1 + 8 * PX 1 va)) PTE_V) eqn:E1.
  - eexists _, s, free. split; [done|].
    assert (Hleaf : leaf_addr (ram s) pt va =
      Some (PTE2PA (ld64 (ram s) (t1 + 8 * PX 1 va)) + 8 * PX 0 va)).
    { unfold leaf_addr. simpl. rewrite Ht1. simpl. unfold child. by rewrite E1. }
    split; [|lia]. constructor; [by apply vm_ext_refl|done|lia|right]. split; [|done].
    pose proof (leaf_addr_pos _ _ _ _ _ Hpt Hleaf). lia.
  - assert (Hnone : child (ram s) t1 (PX 1 va) = None) by (unfold child; by rewrite E1).
    destruct free as [|p ps].
    + unfold bind. rewrite (kalloc_ok s [] Hk). simpl.
      eexists 0, s, []. split_and!; [done| |simpl; lia]. constructor; [by apply vm_ext_refl|done|simpl; lia|by left].
    + destruct (grow_ok pt s p ps (TL1 (PX 2 va)) (TL0 (PX 2 va) (PX 1 va)) t1 (PX 1 va))
        as (s1 & Hs1 & Hp0 & Hext & Hc & Hsame);
        [done|done|apply PX_range|done|right; by eexists|apply PX_range|done|done|].
      rewrite (bind_Ok _ _ _ _ _ Hs1). rewrite (proj2 (Z.eqb_neq p 0)) by done.
      eexists _, _, ps. split_and!; [done| |simpl; lia].
      constructor; [exact Hext|exact Hsame|simpl; lia|right].
      assert (Hleaf : leaf_addr (ram (mkMachine (st64 (t1 + 8 * PX 1 va)
        (Z.lor (PA2PTE p) PTE_V) (memset p 0 PGSIZE (ram s1))) (freelist s1))) pt va =
        Some (p + 8 * PX 0 va)) by (unfold leaf_addr; rewrite Hc; done).
      split; [|exact Hleaf]. pose proof (leaf_addr_pos _ _ _ _ _ (ext_pt _ _ _ _ _ Hext) Hleaf). lia.
Qed.

Lemma walk_alloc pt va s free :
  kmem_ok s free → pt_ok (ram s) pt free → 0 ≤ va < MAXVA →
  ∃ r s' free', walk pt va true s = Ok r s' ∧ walk_post pt va s free r s' free'.
Proof.
  intros Hk Hpt Hva. unfold walk. rewrite (proj2 (Z.leb_gt _ _)) by lia.
  remember 1%nat as one eqn:Hone. simpl. rewrite Hone. unfold bind at 1, load64, gets. simpl run_bind.
  destruct (has (ld64 (ram s) (pt + 8 * PX 2 va)) PTE_V) eqn:E2.
  { destruct (walk_level1 pt va s free (PTE2PA (ld64 (ram s) (pt + 8 * PX 2 va))))
      as (r & s' & free' & Hw & Hp & _); [done..|unfold child; by rewrite E2|eauto]. }
  assert (Hnone : child (ram s) pt (PX 2 va) = None) by (unfold child; by rewrite E2).
  destruct free as [|p ps].
  { unfold bind. rewrite (kalloc_ok s [] Hk). simpl.
    eexists 0, s, []. split; [done|]. constructor; [by apply vm_ext_refl|done|simpl; lia|by left]. }
  destruct (grow_ok pt s p ps TRoot (TL1 (PX 2 va)) pt (PX 2 va))
    as (s1 & Hs1 & Hp0 & Hext & Hc & Hsame);
    [done|done|done|done|by left|apply PX_range|intros _; by apply PX2_low|done|].
  cbn [negb]. rewrite (bind_Ok _ _ _ _ _ Hs1). rewrite (proj2 (Z.eqb_neq p 0)) by done.
  destruct (walk_level1 pt va _ ps p (ext_kmem _ _ _ _ _ Hext) (ext_pt _ _ _ _ _ Hext) Hc)
    as (r & s' & free' & Hw & [He Hs _ Hr] & Hl).
  exists r, s', free'. split; [exact Hw|]. constructor; [by eapply vm_ext_trans| |simpl; lia|done].
  intros va'. by rewrite Hs, Hsame.
Qed.

(** ** Writing a leaf entry *)

Lemma leaf_addr_table m pt va a :
  leaf_addr m pt va = Some a →
  ∃ t0, table m pt (TL0 (PX 2 va) (PX 1 va)) = Some t0 ∧ a = t0 + 8 * PX 0 va.
Proof.
  unfold leaf_addr. destruct (table m pt _) as [t0|]; [|done]. cbn. intros [= <-]. eauto.
Qed.

Lemma PX_page va va' : 0 ≤ va → 0 ≤ va' → va / PGSIZE = va' / PGSIZE → ∀ l, PX l va = PX l va'.
Proof.
  intros Hva Hva' He l. rewrite !PX_eq. unfold PXSHIFT, PGSHIFT, PGSIZE in *.
  rewrite Z.pow_add_r, <- !Z.div_div by lia. change (2 ^ 12) with 4096. by rewrite He.
Qed.

Lemma leaf_addr_inj m pt free va va' a :
  pt_ok m pt free → 0 ≤ va < MAXVA → 0 ≤ va' < MAXVA →
  leaf_addr m pt va = Some a →
  ∀ a', leaf_addr m pt va' = Some a' → va' / PGSIZE ≠ va / PGSIZE → a' + 8 ≤ a ∨ a + 8 ≤ a'.
Proof.
  intros Hpt Hva Hva' Ha a' Ha' Hne.
  apply leaf_addr_table in Ha as (t0 & Ht0 & ->).
  apply leaf_addr_table in Ha' as (t0' & Ht0' & ->).
  pose proof (PX_range 0 va). pose proof (PX_range 0 va').
  destruct (decide (t0 = t0')) as [<-|Hd].
  - pose proof (pt_inj _ _ _ Hpt _ _ _ (leaf_table_ok va) (leaf_table_ok va') Ht0 Ht0') as Hid.
    injection Hid as E2 E1.
    assert (PX 0 va ≠ PX 0 va') by (intros E0; apply Hne; symmetry; by apply PX_inj). lia.
  - destruct (pt_page _ _ _ Hpt _ _ (leaf_table_ok va) Ht0) as [Hv _].
    destruct (pt_page _ _ _ Hpt _ _ (leaf_table_ok va') Ht0') as [Hv' _].
    destruct (valid_pages_disjoint _ _ Hv Hv' Hd); unfold PGSIZE in *; lia.
Qed.

Record leaf_set (pt va v : Z) (m m' : gmap Z byte) : Prop := {
  leaf_tables id : tableid_ok id → table m' pt id = table m pt id;
  leaf_at va' : 0 ≤ va' < MAXVA →
    pte_at m' pt va' = if decide (va' / PGSIZE = va / PGSIZE) then v else pte_at m pt va'
}.

Lemma store_leaf pt va s free a v :
  kmem_ok s free → pt_ok (ram s) pt free → 0 ≤ va < MAXVA → 0 ≤ v < 2 ^ 64 →
  leaf_addr (ram s) pt va = Some a →
  let s' := mkMachine (st64 a v (ram s)) (freelist s) in
  vm_ext pt s free s' free ∧ leaf_set pt va v (ram s) (ram s').
Proof.
  intros Hk Hpt Hva Hv Ha s'.
  destruct (leaf_addr_table _ _ _ _ Ha) as (t0 & Ht0 & Hat).
  destruct (pt_page _ _ _ Hpt _ _ (leaf_table_ok va) Ht0) as [Ht0v Ht0f].
  assert (Hout : ∀ x, ¬ in_page t0 x → ld8 (ram s') x = ld8 (ram s) x).
  { intros x Hx. simpl. apply ld8_st64_out. pose proof (PX_range 0 va).
    unfold in_page, PGSIZE in Hx. lia. }
  assert (Htab : ∀ id, tableid_ok id → table (ram s') pt id = table (ram s) pt id).
  { apply table_ext.
    - intros x Hx. apply Hout.
      apply (in_page_disjoint pt); [by apply (pt_page _ _ _ Hpt TRoot)|done| |done].
      intros ->. by pose proof (pt_inj _ _ _ Hpt TRoot _ _ I (leaf_table_ok va) eq_refl Ht0).
    - intros i t x Hi Ht Hx. apply Hout.
      apply (in_page_disjoint t); [by apply (pt_page _ _ _ Hpt (TL1 i))|done| |done].
      intros ->. by pose proof (pt_inj _ _ _ Hpt (TL1 i) _ _ Hi (leaf_table_ok va) Ht Ht0). }
  split; [constructor|constructor].
  - destruct Hk as [Hf Hnd]. split; [|done]. simpl. apply (free_pages_ext (ram s)); [|done].
    intros q x Hq Hx. apply Hout.
    assert (valid_page q).
    { apply free_pages_valid in Hf. rewrite Forall_forall in Hf. by apply Hf. }
    apply (in_page_disjoint q); [done..|by intros ->|done].
  - by apply (pt_ok_tables (ram s)).
  - intros t. by apply footprint_tables.
  - assert (Hld : ∀ id t i, tableid_ok id → (∀ j k, id ≠ TL0 j k) → table (ram s) pt id = Some t →
      0 ≤ i < 512 → ld64 (ram s') (t + 8 * i) = ld64 (ram s) (t + 8 * i)).
    { intros id t i Hid Hnl Ht Hi. apply ld64_ext. intros j Hj. apply Hout.
      apply (in_page_disjoint t); [by apply (pt_page _ _ _ Hpt id)|done| |by apply entry_in_page].
      intros ->. destruct (Hnl (PX 2 va) (PX 1 va)). by apply (pt_inj _ _ _ Hpt id _ t0 Hid (leaf_table_ok va)). }
    intros [Hptr Hup]. split.
    + intros id t i Hid Hnl Ht Hi. rewrite Htab in Ht by done. rewrite (Hld id) by done. by apply (Hptr id).
    + intros i Hi. rewrite (Hld TRoot) by (done || lia). by apply Hup.
  - intros x Hx. apply Hout, Hx. left. eexists. split; [apply leaf_table_ok|done].
  - done.
  - intros va' Hva'. unfold pte_at.
    assert (leaf_addr (ram s') pt va' = leaf_addr (ram s) pt va') as ->.
    { unfold leaf_addr. rewrite Htab by apply leaf_table_ok. done. }
    case_decide as Hp.
    + assert (leaf_addr (ram s) pt va' = Some a) as ->.
      { rewrite <- Ha. unfold leaf_addr.
        by rewrite !(PX_page va' va) by (lia || done). }
      simpl. by apply ld64_st64_same.
    + destruct (leaf_addr (ram s) pt va') as [a'|] eqn:Ea'; [|done].
      simpl. apply ld64_st64_out. by apply (leaf_addr_inj (ram s) pt free va va').
Qed.

Lemma pte_at_leaf m pt va a : leaf_addr m pt va = Some a → ld64 m a = pte_at m pt va.
Proof. intros Ha. unfold pte_at. by rewrite Ha. Qed.

(** ** mappages *)

(** the entry that [mappages] writes *)
Definition mk_pte (pa perm : Z) : Z := Z.lor (Z.lor (PA2PTE pa) perm) PTE_V.

Lemma mk_pte_range pa perm : 0 ≤ perm < 2 ^ 64 → 0 ≤ mk_pte pa perm < 2 ^ 64.
Proof.
  intros Hp. unfold mk_pte. apply lor_range; [lia| |change PTE_V with 1; lia].
  apply lor_range; [lia|apply u64_range|done].
Qed.

(** the mapping after the first [k] pages of a range were mapped *)
Definition mapped_prefix (a pa perm : Z) (k : Z) (f : Z → Z) (va : Z) : Z :=
  if decide (a / PGSIZE ≤ va / PGSIZE < a / PGSIZE + k)
  then mk_pte (pa + (va / PGSIZE - a / PGSIZE) * PGSIZE) perm else f va.

Lemma mappages_loop_ok n : ∀ pt a pa perm s free,
  kmem_ok s free → pt_ok (ram s) pt free → 0 ≤ perm < 2 ^ 64 →
  a mod PGSIZE = 0 → 0 ≤ a → a + Z.of_nat n * PGSIZE < MAXVA →
  0 ≤ pa → pa + Z.of_nat n * PGSIZE < 2 ^ 64 →
  (∀ va, a / PGSIZE ≤ va / PGSIZE ≤ a / PGSIZE + Z.of_nat n → has (pte_at (ram s) pt va) PTE_V = false) →
  ∃ k r s' free',
    mappages_loop (S n) pt a (a + Z.of_nat n * PGSIZE) pa perm s = Ok r s' ∧
    vm_ext pt s free s' free' ∧
    (∀ va, 0 ≤ va < MAXVA →
      pte_at (ram s') pt va = mapped_prefix a pa perm k (pte_at (ram s) pt) va) ∧
    ((r = 0 ∧ k = Z.of_nat n + 1) ∨ (r = -1 ∧ 0 ≤ k ≤ Z.of_nat n ∧ free' = [])) ∧
    (length free ≤ length free' + 2 * S n)%nat.
Proof.
  induction n as [|n IH]; intros pt a pa perm s free Hk Hpt Hperm Hal Ha Hlast Hpa Hpl Hun;
    destruct (walk_alloc pt a s free) as (r & s1 & f1 & Hw & [He Hs Hcost Hr]);
    try done; try (unfold PGSIZE in *; lia).
  - cbn [mappages_loop]. rewrite (bind_Ok _ _ _ _ _ Hw).
    destruct Hr as [[-> ->]|[Hr0 Hleaf]].
    { exists 0, (-1), s1, []. split_and!; [done|done| |right; split_and!; done || lia|simpl in *; lia].
      intros va Hva. rewrite Hs. unfold mapped_prefix. rewrite decide_False by lia. done. }
    rewrite (proj2 (Z.eqb_neq r 0)) by done. unfold bind at 1, load64, gets. simpl.
    rewrite (pte_at_leaf _ _ _ _ Hleaf), Hs, Hun by lia.
    unfold bind at 1, store64, modify. simpl run_bind.
    rewrite (proj2 (Z.eqb_eq a _)) by lia.
    destruct (store_leaf pt a s1 f1 r (mk_pte pa perm)) as [He2 Hl2];
      [apply He|apply He|lia|by apply mk_pte_range|done|].
    eexists 1, 0, _, f1. split; [done|]. split_and!; [by eapply vm_ext_trans| |left; lia|lia].
    intros va Hva. simpl. rewrite (leaf_at _ _ _ _ _ Hl2) by done. unfold mapped_prefix.
    repeat case_decide; try lia; [f_equal; lia|apply Hs].
  - remember (S n) as n1 eqn:Hn1. cbn [mappages_loop]. rewrite (bind_Ok _ _ _ _ _ Hw).
    destruct Hr as [[-> ->]|[Hr0 Hleaf]].
    { exists 0, (-1), s1, []. split_and!; [done|done| |right; split_and!; done || lia|simpl in *; lia].
      intros va Hva. rewrite Hs. unfold mapped_prefix. rewrite decide_False by lia. done. }
    rewrite (proj2 (Z.eqb_neq r 0)) by done. unfold bind at 1, load64, gets. simpl run_bind.
    rewrite (pte_at_leaf _ _ _ _ Hleaf), Hs, Hun by lia.
    destruct (store_leaf pt a s1 f1 r (mk_pte pa perm)) as [He2 Hl2];
      [apply He|apply He|unfold PGSIZE in *; lia|by apply mk_pte_range|done|].
    assert (Hp1 : (a + PGSIZE) / PGSIZE = a / PGSIZE + 1) by (unfold PGSIZE; dlia).
    assert (HMAX : MAXVA = 274877906944) by done.
    unfold bind at 1, store64, modify. simpl run_bind.
    rewrite (proj2 (Z.eqb_neq a _)) by (unfold PGSIZE; lia).
    rewrite !u64_small by (unfold PGSIZE in *; lia).
    destruct (IH pt (a + PGSIZE) (pa + PGSIZE) perm
      (mkMachine (st64 r (mk_pte pa perm) (ram s1)) (freelist s1)) f1)
      as (k & r' & s' & f' & Hrun & He3 & Hmap & Hres & Hc3);
      [apply He2|apply He2|done|unfold PGSIZE in *; dlia|unfold PGSIZE in *; lia..| |].
    { intros va Hva. assert (0 ≤ va < MAXVA) by (rewrite HMAX in *; unfold PGSIZE in *; dlia).
      simpl. rewrite (leaf_at _ _ _ _ _ Hl2) by done. rewrite decide_False by lia.
      rewrite Hs. apply Hun. lia. }
    exists (k + 1), r', s', f'. split.
    { rewrite <- Hrun. subst n1. replace (a + Z.of_nat (S n) * PGSIZE)
        with (a + PGSIZE + Z.of_nat n * PGSIZE) by lia. done. }
    split_and!; [by eapply vm_ext_trans, vm_ext_trans| |
      destruct Hres as [[-> ->]|(-> & ? & ->)]; [left|right]; split_and!; done || lia|lia].
    intros va Hva. rewrite Hmap by done. unfold mapped_prefix. simpl.
    rewrite (leaf_at _ _ _ _ _ Hl2) by done. rewrite Hp1.
    repeat case_decide; try lia; [f_equal; lia|f_equal; lia|apply Hs].
Qed.

Lemma mapped_prefix_page a a' pa perm k f va :
  a / PGSIZE = a' / PGSIZE → mapped_prefix a pa perm k f va = mapped_prefix a' pa perm k f va.
Proof. intros He. unfold mapped_prefix. by rewrite He. Qed.

Lemma mappages_ok pt va size pa perm s free :
  kmem_ok s free → pt_ok (ram s) pt free → 0 ≤ perm < 2 ^ 64 →
  0 ≤ va → 0 < size → va + size ≤ MAXVA → 0 ≤ pa → pa + size + PGSIZE < 2 ^ 64 →
  (∀ v, va / PGSIZE ≤ v / PGSIZE ≤ (va + size - 1) / PGSIZE → has (pte_at (ram s) pt v) PTE_V = false) →
  let n := (va + size - 1) / PGSIZE - va / PGSIZE + 1 in
  ∃ k r s' free', mappages pt va size pa perm s = Ok r s' ∧ vm_ext pt s free s' free' ∧
    (∀ v, 0 ≤ v < MAXVA → pte_at (ram s') pt v = mapped_prefix va pa perm k (pte_at (ram s) pt) v) ∧
    ((r = 0 ∧ k = n) ∨ (r = -1 ∧ 0 ≤ k < n ∧ free' = [])) ∧
    Z.of_nat (length free) ≤ Z.of_nat (length free') + 2 * n.
Proof.
  intros Hk Hpt Hperm Hva Hsz Hmax Hpa Hpl Hun n.
  assert (HMAX : MAXVA = 274877906944) by done.
  set (a := PGROUNDDOWN va). set (cnt := Z.to_nat (n - 1)).
  assert (Hn : 1 ≤ n) by (unfold n, PGSIZE; dlia).
  assert (Ha : a = va / PGSIZE * PGSIZE) by (unfold a; rewrite PGROUNDDOWN_eq; unfold PGSIZE; dlia).
  assert (Hdiv : a / PGSIZE = va / PGSIZE) by (apply PGROUNDDOWN_page; lia).
  assert (Hlast : PGROUNDDOWN (u64 (va + size - 1)) = a + Z.of_nat cnt * PGSIZE).
  { rewrite u64_small by lia. rewrite PGROUNDDOWN_eq. unfold cnt, n, PGSIZE in *. dlia. }
  destruct (mappages_loop_ok cnt pt a pa perm s free) as (k & r & s' & f' & Hrun & He & Hm & Hr & Hc).
  1-4: done || apply PGROUNDDOWN_aligned.
  1-4: assert (Hcnt : Z.of_nat cnt = (va + size - 1) / PGSIZE - va / PGSIZE) by (unfold cnt; lia);
    rewrite ?Hcnt, ?Ha; rewrite HMAX in *; clear - Hva Hsz Hmax Hpa Hpl; unfold PGSIZE in *; dlia.
  { intros v Hv. apply Hun. unfold cnt, n in *. lia. }
  exists k, r, s', f'. split_and!; [|done| | |lia].
  - unfold mappages, mappages_fuel. fold a. rewrite Hlast. rewrite <- Hrun. f_equal.
    rewrite (proj2 (Z.leb_le _ _)) by (unfold PGSIZE; lia). f_equal.
    replace (a + Z.of_nat cnt * PGSIZE - a) with (Z.of_nat cnt * PGSIZE) by lia.
    rewrite Z.div_mul by done. lia.
  - intros v Hv. rewrite Hm by done. by apply mapped_prefix_page.
  - destruct Hr as [[-> ->]|(-> & ? & ->)]; [left|right]; split_and!; done || (unfold cnt; lia).
Qed.

(** ** User memory as the copy routines see it *)

(** the physical page of a user-accessible address *)
Definition upage (m : gmap Z byte) (pt va : Z) : option Z :=
  let e := pte_at m pt va in
  if has e PTE_V && has e PTE_U then Some (PTE2PA e) else None.

Definition ubyte (m : gmap Z byte) (pt va : Z) : option byte :=
  if decide (0 ≤ va < MAXVA)
  then pa ← upage m pt va; Some (ld8 m (pa + va mod PGSIZE)) else None.

(** an address space: user pages are distinct, and are neither free pages nor
    page-table pages *)
Record uvm_ok (m : gmap Z byte) (pt : Z) (free : list Z) : Prop := {
  uvm_pt : pt_ok m pt free;
  uvm_page va pa : 0 ≤ va < MAXVA → upage m pt va = Some pa →
    valid_page pa ∧ ¬ footprint m pt free pa;
  uvm_inj va va' pa : 0 ≤ va < MAXVA → 0 ≤ va' < MAXVA →
    upage m pt va = Some pa → upage m pt va' = Some pa → va / PGSIZE = va' / PGSIZE
}.

Lemma walkaddr_ok pt va s free :
  pt_ok (ram s) pt free → 0 ≤ va →
  walkaddr pt va s =
    Ok (if decide (va < MAXVA) then default 0 (upage (ram s) pt va) else 0) s.
Proof.
  intros Hpt Hva. unfold walkaddr. case_decide as Hm.
  2: { by rewrite (proj2 (Z.leb_le _ _)) by lia. }
  rewrite (proj2 (Z.leb_gt _ _)) by lia. rewrite (bind_Ok _ _ _ _ _ (walk_lookup _ _ _ (conj Hva Hm))).
  unfold upage, pte_at. destruct (leaf_addr (ram s) pt va) as [a|] eqn:Ea; simpl; [|done].
  pose proof (leaf_addr_pos _ _ _ _ _ Hpt Ea). rewrite (proj2 (Z.eqb_neq a 0)) by lia.
  unfold bind, load64, gets. simpl.
  destruct (has (ld64 (ram s) a) PTE_V); simpl; [|done].
  by destruct (has (ld64 (ram s) a) PTE_U).
Qed.

(** memories that differ in one user page only *)
Definition page_changed (pa : Z) (m m' : gmap Z byte) : Prop :=
  ∀ x, ¬ in_page pa x → ld8 m' x = ld8 m x.

(** the mapping only depends on the table pages *)
Lemma tables_ext m m' pt :
  (∀ id t x, tableid_ok id → table m pt id = Some t → in_page t x → ld8 m' x = ld8 m x) →
  (∀ id, tableid_ok id → table m' pt id = table m pt id) ∧
  (∀ va, pte_at m' pt va = pte_at m pt va) ∧ (ptrs_ok m pt → ptrs_ok m' pt).
Proof.
  intros Hx.
  assert (Htab : ∀ id, tableid_ok id → table m' pt id = table m pt id).
  { apply table_ext; [intros x; by apply (Hx TRoot)|]. intros i t x Hi Ht. by apply (Hx (TL1 i)). }
  split_and!; [done| |].
  - intros va. unfold pte_at, leaf_addr. rewrite Htab by apply leaf_table_ok.
    destruct (table m pt _) as [t0|] eqn:Et0; cbn; [|done].
    apply ld64_ext. intros k Hk. eapply Hx; [apply leaf_table_ok|done|].
    apply entry_in_page; [apply PX_range|done].
  - assert (Hld : ∀ id t i, tableid_ok id → table m pt id = Some t → 0 ≤ i < 512 →
      ld64 m' (t + 8 * i) = ld64 m (t + 8 * i)).
    { intros id t i Hid Ht Hi. apply ld64_ext. intros j Hj.
      apply (Hx id t); [done..|by apply entry_in_page]. }
    intros [Hptr Hup]. split.
    + intros id t i Hid Hnl Ht Hi. rewrite Htab in Ht by done. rewrite (Hld id) by done. by apply (Hptr id).
    + intros i Hi. rewrite (Hld TRoot) by (done || lia). by apply Hup.
Qed.

Lemma page_changed_tables pa m m' pt free :
  pt_ok m pt free → valid_page pa → ¬ footprint m pt free pa → page_changed pa m m' →
  (∀ id, tableid_ok id → table m' pt id = table m pt id) ∧
  (∀ va, pte_at m' pt va = pte_at m pt va) ∧ (ptrs_ok m pt → ptrs_ok m' pt).
Proof.
  intros Hpt Hpa Hfp Hc. apply tables_ext. intros id t x Hid Ht Hx. apply Hc.
  apply (in_page_disjoint t); [by apply (pt_page _ _ _ Hpt id)|done| |done].
  intros ->. apply Hfp. left. eauto.
Qed.

Lemma page_changed_uvm pa m m' pt free :
  uvm_ok m pt free → valid_page pa → ¬ footprint m pt free pa → page_changed pa m m' →
  uvm_ok m' pt free.
Proof.
  intros [Hpt Hpg Hinj] Hpa Hfp Hc.
  destruct (page_changed_tables pa m m' pt free) as (Htab & Hpte & _); [done..|].
  assert (Hup : ∀ va, upage m' pt va = upage m pt va) by (intros; unfold upage; by rewrite Hpte).
  constructor.
  - by apply (pt_ok_tables m).
  - intros va q Hva. rewrite Hup. rewrite (footprint_tables m m') by done. by apply Hpg.
  - intros va va' q Hva Hva'. rewrite !Hup. by apply Hinj.
Qed.

Lemma page_changed_kmem pa s m' free pt :
  kmem_ok s free → valid_page pa → ¬ footprint (ram s) pt free pa → page_changed pa (ram s) m' →
  kmem_ok (mkMachine m' (freelist s)) free.
Proof.
  intros [Hf Hnd] Hpa Hfp Hc. split; [|done]. simpl. apply (free_pages_ext (ram s)); [|done].
  intros q x Hq Hx. apply Hc.
  assert (valid_page q).
  { apply free_pages_valid in Hf. rewrite Forall_forall in Hf. by apply Hf. }
  apply (in_page_disjoint q); [done..|intros ->; apply Hfp; by right|done].
Qed.

(** writing inside the page of [va0] changes exactly those user bytes *)
Lemma ubyte_write m pt free va0 pa off bs va :
  uvm_ok m pt free → 0 ≤ va0 < MAXVA → va0 mod PGSIZE = 0 → upage m pt va0 = Some pa →
  0 ≤ off → off + Z.of_nat (length bs) ≤ PGSIZE →
  let m' := stbytes (pa + off) bs m in
  page_changed pa m m' ∧
  ubyte m' pt va =
    if decide (va0 + off ≤ va < va0 + off + Z.of_nat (length bs))
    then bs !! Z.to_nat (va - (va0 + off)) else ubyte m pt va.
Proof.
  intros Hok Hva0 Hal Hpa Hoff Hlen m'.
  destruct (uvm_page _ _ _ Hok va0 pa Hva0 Hpa) as [Hpv Hpn].
  assert (Hc : page_changed pa m m').
  { intros x Hx. unfold m'. apply ld8_stbytes_out. unfold in_page in Hx. lia. }
  split; [done|].
  destruct (page_changed_tables pa m m' pt free) as (_ & Hpte & _); [apply Hok|done..|].
  assert (Hup : ∀ v, upage m' pt v = upage m pt v) by (intros; unfold upage; by rewrite Hpte).
  assert (HMAX : MAXVA = 274877906944) by done.
  unfold ubyte. rewrite Hup.
  destruct (decide (va0 + off ≤ va < _)) as [Hin|Hin].
  - destruct (decide (0 ≤ va < MAXVA)) as [Hr|Hr]; cycle 1.
    { exfalso. unfold PGSIZE in *. rewrite HMAX in *. dlia. }
    assert (Hsame : upage m pt va = Some pa).
    { rewrite <- Hpa. unfold upage. replace (pte_at m pt va) with (pte_at m pt va0); [done|].
      assert (Hpx : ∀ l, PX l va = PX l va0) by (apply PX_page; unfold PGSIZE in *; dlia).
      unfold pte_at, leaf_addr. by rewrite !Hpx. }
    rewrite Hsame. cbn.
    destruct (bs !! Z.to_nat (va - (va0 + off))) as [b|] eqn:Eb.
    + f_equal. apply (ld8_stbytes_in _ _ _ _ _ _ Eb). unfold PGSIZE in *. dlia.
    + apply lookup_ge_None in Eb. lia.
  - destruct (decide (0 ≤ va < MAXVA)) as [Hr|Hr]; [|done].
    destruct (upage m pt va) as [q|] eqn:Eq; cbn; [|done]. f_equal.
    destruct (decide (q = pa)) as [->|Hq].
    + unfold m'. apply ld8_stbytes_out. intros Hx. apply Hin.
      pose proof (uvm_inj _ _ _ Hok _ _ _ Hva0 Hr Hpa Eq). unfold PGSIZE in *. dlia.
    + destruct (uvm_page _ _ _ Hok va q Hr Eq) as [Hqv _]. apply Hc.
      apply (in_page_disjoint q); [done..|]. unfold in_page, PGSIZE. dlia.
Qed.

Lemma upage_page m pt va va' :
  0 ≤ va → 0 ≤ va' → va / PGSIZE = va' / PGSIZE → upage m pt va = upage m pt va'.
Proof.
  intros Hva Hva' He. unfold upage, pte_at, leaf_addr.
  assert (Hpx : ∀ l, PX l va = PX l va') by (by apply PX_page). by rewrite !Hpx.
Qed.

(** the first page of a copy: mapped, or the copy stops here *)
Lemma walkaddr_round pt va s free :
  uvm_ok (ram s) pt free → 0 ≤ va →
  (walkaddr pt (PGROUNDDOWN va) s = Ok 0 s ∧ ubyte (ram s) pt va = None) ∨
  (∃ pa, walkaddr pt (PGROUNDDOWN va) s = Ok pa s ∧ pa ≠ 0 ∧
     upage (ram s) pt (PGROUNDDOWN va) = Some pa ∧ 0 ≤ PGROUNDDOWN va < MAXVA ∧ va < MAXVA).
Proof.
  intros Hok Hva.
  assert (H0 : 0 ≤ PGROUNDDOWN va) by (rewrite PGROUNDDOWN_eq; unfold PGSIZE; dlia).
  assert (Hlt : PGROUNDDOWN va < MAXVA ↔ va < MAXVA).
  { rewrite PGROUNDDOWN_eq. change MAXVA with 274877906944. unfold PGSIZE. dlia. }
  rewrite (walkaddr_ok pt _ s free) by (apply Hok || done).
  case_decide as Hm.
  - rewrite (upage_page _ _ (PGROUNDDOWN va) va) by (done || by apply PGROUNDDOWN_page).
    destruct (upage (ram s) pt va) as [pa|] eqn:Ep; simpl.
    + right. exists pa. destruct (uvm_page _ _ _ Hok va pa) as [Hv _]; [lia|done|].
      unfold valid_page in Hv. split_and!; try done; lia.
    + left. split; [done|]. unfold ubyte. rewrite decide_True by lia. by rewrite Ep.
  - left. split; [done|]. unfold ubyte. by rewrite decide_False by lia.
Qed.

(** effect of a copy of the bytes [bs] to user address [va] *)
Record user_written (pt : Z) (free : list Z) (va : Z) (bs : list byte) (s s' : machine) : Prop := {
  uw_kmem : kmem_ok s' free;
  uw_uvm : uvm_ok (ram s') pt free;
  uw_pte v : pte_at (ram s') pt v = pte_at (ram s) pt v;
  uw_byte v : ubyte (ram s') pt v =
    if decide (va ≤ v < va + Z.of_nat (length bs)) then bs !! Z.to_nat (v - va) else ubyte (ram s) pt v;
  uw_frame x : (∀ v pa, 0 ≤ v < MAXVA → upage (ram s) pt v = Some pa → ¬ in_page pa x) →
    ld8 (ram s') x = ld8 (ram s) x
}.

Lemma user_written_nil pt free va s :
  kmem_ok s free → uvm_ok (ram s) pt free → user_written pt free va [] s s.
Proof. intros. constructor; try done. intros v. simpl. by rewrite decide_False by lia. Qed.

Lemma user_written_nil_va pt free va va' s s' :
  user_written pt free va [] s s' → user_written pt free va' [] s s'.
Proof.
  intros H1. constructor; try apply H1. intros v. rewrite (uw_byte _ _ _ _ _ _ H1). simpl.
  by rewrite !decide_False by lia.
Qed.

Lemma user_written_app pt free va bs1 bs2 s1 s2 s3 :
  user_written pt free va bs1 s1 s2 →
  user_written pt free (va + Z.of_nat (length bs1)) bs2 s2 s3 →
  user_written pt free va (bs1 ++ bs2) s1 s3.
Proof.
  intros H1 H2. constructor; [apply H2..| | |].
  - intros v. by rewrite (uw_pte _ _ _ _ _ _ H2), (uw_pte _ _ _ _ _ _ H1).
  - intros v. rewrite (uw_byte _ _ _ _ _ _ H2), (uw_byte _ _ _ _ _ _ H1), length_app.
    repeat case_decide; try lia; try done.
    + rewrite lookup_app_r by lia. f_equal. lia.
    + rewrite lookup_app_l by lia. done.
  - intros x Hx. rewrite (uw_frame _ _ _ _ _ _ H2); [by apply (uw_frame _ _ _ _ _ _ H1)|].
    intros v pa Hv Hpa. apply (Hx v); [done|]. rewrite <- Hpa. unfold upage.
    by rewrite (uw_pte _ _ _ _ _ _ H1).
Qed.

Lemma user_write_chunk pt free va0 pa off bs s :
  kmem_ok s free → uvm_ok (ram s) pt free → 0 ≤ va0 < MAXVA → va0 mod PGSIZE = 0 →
  upage (ram s) pt va0 = Some pa → 0 ≤ off → off + Z.of_nat (length bs) ≤ PGSIZE →
  user_written pt free (va0 + off) bs s (s <| ram ::= stbytes (pa + off) bs |>).
Proof.
  intros Hk Hok Hva0 Hal Hpa Hoff Hlen.
  destruct (uvm_page _ _ _ Hok va0 pa Hva0 Hpa) as [Hpv Hpn].
  assert (Hw := λ v, ubyte_write (ram s) pt free va0 pa off bs v Hok Hva0 Hal Hpa Hoff Hlen).
  destruct (Hw 0) as [Hc _]. constructor; simpl.
  - by apply (page_changed_kmem pa s _ free pt).
  - by apply (page_changed_uvm pa (ram s)).
  - apply (page_changed_tables pa (ram s) _ pt free); done || apply Hok.
  - intros v. apply (Hw v).
  - intros x Hx. apply Hc. by apply (Hx va0).
Qed.

Lemma copyout_loop_ok fuel : ∀ pt dstva src s free,
  (length src ≤ fuel)%nat → kmem_ok s free → uvm_ok (ram s) pt free → 0 ≤ dstva →
  ∃ k r s', copyout_loop fuel pt dstva src s = Ok r s' ∧
    user_written pt free dstva (take k src) s s' ∧
    ((r = 0 ∧ k = length src) ∨
     (r = -1 ∧ (k < length src)%nat ∧ ubyte (ram s) pt (dstva + Z.of_nat k) = None)).
Proof.
  induction fuel as [|fuel IH]; intros pt dstva src s free Hf Hk Hok Hd; destruct src as [|b src];
    simpl in Hf; try lia.
  1, 2: exists O, 0, s; split_and!; [done|by apply user_written_nil|by left].
  cbn [copyout_loop]. set (all := b :: src). assert (Hall : (0 < length all)%nat) by (simpl; lia).
  destruct (walkaddr_round pt dstva s free) as [[Hw Hn]|(pa & Hw & Hpa0 & Hpa & Hr & Hm)]; [done..| |].
  { rewrite (bind_Ok _ _ _ _ _ Hw). exists O, (-1), s. split_and!; [done|by apply user_written_nil|].
    right. rewrite Z.add_0_r. done. }
  rewrite (bind_Ok _ _ _ _ _ Hw). rewrite (proj2 (Z.eqb_neq pa 0)) by done.
  set (off := dstva - PGROUNDDOWN dstva).
  assert (Hoff : 0 ≤ off < PGSIZE) by (unfold off; rewrite PGROUNDDOWN_eq; unfold PGSIZE; dlia).
  set (n := Z.min (PGSIZE - off) (Z.of_nat (length all))).
  assert (Hlen : length (take (Z.to_nat n) all) = Z.to_nat n) by (rewrite length_take; lia).
  assert (Hc := user_write_chunk pt free (PGROUNDDOWN dstva) pa off (take (Z.to_nat n) all) s
    Hk Hok Hr (PGROUNDDOWN_aligned _) Hpa ltac:(lia) ltac:(lia)).
  replace (PGROUNDDOWN dstva + off) with dstva in Hc by (unfold off; lia).
  unfold bind at 1, modify. simpl run_bind.
  assert (Hu : u64 (PGROUNDDOWN dstva + PGSIZE) = PGROUNDDOWN dstva + PGSIZE).
  { apply u64_small. change MAXVA with 274877906944 in Hr. unfold PGSIZE. lia. }
  rewrite Hu.
  destruct (IH pt (PGROUNDDOWN dstva + PGSIZE) (drop (Z.to_nat n) all)
    (s <| ram ::= stbytes (pa + off) (take (Z.to_nat n) all) |>) free)
    as (k & r & s' & Hrun & Hwr & Hres); [|apply Hc|apply Hc|lia|].
  { rewrite length_drop. simpl. lia. }
  exists (Z.to_nat n + k)%nat, r, s'. split; [exact Hrun|]. rewrite length_drop in Hres.
  rewrite <- take_take_drop.
  assert (Edst : PGROUNDDOWN dstva + PGSIZE = dstva + Z.of_nat (length (take (Z.to_nat n) all)) ∨
    Z.to_nat n = length all ∧ k = O) by (rewrite Hlen; unfold off in *; lia).
  destruct Edst as [Edst|[En ->]].
  - rewrite Edst in Hwr, Hres. split; [by apply (user_written_app _ _ _ _ _ _ _ _ Hc)|].
    destruct Hres as [[-> ->]|(-> & Hlt & Hu0)]; [left; split; [done|lia]|].
    right. split_and!; [done|lia|]. rewrite (uw_byte _ _ _ _ _ _ Hc) in Hu0.
    rewrite decide_False in Hu0 by lia. rewrite <- Hu0. f_equal. lia.
  - rewrite take_0 in *. apply (user_written_nil_va _ _ _ (dstva + Z.of_nat (length (take (Z.to_nat n) all)))) in Hwr.
    split; [by apply (user_written_app _ _ _ _ _ _ _ _ Hc)|left; lia].
Qed.

Lemma copyout_ok pt dstva src s free :
  kmem_ok s free → uvm_ok (ram s) pt free → 0 ≤ dstva →
  ∃ k r s', copyout pt dstva src s = Ok r s' ∧
    user_written pt free dstva (take k src) s s' ∧
    ((r = 0 ∧ k = length src) ∨
     (r = -1 ∧ (k < length src)%nat ∧ ubyte (ram s) pt (dstva + Z.of_nat k) = None)).
Proof. intros. by apply copyout_loop_ok. Qed.

(** the [n] user bytes at [va] are [bs] *)
Definition user_bytes (m : gmap Z byte) (pt va : Z) (bs : list byte) : Prop :=
  ∀ i, (i < length bs)%nat → ubyte m pt (va + Z.of_nat i) = bs !! i.

Lemma user_bytes_app m pt va bs1 bs2 :
  user_bytes m pt va bs1 → user_bytes m pt (va + Z.of_nat (length bs1)) bs2 →
  user_bytes m pt va (bs1 ++ bs2).
Proof.
  intros H1 H2 i Hi. rewrite length_app in Hi. destruct (decide (i < length bs1)%nat).
  - rewrite lookup_app_l by done. by apply H1.
  - rewrite lookup_app_r by lia. rewrite <- H2 by lia. f_equal. lia.
Qed.

Lemma user_read_chunk m pt va0 pa off n :
  0 ≤ va0 → va0 mod PGSIZE = 0 → va0 < MAXVA → upage m pt va0 = Some pa →
  0 ≤ off → off + Z.of_nat n ≤ PGSIZE → user_bytes m pt (va0 + off) (ldbytes n m (pa + off)).
Proof.
  intros H0 Hal Hm Hpa Hoff Hn i Hi. rewrite length_ldbytes in Hi.
  rewrite ldbytes_lookup by done. unfold ubyte.
  assert (Hd : (va0 + off + Z.of_nat i) / PGSIZE = va0 / PGSIZE ∧
    (va0 + off + Z.of_nat i) mod PGSIZE = off + Z.of_nat i ∧ va0 + off + Z.of_nat i < MAXVA).
  { change MAXVA with 274877906944 in *. unfold PGSIZE in *. dlia. }
  destruct Hd as (Hd & Hmod & Hlt).
  rewrite decide_True by lia. rewrite (upage_page _ _ _ va0), Hpa by (lia || done). simpl.
  rewrite Hmod. f_equal. f_equal. lia.
Qed.

Lemma copyin_loop_ok fuel : ∀ pt srcva len dst s free,
  len ≤ Z.of_nat fuel → 0 ≤ len → uvm_ok (ram s) pt free → 0 ≤ srcva →
  ∃ r bs, copyin_loop fuel pt srcva len dst s = Ok (r, dst ++ bs) s ∧
    user_bytes (ram s) pt srcva bs ∧
    ((r = 0 ∧ Z.of_nat (length bs) = len) ∨
     (r = -1 ∧ Z.of_nat (length bs) < len ∧ ubyte (ram s) pt (srcva + Z.of_nat (length bs)) = None)).
Proof.
  induction fuel as [|fuel IH]; intros pt srcva len dst s free Hf Hlen Hok Hd; cbn [copyin_loop];
    destruct (Z.leb_spec len 0); try lia.
  1, 2: exists 0, []; rewrite app_nil_r; split_and!; [done|intros i Hi; simpl in Hi; lia|left; simpl; lia].
  destruct (walkaddr_round pt srcva s free) as [[Hw Hn]|(pa & Hw & Hpa0 & Hpa & Hr & Hm)]; [done..| |];
    rewrite (bind_Ok _ _ _ _ _ Hw).
  { exists (-1), []. rewrite app_nil_r, Z.add_0_r.
    split_and!; [done|intros i Hi; simpl in Hi; lia|right; simpl; split_and!; [done|lia|done]]. }
  rewrite (proj2 (Z.eqb_neq pa 0)) by done.
  set (off := srcva - PGROUNDDOWN srcva).
  assert (Hoff : 0 ≤ off < PGSIZE) by (unfold off; rewrite PGROUNDDOWN_eq; unfold PGSIZE; dlia).
  set (n := Z.min (PGSIZE - off) len).
  unfold bind at 1, gets. simpl run_bind.
  rewrite (u64_small (PGROUNDDOWN srcva + PGSIZE))
    by (change MAXVA with 274877906944 in Hr; unfold PGSIZE; lia).
  set (bs1 := ldbytes (Z.to_nat n) (ram s) (pa + off)).
  assert (Hbs1 : length bs1 = Z.to_nat n) by apply length_ldbytes.
  assert (Hc : user_bytes (ram s) pt srcva bs1).
  { replace srcva with (PGROUNDDOWN srcva + off) by (unfold off; lia).
    apply user_read_chunk; try done || lia. apply PGROUNDDOWN_aligned. }
  destruct (IH pt (PGROUNDDOWN srcva + PGSIZE) (len - n) (dst ++ bs1) s free)
    as (r & bs & Hrun & Hwr & Hres); [lia|lia|done|lia|].
  exists r, (bs1 ++ bs). split; [by rewrite Hrun, <- app_assoc|]. rewrite length_app.
  assert (Edst : PGROUNDDOWN srcva + PGSIZE = srcva + Z.of_nat (length bs1) ∨ len = n ∧ bs = []).
  { rewrite Hbs1. destruct (decide (len = n)); [right|left; unfold off in *; lia].
    split; [done|]. apply nil_length_inv. lia. }
  destruct Edst as [Edst|[En ->]].
  - rewrite Edst in Hwr, Hres. split; [by apply user_bytes_app|].
    destruct Hres as [[-> ?]|(-> & ? & <-)]; [left; lia|right]. split_and!; [done|lia|f_equal; lia].
  - rewrite app_nil_r. split; [done|left; simpl in *; lia].
Qed.
End Vm.
