(* ===== verification/Uvm.v ===== *)
(** * Address spaces (the user half of src/kernel/vm.c)

    What [uvmcreate], [uvmalloc], [uvmdealloc], [uvmcopy] and [uvmfree] do to
    an address space, seen as the partial function from virtual addresses to
    page flags and contents that its page table encodes, and to the pool of
    physical pages: every page is free, a page-table page or a user page. *)

From S2P Require Import Prelude Mem Riscv Kalloc Vm.

Section Uvm.
Context `{KernelSymbols} {E : Type}.

Abbreviation MM := (M E machine).

(** ** The abstract address space *)

Definition lpage (m : gmap Z byte) (pt va : Z) : option Z :=
  let e := pte_at m pt va in if has e PTE_V then Some (PTE2PA e) else None.

Definition uview (m : gmap Z byte) (pt va : Z) : option (Z * byte) :=
  pa ← lpage m pt va; Some (PTE_FLAGS (pte_at m pt va), ld8 m (pa + va mod PGSIZE)).

Definition is_table (m : gmap Z byte) (pt p : Z) : Prop :=
  ∃ id, tableid_ok id ∧ table m pt id = Some p.

(** the pages an address space is made of; the pages mapped at TRAPFRAME and
    TRAMPOLINE belong to others *)
Definition owns (m : gmap Z byte) (pt p : Z) : Prop :=
  is_table m pt p ∨ ∃ va, 0 ≤ va < TRAPFRAME ∧ lpage m pt va = Some p.

Record aspace (m : gmap Z byte) (pt : Z) (free : list Z) : Prop := {
  as_pt : pt_ok m pt free;
  as_ptr : ptrs_ok m pt;
  as_page va pa : 0 ≤ va < TRAPFRAME → lpage m pt va = Some pa →
    valid_page pa ∧ pa ∉ free ∧ ¬ is_table m pt pa;
  as_leaf va : 0 ≤ va < TRAPFRAME → has (pte_at m pt va) PTE_V = true →
    PTE_FLAGS (pte_at m pt va) ≠ PTE_V;
  as_inj va va' pa : 0 ≤ va < TRAPFRAME → 0 ≤ va' < TRAPFRAME →
    lpage m pt va = Some pa → lpage m pt va' = Some pa → va / PGSIZE = va' / PGSIZE;
  as_top va : TRAPFRAME ≤ va < MAXVA → has (pte_at m pt va) PTE_U = false
}.

Lemma TRAPFRAME_val : TRAPFRAME = 274877898752.
Proof. done. Qed.
Lemma MAXVA_val : MAXVA = 274877906944.
Proof. done. Qed.

Lemma owns_page m pt free p : aspace m pt free → owns m pt p → valid_page p ∧ p ∉ free.
Proof.
  intros Has [(id & Hid & Ht)|(va & Hva & Hp)].
  - by apply (pt_page _ _ _ (as_pt _ _ _ Has) id).
  - by destruct (as_page _ _ _ Has va p Hva Hp) as (? & ? & _).
Qed.

Lemma lpage_page m pt va va' :
  0 ≤ va → 0 ≤ va' → va / PGSIZE = va' / PGSIZE →
  pte_at m pt va = pte_at m pt va' ∧ lpage m pt va = lpage m pt va'.
Proof.
  intros Hva Hva' He. assert (Hpx : ∀ l, PX l va = PX l va') by (by apply PX_page).
  unfold lpage, pte_at, leaf_addr. by rewrite !Hpx.
Qed.

(** ** Frame: an address space only depends on the pages it owns *)

Lemma aspace_frame m m' pt free free' :
  aspace m pt free →
  (∀ p x, owns m pt p → in_page p x → ld8 m' x = ld8 m x) →
  (∀ p, owns m pt p → p ∉ free') →
  aspace m' pt free' ∧ (∀ p, owns m' pt p ↔ owns m pt p) ∧
  (∀ va, pte_at m' pt va = pte_at m pt va) ∧
  (∀ va, 0 ≤ va < TRAPFRAME → uview m' pt va = uview m pt va).
Proof.
  intros Has Hm Hf.
  destruct (tables_ext m m' pt) as (Htab & Hpte & Hptr).
  { intros id t x Hid Ht. apply Hm. left. by exists id. }
  assert (Hl : ∀ va, lpage m' pt va = lpage m pt va) by (intros; unfold lpage; by rewrite Hpte).
  assert (Hist : ∀ p, is_table m' pt p ↔ is_table m pt p).
  { intros p. unfold is_table. f_equiv. intros id. split; intros [Hid Ht]; (split; [done|]);
      [by rewrite <- Htab|by rewrite Htab]. }
  assert (Hown : ∀ p, owns m' pt p ↔ owns m pt p).
  { intros p. unfold owns. rewrite Hist. f_equiv. f_equiv. intros va. by rewrite Hl. }
  split_and!; [constructor| | |]; try done.
  - constructor.
    + intros id t Hid Ht. rewrite Htab in Ht by done. split.
      * by apply (pt_page _ _ _ (as_pt _ _ _ Has) id).
      * apply Hf. left. by exists id.
    + intros id id' t Hid Hid'. rewrite !Htab by done. by apply Has.
  - apply Hptr, Has.
  - intros va pa Hva. rewrite Hl, Hist. intros Hp.
    destruct (as_page _ _ _ Has va pa Hva Hp) as (? & _ & ?). split_and!; [done| |done].
    apply Hf. right. by exists va.
  - intros va. rewrite Hpte. apply Has.
  - intros va va' pa. rewrite !Hl. apply Has.
  - intros va. rewrite Hpte. apply Has.
  - intros va Hva. unfold uview. rewrite Hl, Hpte.
    destruct (lpage m pt va) as [pa|] eqn:El; cbn; [|done]. do 2 f_equal.
    apply (Hm pa); [right; by exists va|]. unfold in_page, PGSIZE. dlia.
Qed.

(** ** Steps of an address space *)

Record as_step (pt : Z) (s : machine) (free : list Z) (s' : machine) (free' : list Z) : Prop := {
  st_kmem : kmem_ok s' free';
  st_as : aspace (ram s') pt free';
  st_own p : p ∈ free' ∨ owns (ram s') pt p ↔ p ∈ free ∨ owns (ram s) pt p;
  st_frame x : (∀ p, p ∈ free ∨ owns (ram s) pt p → ¬ in_page p x) → ld8 (ram s') x = ld8 (ram s) x;
  st_top va : TRAPFRAME ≤ va < MAXVA → pte_at (ram s') pt va = pte_at (ram s) pt va
}.

Lemma as_step_refl pt s free : kmem_ok s free → aspace (ram s) pt free → as_step pt s free s free.
Proof. by constructor. Qed.

Lemma as_step_trans pt s1 f1 s2 f2 s3 f3 :
  as_step pt s1 f1 s2 f2 → as_step pt s2 f2 s3 f3 → as_step pt s1 f1 s3 f3.
Proof.
  intros H1 H2. constructor; [apply H2..| | |].
  - intros p. by rewrite (st_own _ _ _ _ _ H2), (st_own _ _ _ _ _ H1).
  - intros x Hx. rewrite (st_frame _ _ _ _ _ H2).
    + by apply (st_frame _ _ _ _ _ H1).
    + intros p Hp. apply Hx. by apply (st_own _ _ _ _ _ H1).
  - intros va Hva. by rewrite (st_top _ _ _ _ _ H2), (st_top _ _ _ _ _ H1).
Qed.

(** another address space, with none of the pages involved, does not notice *)
Lemma as_step_other pt pt' s free s' free' :
  as_step pt s free s' free' → kmem_ok s free → aspace (ram s) pt free → aspace (ram s) pt' free →
  (∀ p, owns (ram s) pt' p → ¬ owns (ram s) pt p) →
  aspace (ram s') pt' free' ∧ (∀ p, owns (ram s') pt' p ↔ owns (ram s) pt' p) ∧
  (∀ p, owns (ram s') pt' p → ¬ owns (ram s') pt p) ∧
  (∀ va, pte_at (ram s') pt' va = pte_at (ram s) pt' va) ∧
  (∀ va, 0 ≤ va < TRAPFRAME → uview (ram s') pt' va = uview (ram s) pt' va).
Proof.
  intros Hst Hk Has Has' Hd.
  destruct (aspace_frame (ram s) (ram s') pt' free free') as (Ha & Ho & Hpte & Hv); [done| | |].
  - intros p x Hp Hx. destruct (owns_page _ _ _ _ Has' Hp) as [Hpv Hpf].
    apply (st_frame _ _ _ _ _ Hst). intros q Hq.
    assert (valid_page q ∧ q ≠ p) as [Hqv Hqp].
    { destruct Hq as [Hq|Hq].
      - split; [by apply (kmem_valid s free)|by intros ->].
      - split; [by apply (owns_page _ _ _ _ Has)|]. intros ->. by apply (Hd p). }
    apply (in_page_disjoint p); [done..|congruence|done].
  - intros p Hp Hin. assert (p ∈ free ∨ owns (ram s) pt p) as [Hf|Hf]
      by (apply (st_own _ _ _ _ _ Hst); by left).
    + by destruct (owns_page _ _ _ _ Has' Hp).
    + by apply (Hd p).
  - split_and!; [done..| |done|done]. intros p Hp Hin. apply Ho in Hp.
    assert (p ∈ free ∨ owns (ram s) pt p) as [Hf|Hf]
      by (apply (st_own _ _ _ _ _ Hst); by right).
    + by destruct (owns_page _ _ _ _ Has' Hp).
    + by apply (Hd p).
Qed.

(** ** Adding a page *)

Lemma mk_pte_land pa perm mask :
  0 ≤ mask < 2 ^ 10 → Z.land (mk_pte pa perm) mask = Z.land (Z.lor perm PTE_V) mask.
Proof. intros Hm. unfold mk_pte. rewrite <- Z.lor_assoc. by apply PA2PTE_land. Qed.

Lemma mk_pte_flags pa perm : 0 ≤ perm < 2 ^ 10 → PTE_FLAGS (mk_pte pa perm) = Z.lor perm PTE_V.
Proof.
  intros Hperm. assert (Hp : 0 ≤ Z.lor perm PTE_V < 2 ^ 10).
  { apply lor_range; [lia|done|change PTE_V with 1; lia]. }
  unfold PTE_FLAGS. rewrite mk_pte_land by lia. change 1023 with (Z.ones 10).
  rewrite Z.land_ones by lia. by apply Z.mod_small.
Qed.

Lemma mk_pte_V pa perm : has (mk_pte pa perm) PTE_V = true.
Proof.
  unfold has. rewrite mk_pte_land by (change PTE_V with 1; lia).
  apply negb_true_iff, Z.eqb_neq. rewrite Z.land_lor_distr_l. intros H0.
  by apply Z.lor_eq_0_iff in H0 as [_ H0].
Qed.

Lemma PTE_of_mk_pte pa perm :
  valid_page pa → 0 ≤ perm < 2 ^ 10 →
  has (mk_pte pa perm) PTE_V = true ∧ PTE2PA (mk_pte pa perm) = pa ∧
  PTE_FLAGS (mk_pte pa perm) = Z.lor perm PTE_V.
Proof.
  intros Hpa Hperm. split_and!; [apply mk_pte_V| |by apply mk_pte_flags].
  unfold mk_pte. rewrite <- Z.lor_assoc. apply PTE2PA_PA2PTE; [|apply Hpa|].
  - unfold valid_page, PHYSTOP, KERNBASE in Hpa. lia.
  - apply lor_range; [lia|done|change PTE_V with 1; lia].
Qed.

Lemma vm_ext_tables pt s free s' free' :
  vm_ext pt s free s' free' →
  ∀ q, q ∈ free' ∨ is_table (ram s') pt q ↔ q ∈ free ∨ is_table (ram s) pt q.
Proof. intros He q. pose proof (ext_fp _ _ _ _ _ He q) as Hq. unfold footprint, is_table in *. tauto. Qed.

(** user pages are neither free nor tables, so they keep their contents *)
Lemma vm_ext_bytes pt s free s' free' q x :
  kmem_ok s free → aspace (ram s) pt free → vm_ext pt s free s' free' →
  valid_page q → q ∉ free → ¬ is_table (ram s) pt q → in_page q x → ld8 (ram s') x = ld8 (ram s) x.
Proof.
  intros Hk Has He Hqv Hqf Hqt Hx. apply (ext_frame _ _ _ _ _ He). intros t Ht.
  assert (valid_page t ∧ t ≠ q) as [Htv Htq].
  { destruct Ht as [(id & Hid & Ht)|Ht].
    - split; [by apply (pt_page _ _ _ (as_pt _ _ _ Has) id)|]. intros ->. apply Hqt. by exists id.
    - split; [by apply (kmem_valid s free)|by intros ->]. }
  apply (in_page_disjoint q); [done..|congruence|done].
Qed.

(** how a growth of the tables, with [p] mapped at [va0] when [added], shows
    in the address space *)
Section Grow.
Variables (pt : Z) (s : machine) (free : list Z) (s' : machine) (free' : list Z).
Variables (added : bool) (va0 p perm : Z).
Hypotheses (Hk : kmem_ok s free) (Has : aspace (ram s) pt free) (He : vm_ext pt s free s' free').
Hypothesis Hpte : ∀ va, 0 ≤ va < MAXVA → pte_at (ram s') pt va =
  if decide (added = true ∧ va / PGSIZE = va0 / PGSIZE) then mk_pte p perm else pte_at (ram s) pt va.
Hypotheses (Hva0 : 0 ≤ va0 < TRAPFRAME) (Hnv : has (pte_at (ram s) pt va0) PTE_V = false).
Hypotheses (Hp : valid_page p) (Hpf : p ∉ free) (Hpo : ¬ owns (ram s) pt p).
Hypotheses (Hperm : 0 ≤ perm < 2 ^ 10) (Hleaf : Z.lor perm PTE_V ≠ PTE_V).

Lemma grow_lpage va : 0 ≤ va < TRAPFRAME → lpage (ram s') pt va =
  if decide (added = true ∧ va / PGSIZE = va0 / PGSIZE) then Some p else lpage (ram s) pt va.
Proof.
  intros Hva. unfold lpage. rewrite Hpte by (rewrite TRAPFRAME_val, MAXVA_val in *; lia).
  destruct (decide (added = true ∧ _)); [|done].
  by destruct (PTE_of_mk_pte p perm Hp Hperm) as (-> & -> & _).
Qed.

Lemma grow_none va : 0 ≤ va → va / PGSIZE = va0 / PGSIZE → lpage (ram s) pt va = None.
Proof.
  intros Hva Heq. destruct (lpage_page (ram s) pt va va0) as [_ ->]; [lia..|done|].
  unfold lpage. by rewrite Hnv.
Qed.

Lemma grow_new va q : 0 ≤ va < TRAPFRAME → lpage (ram s') pt va = Some q →
  (added = true ∧ va / PGSIZE = va0 / PGSIZE ∧ q = p) ∨ (lpage (ram s) pt va = Some q ∧ q ≠ p).
Proof.
  intros Hva Hq. rewrite grow_lpage in Hq by done. case_if_in Hq.
  - left. split_and!; [apply E0|apply E0|congruence].
  - right. split; [done|]. intros ->. apply Hpo. right. eauto.
Qed.

Lemma grow_page va q : 0 ≤ va < TRAPFRAME → lpage (ram s') pt va = Some q →
  valid_page q ∧ q ∉ free ∧ ¬ is_table (ram s) pt q.
Proof.
  intros Hva Hq. destruct (grow_new va q Hva Hq) as [(_ & _ & ->)|[Hq' _]].
  - split_and!; [done|done|]. intros Ht. apply Hpo. by left.
  - by apply (as_page _ _ _ Has va).
Qed.

Lemma grow_aspace : aspace (ram s') pt free'.
Proof.
  assert (Hlt : TRAPFRAME < MAXVA) by done.
  constructor; [apply He|apply (ext_ptr _ _ _ _ _ He), Has|..].
  - intros va q Hva Hq. destruct (grow_page va q Hva Hq) as (? & ? & ?).
    pose proof (vm_ext_tables _ _ _ _ _ He q). split_and!; [done|tauto..].
  - intros va Hva. rewrite Hpte by lia. case_if; [|by apply Has].
    by destruct (PTE_of_mk_pte p perm Hp Hperm) as (_ & _ & ->).
  - intros va va' q Hva Hva' Hq Hq'.
    destruct (grow_new va q Hva Hq) as [(_ & E1 & Eq1)|[Hq1 ?]];
      destruct (grow_new va' q Hva' Hq') as [(_ & E2 & Eq2)|[Hq2 ?]]; try congruence.
    exact (as_inj _ _ _ Has _ _ _ Hva Hva' Hq1 Hq2).
  - intros va Hva. rewrite Hpte, decide_False; [by apply Has| |rewrite TRAPFRAME_val in *; lia].
    intros [_ Heq]. rewrite TRAPFRAME_val in *. unfold PGSIZE in *. dlia.
Qed.

Lemma grow_owns q :
  q ∈ free' ∨ owns (ram s') pt q ↔ q ∈ free ∨ owns (ram s) pt q ∨ added = true ∧ q = p.
Proof.
  unfold owns. assert (Hu : (∃ va, 0 ≤ va < TRAPFRAME ∧ lpage (ram s') pt va = Some q) ↔
    (∃ va, 0 ≤ va < TRAPFRAME ∧ lpage (ram s) pt va = Some q) ∨ (added = true ∧ q = p)).
  { split.
    - intros (va & Hva & Hq). destruct (grow_new va q Hva Hq) as [(? & _ & ?)|[? _]]; eauto.
    - intros [(va & Hva & Hq)|[Ha ->]].
      + exists va. split; [done|]. rewrite grow_lpage by done. rewrite decide_False; [done|].
        intros [_ Heq]. rewrite grow_none in Hq by (lia || done). done.
      + exists va0. split; [done|]. by rewrite grow_lpage, decide_True. }
  pose proof (vm_ext_tables _ _ _ _ _ He q). tauto.
Qed.

Lemma grow_view va : 0 ≤ va < TRAPFRAME → uview (ram s') pt va =
  if decide (added = true ∧ va / PGSIZE = va0 / PGSIZE)
  then Some (Z.lor perm PTE_V, ld8 (ram s) (p + va mod PGSIZE)) else uview (ram s) pt va.
Proof.
  intros Hva. unfold uview.
  assert (Hb : ∀ q, lpage (ram s') pt va = Some q →
    ld8 (ram s') (q + va mod PGSIZE) = ld8 (ram s) (q + va mod PGSIZE)).
  { intros q Hq. destruct (grow_page va q Hva Hq) as (Hqv & Hqf & Hqt).
    apply (vm_ext_bytes pt s free s' free' q); [done..|]. unfold in_page, PGSIZE. dlia. }
  rewrite Hpte by (rewrite TRAPFRAME_val, MAXVA_val in *; lia).
  rewrite grow_lpage in * by done. case_if; cbn.
  - destruct (PTE_of_mk_pte p perm Hp Hperm) as (_ & _ & ->). by rewrite Hb.
  - destruct (lpage (ram s) pt va) as [q|]; cbn; [by rewrite Hb|done].
Qed.
End Grow.

Lemma mappages_page pt va p perm s free :
  kmem_ok s free → pt_ok (ram s) pt free → 0 ≤ va < MAXVA → va mod PGSIZE = 0 →
  has (pte_at (ram s) pt va) PTE_V = false → 0 ≤ p < 2 ^ 56 → 0 ≤ perm < 2 ^ 10 →
  ∃ (added : bool) s' free',
    mappages (E := E) pt va PGSIZE p perm s = Ok (if added then 0 else -1) s' ∧
    vm_ext pt s free s' free' ∧
    (∀ v, 0 ≤ v < MAXVA → pte_at (ram s') pt v =
       if decide (added = true ∧ v / PGSIZE = va / PGSIZE) then mk_pte p perm
       else pte_at (ram s) pt v) ∧
    (added = false → free' = []) ∧ (length free ≤ length free' + 2)%nat.
Proof.
  intros Hk Hpt Hva Hal Hnv Hp Hperm.
  assert (Hlast : (va + PGSIZE - 1) / PGSIZE = va / PGSIZE) by (unfold PGSIZE in *; dlia).
  destruct (mappages_ok (E := E) pt va PGSIZE p perm s free)
    as (k & r & s' & f' & Hrun & He & Hm & Hr & Hc); rewrite ?Hlast in *; try done.
  - lia.
  - lia.
  - rewrite MAXVA_val in *. unfold PGSIZE in *. dlia.
  - lia.
  - unfold PGSIZE in *. lia.
  - intros v Hv. destruct (lpage_page (ram s) pt v va) as [-> _]; [|lia|lia|done].
    unfold PGSIZE in *. dlia.
  - exists (r =? 0), s', f'. destruct Hr as [[-> ->]|(-> & Hk0 & ->)]; simpl;
      (split_and!; [done|done| |done|simpl in *; lia]); intros v Hv; rewrite Hm by done;
      unfold mapped_prefix; repeat case_if; try done || lia.
    f_equal. lia.
Qed.

(** [kalloc] and the stores that fill the new page, for an address space *)
Lemma alloc_fill pt s p ps (fill : Z → MM unit) (g : Z → byte) :
  kmem_ok s (p :: ps) → aspace (ram s) pt (p :: ps) →
  (∀ s1, (∀ x, ¬ in_page p x → ld8 (ram s1) x = ld8 (ram s) x) →
    ∃ m2, fill p s1 = Ok tt (mkMachine m2 (freelist s1)) ∧ page_changed p (ram s1) m2 ∧
      ∀ i, 0 ≤ i < PGSIZE → ld8 m2 (p + i) = g i) →
  ∃ s1 s2, kalloc (E := E) s = Ok p s1 ∧ fill p s1 = Ok tt s2 ∧ p ≠ 0 ∧
    valid_page p ∧ p ∉ ps ∧ kmem_ok s2 ps ∧ page_changed p (ram s) (ram s2) ∧
    (∀ i, 0 ≤ i < PGSIZE → ld8 (ram s2) (p + i) = g i).
Proof.
  intros Hk Has Hfill.
  destruct (kalloc_ok (E := E) s (p :: ps) Hk) as (s1 & Hs1 & Hk1 & Hp & Hnp & Hfr).
  destruct (Hfill s1) as (m2 & Hm2 & Hpc & Hg); [done|].
  exists s1, (mkMachine m2 (freelist s1)). split_and!; try done.
  - unfold valid_page in Hp. lia.
  - split; [|apply Hk1]. simpl. apply (free_pages_ext (ram s1)); [|apply Hk1].
    intros q x Hq Hx. apply Hpc. apply (in_page_disjoint q); [by apply (kmem_valid s1 ps)|done| |done].
    by intros ->.
  - intros x Hx. simpl. rewrite Hpc by done. by apply Hfr.
Qed.

(** the body shared by the loops of [uvmalloc] and [uvmcopy] *)
Definition add_page {A} (pt va perm : Z) (fill : Z → MM unit) (fail ok : MM A) : MM A :=
  let* mem := kalloc in
  if mem =? 0 then fail
  else
    fill mem ;;;
    let* r := mappages pt va PGSIZE mem perm in
    if negb (r =? 0) then kfree mem ;;; fail else ok.

Record page_added (pt va perm : Z) (g : Z → byte) (s : machine) (free : list Z) (b : bool)
    (s' : machine) (free' : list Z) : Prop := {
  pa_step : as_step pt s free s' free';
  pa_view v : 0 ≤ v < TRAPFRAME → uview (ram s') pt v =
    if decide (b = true ∧ va ≤ v < va + PGSIZE)
    then Some (Z.lor perm PTE_V, g (v mod PGSIZE)) else uview (ram s) pt v;
  pa_fail : b = false → (length free ≤ 3)%nat;
  pa_cost : (length free ≤ length free' + 3)%nat
}.

(** a page taken from the free list and filled, not yet mapped *)
Record page_taken (pt : Z) (s : machine) (p : Z) (ps : list Z) (s2 : machine) : Prop := {
  pk_kmem : kmem_ok s (p :: ps);
  pk_as : aspace (ram s) pt (p :: ps);
  pk_valid : valid_page p;
  pk_fresh : p ∉ ps;
  pk_kmem2 : kmem_ok s2 ps;
  pk_same : page_changed p (ram s) (ram s2)
}.

Lemma page_taken_ok pt s p ps s2 :
  page_taken pt s p ps s2 →
  ¬ owns (ram s) pt p ∧ aspace (ram s2) pt ps ∧ (∀ q, owns (ram s2) pt q ↔ owns (ram s) pt q) ∧
  (∀ va, pte_at (ram s2) pt va = pte_at (ram s) pt va) ∧
  (∀ va, 0 ≤ va < TRAPFRAME → uview (ram s2) pt va = uview (ram s) pt va).
Proof.
  intros [Hk Has Hp Hnp Hk2 Hpc].
  assert (Ho : ∀ q, owns (ram s) pt q → valid_page q ∧ q ≠ p ∧ q ∉ ps).
  { intros q Hq. destruct (owns_page _ _ _ _ Has Hq). set_solver. }
  split; [by intros Hq; destruct (Ho p Hq) as (_ & ? & _)|].
  apply (aspace_frame (ram s) (ram s2) pt (p :: ps) ps); [done| |].
  - intros q x Hq Hx. apply Hpc. destruct (Ho q Hq) as (? & ? & ?). by apply (in_page_disjoint q).
  - intros q Hq. by apply Ho.
Qed.

Lemma page_mapped pt va perm g s p ps s2 s3 f3 :
  page_taken pt s p ps s2 → (∀ i, 0 ≤ i < PGSIZE → ld8 (ram s2) (p + i) = g i) →
  0 ≤ va < TRAPFRAME → va mod PGSIZE = 0 → has (pte_at (ram s) pt va) PTE_V = false →
  0 ≤ perm < 2 ^ 10 → Z.lor perm PTE_V ≠ PTE_V →
  vm_ext pt s2 ps s3 f3 →
  (∀ v, 0 ≤ v < MAXVA → pte_at (ram s3) pt v =
     if decide (true = true ∧ v / PGSIZE = va / PGSIZE) then mk_pte p perm else pte_at (ram s2) pt v) →
  (length ps ≤ length f3 + 2)%nat →
  page_added pt va perm g s (p :: ps) true s3 f3.
Proof.
  intros Htk Hg Hva Hal Hnv Hperm Hleaf He Hpte Hcost.
  destruct (page_taken_ok _ _ _ _ _ Htk) as (Hpo & Has2 & Ho2 & Hpte2 & Hv2).
  destruct Htk as [Hk Has Hp Hnp Hk2 Hpc]. rewrite <- Hpte2 in Hnv. rewrite <- Ho2 in Hpo.
  constructor; [constructor|..]; [apply He| | | | | |done|simpl; lia].
  - by apply (grow_aspace pt s2 ps s3 f3 true va p perm).
  - intros q. rewrite (grow_owns pt s2 ps s3 f3 true va p perm), Ho2 by done. set_solver.
  - intros x Hx. rewrite (ext_frame _ _ _ _ _ He), Hpc; [done|apply Hx; set_solver|].
    intros t [(id & Hid & Ht)|Ht]; apply Hx; [right|set_solver].
    apply Ho2. left. by exists id.
  - intros v Hv. rewrite Hpte, decide_False; [by apply Hpte2| |rewrite TRAPFRAME_val in *; lia].
    intros [_ Heq]. rewrite TRAPFRAME_val in *. unfold PGSIZE in *. dlia.
  - intros v Hv. rewrite (grow_view pt s2 ps s3 f3 true va p perm) by done.
    pose proof (same_page va v Hal). repeat case_if; try tauto; [|by apply Hv2].
    rewrite Hg; [done|]. unfold PGSIZE. dlia.
Qed.

Lemma page_returned pt va perm g s p ps s2 s3 :
  page_taken pt s p ps s2 → 0 ≤ va < TRAPFRAME → has (pte_at (ram s) pt va) PTE_V = false →
  0 ≤ perm < 2 ^ 10 → Z.lor perm PTE_V ≠ PTE_V →
  vm_ext pt s2 ps s3 [] →
  (∀ v, 0 ≤ v < MAXVA → pte_at (ram s3) pt v =
     if decide (false = true ∧ v / PGSIZE = va / PGSIZE) then mk_pte p perm else pte_at (ram s2) pt v) →
  (length ps ≤ 2)%nat →
  ∃ s4, kfree (E := E) p s3 = Ok tt s4 ∧ page_added pt va perm g s (p :: ps) false s4 [p].
Proof.
  intros Htk Hva Hnv Hperm Hleaf He Hpte Hcost.
  destruct (page_taken_ok _ _ _ _ _ Htk) as (Hpo & Has2 & Ho2 & Hpte2 & Hv2).
  destruct Htk as [Hk Has Hp Hnp Hk2 Hpc]. rewrite <- Hpte2 in Hnv. rewrite <- Ho2 in Hpo.
  assert (Has3 : aspace (ram s3) pt []) by (by apply (grow_aspace pt s2 ps s3 [] false va p perm)).
  assert (Ho3 : ∀ q, q ∈ [] ∨ owns (ram s3) pt q ↔ q ∈ ps ∨ owns (ram s2) pt q ∨ false = true ∧ q = p)
    by (intros q; by apply (grow_owns pt s2 ps s3 [] false va p perm)).
  assert (Hv3 : ∀ v, 0 ≤ v < TRAPFRAME → uview (ram s3) pt v = uview (ram s2) pt v).
  { intros v Hv. rewrite (grow_view pt s2 ps s3 [] false va p perm) by done.
    by rewrite decide_False by (by intros [? _]). }
  destruct (kfree_ok (E := E) s3 p []) as (s4 & Hs4 & Hk4 & Hfr4); [apply He|done|set_solver|].
  exists s4. split; [done|].
  assert (Hne : ∀ q, owns (ram s3) pt q → valid_page q ∧ q ≠ p).
  { intros q Hq. split; [by apply (owns_page _ _ _ _ Has3)|]. intros ->.
    destruct (proj1 (Ho3 p) (or_intror Hq)) as [?|[?|[? _]]]; done. }
  destruct (aspace_frame (ram s3) (ram s4) pt [] [p]) as (Has4 & Ho4 & Hpte4 & Hv4); [done| | |].
  { intros q x Hq Hx. apply Hfr4. destruct (Hne q Hq). by apply (in_page_disjoint q). }
  { intros q Hq. destruct (Hne q Hq). set_solver. }
  constructor; [constructor|..]; [done|done| | | | |simpl; lia|simpl; lia].
  - intros q. rewrite Ho4. specialize (Ho3 q). rewrite Ho2 in Ho3.
    rewrite elem_of_nil in Ho3. rewrite list_elem_of_singleton, elem_of_cons.
    assert (Hf : false ≠ true) by done. clear - Ho3 Hf. tauto.
  - intros x Hx. rewrite Hfr4, (ext_frame _ _ _ _ _ He), Hpc; [done|apply Hx; set_solver| |apply Hx; set_solver].
    intros t [(id & Hid & Ht)|Ht]; apply Hx; [right|set_solver]. apply Ho2. left. by exists id.
  - intros v Hv. rewrite Hpte4, Hpte, decide_False by (rewrite TRAPFRAME_val in *; lia || by intros [? _]).
    by apply Hpte2.
  - intros v Hv. rewrite decide_False by (by intros [? _]). rewrite Hv4, Hv3 by done.
    by apply Hv2.
Qed.

Lemma add_page_ok A pt va perm (fill : Z → MM unit) g s free :
  kmem_ok s free → aspace (ram s) pt free → 0 ≤ va < TRAPFRAME → va mod PGSIZE = 0 →
  has (pte_at (ram s) pt va) PTE_V = false → 0 ≤ perm < 2 ^ 10 → Z.lor perm PTE_V ≠ PTE_V →
  (∀ p s1, p ∈ free → (∀ x, ¬ in_page p x → ld8 (ram s1) x = ld8 (ram s) x) →
    ∃ m2, fill p s1 = Ok tt (mkMachine m2 (freelist s1)) ∧ page_changed p (ram s1) m2 ∧
      ∀ i, 0 ≤ i < PGSIZE → ld8 m2 (p + i) = g i) →
  ∃ b s' free', page_added pt va perm g s free b s' free' ∧
    ∀ fail ok : MM A, add_page pt va perm fill fail ok s = if b then ok s' else fail s'.
Proof.
  intros Hk Has Hva Hal Hnv Hperm Hleaf Hfill. assert (HTM : TRAPFRAME < MAXVA) by done.
  destruct free as [|p ps].
  { exists false, s, []. split.
    - constructor; [by apply as_step_refl| |simpl; lia|simpl; lia].
      intros v Hv. by rewrite decide_False by (by intros [? _]).
    - intros fail ok. unfold add_page. by rewrite (bind_Ok _ _ _ _ _ (kalloc_ok s [] Hk)). }
  destruct (alloc_fill pt s p ps fill g) as (s1 & s2 & Hs1 & Hs2 & Hp0 & Hp & Hnp & Hk2 & Hpc & Hg);
    [done|done|intros; apply Hfill; [set_solver|done]|].
  assert (Htk : page_taken pt s p ps s2) by done.
  destruct (page_taken_ok _ _ _ _ _ Htk) as (Hpo & Has2 & _ & Hpte2 & _).
  destruct (mappages_page pt va p perm s2 ps) as (b & s3 & f3 & Hmap & He3 & Hpte3 & Hf3 & Hc3);
    [done|apply Has2|lia|done|by rewrite Hpte2|unfold valid_page, PHYSTOP, KERNBASE in Hp; lia|done|].
  assert (Hrun : ∀ fail ok : MM A, add_page pt va perm fill fail ok s =
    if b then ok s3 else (kfree p ;;; fail) s3).
  { intros fail ok. unfold add_page. rewrite (bind_Ok _ _ _ _ _ Hs1).
    rewrite (proj2 (Z.eqb_neq p 0)) by done. rewrite (bind_Ok _ _ _ _ _ Hs2), (bind_Ok _ _ _ _ _ Hmap).
    by destruct b. }
  destruct b.
  - exists true, s3, f3. split; [by apply (page_mapped pt va perm g s p ps s2)|done].
  - rewrite (Hf3 eq_refl) in *.
    destruct (page_returned pt va perm g s p ps s2 s3) as (s4 & Hs4 & Hadd); try done.
    exists false, s4, [p]. split; [done|]. intros fail ok. by rewrite Hrun, (bind_Ok _ _ _ _ _ Hs4).
Qed.

(** ** Removing pages *)

Section Del.
Variables (pt a pa : Z) (s s1 s2 : machine) (free : list Z).
Hypotheses (Hk : kmem_ok s free) (Has : aspace (ram s) pt free).
Hypotheses (Ha : 0 ≤ a < TRAPFRAME) (Hl : lpage (ram s) pt a = Some pa).
Hypothesis Hfr1 : page_changed pa (ram s) (ram s1).
Hypothesis He : vm_ext pt s1 (pa :: free) s2 (pa :: free).
Hypothesis Hset : leaf_set pt a 0 (ram s1) (ram s2).

Lemma del_page_valid : valid_page pa ∧ pa ∉ free ∧ ¬ is_table (ram s) pt pa.
Proof. by apply (as_page _ _ _ Has a). Qed.

Lemma del_tables :
  (∀ id, tableid_ok id → table (ram s2) pt id = table (ram s) pt id) ∧
  (∀ v, 0 ≤ v < MAXVA → pte_at (ram s2) pt v =
     if decide (v / PGSIZE = a / PGSIZE) then 0 else pte_at (ram s) pt v) ∧ ptrs_ok (ram s2) pt.
Proof.
  destruct del_page_valid as (Hv & Hf & Ht).
  destruct (page_changed_tables pa (ram s) (ram s1) pt free) as (Htab & Hpte & Hptr);
    [apply Has|done| |done|].
  { unfold footprint. unfold is_table in Ht. tauto. }
  split_and!.
  - intros id Hid. by rewrite (leaf_tables _ _ _ _ _ Hset), Htab.
  - intros v Hv'. rewrite (leaf_at _ _ _ _ _ Hset) by done. by rewrite Hpte.
  - apply (ext_ptr _ _ _ _ _ He), Hptr, Has.
Qed.

Lemma del_lpage v : 0 ≤ v < TRAPFRAME → lpage (ram s2) pt v =
  if decide (v / PGSIZE = a / PGSIZE) then None else lpage (ram s) pt v.
Proof.
  intros Hv. unfold lpage. destruct del_tables as (_ & Hpte & _).
  rewrite Hpte by (rewrite TRAPFRAME_val, MAXVA_val in *; lia). by destruct (decide _).
Qed.

Lemma del_lpage_Some v q : 0 ≤ v < TRAPFRAME →
  lpage (ram s2) pt v = Some q ↔ lpage (ram s) pt v = Some q ∧ q ≠ pa.
Proof.
  intros Hv. rewrite del_lpage by done. destruct (decide _) as [Hd|Hd].
  - destruct (lpage_page (ram s) pt v a) as [_ ->]; [lia..|done|]. split; [done|].
    intros [Hq Hn]. congruence.
  - split; [|by intros [? _]]. intros Hq. split; [done|]. intros ->. apply Hd.
    by apply (as_inj _ _ _ Has _ _ pa).
Qed.

Lemma del_is_table q : is_table (ram s2) pt q ↔ is_table (ram s) pt q.
Proof.
  destruct del_tables as (Htab & _). unfold is_table. f_equiv. intros id.
  split; intros [Hid Ht]; (split; [done|]); [by rewrite <- Htab|by rewrite Htab].
Qed.

Lemma del_aspace : aspace (ram s2) pt (pa :: free).
Proof.
  destruct del_tables as (Htab & Hpte & Hptr). assert (Hlt : TRAPFRAME < MAXVA) by done.
  constructor; [apply He|done|..].
  - intros v q Hv. rewrite del_lpage_Some, del_is_table by done. intros [Hq Hne].
    destruct (as_page _ _ _ Has v q Hv Hq) as (? & ? & ?). split_and!; [done|set_solver|done].
  - intros v Hv. rewrite Hpte by lia. case_if; [done|by apply Has].
  - intros v v' q Hv Hv'. rewrite !del_lpage_Some by done. intros [? _] [? _].
    by apply (as_inj _ _ _ Has _ _ q).
  - intros v Hv. rewrite Hpte by (rewrite TRAPFRAME_val in *; lia). case_if; [done|by apply Has].
Qed.

Lemma del_owns q : q ∈ pa :: free ∨ owns (ram s2) pt q ↔ q ∈ free ∨ owns (ram s) pt q.
Proof.
  unfold owns. rewrite del_is_table, elem_of_cons.
  assert (Hu : q = pa ∨ (∃ va, 0 ≤ va < TRAPFRAME ∧ lpage (ram s2) pt va = Some q) ↔
    ∃ va, 0 ≤ va < TRAPFRAME ∧ lpage (ram s) pt va = Some q); [|tauto].
  split.
  - intros [->|(va & Hva & Hq)]; [eauto|]. apply del_lpage_Some in Hq as [? _]; eauto.
  - intros (va & Hva & Hq). destruct (decide (q = pa)) as [->|]; [by left|right].
    exists va. split; [done|]. by apply del_lpage_Some.
Qed.

Lemma del_frame x :
  ¬ in_page pa x → (∀ t, is_table (ram s) pt t → ¬ in_page t x) → (∀ t, t ∈ free → ¬ in_page t x) →
  ld8 (ram s2) x = ld8 (ram s) x.
Proof.
  intros Hx Ht Hf. rewrite (ext_frame _ _ _ _ _ He), Hfr1; [done|done|].
  destruct (page_changed_tables pa (ram s) (ram s1) pt free) as (Htab & _);
    [apply Has|apply del_page_valid| |done|].
  { destruct del_page_valid as (_ & ? & ?). unfold footprint. unfold is_table in *. tauto. }
  intros t [(id & Hid & Hid')|Hin]; [|set_solver].
  apply Ht. exists id. by rewrite <- Htab.
Qed.

Lemma del_step : as_step pt s free s2 (pa :: free).
Proof.
  constructor; [apply He|apply del_aspace|apply del_owns| |].
  - intros x Hx. apply del_frame.
    + apply Hx. right. right. eauto.
    + intros t Ht. apply Hx. right. by left.
    + intros t Ht. apply Hx. by left.
  - intros v Hv. destruct del_tables as (_ & Hpte & _).
    rewrite Hpte, decide_False; [done| |rewrite TRAPFRAME_val in *; lia]. rewrite TRAPFRAME_val in *. unfold PGSIZE. dlia.
Qed.

Lemma del_view v : 0 ≤ v < TRAPFRAME → uview (ram s2) pt v =
  if decide (v / PGSIZE = a / PGSIZE) then None else uview (ram s) pt v.
Proof.
  intros Hv. unfold uview. pose proof (del_lpage v Hv) as Hl2.
  destruct del_tables as (_ & Hpte & _). rewrite Hpte by (rewrite TRAPFRAME_val, MAXVA_val in *; lia).
  destruct (decide _) as [Hd|Hd]; rewrite Hl2; [done|].
  destruct (lpage (ram s) pt v) as [q|] eqn:Eq; cbn; [|done]. do 2 f_equal.
  destruct (as_page _ _ _ Has v q Hv Eq) as (Hqv & Hqf & Hqt).
  assert (Hin : in_page q (q + v mod PGSIZE)) by (unfold in_page, PGSIZE; dlia).
  apply del_frame.
  - apply (in_page_disjoint q); [done|apply del_page_valid| |done]. intros ->. apply Hd.
    by apply (as_inj _ _ _ Has _ _ pa).
  - intros t Ht. apply (in_page_disjoint q); [done| |by intros ->|done].
    apply (owns_page _ _ _ _ Has). by left.
  - intros t Ht. apply (in_page_disjoint q); [done|by apply (kmem_valid s free)|by intros ->|done].
Qed.
End Del.

Lemma leaf_addr_of_page m pt va pa :
  lpage m pt va = Some pa →
  ∃ la, leaf_addr m pt va = Some la ∧ ld64 m la = pte_at m pt va ∧ has (pte_at m pt va) PTE_V = true ∧
    PTE2PA (pte_at m pt va) = pa.
Proof.
  unfold lpage, pte_at. destruct (leaf_addr m pt va) as [la|]; [|done].
  destruct (has (ld64 m la) PTE_V) eqn:HV; [|done]. intros [= <-]. eauto.
Qed.

Lemma uvmunmap_step fuel pt a lim pa s free :
  kmem_ok s free → aspace (ram s) pt free → 0 ≤ a < TRAPFRAME → a mod PGSIZE = 0 → a < lim →
  lpage (ram s) pt a = Some pa →
  ∃ s', uvmunmap_loop (S fuel) pt a lim true s = uvmunmap_loop (E := E) fuel pt (a + PGSIZE) lim true s' ∧
    as_step pt s free s' (pa :: free) ∧
    (∀ v, 0 ≤ v < TRAPFRAME → uview (ram s') pt v =
       if decide (a ≤ v < a + PGSIZE) then None else uview (ram s) pt v).
Proof.
  intros Hk Has Ha Hal Hlim Hl.
  assert (HM : 0 ≤ a < MAXVA) by (rewrite TRAPFRAME_val, MAXVA_val in *; lia).
  destruct (leaf_addr_of_page _ _ _ _ Hl) as (la & Hla & Hld & HV & HPA).
  destruct (as_page _ _ _ Has a pa Ha Hl) as (Hpv & Hpf & Hpt).
  destruct (kfree_ok (E := E) s pa free) as (s1 & Hs1 & Hk1 & Hfr1); [done..|].
  assert (Hnfp : ¬ footprint (ram s) pt free pa) by (unfold footprint; unfold is_table in Hpt; tauto).
  destruct (page_changed_tables pa (ram s) (ram s1) pt free) as (Htab & Hpte & _); [apply Has|done..|].
  assert (Hla1 : leaf_addr (ram s1) pt a = Some la).
  { rewrite <- Hla. unfold leaf_addr. by rewrite Htab by apply leaf_table_ok. }
  destruct (store_leaf pt a s1 (pa :: free) la 0) as [He Hset]; [done| |done|lia|done|].
  { constructor.
    - intros id t Hid Ht. rewrite Htab in Ht by done.
      destruct (pt_page _ _ _ (as_pt _ _ _ Has) id t Hid Ht). split; [done|].
      apply not_elem_of_cons. split; [|done]. intros ->. apply Hpt. by exists id.
    - intros id id' t Hid Hid'. rewrite !Htab by done. by apply Has. }
  eexists. split; [|split; [by apply (del_step pt a pa s s1 _ free)|]].
  2: { intros v Hv. rewrite (del_view pt a pa s s1 _ free) by done.
       pose proof (same_page a v Hal). repeat case_if; tauto. }
  cbn [uvmunmap_loop]. rewrite (proj2 (Z.ltb_lt a lim)) by done.
  rewrite (bind_Ok _ _ _ _ _ (walk_lookup _ _ _ HM)), Hla. change (default 0 (Some la)) with la.
  pose proof (leaf_addr_pos _ _ _ _ _ (as_pt _ _ _ Has) Hla).
  rewrite (proj2 (Z.eqb_neq la 0)) by lia. unfold bind at 1, load64, gets. simpl run_bind.
  rewrite Hld, HV, HPA. cbn [negb].
  rewrite (proj2 (Z.eqb_neq _ _)) by (by apply (as_leaf _ _ _ Has a)).
  change (when true (kfree pa)) with (kfree (E := E) pa). rewrite (bind_Ok _ _ _ _ _ Hs1). unfold bind, store64, modify. simpl run_bind.
  rewrite (u64_small (a + PGSIZE)) by (rewrite TRAPFRAME_val in *; unfold PGSIZE; lia). done.
Qed.

Lemma uview_None m pt v : uview m pt v = None ↔ lpage m pt v = None.
Proof. unfold uview. by destruct (lpage m pt v). Qed.

Lemma uvmunmap_range n : ∀ pt a s free,
  kmem_ok s free → aspace (ram s) pt free → 0 ≤ a → a mod PGSIZE = 0 →
  a + Z.of_nat n * PGSIZE ≤ TRAPFRAME →
  (∀ v, a ≤ v < a + Z.of_nat n * PGSIZE → uview (ram s) pt v ≠ None) →
  ∃ s' free', uvmunmap_loop (E := E) n pt a (a + Z.of_nat n * PGSIZE) true s = Ok tt s' ∧
    as_step pt s free s' free' ∧ length free' = (n + length free)%nat ∧
    (∀ v, 0 ≤ v < TRAPFRAME → uview (ram s') pt v =
       if decide (a ≤ v < a + Z.of_nat n * PGSIZE) then None else uview (ram s) pt v).
Proof.
  induction n as [|n IH]; intros pt a s free Hk Has Ha Hal Hlim Hm.
  { simpl. rewrite (proj2 (Z.ltb_ge _ _)) by lia. exists s, free.
    split_and!; [done|by apply as_step_refl|done|]. intros v Hv. by rewrite decide_False by lia. }
  destruct (lpage (ram s) pt a) as [pa|] eqn:Hl.
  2: { destruct (Hm a); [unfold PGSIZE; lia|]. by apply uview_None. }
  destruct (uvmunmap_step n pt a (a + Z.of_nat (S n) * PGSIZE) pa s free)
    as (s1 & Hrun & Hst & Hv1); [done|done|unfold PGSIZE in *; lia|done|unfold PGSIZE in *; lia|done|].
  destruct (IH pt (a + PGSIZE) s1 (pa :: free)) as (s' & f' & Hrun' & Hst' & Hlen & Hv');
    [apply Hst|apply Hst|unfold PGSIZE in *; lia|by apply page_next|unfold PGSIZE in *; lia| |].
  { intros v Hv. rewrite Hv1 by (unfold PGSIZE in *; lia).
    rewrite decide_False by lia. apply Hm. unfold PGSIZE in *. lia. }
  exists s', f'. split_and!.
  - rewrite Hrun, <- Hrun'. f_equal. lia.
  - by eapply as_step_trans.
  - rewrite Hlen. simpl. lia.
  - intros v Hv. rewrite Hv', Hv1 by done. unfold PGSIZE in *. repeat case_if; try done; lia.
Qed.

Lemma uvmunmap_ok pt a npages s free :
  kmem_ok s free → aspace (ram s) pt free → 0 ≤ a → a mod PGSIZE = 0 → 0 ≤ npages →
  a + npages * PGSIZE ≤ TRAPFRAME →
  (∀ v, a ≤ v < a + npages * PGSIZE → uview (ram s) pt v ≠ None) →
  ∃ s' free', uvmunmap (E := E) pt a npages true s = Ok tt s' ∧
    as_step pt s free s' free' ∧ length free' = (Z.to_nat npages + length free)%nat ∧
    (∀ v, 0 ≤ v < TRAPFRAME → uview (ram s') pt v =
       if decide (a ≤ v < a + npages * PGSIZE) then None else uview (ram s) pt v).
Proof.
  intros Hk Has Ha Hal Hn Hlim Hm. unfold uvmunmap.
  rewrite (proj2 (Z.eqb_eq _ _)) by done. cbn [negb].
  rewrite (u64_small (a + npages * PGSIZE)) by (rewrite TRAPFRAME_val in *; unfold PGSIZE in *; lia).
  pose proof (uvmunmap_range (Z.to_nat npages) pt a s free) as Hr.
  rewrite Z2Nat.id in Hr by done. by apply Hr.
Qed.

(** ** uvmdealloc and uvmalloc *)

Lemma uvmdealloc_ok pt oldsz newsz s free :
  kmem_ok s free → aspace (ram s) pt free → 0 ≤ newsz ≤ TRAPFRAME → 0 ≤ oldsz ≤ TRAPFRAME →
  (∀ v, PGROUNDUP newsz ≤ v < PGROUNDUP oldsz → uview (ram s) pt v ≠ None) →
  ∃ s' free', uvmdealloc (E := E) pt oldsz newsz s = Ok (Z.min oldsz newsz) s' ∧
    as_step pt s free s' free' ∧ (length free ≤ length free')%nat ∧
    (∀ v, 0 ≤ v < TRAPFRAME → uview (ram s') pt v =
       if decide (PGROUNDUP newsz ≤ v < PGROUNDUP oldsz) then None else uview (ram s) pt v).
Proof.
  intros Hk Has Hn Ho Hm. assert (Htr : TRAPFRAME mod PGSIZE = 0) by done.
  assert (Hrn := PGROUNDUP_eq newsz ltac:(lia) ltac:(rewrite TRAPFRAME_val in *; unfold PGSIZE; lia)).
  assert (Hro := PGROUNDUP_eq oldsz ltac:(lia) ltac:(rewrite TRAPFRAME_val in *; unfold PGSIZE; lia)).
  unfold uvmdealloc. destruct (Z.leb_spec oldsz newsz).
  { rewrite Z.min_l by lia. exists s, free. split_and!; [done|by apply as_step_refl|done|].
    intros v Hv. rewrite decide_False; [done|]. rewrite Hrn, Hro. unfold PGSIZE. dlia. }
  rewrite Z.min_r by lia. destruct (Z.ltb_spec (PGROUNDUP newsz) (PGROUNDUP oldsz)); cycle 1.
  { exists s, free. split_and!; [done|by apply as_step_refl|done|].
    intros v Hv. by rewrite decide_False by lia. }
  set (n := (PGROUNDUP oldsz - PGROUNDUP newsz) / PGSIZE).
  assert (Hn0 : 0 ≤ n < 2 ^ 31 ∧ PGROUNDUP newsz + n * PGSIZE = PGROUNDUP oldsz).
  { unfold n. rewrite Hrn, Hro in *. rewrite TRAPFRAME_val in *. unfold PGSIZE in *. dlia. }
  destruct Hn0 as [Hn0 Hn1]. rewrite (i32_small n), (u64_small n) by lia.
  destruct (uvmunmap_ok pt (PGROUNDUP newsz) n s free) as (s' & f' & Hrun & Hst & Hlen & Hv);
    rewrite ?Hn1; try done.
  - rewrite Hrn. unfold PGSIZE. dlia.
  - apply PGROUNDUP_aligned.
  - lia.
  - rewrite Hro. rewrite TRAPFRAME_val in *. unfold PGSIZE in *. dlia.
  - exists s', f'. unfold when. rewrite (bind_Ok _ _ _ _ _ Hrun).
    split_and!; [done|done|lia|]. intros v Hv'. by rewrite Hv, Hn1.
Qed.

(** the page contents [mem_set] leaves *)
Lemma mem_set_fill p s1 :
  ∃ m2, mem_set (E := E) p 0 PGSIZE s1 = Ok tt (mkMachine m2 (freelist s1)) ∧
    page_changed p (ram s1) m2 ∧ ∀ i, 0 ≤ i < PGSIZE → ld8 m2 (p + i) = x00.
Proof.
  eexists. split; [done|]. split.
  - intros x Hx. rewrite ld8_memset. by rewrite decide_False.
  - intros i Hi. rewrite ld8_memset. by rewrite decide_True by lia.
Qed.

Lemma lpage_None_V m pt v : lpage m pt v = None ↔ has (pte_at m pt v) PTE_V = false.
Proof. unfold lpage. by destruct (has _ _). Qed.

Definition user_perm : Z := Z.lor (Z.lor (Z.lor PTE_W PTE_X) PTE_R) PTE_U.

Lemma uvmalloc_loop_ok n : ∀ fuel pt a oldsz newsz s free,
  kmem_ok s free → aspace (ram s) pt free → (n ≤ fuel)%nat →
  0 ≤ oldsz ≤ a → a mod PGSIZE = 0 → oldsz mod PGSIZE = 0 → a + Z.of_nat n * PGSIZE ≤ TRAPFRAME →
  newsz ≤ a + Z.of_nat n * PGSIZE → (n = O ∨ a + (Z.of_nat n - 1) * PGSIZE < newsz) →
  (∀ v, oldsz ≤ v < a → uview (ram s) pt v ≠ None) →
  (∀ v, a ≤ v < a + Z.of_nat n * PGSIZE → uview (ram s) pt v = None) →
  ∃ (b : bool) s' free', uvmalloc_loop (E := E) fuel pt a oldsz newsz s = Ok (if b then newsz else 0) s' ∧
    as_step pt s free s' free' ∧ (b = false → (length free ≤ 3 * n)%nat) ∧
    (∀ v, 0 ≤ v < TRAPFRAME → uview (ram s') pt v =
      if b then if decide (a ≤ v < a + Z.of_nat n * PGSIZE)
        then Some (Z.lor user_perm PTE_V, x00) else uview (ram s) pt v
      else if decide (oldsz ≤ v < a) then None else uview (ram s) pt v).
Proof.
  induction n as [|n IH]; intros fuel pt a oldsz newsz s free Hk Has Hf Ho Hal Hol Hlim Hnew Hlast Hm Hu.
  { destruct fuel; cbn [uvmalloc_loop]; rewrite (proj2 (Z.ltb_ge _ _)) by lia; exists true, s, free;
      (split_and!; [done|by apply as_step_refl|done|]); intros v Hv; by rewrite decide_False by lia. }
  destruct fuel as [|fuel]; [lia|]. cbn [uvmalloc_loop].
  destruct Hlast as [|Hlast]; [done|]. rewrite (proj2 (Z.ltb_lt _ _)) by (unfold PGSIZE in *; lia).
  destruct (add_page_ok Z pt a user_perm (λ p, mem_set p 0 PGSIZE) (λ _, x00) s free)
    as (b & s1 & f1 & [Hst Hv1 Hfail Hcost] & Hrun); try done.
  { unfold PGSIZE in *. lia. }
  { apply lpage_None_V, uview_None, Hu. unfold PGSIZE. lia. }
  { intros p s1 _ _. apply mem_set_fill. }
  unfold add_page in Hrun. rewrite Hrun. destruct b.
  - rewrite (u64_small (a + PGSIZE)) by (rewrite TRAPFRAME_val in *; unfold PGSIZE in *; lia).
    destruct (IH fuel pt (a + PGSIZE) oldsz newsz s1 f1) as (b & s2 & f2 & Hrun2 & Hst2 & Hb & Hv2);
      try (apply Hst || unfold PGSIZE in *; lia).
    { by apply page_next. }
    { intros v Hv. rewrite Hv1 by (unfold PGSIZE in *; lia). case_if; [done|]. apply Hm.
      unfold PGSIZE in *. lia. }
    { intros v Hv. rewrite Hv1 by (unfold PGSIZE in *; lia). case_if; [unfold PGSIZE in *; lia|].
      apply Hu. unfold PGSIZE in *. lia. }
    exists b, s2, f2. split_and!; [done|by eapply as_step_trans|intros Hb'; specialize (Hb Hb'); lia|].
    intros v Hv. rewrite Hv2, Hv1 by done. unfold PGSIZE in *.
    destruct b; repeat case_if; try done || lia. symmetry. apply Hu. lia.
  - destruct (uvmdealloc_ok pt a oldsz s1 f1) as (s2 & f2 & Hrun2 & Hst2 & Hlen & Hv2);
      [apply Hst|apply Hst|unfold PGSIZE in *; lia..| |].
    { rewrite !PGROUNDUP_id by (rewrite TRAPFRAME_val in *; unfold PGSIZE in *; lia).
      intros v Hv. rewrite Hv1, decide_False by (unfold PGSIZE in *; lia || by intros [? _]). by apply Hm. }
    exists false, s2, f2. split_and!; [|by eapply as_step_trans|intros _; specialize (Hfail eq_refl); lia|].
    + by rewrite (bind_Ok _ _ _ _ _ Hrun2).
    + intros v Hv. rewrite Hv2, Hv1 by done.
      rewrite !PGROUNDUP_id by (rewrite TRAPFRAME_val in *; unfold PGSIZE in *; lia).
      by rewrite (decide_False (P := false = true ∧ _)) by (by intros [? _]).
Qed.

(** the size of an address space: exactly the pages below it are mapped *)
Definition sized (m : gmap Z byte) (pt sz : Z) : Prop :=
  ∀ v, 0 ≤ v < TRAPFRAME → uview m pt v ≠ None ↔ v < PGROUNDUP sz.

Lemma PGROUNDUP_user sz :
  0 ≤ sz ≤ TRAPFRAME → PGROUNDUP sz mod PGSIZE = 0 ∧ sz ≤ PGROUNDUP sz < sz + PGSIZE ∧ PGROUNDUP sz ≤ TRAPFRAME.
Proof.
  intros Hs. split; [apply PGROUNDUP_aligned|]. rewrite TRAPFRAME_val in *.
  rewrite PGROUNDUP_eq by (unfold PGSIZE; lia). unfold PGSIZE. dlia.
Qed.

Lemma uvmalloc_ok pt oldsz newsz s free :
  kmem_ok s free → aspace (ram s) pt free → sized (ram s) pt oldsz →
  0 ≤ oldsz ≤ newsz → newsz ≤ TRAPFRAME →
  ∃ (b : bool) s' free', uvmalloc (E := E) pt oldsz newsz s = Ok (if b then newsz else 0) s' ∧
    as_step pt s free s' free' ∧
    (b = false → Z.of_nat (length free) ≤ 3 * ((PGROUNDUP newsz - PGROUNDUP oldsz) / PGSIZE)) ∧
    (∀ v, 0 ≤ v < TRAPFRAME → uview (ram s') pt v =
      if decide (b = true ∧ PGROUNDUP oldsz ≤ v < PGROUNDUP newsz)
      then Some (Z.lor user_perm PTE_V, x00) else uview (ram s) pt v).
Proof.
  intros Hk Has Hsz Ho Hn. unfold uvmalloc. rewrite (proj2 (Z.ltb_ge _ _)) by lia.
  destruct (PGROUNDUP_user oldsz) as (Hoa & Hob & Hot); [lia|].
  destruct (PGROUNDUP_user newsz) as (Hna & Hnb & Hnt); [lia|].
  set (n := (PGROUNDUP newsz - PGROUNDUP oldsz) / PGSIZE).
  assert (Hpos : 0 ≤ n ∧ PGROUNDUP oldsz + n * PGSIZE = PGROUNDUP newsz).
  { unfold n. rewrite !PGROUNDUP_eq in * by (rewrite TRAPFRAME_val in *; unfold PGSIZE in *; lia).
    unfold PGSIZE. clear - Ho. dlia. }
  destruct Hpos as [Hn0 Hn1].
  destruct (uvmalloc_loop_ok (Z.to_nat n) (Z.to_nat ((newsz - PGROUNDUP oldsz) / PGSIZE + 1)) pt
    (PGROUNDUP oldsz) (PGROUNDUP oldsz) newsz s free) as (b & s' & f' & Hrun & Hst & Hb & Hv); rewrite ?Z2Nat.id by done.
  1-2: done.
  1: clear - Hn0 Hn1 Hnb; unfold PGSIZE in *; dlia.
  1: rewrite TRAPFRAME_val in *; unfold PGSIZE in *; lia.
  1-4: done || lia.
  - unfold PGSIZE in *. lia.
  - lia.
  - intros v Hv. rewrite Hn1 in Hv. destruct (uview (ram s) pt v) eqn:Ev; [|done].
    assert (v < PGROUNDUP oldsz) by (apply Hsz; [rewrite TRAPFRAME_val in *; lia|by rewrite Ev]). lia.
  - exists b, s', f'. split_and!; [done|done|intros Hf; specialize (Hb Hf); lia|]. intros v Hv'. rewrite Hv, Z2Nat.id, Hn1 by done.
    destruct b; repeat case_if; done || lia.
Qed.

(** ** uvmcopy *)

Lemma flags_V e : has e PTE_V = true → Z.lor (PTE_FLAGS e) PTE_V = PTE_FLAGS e.
Proof.
  unfold has, PTE_FLAGS. intros HV. apply Z.bits_inj'. intros k Hk.
  rewrite Z.lor_spec. destruct (decide (k = 0)) as [->|Hne].
  - assert (Z.testbit e 0 = true) as He.
    { apply negb_true_iff, Z.eqb_neq in HV. change PTE_V with (Z.ones 1) in HV.
      rewrite Z.land_ones in HV by lia. rewrite Z.bit0_odd. rewrite Zmod_odd in HV.
      by destruct (Z.odd e). }
    by rewrite Z.land_spec, He.
  - replace (Z.testbit PTE_V k) with false; [by rewrite orb_false_r|].
    change PTE_V with (2 ^ 0). symmetry. apply Z.pow2_bits_false. lia.
Qed.

Lemma PTE_FLAGS_range e : 0 ≤ PTE_FLAGS e < 2 ^ 10.
Proof. unfold PTE_FLAGS. change 1023 with (Z.ones 10). rewrite Z.land_ones by lia. by apply Z.mod_pos_bound. Qed.

(** two address spaces without a common page *)
Record two_spaces (old new : Z) (s : machine) (free : list Z) : Prop := {
  ts_kmem : kmem_ok s free;
  ts_old : aspace (ram s) old free;
  ts_new : aspace (ram s) new free;
  ts_disj p : owns (ram s) old p → ¬ owns (ram s) new p
}.

Lemma two_spaces_step old new s free s' free' :
  two_spaces old new s free → as_step new s free s' free' →
  two_spaces old new s' free' ∧ (∀ p, owns (ram s') old p ↔ owns (ram s) old p) ∧
  (∀ va, pte_at (ram s') old va = pte_at (ram s) old va) ∧
  (∀ va, 0 ≤ va < TRAPFRAME → uview (ram s') old va = uview (ram s) old va).
Proof.
  intros [Hk Ho Hn Hd] Hst.
  destruct (as_step_other new old s free s' free') as (Ho' & Hown & Hd' & Hpte & Hv); [done..|].
  split; [|done]. constructor; [apply Hst|done|apply Hst|done].
Qed.

(** the page contents [mem_move] leaves, for a source page in use *)
Lemma mem_move_fill pa free s p s1 :
  kmem_ok s free → valid_page pa → pa ∉ free → p ∈ free →
  (∀ x, ¬ in_page p x → ld8 (ram s1) x = ld8 (ram s) x) →
  ∃ m2, mem_move (E := E) p pa PGSIZE s1 = Ok tt (mkMachine m2 (freelist s1)) ∧
    page_changed p (ram s1) m2 ∧ ∀ i, 0 ≤ i < PGSIZE → ld8 m2 (p + i) = ld8 (ram s) (pa + i).
Proof.
  intros Hk Hpa Hpf Hp Hs1. eexists. split; [done|]. split.
  - intros x Hx. rewrite ld8_memmove by done. by rewrite decide_False.
  - intros i Hi. rewrite ld8_memmove, decide_True by (done || lia).
    rewrite Hs1; [f_equal; lia|]. apply (in_page_disjoint pa); [done|by apply (kmem_valid s free)| |].
    + by intros ->.
    + unfold in_page. lia.
Qed.

(** one iteration: the page of [old] at [i] is copied to [new] *)
Lemma uvmcopy_step fuel old new i sz s free pa :
  two_spaces old new s free → 0 ≤ i < TRAPFRAME → i mod PGSIZE = 0 → i < sz →
  lpage (ram s) old i = Some pa → lpage (ram s) new i = None →
  ∃ (b : bool) s' free',
    uvmcopy_loop (E := E) (S fuel) old new i sz s =
      (if b then uvmcopy_loop fuel old new (i + PGSIZE) sz
       else uvmunmap new 0 (i / PGSIZE) true ;;; ret (-1)) s' ∧
    as_step new s free s' free' ∧ (b = false → (length free ≤ 3)%nat) ∧
    (length free ≤ length free' + 3)%nat ∧
    (∀ v, 0 ≤ v < TRAPFRAME → uview (ram s') new v =
      if decide (b = true ∧ i ≤ v < i + PGSIZE) then uview (ram s) old v else uview (ram s) new v).
Proof.
  intros [Hk Hold Hnew Hd] Hi Hal Hsz Hpa Hnone.
  assert (HM : 0 ≤ i < MAXVA) by (rewrite TRAPFRAME_val, MAXVA_val in *; lia).
  destruct (leaf_addr_of_page _ _ _ _ Hpa) as (la & Hla & Hld & HV & HPA).
  destruct (as_page _ _ _ Hold i pa Hi Hpa) as (Hpv & Hpf & _).
  destruct (add_page_ok Z new i (PTE_FLAGS (pte_at (ram s) old i)) (λ p, mem_move p pa PGSIZE)
    (λ j, ld8 (ram s) (pa + j)) s free) as (b & s' & f' & [Hst Hview Hfail Hcost] & Hrun); try done.
  { by apply lpage_None_V. }
  { apply PTE_FLAGS_range. }
  { rewrite flags_V by done. by apply (as_leaf _ _ _ Hold). }
  { intros p s1 Hp Hs1. by apply (mem_move_fill pa free s). }
  exists b, s', f'. split_and!; [|done|done|done|].
  - cbn [uvmcopy_loop]. rewrite (proj2 (Z.ltb_lt i sz)) by done.
    rewrite (bind_Ok _ _ _ _ _ (walk_lookup _ _ _ HM)), Hla. change (default 0 (Some la)) with la.
    pose proof (leaf_addr_pos _ _ _ _ _ (as_pt _ _ _ Hold) Hla).
    rewrite (proj2 (Z.eqb_neq la 0)) by lia. unfold bind at 1, load64, gets. simpl run_bind.
    rewrite Hld, HV, HPA. cbn [negb].
    rewrite (u64_small (i + PGSIZE)) by (rewrite TRAPFRAME_val in *; unfold PGSIZE; lia).
    unfold add_page in Hrun. rewrite Hrun. by destruct b.
  - intros v Hv. rewrite Hview by done. case_if; [|done]. destruct E0 as [_ Hin].
    rewrite flags_V by done. unfold uview.
    destruct (lpage_page (ram s) old v i) as [-> ->]; [lia|lia|by apply same_page|].
    rewrite Hpa. done.
Qed.

Lemma uvmcopy_undo old new i s free :
  two_spaces old new s free → 0 ≤ i < TRAPFRAME → i mod PGSIZE = 0 →
  (∀ v, 0 ≤ v < i → uview (ram s) old v ≠ None) →
  (∀ v, 0 ≤ v < TRAPFRAME → uview (ram s) new v = if decide (v < i) then uview (ram s) old v else None) →
  ∃ s' free', (uvmunmap (E := E) new 0 (i / PGSIZE) true ;;; ret (-1)) s = Ok (-1) s' ∧
    as_step new s free s' free' ∧ (∀ v, 0 ≤ v < TRAPFRAME → uview (ram s') new v = None).
Proof.
  intros [Hk Hold Hnew Hd] Hi Hal Hm Hv.
  assert (Hi' : i / PGSIZE * PGSIZE = i) by (unfold PGSIZE in *; dlia).
  destruct (uvmunmap_ok new 0 (i / PGSIZE) s free) as (s' & f' & Hrun & Hst & _ & Hv');
    [done|done|lia|done|unfold PGSIZE in *; dlia|lia| |].
  { intros v Hv0. rewrite Hv, decide_True by lia. apply Hm. lia. }
  exists s', f'. split_and!; [by rewrite (bind_Ok _ _ _ _ _ Hrun)|done|].
  intros v Hv0. rewrite Hv', Hv by done. repeat case_if; done || lia.
Qed.

Lemma uvmcopy_loop_ok n : ∀ fuel old new i sz s free,
  two_spaces old new s free → (n ≤ fuel)%nat →
  0 ≤ i → i mod PGSIZE = 0 → i + Z.of_nat n * PGSIZE ≤ TRAPFRAME →
  sz ≤ i + Z.of_nat n * PGSIZE → (n = O ∨ i + (Z.of_nat n - 1) * PGSIZE < sz) →
  (∀ v, 0 ≤ v < i + Z.of_nat n * PGSIZE → uview (ram s) old v ≠ None) →
  (∀ v, 0 ≤ v < TRAPFRAME → uview (ram s) new v = if decide (v < i) then uview (ram s) old v else None) →
  ∃ (b : bool) s' free', uvmcopy_loop (E := E) fuel old new i sz s = Ok (if b then 0 else -1) s' ∧
    as_step new s free s' free' ∧ (b = false → (length free ≤ 3 * n)%nat) ∧
    (∀ v, 0 ≤ v < TRAPFRAME → uview (ram s') new v =
      if decide (b = true ∧ v < i + Z.of_nat n * PGSIZE) then uview (ram s) old v else None).
Proof.
  induction n as [|n IH]; intros fuel old new i sz s free Hts Hf Hi Hal Hlim Hsz Hlast Hm Hv.
  { exists true, s, free. destruct Hts. split_and!.
    - destruct fuel; cbn [uvmcopy_loop]; by rewrite (proj2 (Z.ltb_ge _ _)) by lia.
    - by apply as_step_refl.
    - done.
    - intros v Hv0. rewrite Hv by done. simpl. repeat case_if; try done || lia. }
  destruct fuel as [|fuel]; [lia|]. destruct Hlast as [|Hlast]; [done|].
  destruct (lpage (ram s) old i) as [pa|] eqn:Hpa.
  2: { destruct (Hm i); [unfold PGSIZE; lia|]. by apply uview_None. }
  destruct (uvmcopy_step fuel old new i sz s free pa) as (b & s1 & f1 & Hrun & Hst & Hfail & Hcost & Hv1);
    [done|unfold PGSIZE in *; lia|done|unfold PGSIZE in *; lia|done| |].
  { apply uview_None. rewrite Hv by (unfold PGSIZE in *; lia). by rewrite decide_False by lia. }
  destruct (two_spaces_step _ _ _ _ _ _ Hts Hst) as (Hts1 & _ & _ & Hold1). rewrite Hrun. destruct b.
  - destruct (IH fuel old new (i + PGSIZE) sz s1 f1) as (b & s2 & f2 & Hrun2 & Hst2 & Hb & Hv2);
      try (done || unfold PGSIZE in *; lia).
    { by apply page_next. }
    { intros v Hv0. rewrite Hold1 by lia. apply Hm. lia. }
    { intros v Hv0. rewrite Hv1, Hold1, Hv by done. repeat case_if; done || lia. }
    exists b, s2, f2. split_and!; [done|by eapply as_step_trans|intros Hb'; specialize (Hb Hb'); lia|].
    intros v Hv0. rewrite Hv2, Hold1 by done. unfold PGSIZE in *. destruct b; repeat case_if; done || lia.
  - destruct (uvmcopy_undo old new i s1 f1) as (s2 & f2 & Hrun2 & Hst2 & Hv2);
      [done|unfold PGSIZE in *; lia|done| | |].
    { intros v Hv0. rewrite Hold1 by (unfold PGSIZE in *; lia). apply Hm. unfold PGSIZE. lia. }
    { intros v Hv0. rewrite Hv1, Hold1, Hv by done. repeat case_if; done || lia. }
    exists false, s2, f2. split_and!; [done|by eapply as_step_trans|intros _; specialize (Hfail eq_refl); lia|].
    intros v Hv0. rewrite Hv2 by done. by rewrite decide_False by (by intros [? _]).
Qed.

Lemma uvmcopy_ok old new sz s free :
  two_spaces old new s free → 0 ≤ sz ≤ TRAPFRAME → sized (ram s) old sz → sized (ram s) new 0 →
  ∃ (b : bool) s' free', uvmcopy (E := E) old new sz s = Ok (if b then 0 else -1) s' ∧
    as_step new s free s' free' ∧
    (b = false → Z.of_nat (length free) ≤ 3 * (PGROUNDUP sz / PGSIZE)) ∧
    (∀ v, 0 ≤ v < TRAPFRAME → uview (ram s') new v = if b then uview (ram s) old v else None).
Proof.
  intros Hts Hsz Ho Hn. destruct (PGROUNDUP_user sz) as (Hra & Hrb & Hrt); [done|].
  set (n := PGROUNDUP sz / PGSIZE).
  assert (Hn1 : n * PGSIZE = PGROUNDUP sz) by (unfold n, PGSIZE in *; dlia).
  assert (Hn0 : 0 ≤ n) by (unfold n, PGSIZE in *; dlia).
  assert (Hnew : ∀ v, 0 ≤ v < TRAPFRAME → uview (ram s) new v = None).
  { intros v Hv. destruct (uview (ram s) new v) eqn:Ev; [|done].
    assert (v < PGROUNDUP 0) by (apply Hn; [done|by rewrite Ev]). change (PGROUNDUP 0) with 0 in *. lia. }
  destruct (uvmcopy_loop_ok (Z.to_nat n) (Z.to_nat (sz / PGSIZE + 1)) old new 0 sz s free)
    as (b & s' & f' & Hrun & Hst & Hb & Hv); rewrite ?Z2Nat.id by done;
    try (done || unfold PGSIZE in *; lia).
  - clear - Hn0 Hn1 Hrb Hsz. unfold PGSIZE in *. dlia.
  - intros v Hv. rewrite Hn1 in Hv. apply Ho; lia.
  - intros v Hv. rewrite Hnew by done. by rewrite decide_False by lia.
  - exists b, s', f'. split_and!; [done|done|intros Hbf; specialize (Hb Hbf); lia|].
    intros v Hv0. rewrite Hv, Z2Nat.id, Z.add_0_l, Hn1 by done.
    destruct b; [|by rewrite decide_False by (by intros [? _])]. case_if; [done|].
    destruct (uview (ram s) old v) eqn:Ev; [|done].
    assert (v < PGROUNDUP sz) by (apply Ho; [done|by rewrite Ev]). tauto.
Qed.
End Uvm.
