(* ===== verification/Pagetable.v ===== *)
(** * Creating and destroying page tables

    [uvmcreate], [freewalk] and [uvmfree] of src/kernel/vm.c, and
    [proc_pagetable] and [proc_freepagetable] of src/kernel/proc.c, which add
    and remove the trampoline and trapframe mappings.  The theorems show that
    destroying a page table returns exactly its pages to the free list. *)

From S2P Require Import Prelude Mem Riscv Kalloc Vm Uvm.

Section Pagetable.
Context `{KernelSymbols} {E : Type}.

Abbreviation MM := (M E machine).

(** [trapframe] is the physical address [p->trapframe] *)
Definition proc_pagetable (trapframe : Z) : MM Z :=
  let* pagetable := uvmcreate in
  if pagetable =? 0 then ret 0
  else
    let* r := mappages pagetable TRAMPOLINE PGSIZE sym_trampoline (Z.lor PTE_R PTE_X) in
    if r <? 0 then uvmfree pagetable 0 ;;; ret 0
    else
      let* r := mappages pagetable TRAPFRAME PGSIZE trapframe (Z.lor PTE_R PTE_W) in
      if r <? 0 then
        uvmunmap pagetable TRAMPOLINE 1 false ;;;
        uvmfree pagetable 0 ;;;
        ret 0
      else ret pagetable.

Definition proc_freepagetable (pagetable sz : Z) : MM unit :=
  uvmunmap pagetable TRAMPOLINE 1 false ;;;
  uvmunmap pagetable TRAPFRAME 1 false ;;;
  uvmfree pagetable sz.

(** ** freewalk *)

Definition entry (m : gmap Z byte) (t : Z) (i : nat) : Z := ld64 m (t + 8 * Z.of_nat i).

Definition pte_indices : list nat := seq 0 512.

Lemma elem_of_pte_indices i : i ∈ pte_indices ↔ (i < 512)%nat.
Proof. unfold pte_indices. rewrite elem_of_seq. lia. Qed.
Lemma NoDup_pte_indices : NoDup pte_indices.
Proof. apply NoDup_seq. Qed.
#[local] Opaque pte_indices.

(** the pages of the tree under table [t] of level [k] *)
Fixpoint tpages (m : gmap Z byte) (k : nat) (t : Z) : list Z :=
  t :: match k with
       | O => []
       | S k' => flat_map (λ i, if has (entry m t i) PTE_V then tpages m k' (PTE2PA (entry m t i)) else [])
                   pte_indices
       end.

(** no leaf is mapped, and every valid entry is a pointer *)
Fixpoint clean (m : gmap Z byte) (k : nat) (t : Z) : Prop :=
  ∀ i, (i < 512)%nat → has (entry m t i) PTE_V = true →
    match k with
    | O => False
    | S k' => has (entry m t i) RWX = false ∧ clean m k' (PTE2PA (entry m t i))
    end.

(** the subtrees below the entries [l] of [t] *)
Definition subpages (m : gmap Z byte) (k : nat) (t : Z) (l : list nat) : list Z :=
  flat_map (λ i, if has (entry m t i) PTE_V then tpages m k (PTE2PA (entry m t i)) else []) l.

Definition clean_entry (m : gmap Z byte) (k : nat) (t : Z) (i : nat) : Prop :=
  has (entry m t i) PTE_V = true → has (entry m t i) RWX = false ∧ clean m k (PTE2PA (entry m t i)).

Definition agree (m m' : gmap Z byte) (ps : list Z) : Prop :=
  ∀ p x, p ∈ ps → in_page p x → ld8 m' x = ld8 m x.

Lemma entry_ext m m' t i :
  (i < 512)%nat → (∀ x, in_page t x → ld8 m' x = ld8 m x) → entry m' t i = entry m t i.
Proof.
  intros Hi Hx. apply ld64_ext. intros j Hj. apply Hx. apply entry_in_page; lia.
Qed.

Lemma subtree_pages m k t i p :
  (i < 512)%nat → has (entry m t i) PTE_V = true → p ∈ tpages m k (PTE2PA (entry m t i)) →
  p ∈ tpages m (S k) t.
Proof.
  intros Hi HV Hp. simpl. apply elem_of_cons. right. apply elem_of_flat_map. exists i.
  rewrite HV. split; [by apply elem_of_pte_indices|done].
Qed.

Lemma tpages_head m k t : t ∈ tpages m k t.
Proof. destruct k; simpl; set_solver. Qed.

(** a tree only depends on its own pages *)
Lemma tree_ext k : ∀ m m' t,
  agree m m' (tpages m k t) → tpages m' k t = tpages m k t ∧ (clean m k t → clean m' k t).
Proof.
  induction k as [|k IH]; intros m m' t Hag;
    assert (He : ∀ i, (i < 512)%nat → entry m' t i = entry m t i)
      by (intros i Hi; apply entry_ext; [done|]; intros x Hx; apply (Hag t); [apply tpages_head|done]).
  { split; [done|]. intros Hc i Hi. rewrite He by done. by apply Hc. }
  assert (Hsub : ∀ i, (i < 512)%nat → has (entry m t i) PTE_V = true →
    tpages m' k (PTE2PA (entry m t i)) = tpages m k (PTE2PA (entry m t i)) ∧
    (clean m k (PTE2PA (entry m t i)) → clean m' k (PTE2PA (entry m t i)))).
  { intros i Hi HV. apply IH. intros p x Hp. apply Hag. by apply (subtree_pages m k t i). }
  split.
  - simpl. f_equal. apply flat_map_ext_in. intros i Hi. apply elem_of_pte_indices in Hi.
    rewrite He by lia. destruct (has (entry m t i) PTE_V) eqn:HV; [|done]. apply Hsub; [lia|done].
  - intros Hc i Hi. rewrite He by done. intros HV. destruct (Hc i Hi HV). split; [done|].
    by apply Hsub.
Qed.

Definition freewalk_body (fw : Z → MM unit) (t : Z) (i : nat) : MM unit :=
  let* pte := load64 (t + 8 * Z.of_nat i) in
  if has pte PTE_V && negb (has pte RWX) then
    fw (PTE2PA pte) ;;; store64 (t + 8 * Z.of_nat i) 0
  else if has pte PTE_V then panic "freewalk: leaf"
  else ret tt.

Lemma freewalk_body_invalid fw t i s :
  has (entry (ram s) t i) PTE_V = false → freewalk_body fw t i s = Ok tt s.
Proof. unfold freewalk_body, bind, load64, gets, entry. simpl. by intros ->. Qed.

Lemma freewalk_body_ptr fw t i s s1 :
  has (entry (ram s) t i) PTE_V = true → has (entry (ram s) t i) RWX = false →
  fw (PTE2PA (entry (ram s) t i)) s = Ok tt s1 →
  freewalk_body fw t i s = Ok tt (mkMachine (st64 (t + 8 * Z.of_nat i) 0 (ram s1)) (freelist s1)).
Proof.
  unfold freewalk_body, bind, load64, gets, entry. simpl. intros -> -> Hfw. simpl. by rewrite Hfw.
Qed.

Lemma freewalk_unfold k t :
  freewalk (E := E) (S k) t = (for_each pte_indices (freewalk_body (freewalk k) t) ;;; kfree t).
Proof. reflexivity. Qed.

Definition freewalk_spec (k : nat) (t : Z) : Prop := ∀ s free,
  kmem_ok s free → clean (ram s) k t → NoDup (tpages (ram s) k t ++ free) →
  Forall valid_page (tpages (ram s) k t) →
  ∃ s' free', freewalk (E := E) (S k) t s = Ok tt s' ∧ kmem_ok s' free' ∧
    free' ≡ₚ tpages (ram s) k t ++ free ∧
    (∀ x, (∀ p, p ∈ tpages (ram s) k t → ¬ in_page p x) → ld8 (ram s') x = ld8 (ram s) x).

Lemma entry_other m m' t i j :
  (∀ x, in_page t x → ld8 m' x = ld8 m x) → (i < 512)%nat → j ≠ i →
  entry (st64 (t + 8 * Z.of_nat j) 0 m') t i = entry m t i.
Proof.
  intros Hm Hi Hne. unfold entry. rewrite ld64_st64_out by lia. by apply entry_ext.
Qed.

Lemma ld8_st64_page t i v m x :
  (i < 512)%nat → ¬ in_page t x → ld8 (st64 (t + 8 * Z.of_nat i) v m) x = ld8 m x.
Proof. intros Hi Hx. apply ld8_st64_out. unfold in_page, PGSIZE in Hx. lia. Qed.

(** freeing one subtree leaves the other subtrees alone *)
Lemma subpages_other m m' k t l i ps :
  (∀ x, (∀ p, p ∈ ps → ¬ in_page p x) → ld8 m' x = ld8 m x) →
  NoDup (t :: ps ++ subpages m k t l) → Forall valid_page (t :: ps ++ subpages m k t l) →
  (i < 512)%nat → (∀ j, j ∈ l → (j < 512)%nat ∧ j ≠ i) → (∀ j, j ∈ l → clean_entry m k t j) →
  let m2 := st64 (t + 8 * Z.of_nat i) 0 m' in
  subpages m2 k t l = subpages m k t l ∧ (∀ j, j ∈ l → clean_entry m2 k t j).
Proof.
  intros Hfr Hnd Hv Hi Hl Hc m2. rewrite Forall_forall in Hv.
  apply NoDup_cons in Hnd as [Ht Hnd]. apply NoDup_app in Hnd as (_ & Hd & _).
  assert (Hpage : ∀ q x, q ∈ t :: subpages m k t l → in_page q x → ld8 m' x = ld8 m x).
  { intros q x Hq Hx. apply Hfr. intros p Hp. apply (in_page_disjoint q); [apply Hv; set_solver..| |done].
    intros ->. apply elem_of_cons in Hq as [->|Hq]; [set_solver|by apply (Hd p)]. }
  assert (He : ∀ j, j ∈ l → entry m2 t j = entry m t j).
  { intros j Hj. destruct (Hl j Hj). apply entry_other; [|done|done]. intros x. apply (Hpage t). set_solver. }
  assert (Hsub : ∀ j, j ∈ l → has (entry m t j) PTE_V = true →
    agree m m2 (tpages m k (PTE2PA (entry m t j)))).
  { intros j Hj HV p x Hp Hx.
    assert (Hin : p ∈ subpages m k t l).
    { apply elem_of_flat_map. exists j. by rewrite HV. }
    unfold m2. rewrite ld8_st64_page; [apply (Hpage p); [set_solver|done]|done|].
    apply (in_page_disjoint p); [apply Hv; set_solver..| |done]. intros ->. set_solver. }
  split.
  - apply flat_map_ext_in. intros j Hj. rewrite He by done.
    destruct (has (entry m t j) PTE_V) eqn:HV; [|done]. by apply tree_ext, Hsub.
  - intros j Hj. unfold clean_entry. rewrite He by done. intros HV. destruct (Hc j Hj HV).
    split; [done|]. by eapply (tree_ext k m m2); [apply Hsub|].
Qed.

Lemma freewalk_loop_ok k t : (∀ c, freewalk_spec k c) → ∀ l s free,
  kmem_ok s free → (∀ i, i ∈ l → (i < 512)%nat) → NoDup l →
  (∀ i, i ∈ l → clean_entry (ram s) k t i) →
  NoDup (t :: subpages (ram s) k t l ++ free) → Forall valid_page (t :: subpages (ram s) k t l) →
  ∃ s' free', for_each l (freewalk_body (freewalk (S k)) t) s = Ok tt s' ∧ kmem_ok s' free' ∧
    free' ≡ₚ subpages (ram s) k t l ++ free ∧
    (∀ x, (∀ p, p ∈ t :: subpages (ram s) k t l → ¬ in_page p x) → ld8 (ram s') x = ld8 (ram s) x).
Proof.
  intros IHk. induction l as [|i l IH]; intros s free Hk Hlt Hndl Hc Hnd Hv.
  { by exists s, free. }
  apply NoDup_cons in Hndl as [Hil Hndl]. assert (Hi : (i < 512)%nat) by (apply Hlt, elem_of_cons; by left).
  assert (Hsp : subpages (ram s) k t (i :: l) =
    (if has (entry (ram s) t i) PTE_V then tpages (ram s) k (PTE2PA (entry (ram s) t i)) else [])
    ++ subpages (ram s) k t l) by done.
  rewrite Hsp in Hnd, Hv |- *. clear Hsp. cbn [for_each].
  assert (Hl : ∀ j, j ∈ l → (j < 512)%nat ∧ j ≠ i) by (intros j Hj; split; [apply Hlt, elem_of_cons; by right|by intros ->]).
  assert (Hcl : ∀ j, j ∈ l → clean_entry (ram s) k t j) by (intros j Hj; apply Hc, elem_of_cons; by right).
  destruct (has (entry (ram s) t i) PTE_V) eqn:HV; cycle 1.
  { rewrite (bind_Ok _ _ _ _ _ (freewalk_body_invalid _ _ _ _ HV)).
    apply IH; try done. intros j Hj. by apply Hl. }
  set (c := PTE2PA (entry (ram s) t i)) in *. set (sub := subpages (ram s) k t l) in *.
  destruct (Hc i) as [HRWX Hcc]; [apply elem_of_cons; by left|done|]. fold c in Hcc.
  rewrite <- app_assoc in Hnd. apply NoDup_cons in Hnd as [Ht Hnd]. rewrite !not_elem_of_app in Ht.
  apply Forall_cons in Hv as [Htv Hv]. apply Forall_app in Hv as [Hvc Hvs].
  destruct (IHk c s free) as (s1 & f1 & Hrun1 & Hk1 & Hp1 & Hfr1); [done|done| |done|].
  { rewrite Permutation_app_swap_app in Hnd. by apply NoDup_app in Hnd as (_ & _ & ?). }
  rewrite (bind_Ok _ _ _ _ _ (freewalk_body_ptr _ _ _ _ _ HV HRWX Hrun1)).
  destruct (subpages_other (ram s) (ram s1) k t l i (tpages (ram s) k c)) as [Hsub2 Hcl2]; try done.
  { apply NoDup_cons. split; [rewrite not_elem_of_app; tauto|]. rewrite app_assoc in Hnd. apply NoDup_app in Hnd as [Hnd _]. exact Hnd. }
  { constructor; [done|]. by apply Forall_app. }
  set (s2 := mkMachine _ _).
  destruct (IH s2 f1) as (s3 & f3 & Hrun3 & Hk3 & Hp3 & Hfr3).
  { destruct Hk1 as [Hf1 Hnd1]. split; [|done]. simpl. apply (free_pages_ext (ram s1)); [|done].
    intros q x Hq Hx. apply ld8_st64_page; [done|].
    apply (in_page_disjoint q); [by apply (kmem_valid s1 f1)|done| |done].
    intros ->. rewrite Hp1, elem_of_app in Hq. tauto. }
  { intros j Hj. by apply Hl. }
  { done. }
  { done. }
  { simpl. rewrite Hsub2. fold sub. rewrite Hp1, Permutation_app_swap_app.
    apply NoDup_cons. rewrite !not_elem_of_app. tauto. }
  { simpl. rewrite Hsub2. by constructor. }
  exists s3, f3. split_and!; [done|done| |].
  - rewrite Hp3. simpl. rewrite Hsub2. fold sub. rewrite Hp1.
    by rewrite Permutation_app_swap_app, app_assoc.
  - intros x Hx. rewrite Hfr3.
    + simpl. rewrite ld8_st64_page, Hfr1; [done| |done|].
      * intros p Hp. apply Hx. rewrite elem_of_cons, elem_of_app. tauto.
      * apply Hx, elem_of_cons. by left.
    + simpl. rewrite Hsub2. intros p Hp. apply Hx.
      rewrite elem_of_cons, elem_of_app in *. fold sub in Hp. tauto.
Qed.

Lemma for_each_invalid fw t l s :
  (∀ i, i ∈ l → has (entry (ram s) t i) PTE_V = false) → for_each l (freewalk_body fw t) s = Ok tt s.
Proof.
  induction l as [|i l IH]; intros Hl; [done|]. cbn [for_each].
  rewrite (bind_Ok _ _ _ _ _ (freewalk_body_invalid fw t i s ltac:(apply Hl, elem_of_cons; by left))).
  apply IH. intros j Hj. apply Hl, elem_of_cons. by right.
Qed.

Lemma freewalk_ok k : ∀ t, freewalk_spec k t.
Proof.
  induction k as [|k IH]; intros t s free Hk Hc Hnd Hv; rewrite freewalk_unfold.
  - rewrite (bind_Ok _ _ _ _ _ (for_each_invalid (freewalk 0) t pte_indices s
      ltac:(intros i Hi; apply elem_of_pte_indices in Hi; apply not_true_is_false; intros HV; by apply (Hc i)))).
    apply Forall_cons in Hv as [Hv _]. apply NoDup_cons in Hnd as [Hn _].
    destruct (kfree_ok (E := E) s t free) as (s' & Hs' & Hk' & Hfr); [done..|].
    exists s', (t :: free). split_and!; [done..|]. intros x Hx. apply Hfr. apply (Hx t). set_solver.
  - destruct (freewalk_loop_ok k t IH pte_indices s free) as (s1 & f1 & Hrun & Hk1 & Hp1 & Hfr1); try done.
    { intros i Hi. by apply elem_of_pte_indices. }
    { apply NoDup_pte_indices. }
    { intros i Hi HV. apply elem_of_pte_indices in Hi. by apply Hc. }
    rewrite (bind_Ok _ _ _ _ _ Hrun). apply Forall_cons in Hv as [Hv _].
    apply NoDup_cons in Hnd as [Hn _].
    destruct (kfree_ok (E := E) s1 t f1) as (s' & Hs' & Hk' & Hfr); [done|done| |].
    { rewrite Hp1. exact Hn. }
    exists s', (t :: f1). split_and!; [done|done|cbn [tpages app]; by rewrite Hp1|].
    intros x Hx. rewrite Hfr; [by apply Hfr1|]. apply (Hx t), tpages_head.
Qed.

(** ** The page tables of an address space *)

Lemma entry_child m t i :
  child m t (Z.of_nat i) = if has (entry m t i) PTE_V then Some (PTE2PA (entry m t i)) else None.
Proof. done. Qed.

Lemma elem_of_tpages m pt p : p ∈ tpages m 2 pt ↔ is_table m pt p.
Proof.
  cbn [tpages]. rewrite elem_of_cons, elem_of_flat_map. split.
  - intros [->|(i & Hi & Hp)]; [by exists TRoot|]. apply elem_of_pte_indices in Hi.
    destruct (has (entry m pt i) PTE_V) eqn:HV; [|set_solver].
    apply elem_of_cons in Hp as [->|Hp].
    + exists (TL1 (Z.of_nat i)). simpl. rewrite entry_child, HV. split; [lia|done].
    + apply elem_of_flat_map in Hp as (j & Hj & Hp). apply elem_of_pte_indices in Hj.
      destruct (has (entry m (PTE2PA (entry m pt i)) j) PTE_V) eqn:HV2; [|set_solver].
      apply list_elem_of_singleton in Hp as ->.
      exists (TL0 (Z.of_nat i) (Z.of_nat j)). simpl. rewrite entry_child, HV. cbn.
      rewrite entry_child, HV2. split; [lia|done].
  - intros ([|i|i j] & Hid & Ht); simpl in *; [left; congruence|right|right].
    + exists (Z.to_nat i). rewrite <- (Z2Nat.id i) in Ht by lia. rewrite entry_child in Ht.
      rewrite elem_of_pte_indices. destruct (has _ PTE_V); [|done]. injection Ht as <-. split; [lia|set_solver].
    + rewrite <- (Z2Nat.id i) in Ht by lia. rewrite entry_child in Ht. exists (Z.to_nat i).
      rewrite elem_of_pte_indices. destruct (has _ PTE_V); [|done]. split; [lia|]. cbn in Ht.
      apply elem_of_cons. right. apply elem_of_flat_map. exists (Z.to_nat j).
      rewrite <- (Z2Nat.id j), entry_child in Ht by lia.
      rewrite elem_of_pte_indices. destruct (has _ PTE_V); [|done]. injection Ht as <-. split; [lia|set_solver].
Qed.

Lemma tpages1_table m pt i p :
  (i < 512)%nat → has (entry m pt i) PTE_V = true → p ∈ tpages m 1 (PTE2PA (entry m pt i)) →
  ∃ id, tableid_ok id ∧ table m pt id = Some p ∧ (id = TL1 (Z.of_nat i) ∨ ∃ j, id = TL0 (Z.of_nat i) j).
Proof.
  intros Hi HV Hp. cbn [tpages] in Hp. apply elem_of_cons in Hp as [->|Hp].
  - exists (TL1 (Z.of_nat i)). simpl. rewrite entry_child, HV. split_and!; [lia..|done|by left].
  - apply elem_of_flat_map in Hp as (j & Hj & Hp). apply elem_of_pte_indices in Hj.
    destruct (has (entry m (PTE2PA (entry m pt i)) j) PTE_V) eqn:HV2; [|set_solver].
    apply list_elem_of_singleton in Hp as ->.
    exists (TL0 (Z.of_nat i) (Z.of_nat j)). simpl. rewrite entry_child, HV. cbn.
    rewrite entry_child, HV2. split_and!; [lia..|done|right; eauto].
Qed.

Lemma NoDup_tpages m pt free : pt_ok m pt free → NoDup (tpages m 2 pt).
Proof.
  intros Hpt. change (tpages m 2 pt) with (pt :: flat_map (λ i,
    if has (entry m pt i) PTE_V then tpages m 1 (PTE2PA (entry m pt i)) else []) pte_indices).
  apply NoDup_cons. split.
  { intros Hp. apply elem_of_flat_map in Hp as (i & Hi & Hp). apply elem_of_pte_indices in Hi.
    destruct (has (entry m pt i) PTE_V) eqn:HV; [|set_solver].
    destruct (tpages1_table m pt i pt Hi HV Hp) as (id & Hid & Ht & Hc).
    pose proof (pt_inj _ _ _ Hpt TRoot id pt I Hid eq_refl Ht) as <-. destruct Hc as [?|[? ?]]; done. }
  apply NoDup_flat_map; [apply NoDup_pte_indices|..].
  - intros i Hi. apply elem_of_pte_indices in Hi.
    destruct (has (entry m pt i) PTE_V) eqn:HV; [|constructor]. set (t1 := PTE2PA (entry m pt i)).
    assert (Ht1 : table m pt (TL1 (Z.of_nat i)) = Some t1) by (simpl; by rewrite entry_child, HV).
    assert (Hj : ∀ j p, j ∈ pte_indices → p ∈ (if has (entry m t1 j) PTE_V
      then tpages m 0 (PTE2PA (entry m t1 j)) else []) →
      tableid_ok (TL0 (Z.of_nat i) (Z.of_nat j)) ∧ table m pt (TL0 (Z.of_nat i) (Z.of_nat j)) = Some p).
    { intros j p Hj Hp. apply elem_of_pte_indices in Hj. destruct (has (entry m t1 j) PTE_V) eqn:HV2; [|set_solver].
      apply list_elem_of_singleton in Hp as ->. simpl in Ht1 |- *. rewrite Ht1. cbn.
      rewrite entry_child, HV2. split; [lia|done]. }
    change (tpages m 1 t1) with (t1 :: flat_map (λ j,
      if has (entry m t1 j) PTE_V then tpages m 0 (PTE2PA (entry m t1 j)) else []) pte_indices).
    apply NoDup_cons. split.
    + intros Hp. apply elem_of_flat_map in Hp as (j & Hjn & Hp). destruct (Hj j t1 Hjn Hp) as [Hid Ht].
      by pose proof (pt_inj _ _ _ Hpt (TL1 (Z.of_nat i)) _ t1 ltac:(simpl; lia) Hid Ht1 Ht).
    + apply NoDup_flat_map; [apply NoDup_pte_indices|..].
      * intros j _. destruct (has (entry m t1 j) PTE_V); [|constructor]. apply NoDup_singleton.
      * intros j j' p Hjn Hjn' Hp Hp'. destruct (Hj j p Hjn Hp) as [Hid Ht].
        destruct (Hj j' p Hjn' Hp') as [Hid' Ht'].
        pose proof (pt_inj _ _ _ Hpt _ _ p Hid Hid' Ht Ht') as [= ?]. lia.
  - intros i i' p Hi Hi' Hp Hp'. apply elem_of_pte_indices in Hi, Hi'.
    destruct (has (entry m pt i) PTE_V) eqn:HV; [|set_solver].
    destruct (has (entry m pt i') PTE_V) eqn:HV'; [|set_solver].
    destruct (tpages1_table m pt i p Hi HV Hp) as (id & Hid & Ht & Hc).
    destruct (tpages1_table m pt i' p Hi' HV' Hp') as (id' & Hid' & Ht' & Hc').
    pose proof (pt_inj _ _ _ Hpt _ _ p Hid Hid' Ht Ht') as <-.
    destruct Hc as [->|[? ->]]; destruct Hc' as [[= ?]|[? [= ?]]]; lia.
Qed.

Lemma clean_tables m pt free :
  pt_ok m pt free → ptrs_ok m pt → (∀ va, 0 ≤ va < MAXVA → has (pte_at m pt va) PTE_V = false) →
  clean m 2 pt.
Proof.
  intros Hpt [Hptr Hup] Hno i Hi HV.
  assert (Hi256 : Z.of_nat i < 256).
  { destruct (Z.lt_ge_cases (Z.of_nat i) 256); [done|]. unfold entry in HV. rewrite Hup in HV by lia. done. }
  split; [by apply (Hptr TRoot pt (Z.of_nat i)); try (done || lia)|].
  set (t1 := PTE2PA (entry m pt i)).
  assert (Ht1 : table m pt (TL1 (Z.of_nat i)) = Some t1) by (simpl; by rewrite entry_child, HV).
  intros j Hj HV1. split; [by apply (Hptr (TL1 (Z.of_nat i)) t1 (Z.of_nat j)); try (done || simpl; lia)|].
  set (t0 := PTE2PA (entry m t1 j)). intros k Hk HV0.
  destruct (PX_va_of (Z.of_nat i) (Z.of_nat j) (Z.of_nat k)) as (Hva & H2 & H1 & H0); [lia..|].
  specialize (Hno _ Hva). unfold pte_at, leaf_addr in Hno. rewrite H2, H1, H0 in Hno.
  simpl in Ht1, Hno. rewrite Ht1 in Hno. cbn in Hno. rewrite entry_child, HV1 in Hno. cbn in Hno.
  fold t0 in Hno. unfold entry in HV0. congruence.
Qed.

(** what an operation on the pages [own] and the free pages leaves: the page
    pool is the same, and no other byte has changed *)
Record pool_step (own own' : Z → Prop) (s : machine) (free : list Z) (s' : machine) (free' : list Z) : Prop := {
  ps_kmem : kmem_ok s' free';
  ps_pool p : p ∈ free' ∨ own' p ↔ p ∈ free ∨ own p;
  ps_frame x : (∀ p, p ∈ free ∨ own p → ¬ in_page p x) → ld8 (ram s') x = ld8 (ram s) x
}.

Lemma pool_step_trans o1 o2 o3 s1 f1 s2 f2 s3 f3 :
  pool_step o1 o2 s1 f1 s2 f2 → pool_step o2 o3 s2 f2 s3 f3 → pool_step o1 o3 s1 f1 s3 f3.
Proof.
  intros H1 H2. constructor; [apply H2|..].
  - intros p. by rewrite (ps_pool _ _ _ _ _ _ H2), (ps_pool _ _ _ _ _ _ H1).
  - intros x Hx. rewrite (ps_frame _ _ _ _ _ _ H2).
    + by apply (ps_frame _ _ _ _ _ _ H1).
    + intros p Hp. apply Hx. by apply (ps_pool _ _ _ _ _ _ H1).
Qed.

Lemma as_step_pool pt s free s' free' :
  as_step pt s free s' free' → pool_step (owns (ram s) pt) (owns (ram s') pt) s free s' free'.
Proof. intros []. by constructor. Qed.

Definition none : Z → Prop := λ _, False.

(** no leaf of the tables is valid *)
Definition unmapped (m : gmap Z byte) (pt : Z) : Prop :=
  ∀ va, 0 ≤ va < MAXVA → has (pte_at m pt va) PTE_V = false.

Lemma unmapped_owns m pt p : unmapped m pt → owns m pt p ↔ is_table m pt p.
Proof.
  intros Hu. split; [|by left]. intros [?|(va & Hva & Hl)]; [done|].
  unfold lpage in Hl. rewrite Hu in Hl; [done|]. rewrite TRAPFRAME_val, MAXVA_val in *. lia.
Qed.

Lemma freewalk_space pt s free :
  kmem_ok s free → aspace (ram s) pt free → unmapped (ram s) pt →
  ∃ s' free', freewalk (E := E) 3 pt s = Ok tt s' ∧ pool_step (owns (ram s) pt) none s free s' free'.
Proof.
  intros Hk Has Hu.
  assert (Hv : ∀ p, p ∈ tpages (ram s) 2 pt → valid_page p ∧ p ∉ free).
  { intros p Hp. apply elem_of_tpages in Hp as (id & Hid & Ht).
    by apply (pt_page _ _ _ (as_pt _ _ _ Has) id). }
  destruct (freewalk_ok 2 pt s free) as (s' & f' & Hrun & Hk' & Hp & Hfr).
  - done.
  - apply (clean_tables _ _ free); [apply Has..|done].
  - apply NoDup_app. split_and!; [apply (NoDup_tpages _ _ free), Has| |apply Hk].
    intros p Hp. by apply Hv.
  - apply Forall_forall. intros p Hp. by apply Hv.
  - exists s', f'. split; [done|]. constructor; [done|..].
    + intros p. rewrite Hp, elem_of_app, elem_of_tpages, unmapped_owns by done. unfold none. tauto.
    + intros x Hx. apply Hfr. intros p Hp'. apply Hx. right. apply unmapped_owns; [done|].
      by apply elem_of_tpages.
Qed.

Lemma uvmfree_ok pt sz s free :
  kmem_ok s free → aspace (ram s) pt free → sized (ram s) pt sz → 0 ≤ sz ≤ TRAPFRAME →
  (∀ va, TRAPFRAME ≤ va < MAXVA → has (pte_at (ram s) pt va) PTE_V = false) →
  ∃ s' free', uvmfree (E := E) pt sz s = Ok tt s' ∧ pool_step (owns (ram s) pt) none s free s' free'.
Proof.
  intros Hk Has Hs Hsz Htop. destruct (PGROUNDUP_user sz) as (Hra & Hrb & Hrt); [done|].
  assert (Hmul : PGROUNDUP sz / PGSIZE * PGSIZE = PGROUNDUP sz) by (unfold PGSIZE in *; dlia).
  destruct (uvmunmap_ok (E := E) pt 0 (PGROUNDUP sz / PGSIZE) s free) as (s1 & f1 & Hrun1 & Hst1 & _ & Hv1);
    [done|done|lia|done|unfold PGSIZE in *; dlia|lia| |].
  { intros v Hv. apply Hs; lia. }
  assert (Hstep : ∃ s1 f1, when (0 <? sz) (uvmunmap pt 0 (PGROUNDUP sz / PGSIZE) true) s = Ok (E := E) tt s1 ∧
    as_step pt s free s1 f1 ∧ unmapped (ram s1) pt).
  { destruct (Z.ltb_spec 0 sz).
    - exists s1, f1. split_and!; [done|done|]. intros va Hva.
      destruct (Z.lt_ge_cases va TRAPFRAME).
      + apply lpage_None_V, uview_None. rewrite Hv1 by lia. case_if; [done|].
        destruct (uview (ram s) pt va) eqn:Ev; [|done].
        assert (va < PGROUNDUP sz) by (apply Hs; [lia|by rewrite Ev]). lia.
      + rewrite (st_top _ _ _ _ _ Hst1) by lia. apply Htop. lia.
    - exists s, free. split_and!; [done|by apply as_step_refl|]. assert (sz = 0) as -> by lia.
      intros va Hva. destruct (Z.lt_ge_cases va TRAPFRAME); [|apply Htop; lia].
      apply lpage_None_V, uview_None. destruct (uview (ram s) pt va) eqn:Ev; [|done].
      assert (va < PGROUNDUP 0) by (apply Hs; [lia|by rewrite Ev]). change (PGROUNDUP 0) with 0 in *. lia. }
  clear s1 f1 Hrun1 Hst1 Hv1. destruct Hstep as (s1 & f1 & Hrun1 & Hst1 & Hu1).
  destruct (freewalk_space pt s1 f1) as (s2 & f2 & Hrun2 & Hp2); [apply Hst1|apply Hst1|done|].
  exists s2, f2. split; [unfold uvmfree; by rewrite (bind_Ok _ _ _ _ _ Hrun1)|].
  by eapply pool_step_trans; [apply as_step_pool|].
Qed.

(** ** An empty page table *)

Lemma zero_table m pt free :
  valid_page pt → pt ∉ free → (∀ k, 0 ≤ k < 512 → ld64 m (pt + 8 * k) = 0) →
  aspace m pt free ∧ (∀ va, pte_at m pt va = 0) ∧ (∀ p, owns m pt p ↔ p = pt).
Proof.
  intros Hv Hf Hz.
  assert (Hc : ∀ k, 0 ≤ k < 512 → child m pt k = None) by (intros k Hk; by apply child_zero, Hz).
  assert (Htab : ∀ id t, tableid_ok id → table m pt id = Some t → id = TRoot ∧ t = pt).
  { intros [|i|i j] t Hid; simpl in *; [intros [= ->]; done| |]; rewrite Hc by tauto; done. }
  assert (Hpte : ∀ va, pte_at m pt va = 0).
  { intros va. unfold pte_at, leaf_addr. destruct (table m pt _) eqn:Et; [|done].
    by apply Htab in Et as [? _]; [|apply leaf_table_ok]. }
  assert (Hl : ∀ va, lpage m pt va = None) by (intros va; unfold lpage; by rewrite Hpte).
  assert (Hist : ∀ p, is_table m pt p ↔ p = pt).
  { intros p. split; [|intros ->; by exists TRoot]. intros (id & Hid & Ht). by apply Htab in Ht as [_ ?]. }
  split_and!; [constructor|done|].
  - constructor.
    + intros id t Hid Ht. by apply Htab in Ht as [_ ->].
    + intros id id' t Hid Hid' Ht Ht'. apply Htab in Ht as [-> _]; [|done]. by apply Htab in Ht' as [-> _].
  - split.
    + intros id t i Hid _ Ht Hi. apply Htab in Ht as [_ ->]; [|done]. by rewrite Hz.
    + intros i Hi. by rewrite Hz by lia.
  - intros va pa _. by rewrite Hl.
  - intros va _. by rewrite Hpte.
  - intros va va' pa _ _. by rewrite Hl.
  - intros va _. by rewrite Hpte.
  - intros p. unfold owns. rewrite Hist. split; [intros [?|(va & _ & Hp)]; [done|by rewrite Hl in Hp]|by left].
Qed.

Lemma sized_0 m pt : (∀ va, 0 ≤ va < TRAPFRAME → has (pte_at m pt va) PTE_V = false) ↔ sized m pt 0.
Proof.
  unfold sized. change (PGROUNDUP 0) with 0. split.
  - intros Hp va Hva. rewrite uview_None, lpage_None_V, Hp by done. split; [done|lia].
  - intros Hp va Hva. apply lpage_None_V, uview_None. destruct (uview m pt va) eqn:Ev; [|done].
    assert (va < 0) by (apply Hp; [done|by rewrite Ev]). lia.
Qed.

Lemma uvmcreate_ok s free :
  kmem_ok s free →
  (free = [] ∧ uvmcreate (E := E) s = Ok 0 s) ∨
  (∃ pt ps s', free = pt :: ps ∧ uvmcreate (E := E) s = Ok pt s' ∧ pt ≠ 0 ∧
    aspace (ram s') pt ps ∧ (∀ va, pte_at (ram s') pt va = 0) ∧
    pool_step none (owns (ram s') pt) s (pt :: ps) s' ps).
Proof.
  intros Hk. unfold uvmcreate. destruct free as [|pt ps].
  { left. split; [done|]. by rewrite (bind_Ok _ _ _ _ _ (kalloc_ok s [] Hk)). }
  right. destruct (kalloc_ok (E := E) s (pt :: ps) Hk) as (s1 & Hs1 & Hk1 & Hv & Hn & Hfr).
  assert (Hp0 : pt ≠ 0) by (unfold valid_page in Hv; lia).
  exists pt, ps, (mkMachine (memset pt 0 PGSIZE (ram s1)) (freelist s1)).
  destruct (zero_table (memset pt 0 PGSIZE (ram s1)) pt ps) as (Has & Hpte & Ho); [done|done| |].
  { intros k Hk0. apply ld64_memset_0; unfold PGSIZE; lia. }
  split_and!; [done| |done|done|done|constructor].
  - rewrite (bind_Ok _ _ _ _ _ Hs1). by rewrite (proj2 (Z.eqb_neq pt 0)) by done.
  - split; [|apply Hk1]. simpl. apply (free_pages_ext (ram s1)); [|apply Hk1]. intros q x Hq Hx.
    rewrite ld8_memset, decide_False; [done|]. apply (in_page_disjoint q);
      [by apply (kmem_valid s1 ps)|done|by intros ->|done].
  - intros p. simpl. rewrite Ho, elem_of_cons. unfold none. tauto.
  - intros x Hx. simpl. assert (¬ in_page pt x) by (apply Hx; left; set_solver).
    rewrite ld8_memset, decide_False by done. by apply Hfr.
Qed.

(** ** The two pages above the user memory *)

Lemma aspace_top pt s free s' free' :
  kmem_ok s free → aspace (ram s) pt free → vm_ext pt s free s' free' →
  (∀ va, 0 ≤ va < TRAPFRAME → pte_at (ram s') pt va = pte_at (ram s) pt va) →
  (∀ va, TRAPFRAME ≤ va < MAXVA → has (pte_at (ram s') pt va) PTE_U = false) →
  aspace (ram s') pt free' ∧ pool_step (owns (ram s) pt) (owns (ram s') pt) s free s' free' ∧
  (∀ va, 0 ≤ va < TRAPFRAME → uview (ram s') pt va = uview (ram s) pt va).
Proof.
  intros Hk Has He Hlow Htop.
  assert (Hl : ∀ va, 0 ≤ va < TRAPFRAME → lpage (ram s') pt va = lpage (ram s) pt va)
    by (intros va Hva; unfold lpage; by rewrite Hlow).
  assert (Hu : ∀ q, (∃ va, 0 ≤ va < TRAPFRAME ∧ lpage (ram s') pt va = Some q) ↔
    ∃ va, 0 ≤ va < TRAPFRAME ∧ lpage (ram s) pt va = Some q).
  { intros q. f_equiv. intros va. split; intros [Hva Hq]; (split; [done|]); [by rewrite <- Hl|by rewrite Hl]. }
  assert (Hfp := vm_ext_tables pt s free s' free' He).
  split_and!; [constructor|constructor|].
  - apply He.
  - apply (ext_ptr _ _ _ _ _ He), Has.
  - intros va q Hva. rewrite Hl by done. intros Hq. destruct (as_page _ _ _ Has va q Hva Hq) as (? & ? & ?).
    specialize (Hfp q). split_and!; [done|tauto..].
  - intros va Hva. rewrite Hlow by done. by apply Has.
  - intros va va' q Hva Hva'. rewrite !Hl by done. by apply Has.
  - done.
  - apply He.
  - intros q. specialize (Hfp q). specialize (Hu q). unfold owns. tauto.
  - intros x Hx. apply (ext_frame _ _ _ _ _ He). intros t [Ht|Ht]; apply Hx; [right; by left|by left].
  - intros va Hva. unfold uview. rewrite Hl, Hlow by done.
    destruct (lpage (ram s) pt va) as [q|] eqn:Eq; cbn; [|done]. do 2 f_equal.
    destruct (as_page _ _ _ Has va q Hva Eq) as (? & ? & ?).
    apply (vm_ext_bytes pt s free s' free' q); [done..|]. unfold in_page, PGSIZE. dlia.
Qed.

Definition top_pte (pt : Z) (m m' : gmap Z byte) (va0 e : Z) : Prop :=
  ∀ va, 0 ≤ va < MAXVA → pte_at m' pt va = if decide (va / PGSIZE = va0 / PGSIZE) then e else pte_at m pt va.

(** the address space after a change above the user memory *)
Record top_step (pt : Z) (s : machine) (free : list Z) (s' : machine) (free' : list Z) : Prop := {
  tp_as : aspace (ram s') pt free';
  tp_pool : pool_step (owns (ram s) pt) (owns (ram s') pt) s free s' free';
  tp_view va : 0 ≤ va < TRAPFRAME → uview (ram s') pt va = uview (ram s) pt va
}.

Lemma top_not_user va va0 : 0 ≤ va < TRAPFRAME → TRAPFRAME ≤ va0 → va / PGSIZE ≠ va0 / PGSIZE.
Proof. rewrite TRAPFRAME_val. unfold PGSIZE. dlia. Qed.

Lemma vm_ext_top pt s free s' free' va0 e :
  kmem_ok s free → aspace (ram s) pt free → vm_ext pt s free s' free' → TRAPFRAME ≤ va0 →
  has e PTE_U = false → top_pte pt (ram s) (ram s') va0 e ∨ top_pte pt (ram s) (ram s') va0 (pte_at (ram s) pt va0) ∧ va0 < MAXVA →
  top_step pt s free s' free'.
Proof.
  intros Hk Has He Hva0 HU Hpte. assert (HTM : TRAPFRAME < MAXVA) by done.
  destruct (aspace_top pt s free s' free') as (Ha & Hp & Hv); [done|done|done| | |by constructor].
  - intros va Hva. pose proof (top_not_user va va0 Hva Hva0).
    destruct Hpte as [Hpte|[Hpte _]]; rewrite Hpte by lia; by rewrite decide_False.
  - intros va Hva. assert (0 ≤ va < MAXVA) by (rewrite TRAPFRAME_val in *; lia).
    destruct Hpte as [Hpte|[Hpte Hm]]; rewrite Hpte by done; case_if; try done; by apply Has.
Qed.

Lemma mappages_top pt va0 pa perm s free :
  kmem_ok s free → aspace (ram s) pt free → TRAPFRAME ≤ va0 < MAXVA → va0 mod PGSIZE = 0 →
  has (pte_at (ram s) pt va0) PTE_V = false → 0 ≤ pa < 2 ^ 56 → 0 ≤ perm < 2 ^ 10 →
  has (Z.lor perm PTE_V) PTE_U = false →
  ∃ (added : bool) s' free',
    mappages (E := E) pt va0 PGSIZE pa perm s = Ok (if added then 0 else -1) s' ∧
    top_step pt s free s' free' ∧ (added = false → free' = []) ∧
    (length free ≤ length free' + 2)%nat ∧
    (if added then top_pte pt (ram s) (ram s') va0 (mk_pte pa perm)
     else ∀ va, 0 ≤ va < MAXVA → pte_at (ram s') pt va = pte_at (ram s) pt va).
Proof.
  intros Hk Has Hva Hal HV Hpa Hperm HU. assert (H0 : 0 ≤ va0) by (rewrite TRAPFRAME_val in *; lia).
  destruct (mappages_page (E := E) pt va0 pa perm s free) as (b & s' & f' & Hrun & He & Hpte & Hf & Hc);
    [done|apply Has|lia|done..|].
  exists b, s', f'. split; [done|]. destruct b.
  - assert (Ht : top_pte pt (ram s) (ram s') va0 (mk_pte pa perm)).
    { intros va Hva'. rewrite Hpte by done. repeat case_if; tauto. }
    split_and!; [|done..]. apply (vm_ext_top pt s free s' f' va0 (mk_pte pa perm)); [done|done|done|lia| |by left].
    unfold has in *. by rewrite mk_pte_land.
  - assert (Ht : ∀ va, 0 ≤ va < MAXVA → pte_at (ram s') pt va = pte_at (ram s) pt va).
    { intros va Hva'. rewrite Hpte by done. case_if; [by destruct E0|done]. }
    split_and!; [|done..]. apply (vm_ext_top pt s free s' f' va0 0); [done|done|done|lia|done|].
    right. split; [|lia]. intros va Hva'. rewrite Ht by done. case_if; [|done].
    by destruct (lpage_page (ram s) pt va va0) as [-> _]; [lia..|done|].
Qed.

Lemma uvmunmap_top pt va0 s free :
  kmem_ok s free → aspace (ram s) pt free → TRAPFRAME ≤ va0 < MAXVA → va0 mod PGSIZE = 0 →
  has (pte_at (ram s) pt va0) PTE_V = true → PTE_FLAGS (pte_at (ram s) pt va0) ≠ PTE_V →
  ∃ s', uvmunmap (E := E) pt va0 1 false s = Ok tt s' ∧
    top_step pt s free s' free ∧ top_pte pt (ram s) (ram s') va0 0.
Proof.
  intros Hk Has Hva Hal HV HF. assert (HM : 0 ≤ va0 < MAXVA) by (rewrite TRAPFRAME_val in *; lia).
  assert (Hl : lpage (ram s) pt va0 = Some (PTE2PA (pte_at (ram s) pt va0))) by (unfold lpage; by rewrite HV).
  destruct (leaf_addr_of_page _ _ _ _ Hl) as (la & Hla & Hld & _ & _).
  destruct (store_leaf pt va0 s free la 0) as [He Hset]; [done|apply Has|done|lia|done|].
  assert (Ht : top_pte pt (ram s) (st64 la 0 (ram s)) va0 0) by exact (leaf_at _ _ _ _ _ Hset).
  exists (mkMachine (st64 la 0 (ram s)) (freelist s)). split; [|split; [|exact Ht]].
  - unfold uvmunmap. rewrite (proj2 (Z.eqb_eq _ _)) by done. cbn [negb].
    rewrite (u64_small (va0 + 1 * PGSIZE)) by (rewrite MAXVA_val in *; unfold PGSIZE; lia).
    change (Z.to_nat 1) with 1%nat. cbn [uvmunmap_loop].
    rewrite (proj2 (Z.ltb_lt _ _)) by (unfold PGSIZE; lia).
    rewrite (bind_Ok _ _ _ _ _ (walk_lookup _ _ _ HM)), Hla. change (default 0 (Some la)) with la.
    pose proof (leaf_addr_pos _ _ _ _ _ (as_pt _ _ _ Has) Hla).
    rewrite (proj2 (Z.eqb_neq la 0)) by lia. unfold bind at 1, load64, gets. simpl run_bind.
    rewrite Hld, HV. cbn [negb]. rewrite (proj2 (Z.eqb_neq _ _)) by done.
    unfold bind, store64, modify, when. simpl run_bind.
    rewrite (u64_small (va0 + PGSIZE)) by (rewrite MAXVA_val in *; unfold PGSIZE; lia).
    rewrite (proj2 (Z.ltb_ge _ _)) by lia. done.
  - apply (vm_ext_top pt s free _ free va0 0); [done|done|exact He|lia|done|by left].
Qed.

(** ** Process page tables *)

(** the page table of a process with [sz] bytes of memory and its trapframes
    in page [tf] *)
Record utable (m : gmap Z byte) (pt sz tf : Z) (free : list Z) : Prop := {
  ut_as : aspace m pt free;
  ut_size : 0 ≤ sz ≤ TRAPFRAME;
  ut_sized : sized m pt sz;
  ut_tramp : pte_at m pt TRAMPOLINE = mk_pte sym_trampoline (Z.lor PTE_R PTE_X);
  ut_tf : pte_at m pt TRAPFRAME = mk_pte tf (Z.lor PTE_R PTE_W)
}.

Lemma sized_ext m m' pt sz :
  (∀ va, 0 ≤ va < TRAPFRAME → uview m' pt va = uview m pt va) → sized m pt sz → sized m' pt sz.
Proof. intros Hv Hs va Hva. rewrite Hv by done. by apply Hs. Qed.

Lemma top_pages : TRAMPOLINE / PGSIZE ≠ TRAPFRAME / PGSIZE ∧ TRAPFRAME ≤ TRAMPOLINE < MAXVA ∧
  TRAPFRAME ≤ TRAPFRAME < MAXVA ∧ TRAMPOLINE mod PGSIZE = 0 ∧ TRAPFRAME mod PGSIZE = 0.
Proof. by vm_compute. Qed.

Lemma top_cases va : TRAPFRAME ≤ va < MAXVA →
  va / PGSIZE = TRAMPOLINE / PGSIZE ∨ va / PGSIZE = TRAPFRAME / PGSIZE.
Proof.
  rewrite TRAPFRAME_val, MAXVA_val. change (TRAMPOLINE / PGSIZE) with 67108863.
  change (274877898752 / PGSIZE) with 67108862. unfold PGSIZE. dlia.
Qed.

Lemma proc_freepagetable_ok pt sz tf s free :
  kmem_ok s free → utable (ram s) pt sz tf free →
  ∃ s' free', proc_freepagetable pt sz s = Ok tt s' ∧
    pool_step (owns (ram s) pt) none s free s' free'.
Proof.
  intros Hk [Has Hsz Hs Htr Htf].
  destruct top_pages as (Hne & Ht1 & Ht2 & Ha1 & Ha2).
  destruct (uvmunmap_top pt TRAMPOLINE s free) as (s1 & Hrun1 & [Has1 Hp1 Hv1] & Hpte1);
    [done|done|done|done|rewrite Htr; apply mk_pte_V|rewrite Htr, mk_pte_flags; by vm_compute|].
  assert (Htf1 : pte_at (ram s1) pt TRAPFRAME = mk_pte tf (Z.lor PTE_R PTE_W)).
  { rewrite Hpte1, decide_False by (done || congruence). done. }
  destruct (uvmunmap_top pt TRAPFRAME s1 free) as (s2 & Hrun2 & [Has2 Hp2 Hv2] & Hpte2);
    [apply Hp1|done|done|done|rewrite Htf1; apply mk_pte_V|rewrite Htf1, mk_pte_flags; by vm_compute|].
  destruct (uvmfree_ok pt sz s2 free) as (s3 & f3 & Hrun3 & Hp3);
    [apply Hp2|done| |done| |].
  - apply (sized_ext (ram s1)); [done|]. by apply (sized_ext (ram s)).
  - intros va Hva. assert (0 ≤ va < MAXVA) by (rewrite TRAPFRAME_val in *; lia).
    rewrite Hpte2 by done. case_if; [done|]. rewrite Hpte1 by done. case_if; [done|].
    by destruct (top_cases va Hva).
  - exists s3, f3. split.
    + unfold proc_freepagetable. by rewrite (bind_Ok _ _ _ _ _ Hrun1), (bind_Ok _ _ _ _ _ Hrun2).
    + by eapply pool_step_trans, pool_step_trans.
Qed.

Lemma uvmfree_empty pt s free :
  kmem_ok s free → aspace (ram s) pt free → unmapped (ram s) pt →
  ∃ s' free', uvmfree (E := E) pt 0 s = Ok tt s' ∧ pool_step (owns (ram s) pt) none s free s' free'.
Proof.
  intros Hk Has Hu. apply uvmfree_ok; [done|done| |by rewrite TRAPFRAME_val|].
  - apply sized_0. intros va Hva. apply Hu. rewrite TRAPFRAME_val, MAXVA_val in *. lia.
  - intros va Hva. apply Hu. rewrite TRAPFRAME_val in *. lia.
Qed.

Lemma proc_pagetable_ok tf s free :
  kmem_ok s free → 0 ≤ tf < 2 ^ 56 → 0 ≤ sym_trampoline < 2 ^ 56 →
  ∃ r s' free', proc_pagetable tf s = Ok r s' ∧
    ((r = 0 ∧ pool_step none none s free s' free' ∧ (length free ≤ 5)%nat) ∨
     (r ≠ 0 ∧ utable (ram s') r 0 tf free' ∧ pool_step none (owns (ram s') r) s free s' free' ∧
      (length free ≤ length free' + 5)%nat)).
Proof.
  intros Hk Htf Htr. destruct top_pages as (Hne & Ht1 & Ht2 & Ha1 & Ha2).
  assert (H0M : 0 ≤ TRAPFRAME) by done.
  unfold proc_pagetable.
  destruct (uvmcreate_ok s free Hk) as [[-> Hrun]|(pt & ps & s0 & -> & Hrun & Hp0 & Has0 & Hpte0 & Hps0)];
    rewrite (bind_Ok _ _ _ _ _ Hrun).
  { exists 0, s, []. split; [done|]. left. split_and!; [done|by constructor|simpl; lia]. }
  rewrite (proj2 (Z.eqb_neq pt 0)) by done.
  destruct (mappages_top pt TRAMPOLINE sym_trampoline (Z.lor PTE_R PTE_X) s0 ps)
    as (b1 & s1 & f1 & Hrun1 & [Has1 Hps1 Hv1] & Hf1 & Hc1 & Hpte1); try done; [apply Hps0|by rewrite Hpte0|].
  rewrite (bind_Ok _ _ _ _ _ Hrun1). assert (Hps01 := pool_step_trans _ _ _ _ _ _ _ _ _ Hps0 Hps1).
  destruct b1; cbv iota; [change (0 <? 0) with false|change (-1 <? 0) with true]; cbv iota; cycle 1.
  { destruct (uvmfree_empty pt s1 f1) as (s2 & f2 & Hrun2 & Hps2); [apply Hps1|done| |].
    - intros va Hva. by rewrite Hpte1, Hpte0.
    - exists 0, s2, f2. rewrite (bind_Ok _ _ _ _ _ Hrun2). split; [done|]. left. split_and!; [done|by eapply pool_step_trans|].
      rewrite (Hf1 eq_refl) in Hc1. simpl in *. lia. }
  destruct (mappages_top pt TRAPFRAME tf (Z.lor PTE_R PTE_W) s1 f1)
    as (b2 & s2 & f2 & Hrun2 & [Has2 Hps2 Hv2] & Hf2 & Hc2 & Hpte2); try done.
  { apply Hps1. }
  { rewrite Hpte1, decide_False, Hpte0 by (done || congruence). done. }
  rewrite (bind_Ok _ _ _ _ _ Hrun2). assert (Hps02 := pool_step_trans _ _ _ _ _ _ _ _ _ Hps01 Hps2).
  destruct b2; cbv iota; [change (0 <? 0) with false|change (-1 <? 0) with true]; cbv iota.
  - exists pt, s2, f2. split; [done|]. right. split_and!; [done| |done|simpl; lia]. constructor; [done|done| | |].
    + apply sized_0. intros va Hva. assert (0 ≤ va < MAXVA) by (rewrite TRAPFRAME_val, MAXVA_val in *; lia).
      rewrite Hpte2, decide_False, Hpte1, decide_False, Hpte0; try done; by apply top_not_user.
    + rewrite Hpte2, decide_False, Hpte1, decide_True by done. done.
    + rewrite Hpte2, decide_True by done. done.
  - destruct (uvmunmap_top pt TRAMPOLINE s2 f2) as (s3 & Hrun3 & [Has3 Hps3 Hv3] & Hpte3); try done.
    { apply Hps2. }
    { rewrite Hpte2, Hpte1, decide_True by done. apply mk_pte_V. }
    { rewrite Hpte2, Hpte1, decide_True, mk_pte_flags by done. by vm_compute. }
    destruct (uvmfree_empty pt s3 f2) as (s4 & f4 & Hrun4 & Hps4); [apply Hps3|done| |].
    { intros va Hva. rewrite Hpte3 by done. case_if; [done|].
      by rewrite Hpte2, Hpte1, decide_False, Hpte0. }
    exists 0, s4, f4. rewrite (bind_Ok _ _ _ _ _ Hrun3), (bind_Ok _ _ _ _ _ Hrun4).
    split; [done|]. left. split_and!; [done|by eapply pool_step_trans, pool_step_trans|].
    rewrite (Hf2 eq_refl) in Hc2. simpl in *. lia.
Qed.
End Pagetable.
