(* ===== verification/VmSpec.v ===== *)
(** * What the virtual-memory layer promises

    The main theorems about src/kernel/vm.c and the page-table functions of
    src/kernel/proc.c, each with an instance on a concrete machine: an image
    whose kernel leaves 64 pages of RAM, in which [kinit], [uvmcreate] and
    [uvmalloc] have been run. *)

From S2P Require Import Prelude Mem Riscv Kalloc Vm Uvm Pagetable.

Section Spec.
Context `{KernelSymbols} {E : Type}.

Lemma aspace_uvm m pt free : aspace m pt free → uvm_ok m pt free.
Proof.
  intros Has.
  assert (Hu : ∀ va pa, 0 ≤ va < MAXVA → upage m pt va = Some pa →
    0 ≤ va < TRAPFRAME ∧ lpage m pt va = Some pa).
  { intros va pa Hva. unfold upage, lpage.
    destruct (has (pte_at m pt va) PTE_V); [|done]. destruct (has (pte_at m pt va) PTE_U) eqn:HU; [|done].
    intros [= <-]. split; [|done]. destruct (Z.lt_ge_cases va TRAPFRAME); [lia|].
    rewrite (as_top _ _ _ Has) in HU by lia. done. }
  constructor; [apply Has|..].
  - intros va pa Hva Hp. destruct (Hu va pa Hva Hp) as [Hva' Hl].
    destruct (as_page _ _ _ Has va pa Hva' Hl) as (? & ? & ?). split; [done|].
    unfold footprint. unfold is_table in *. tauto.
  - intros va va' pa Hva Hva' Hp Hp'. destruct (Hu va pa Hva Hp), (Hu va' pa Hva' Hp').
    by apply (as_inj _ _ _ Has _ _ pa).
Qed.

(** writing user pages keeps the address space *)
Lemma aspace_tables m m' pt free :
  (∀ p x, is_table m pt p → in_page p x → ld8 m' x = ld8 m x) → aspace m pt free → aspace m' pt free.
Proof.
  intros Hm Has. destruct (tables_ext m m' pt) as (Htab & Hpte & Hptr).
  { intros id t x Hid Ht. apply Hm. by exists id. }
  assert (Hl : ∀ va, lpage m' pt va = lpage m pt va) by (intros; unfold lpage; by rewrite Hpte).
  assert (Hist : ∀ p, is_table m' pt p ↔ is_table m pt p).
  { intros p. unfold is_table. f_equiv. intros id. split; intros [Hid Ht]; (split; [done|]);
      [by rewrite <- Htab|by rewrite Htab]. }
  constructor.
  - apply (pt_ok_tables m); [done|apply Has].
  - apply Hptr, Has.
  - intros va pa. rewrite Hl, Hist. apply Has.
  - intros va. rewrite Hpte. apply Has.
  - intros va va' pa. rewrite !Hl. apply Has.
  - intros va. rewrite Hpte. apply Has.
Qed.

Lemma user_written_aspace pt free va bs s s' :
  aspace (ram s) pt free → user_written pt free va bs s s' → aspace (ram s') pt free.
Proof.
  intros Has Hw. apply (aspace_tables (ram s)); [|done]. intros p x Hp Hx.
  apply (uw_frame _ _ _ _ _ _ Hw). intros v pa Hv Hpa.
  destruct (uvm_page _ _ _ (aspace_uvm _ _ _ Has) v pa Hv Hpa) as [Hpv Hpn].
  apply (in_page_disjoint p); [apply (owns_page _ _ _ _ Has); by left|done| |done].
  intros ->. apply Hpn. left. exact Hp.
Qed.

(** reading back what was written *)
Lemma copyin_written pt va bs s s' free :
  0 ≤ va → user_written pt free va bs s s' →
  copyin (E := E) pt va (Z.of_nat (length bs)) s' = Ok (0, bs) s'.
Proof.
  intros Hva Hw. unfold copyin.
  assert (Hb : ∀ i, (i < length bs)%nat → ubyte (ram s') pt (va + Z.of_nat i) = bs !! i).
  { intros i Hi. rewrite (uw_byte _ _ _ _ _ _ Hw), decide_True by lia. f_equal. lia. }
  destruct (copyin_loop_ok (E := E) (Z.to_nat (Z.of_nat (length bs))) pt va (Z.of_nat (length bs)) [] s' free)
    as (r & bs' & Hrun & Hub & Hr); [lia|lia|apply Hw|done|].
  rewrite Hrun, app_nil_l. destruct Hr as [[-> Hlen]|(-> & Hlen & Hn)].
  - do 2 f_equal. apply list_eq. intros i. destruct (decide (i < length bs)%nat) as [Hi|Hi].
    + rewrite <- Hb by done. symmetry. apply Hub. lia.
    + rewrite !lookup_ge_None_2 by lia. done.
  - rewrite Hb in Hn by lia. apply lookup_ge_None in Hn. lia.
Qed.

(** C17: [mappages] refines the page table seen as a function from pages to
    entries.  For a range of unmapped pages it returns 0 or -1 and never
    panics; entry [v] of the page table becomes the entry for the matching
    physical page with the requested permissions for the first [k] pages of
    the range and is unchanged elsewhere; all of the range is mapped when it
    returns 0, and it returns -1 only when the allocator has run out of pages.
    The page-table pages come from the free list, and no byte outside the
    page-table and free pages changes. *)
Theorem mappages_refines pt va size pa perm s free :
  kmem_ok s free → pt_ok (ram s) pt free → 0 ≤ perm < 2 ^ 10 →
  0 ≤ va → 0 < size → va + size ≤ MAXVA → 0 ≤ pa → pa + size + PGSIZE < 2 ^ 64 →
  (∀ v, va / PGSIZE ≤ v / PGSIZE ≤ (va + size - 1) / PGSIZE → has (pte_at (ram s) pt v) PTE_V = false) →
  ∃ k r s' free', mappages (E := E) pt va size pa perm s = Ok r s' ∧
    vm_ext pt s free s' free' ∧
    (∀ v, 0 ≤ v < MAXVA → pte_at (ram s') pt v =
      if decide (va / PGSIZE ≤ v / PGSIZE < va / PGSIZE + k)
      then Z.lor (Z.lor (PA2PTE (pa + (v / PGSIZE - va / PGSIZE) * PGSIZE)) perm) PTE_V
      else pte_at (ram s) pt v) ∧
    let n := (va + size - 1) / PGSIZE - va / PGSIZE + 1 in
    ((r = 0 ∧ k = n) ∨ (r = -1 ∧ 0 ≤ k < n ∧ free' = [])).
Proof.
  intros Hk Hpt Hperm Hva Hsz Hmax Hpa Hpl Hun.
  destruct (mappages_ok (E := E) pt va size pa perm s free) as (k & r & s' & f' & Hrun & He & Hm & Hr & _);
    try done; [lia|]. by exists k, r, s', f'.
Qed.

(** C18: [copyout] and [copyin] are inverse on mapped user memory.  [copyout]
    returns 0 exactly when every byte of the destination is mapped for the
    user; then a [copyin] of the same range returns the bytes that were copied
    out, and every other user byte, the page table and the free list are
    unchanged. *)
Theorem copyout_copyin pt va src s free :
  kmem_ok s free → aspace (ram s) pt free → 0 ≤ va →
  ∃ r s', copyout (E := E) pt va src s = Ok r s' ∧ kmem_ok s' free ∧ aspace (ram s') pt free ∧
    (r = 0 ↔ ∀ i, (i < length src)%nat → ubyte (ram s) pt (va + Z.of_nat i) ≠ None) ∧
    (r = 0 → copyin (E := E) pt va (Z.of_nat (length src)) s' = Ok (0, src) s' ∧
      ∀ v, ¬ (va ≤ v < va + Z.of_nat (length src)) → ubyte (ram s') pt v = ubyte (ram s) pt v).
Proof.
  intros Hk Has Hva. assert (Hu := aspace_uvm _ _ _ Has).
  destruct (copyout_ok (E := E) pt va src s free Hk Hu Hva) as (k & r & s' & Hrun & Hw & Hr).
  assert (Hsome : ∀ v, ubyte (ram s') pt v = None ↔ ubyte (ram s) pt v = None).
  { intros v. unfold ubyte, upage. rewrite (uw_pte _ _ _ _ _ _ Hw). case_if; [|done].
    by destruct (has _ PTE_V && has _ PTE_U). }
  exists r, s'. split_and!; [done|apply Hw| | |].
  - by apply (user_written_aspace pt free va (take k src) s).
  - split.
    + intros -> i Hi. destruct Hr as [[_ ->]|[? _]]; [|done]. rewrite <- Hsome.
      rewrite (uw_byte _ _ _ _ _ _ Hw), firstn_all, decide_True by lia.
      intros Hn%lookup_ge_None. lia.
    + intros Hall. destruct Hr as [[? _]|(-> & Hk0 & Hn)]; [done|]. by apply Hall in Hk0.
  - intros ->. destruct Hr as [[_ ->]|[? _]]; [|done]. rewrite firstn_all in Hw. split.
    + by apply (copyin_written pt va src s s' free).
    + intros v Hv. rewrite (uw_byte _ _ _ _ _ _ Hw). by rewrite decide_False.
Qed.

Lemma sized_view m m' pt sz sz' :
  0 ≤ sz ≤ TRAPFRAME → 0 ≤ sz' ≤ TRAPFRAME → sized m pt sz →
  (∀ v, 0 ≤ v < TRAPFRAME → uview m' pt v =
    if decide (PGROUNDUP sz ≤ v < PGROUNDUP sz') then Some (Z.lor user_perm PTE_V, x00) else uview m pt v) →
  PGROUNDUP sz ≤ PGROUNDUP sz' → sized m' pt sz'.
Proof.
  intros Hsz Hsz' Hs Hv Hle v Hv0. rewrite Hv by done. case_if; [split; [lia|done]|].
  split; [intros Hu%(Hs v Hv0); lia|intros Hlt; apply (Hs v Hv0); lia].
Qed.

Lemma PGROUNDUP_mono a b : 0 ≤ a ≤ b → b ≤ TRAPFRAME → PGROUNDUP a ≤ PGROUNDUP b.
Proof.
  intros Hab Hb. rewrite !PGROUNDUP_eq by (rewrite TRAPFRAME_val in *; unfold PGSIZE; lia).
  unfold PGSIZE. dlia.
Qed.

(** C19: [uvmalloc] grows an address space by zero-filled pages with all user
    permissions, and [uvmdealloc] undoes it.  When memory runs out [uvmalloc]
    returns 0, which needs fewer than three free pages per requested page,
    and the address space is as before the call.  In each case every page of
    RAM is still free, a page-table page or a page of the address space. *)
Theorem uvmalloc_uvmdealloc pt oldsz newsz s free :
  kmem_ok s free → aspace (ram s) pt free → sized (ram s) pt oldsz →
  0 ≤ oldsz ≤ newsz → newsz ≤ TRAPFRAME →
  ∃ r s1 f1, uvmalloc (E := E) pt oldsz newsz s = Ok r s1 ∧ as_step pt s free s1 f1 ∧
   ((r = newsz ∧ sized (ram s1) pt newsz ∧
     (∀ v, 0 ≤ v < TRAPFRAME → uview (ram s1) pt v =
        if decide (PGROUNDUP oldsz ≤ v < PGROUNDUP newsz)
        then Some (Z.lor user_perm PTE_V, x00) else uview (ram s) pt v) ∧
     ∃ s2 f2, uvmdealloc (E := E) pt newsz oldsz s1 = Ok oldsz s2 ∧ as_step pt s free s2 f2 ∧
       ∀ v, 0 ≤ v < TRAPFRAME → uview (ram s2) pt v = uview (ram s) pt v) ∨
    (r = 0 ∧ (∀ v, 0 ≤ v < TRAPFRAME → uview (ram s1) pt v = uview (ram s) pt v) ∧
     Z.of_nat (length free) ≤ 3 * ((PGROUNDUP newsz - PGROUNDUP oldsz) / PGSIZE))).
Proof.
  intros Hk Has Hs Ho Hn.
  assert (Hmono : PGROUNDUP oldsz ≤ PGROUNDUP newsz) by (by apply PGROUNDUP_mono).
  destruct (uvmalloc_ok (E := E) pt oldsz newsz s free) as (b & s1 & f1 & Hrun & Hst & Hf & Hv); [done..|].
  exists (if b then newsz else 0), s1, f1. split_and!; [done|done|]. destruct b; [left|right].
  - assert (Hv1 : ∀ v, 0 ≤ v < TRAPFRAME → uview (ram s1) pt v =
      if decide (PGROUNDUP oldsz ≤ v < PGROUNDUP newsz)
      then Some (Z.lor user_perm PTE_V, x00) else uview (ram s) pt v).
    { intros v Hv0. rewrite Hv by done. repeat case_if; tauto. }
    split_and!; [done|by apply (sized_view (ram s) _ pt oldsz newsz); try lia|done|].
    destruct (PGROUNDUP_user newsz) as (_ & _ & Hb); [lia|].
    destruct (PGROUNDUP_user oldsz) as (_ & Hb' & _); [lia|].
    destruct (uvmdealloc_ok (E := E) pt newsz oldsz s1 f1) as (s2 & f2 & Hrun2 & Hst2 & _ & Hv2);
      [apply Hst|apply Hst|lia|lia| |].
    { intros v Hv0. rewrite Hv1, decide_True by lia. done. }
    exists s2, f2. split_and!; [rewrite Z.min_r in Hrun2 by lia; done|by eapply as_step_trans|].
    intros v Hv0. rewrite Hv2, Hv1 by done. case_if; [|done].
    destruct (uview (ram s) pt v) eqn:Ev; [|done].
    assert (v < PGROUNDUP oldsz) by (apply Hs; [done|by rewrite Ev]). lia.
  - split_and!; [done| |by apply Hf]. intros v Hv0. rewrite Hv by done. by rewrite decide_False by (by intros [? _]).
Qed.

(** C15: [uvmcopy] gives the child an exact copy of the parent's memory: the
    same addresses are mapped, with the same permissions and contents, in
    pages that the parent does not have.  The parent is unchanged.  When
    memory runs out it returns -1 and leaves the child without user memory;
    then there were fewer than three free pages per page of the parent. *)
Theorem uvmcopy_copies old new sz s free :
  two_spaces old new s free → 0 ≤ sz ≤ TRAPFRAME → sized (ram s) old sz → sized (ram s) new 0 →
  ∃ r s' free', uvmcopy (E := E) old new sz s = Ok r s' ∧
    two_spaces old new s' free' ∧ as_step new s free s' free' ∧
    (∀ v, 0 ≤ v < TRAPFRAME → uview (ram s') old v = uview (ram s) old v) ∧
    ((r = 0 ∧ sized (ram s') new sz ∧
      ∀ v, 0 ≤ v < TRAPFRAME → uview (ram s') new v = uview (ram s') old v) ∨
     (r = -1 ∧ sized (ram s') new 0 ∧ Z.of_nat (length free) ≤ 3 * (PGROUNDUP sz / PGSIZE))).
Proof.
  intros Hts Hsz Ho Hn.
  destruct (uvmcopy_ok (E := E) old new sz s free) as (b & s' & f' & Hrun & Hst & Hb & Hv); [done..|].
  destruct (two_spaces_step _ _ _ _ _ _ Hts Hst) as (Hts' & _ & _ & Hold).
  exists (if b then 0 else -1), s', f'. split_and!; [done..|]. destruct b; [left|right].
  - assert (Hsame : ∀ v, 0 ≤ v < TRAPFRAME → uview (ram s') new v = uview (ram s') old v)
      by (intros v Hv0; by rewrite Hv, Hold).
    split_and!; [done| |done]. intros v Hv0. rewrite Hv by done. by apply Ho.
  - split_and!; [done| |by apply Hb]. intros v Hv0. rewrite Hv by done. change (PGROUNDUP 0) with 0.
    split; [done|lia].
Qed.

(** C16: destroying the page table of a process returns every page it is made
    of, page-table pages and user pages, to the free list, and nothing else;
    it does not panic, and it writes to no other page.  In particular the
    trampoline and trapframe pages, which are mapped in the table but belong
    to others, are not freed. *)
Theorem proc_freepagetable_exact pt sz tf s free :
  kmem_ok s free → utable (ram s) pt sz tf free →
  ∃ s' free', proc_freepagetable (E := E) pt sz s = Ok tt s' ∧ kmem_ok s' free' ∧
    (∀ p, p ∈ free' ↔ p ∈ free ∨ owns (ram s) pt p) ∧
    (∀ x, (∀ p, p ∈ free ∨ owns (ram s) pt p → ¬ in_page p x) → ld8 (ram s') x = ld8 (ram s) x).
Proof.
  intros Hk Hut. destruct (proc_freepagetable_ok (E := E) pt sz tf s free) as (s' & f' & Hrun & [Hk' Hp Hf]); [done..|].
  exists s', f'. split_and!; [done|done| |done]. intros p. rewrite <- Hp. unfold none. tauto.
Qed.

(** C20: creating a page table for a process either fails for lack of memory
    (five pages always suffice), and then every page it had taken is back on
    the free list, or yields an
    empty address space with the trampoline and the trapframe mapped out of
    the user's reach; destroying that one gives back the initial pool. *)
Theorem proc_pagetable_roundtrip tf s free :
  kmem_ok s free → 0 ≤ tf < 2 ^ 56 → 0 ≤ sym_trampoline < 2 ^ 56 →
  ∃ r s1 f1, proc_pagetable (E := E) tf s = Ok r s1 ∧ kmem_ok s1 f1 ∧
    if decide (r = 0) then (∀ p, p ∈ f1 ↔ p ∈ free) ∧ (length free ≤ 5)%nat
    else utable (ram s1) r 0 tf f1 ∧ (∀ v, 0 ≤ v → ubyte (ram s1) r v = None) ∧
      ∃ s2 f2, proc_freepagetable (E := E) r 0 s1 = Ok tt s2 ∧ kmem_ok s2 f2 ∧ ∀ p, p ∈ f2 ↔ p ∈ free.
Proof.
  intros Hk Htf Htr.
  destruct (proc_pagetable_ok (E := E) tf s free) as (r & s1 & f1 & Hrun & Hr); [done..|].
  exists r, s1, f1. split; [done|]. destruct Hr as [(-> & [Hk1 Hp1 _] & Hlen)|(Hr0 & Hut & Hps & _)].
  - split; [done|]. rewrite decide_True by done. split; [|done]. intros p. specialize (Hp1 p). unfold none in Hp1. tauto.
  - split; [apply Hps|]. rewrite decide_False by done. split_and!; [done| |].
    + intros v Hv. unfold ubyte. case_if; [|done]. unfold upage.
      destruct (has (pte_at (ram s1) r v) PTE_V) eqn:HV; [|done]. simpl.
      destruct (Z.lt_ge_cases v TRAPFRAME).
      * rewrite (proj2 (sized_0 _ _) (ut_sized _ _ _ _ _ Hut)) in HV by lia. done.
      * by rewrite (as_top _ _ _ (ut_as _ _ _ _ _ Hut)) by lia.
    + destruct (proc_freepagetable_ok (E := E) r 0 tf s1 f1) as (s2 & f2 & Hrun2 & Hps2); [apply Hps|done|].
      exists s2, f2. split_and!; [done|apply Hps2|]. intros p.
      pose proof (ps_pool _ _ _ _ _ _ Hps p) as H1. pose proof (ps_pool _ _ _ _ _ _ Hps2 p) as H2.
      unfold none in *. tauto.
Qed.
End Spec.

(** ** A concrete machine *)

(** an image that leaves 64 pages of RAM above the kernel *)
Definition small_image : KernelSymbols := {|
  sym_end := PHYSTOP - 64 * PGSIZE; sym_etext := 0x80009000; sym_trampoline := 0x80008000;
  sym_forkret := 0x80001c2a; sym_startCalcSize := 0x80002f00; sym_endFunc := 0x80002f08
|}.

Module Demo.
#[local] Existing Instance small_image.
Abbreviation NE := Empty_set.

Lemma machine_booted : ∃ s free, kinit (E := NE) (mkMachine ∅ 0) = Ok tt s ∧ kmem_ok s free ∧ length free = 64%nat.
Proof.
  destruct (kinit_ok (E := NE) (mkMachine ∅ 0)) as (s & Hs & Hk); [|done|].
  - unfold sym_end, small_image, PHYSTOP, KERNBASE, PGSIZE. lia.
  - exists s, (rev all_pages). split_and!; [done|done|]. by vm_compute.
Qed.

(** an empty address space, and one of two pages, that share no page *)
Lemma two_tables : ∃ s free old new, two_spaces old new s free ∧
  sized (ram s) old 8192 ∧ sized (ram s) new 0.
Proof.
  destruct machine_booted as (s0 & f0 & _ & Hk0 & Hl0).
  destruct (uvmcreate_ok (E := NE) s0 f0 Hk0) as [[-> _]|(new & f1 & s1 & -> & _ & _ & Has1 & Hpte1 & Hps1)];
    [done|].
  destruct (uvmcreate_ok (E := NE) s1 f1) as [[-> _]|(old & f2 & s2 & -> & _ & _ & Has2 & Hpte2 & Hps2)];
    [apply Hps1|done|].
  assert (Hnd : NoDup (old :: f2)) by apply Hps1.
  assert (Hown2 : ∀ p, owns (ram s2) old p → p ∈ old :: f2).
  { intros p Hp. pose proof (ps_pool _ _ _ _ _ _ Hps2 p) as Hq. unfold none in Hq. tauto. }
  destruct (aspace_frame (ram s1) (ram s2) new (old :: f2) f2) as (Hasn & Hon & Hpten & Hvn); [done|..].
  { intros p x Hp Hx. destruct (owns_page _ _ _ _ Has1 Hp) as [Hpv Hpf].
    apply (ps_frame _ _ _ _ _ _ Hps2). intros q [Hq|[]].
    apply (in_page_disjoint p); [done|apply (kmem_valid s1 (old :: f2)); [apply Hps1|done]|by intros ->|done]. }
  { intros p Hp. destruct (owns_page _ _ _ _ Has1 Hp) as [_ Hpf]. set_solver. }
  assert (Hts2 : two_spaces new old s2 f2).
  { constructor; [apply Hps2|done|done|]. intros p Hp Hq%Hown2.
    apply Hon in Hp. by destruct (owns_page _ _ _ _ Has1 Hp). }
  destruct (uvmalloc_ok (E := NE) old 0 8192 s2 f2) as (b & s3 & f3 & _ & Hst & Hb & Hv);
    [apply Hps2|done| |lia|by rewrite TRAPFRAME_val|].
  { apply sized_0. intros va _. by rewrite Hpte2. }
  destruct (two_spaces_step _ _ _ _ _ _ Hts2 Hst) as ([Hk3 Hn3 Ho3 Hd3] & _ & _ & Hvn3).
  destruct b; cycle 1.
  { exfalso. specialize (Hb eq_refl). simpl in Hl0. vm_compute ((PGROUNDUP 8192 - PGROUNDUP 0) / PGSIZE) in Hb. lia. }
  exists s3, f3, old, new. split_and!.
  - constructor; [done..|]. intros p Hp Hq. by apply (Hd3 p).
  - apply (sized_view (ram s2) _ old 0 8192).
    + by rewrite TRAPFRAME_val.
    + by rewrite TRAPFRAME_val.
    + apply sized_0. intros va _. by rewrite Hpte2.
    + intros v Hv0. rewrite Hv by done. repeat case_if; tauto.
    + apply PGROUNDUP_mono; [lia|by rewrite TRAPFRAME_val].
  - apply (sized_ext (ram s2)); [done|]. apply sized_0. intros va _. by rewrite Hpten, Hpte1.
Qed.

Lemma mappages_refines_witness : ∃ pt s free k r s' free',
  mappages (E := NE) pt 8192 12288 0x87fc0000 2 s = Ok r s' ∧ vm_ext pt s free s' free' ∧ 0 ≤ k ≤ 3.
Proof.
  destruct two_tables as (s & free & old & new & Hts & Hso & Hsn).
  destruct (mappages_refines (E := NE) new 8192 12288 0x87fc0000 2 s free)
    as (k & r & s' & free' & Hrun & Hext & _ & Hr).
  - apply Hts.
  - apply Hts.
  - lia.
  - lia.
  - lia.
  - rewrite MAXVA_val. lia.
  - lia.
  - unfold PGSIZE. lia.
  - intros v Hv. apply (proj2 (sized_0 _ _) Hsn). rewrite TRAPFRAME_val. unfold PGSIZE in Hv. dlia.
  - cbv zeta in Hr. change ((8192 + 12288 - 1) / PGSIZE - 8192 / PGSIZE + 1) with 3 in Hr.
    exists new, s, free, k, r, s', free'. split_and!; [exact Hrun|exact Hext|lia..].
Defined.

(** five bytes across a page boundary *)
Lemma copyout_copyin_witness : ∃ pt s r s',
  copyout (E := NE) pt 4094 [x61; x62; x63; x64; x65] s = Ok r s' ∧
  (r = 0 → copyin (E := NE) pt 4094 5 s' = Ok (0, [x61; x62; x63; x64; x65]) s').
Proof.
  destruct two_tables as (s & free & old & new & Hts & Hso & Hsn).
  destruct (copyout_copyin (E := NE) old 4094 [x61; x62; x63; x64; x65] s free)
    as (r & s' & Hrun & _ & _ & _ & Hr).
  - apply Hts.
  - apply Hts.
  - lia.
  - exists old, s, r, s'. split; [exact Hrun|]. intros H0. by apply Hr.
Defined.

Lemma uvmalloc_uvmdealloc_witness : ∃ pt s free r s1 f1,
  uvmalloc (E := NE) pt 8192 20000 s = Ok r s1 ∧ as_step pt s free s1 f1.
Proof.
  destruct two_tables as (s & free & old & new & Hts & Hso & Hsn).
  destruct (uvmalloc_uvmdealloc (E := NE) old 8192 20000 s free) as (r & s1 & f1 & Hrun & Hst & _).
  - apply Hts.
  - apply Hts.
  - exact Hso.
  - lia.
  - rewrite TRAPFRAME_val. lia.
  - exists old, s, free, r, s1, f1. split; [exact Hrun|exact Hst].
Defined.

Lemma uvmcopy_copies_witness : ∃ old new s r s' free',
  uvmcopy (E := NE) old new 8192 s = Ok r s' ∧ two_spaces old new s' free'.
Proof.
  destruct two_tables as (s & free & old & new & Hts & Hso & Hsn).
  destruct (uvmcopy_copies (E := NE) old new 8192 s free) as (r & s' & free' & Hrun & Hts' & _).
  - exact Hts.
  - rewrite TRAPFRAME_val. lia.
  - exact Hso.
  - exact Hsn.
  - exists old, new, s, r, s', free'. split; [exact Hrun|exact Hts'].
Defined.

(** a process page table, freshly made *)
Lemma fresh_utable : ∃ s free pt, kmem_ok s free ∧ utable (ram s) pt 0 0x87fff000 free.
Proof.
  destruct machine_booted as (s0 & f0 & _ & Hk0 & Hl0).
  destruct (proc_pagetable_ok (E := NE) 0x87fff000 s0 f0)
    as (r & s1 & f1 & _ & [(_ & _ & Hl)|(_ & Hut & Hps & _)]); [done|lia|by vm_compute|lia|].
  exists s1, f1, r. split; [apply Hps|exact Hut].
Qed.

Lemma proc_freepagetable_exact_witness : ∃ pt s (free : list Z) s' (free' : list Z),
  proc_freepagetable (E := NE) pt 0 s = Ok tt s' ∧ kmem_ok s' free' ∧
  ∀ p, p ∈ free' ↔ p ∈ free ∨ owns (ram s) pt p.
Proof.
  destruct fresh_utable as (s & free & pt & Hk & Hut).
  destruct (proc_freepagetable_exact (E := NE) pt 0 0x87fff000 s free) as (s' & free' & Hrun & Hk' & Hp & _).
  - exact Hk.
  - exact Hut.
  - exists pt, s, free, s', free'. split_and!; [exact Hrun|exact Hk'|apply Hp..].
Defined.

Lemma proc_pagetable_roundtrip_witness : ∃ s r s1 f1,
  proc_pagetable (E := NE) 0x87fff000 s = Ok r s1 ∧ kmem_ok s1 f1 ∧ r ≠ 0.
Proof.
  destruct machine_booted as (s0 & f0 & _ & Hk0 & Hl0).
  destruct (proc_pagetable_roundtrip (E := NE) 0x87fff000 s0 f0) as (r & s1 & f1 & Hrun & Hk1 & Hr).
  - exact Hk0.
  - lia.
  - by vm_compute.
  - exists s0, r, s1, f1. split_and!; [exact Hrun|exact Hk1|]. intros ->.
    rewrite decide_True in Hr by done. lia.
Defined.
End Demo.
