(* ===== verification/Kstate.v ===== *)
(** * The kernel's global data

    The process table, the semaphore table and the state of the hart that runs
    the code (src/kernel/proc.h, src/kernel/spinlock.h, and the globals of
    src/kernel/proc.c and src/kernel/trap.c).  A pointer into the process
    table is the index of its entry, a [struct thread *] a pair of indices.
    Trapframes and page tables are in RAM, in the machine state.  The file
    system's state is a type parameter.  The fields [kstack] and [context] of
    [struct proc] are not used by the code and are left out. *)

From S2P Require Import Prelude Mem Riscv Kalloc Vm Uvm Pagetable.

(** ** proc.h *)

Record context := mkContext {
  c_ra : Z;
  c_sp : Z;
  c_s : list Z  (* s0 .. s11 *)
}.
#[export] Instance set_c_ra : Setter c_ra := λ f r,
  mkContext (f (c_ra r)) (c_sp r) (c_s r).
#[export] Instance set_c_sp : Setter c_sp := λ f r,
  mkContext (c_ra r) (f (c_sp r)) (c_s r).
#[export] Instance set_c_s : Setter c_s := λ f r,
  mkContext (c_ra r) (c_sp r) (f (c_s r)).

Inductive procstate := UNUSED | USED | SLEEPING | RUNNABLE | RUNNING | ZOMBIE.

#[export] Instance procstate_eq_dec : EqDecision procstate.
Proof. solve_decision. Defined.

(** what a thread can sleep on: the address of an object *)
Inductive chan :=
| ChProc (i : nat)        (* &proc[i] *)
| ChThread (i j : nat)    (* &proc[i].threads[j] *)
| ChTicks                 (* &ticks *)
| ChBsem (bid : Z)        (* &bsems[bid] *)
| ChBuf (i : nat)         (* &bcache.buf[i].lock *)
| ChInode (i : nat)       (* &itable.inode[i].lock *)
| ChLog                   (* &log *)
| ChPipeR (pi : Z)        (* &pi->nread *)
| ChPipeW (pi : Z)        (* &pi->nwrite *)
| ChCons                  (* &cons.r *)
| ChDisk (i : nat)        (* &bcache.buf[i], in the disk driver *)
| ChDesc                  (* &disk.free[0] *)
| ChUart.                 (* &uart_tx_r *)

#[export] Instance chan_eq_dec : EqDecision chan.
Proof. solve_decision. Defined.

Record thread := mkThread {
  t_id : Z;
  t_state : procstate;
  t_tproc : option nat;  (* index of the process *)
  t_kstack : Z;
  t_trapframe : Z;  (* physical address *)
  t_context : context;
  t_chan : option chan;
  t_killed : Z;
  t_xstate : Z;
  t_backup : Z  (* user_trap_frame_backup *)
}.
#[export] Instance set_t_id : Setter t_id := λ f r,
  mkThread (f (t_id r)) (t_state r) (t_tproc r) (t_kstack r) (t_trapframe r) (t_context r)
    (t_chan r) (t_killed r) (t_xstate r) (t_backup r).
#[export] Instance set_t_state : Setter t_state := λ f r,
  mkThread (t_id r) (f (t_state r)) (t_tproc r) (t_kstack r) (t_trapframe r) (t_context r)
    (t_chan r) (t_killed r) (t_xstate r) (t_backup r).
#[export] Instance set_t_tproc : Setter t_tproc := λ f r,
  mkThread (t_id r) (t_state r) (f (t_tproc r)) (t_kstack r) (t_trapframe r) (t_context r)
    (t_chan r) (t_killed r) (t_xstate r) (t_backup r).
#[export] Instance set_t_kstack : Setter t_kstack := λ f r,
  mkThread (t_id r) (t_state r) (t_tproc r) (f (t_kstack r)) (t_trapframe r) (t_context r)
    (t_chan r) (t_killed r) (t_xstate r) (t_backup r).
#[export] Instance set_t_trapframe : Setter t_trapframe := λ f r,
  mkThread (t_id r) (t_state r) (t_tproc r) (t_kstack r) (f (t_trapframe r)) (t_context r)
    (t_chan r) (t_killed r) (t_xstate r) (t_backup r).
#[export] Instance set_t_context : Setter t_context := λ f r,
  mkThread (t_id r) (t_state r) (t_tproc r) (t_kstack r) (t_trapframe r) (f (t_context r))
    (t_chan r) (t_killed r) (t_xstate r) (t_backup r).
#[export] Instance set_t_chan : Setter t_chan := λ f r,
  mkThread (t_id r) (t_state r) (t_tproc r) (t_kstack r) (t_trapframe r) (t_context r) (f
    (t_chan r)) (t_killed r) (t_xstate r) (t_backup r).
#[export] Instance set_t_killed : Setter t_killed := λ f r,
  mkThread (t_id r) (t_state r) (t_tproc r) (t_kstack r) (t_trapframe r) (t_context r) (t_chan
    r) (f (t_killed r)) (t_xstate r) (t_backup r).
#[export] Instance set_t_xstate : Setter t_xstate := λ f r,
  mkThread (t_id r) (t_state r) (t_tproc r) (t_kstack r) (t_trapframe r) (t_context r) (t_chan
    r) (t_killed r) (f (t_xstate r)) (t_backup r).
#[export] Instance set_t_backup : Setter t_backup := λ f r,
  mkThread (t_id r) (t_state r) (t_tproc r) (t_kstack r) (t_trapframe r) (t_context r) (t_chan
    r) (t_killed r) (t_xstate r) (f (t_backup r)).

Record proc := mkProc {
  p_state : procstate;
  p_chan : option chan;
  p_killed : Z;
  p_xstate : Z;
  p_pid : Z;
  p_parent : option nat;  (* index of the parent *)
  p_sz : Z;
  p_pagetable : Z;
  p_trapframe : Z;
  p_ofile : list Z;  (* struct file pointers, 0 is null *)
  p_cwd : Z;
  p_name : list byte;
  p_pendding_signals : Z;
  p_signal_mask : Z;
  p_signal_handlers : list Z;
  p_signal_handlers_mask : list Z;
  p_frozen : Z;
  p_signal_mask_backup : Z;
  p_signal_handling_flag : Z;
  p_threads : list thread
}.
#[export] Instance set_p_state : Setter p_state := λ f r,
  mkProc (f (p_state r)) (p_chan r) (p_killed r) (p_xstate r) (p_pid r) (p_parent r) (p_sz r)
    (p_pagetable r) (p_trapframe r) (p_ofile r) (p_cwd r) (p_name r) (p_pendding_signals r)
    (p_signal_mask r) (p_signal_handlers r) (p_signal_handlers_mask r) (p_frozen r)
    (p_signal_mask_backup r) (p_signal_handling_flag r) (p_threads r).
#[export] Instance set_p_chan : Setter p_chan := λ f r,
  mkProc (p_state r) (f (p_chan r)) (p_killed r) (p_xstate r) (p_pid r) (p_parent r) (p_sz r)
    (p_pagetable r) (p_trapframe r) (p_ofile r) (p_cwd r) (p_name r) (p_pendding_signals r)
    (p_signal_mask r) (p_signal_handlers r) (p_signal_handlers_mask r) (p_frozen r)
    (p_signal_mask_backup r) (p_signal_handling_flag r) (p_threads r).
#[export] Instance set_p_killed : Setter p_killed := λ f r,
  mkProc (p_state r) (p_chan r) (f (p_killed r)) (p_xstate r) (p_pid r) (p_parent r) (p_sz r)
    (p_pagetable r) (p_trapframe r) (p_ofile r) (p_cwd r) (p_name r) (p_pendding_signals r)
    (p_signal_mask r) (p_signal_handlers r) (p_signal_handlers_mask r) (p_frozen r)
    (p_signal_mask_backup r) (p_signal_handling_flag r) (p_threads r).
#[export] Instance set_p_xstate : Setter p_xstate := λ f r,
  mkProc (p_state r) (p_chan r) (p_killed r) (f (p_xstate r)) (p_pid r) (p_parent r) (p_sz r)
    (p_pagetable r) (p_trapframe r) (p_ofile r) (p_cwd r) (p_name r) (p_pendding_signals r)
    (p_signal_mask r) (p_signal_handlers r) (p_signal_handlers_mask r) (p_frozen r)
    (p_signal_mask_backup r) (p_signal_handling_flag r) (p_threads r).
#[export] Instance set_p_pid : Setter p_pid := λ f r,
  mkProc (p_state r) (p_chan r) (p_killed r) (p_xstate r) (f (p_pid r)) (p_parent r) (p_sz r)
    (p_pagetable r) (p_trapframe r) (p_ofile r) (p_cwd r) (p_name r) (p_pendding_signals r)
    (p_signal_mask r) (p_signal_handlers r) (p_signal_handlers_mask r) (p_frozen r)
    (p_signal_mask_backup r) (p_signal_handling_flag r) (p_threads r).
#[export] Instance set_p_parent : Setter p_parent := λ f r,
  mkProc (p_state r) (p_chan r) (p_killed r) (p_xstate r) (p_pid r) (f (p_parent r)) (p_sz r)
    (p_pagetable r) (p_trapframe r) (p_ofile r) (p_cwd r) (p_name r) (p_pendding_signals r)
    (p_signal_mask r) (p_signal_handlers r) (p_signal_handlers_mask r) (p_frozen r)
    (p_signal_mask_backup r) (p_signal_handling_flag r) (p_threads r).
#[export] Instance set_p_sz : Setter p_sz := λ f r,
  mkProc (p_state r) (p_chan r) (p_killed r) (p_xstate r) (p_pid r) (p_parent r) (f (p_sz r))
    (p_pagetable r) (p_trapframe r) (p_ofile r) (p_cwd r) (p_name r) (p_pendding_signals r)
    (p_signal_mask r) (p_signal_handlers r) (p_signal_handlers_mask r) (p_frozen r)
    (p_signal_mask_backup r) (p_signal_handling_flag r) (p_threads r).
#[export] Instance set_p_pagetable : Setter p_pagetable := λ f r,
  mkProc (p_state r) (p_chan r) (p_killed r) (p_xstate r) (p_pid r) (p_parent r) (p_sz r) (f
    (p_pagetable r)) (p_trapframe r) (p_ofile r) (p_cwd r) (p_name r) (p_pendding_signals r)
    (p_signal_mask r) (p_signal_handlers r) (p_signal_handlers_mask r) (p_frozen r)
    (p_signal_mask_backup r) (p_signal_handling_flag r) (p_threads r).
#[export] Instance set_p_trapframe : Setter p_trapframe := λ f r,
  mkProc (p_state r) (p_chan r) (p_killed r) (p_xstate r) (p_pid r) (p_parent r) (p_sz r)
    (p_pagetable r) (f (p_trapframe r)) (p_ofile r) (p_cwd r) (p_name r) (p_pendding_signals r)
    (p_signal_mask r) (p_signal_handlers r) (p_signal_handlers_mask r) (p_frozen r)
    (p_signal_mask_backup r) (p_signal_handling_flag r) (p_threads r).
#[export] Instance set_p_ofile : Setter p_ofile := λ f r,
  mkProc (p_state r) (p_chan r) (p_killed r) (p_xstate r) (p_pid r) (p_parent r) (p_sz r)
    (p_pagetable r) (p_trapframe r) (f (p_ofile r)) (p_cwd r) (p_name r) (p_pendding_signals r)
    (p_signal_mask r) (p_signal_handlers r) (p_signal_handlers_mask r) (p_frozen r)
    (p_signal_mask_backup r) (p_signal_handling_flag r) (p_threads r).
#[export] Instance set_p_cwd : Setter p_cwd := λ f r,
  mkProc (p_state r) (p_chan r) (p_killed r) (p_xstate r) (p_pid r) (p_parent r) (p_sz r)
    (p_pagetable r) (p_trapframe r) (p_ofile r) (f (p_cwd r)) (p_name r) (p_pendding_signals r)
    (p_signal_mask r) (p_signal_handlers r) (p_signal_handlers_mask r) (p_frozen r)
    (p_signal_mask_backup r) (p_signal_handling_flag r) (p_threads r).
#[export] Instance set_p_name : Setter p_name := λ f r,
  mkProc (p_state r) (p_chan r) (p_killed r) (p_xstate r) (p_pid r) (p_parent r) (p_sz r)
    (p_pagetable r) (p_trapframe r) (p_ofile r) (p_cwd r) (f (p_name r)) (p_pendding_signals r)
    (p_signal_mask r) (p_signal_handlers r) (p_signal_handlers_mask r) (p_frozen r)
    (p_signal_mask_backup r) (p_signal_handling_flag r) (p_threads r).
#[export] Instance set_p_pendding_signals : Setter p_pendding_signals := λ f r,
  mkProc (p_state r) (p_chan r) (p_killed r) (p_xstate r) (p_pid r) (p_parent r) (p_sz r)
    (p_pagetable r) (p_trapframe r) (p_ofile r) (p_cwd r) (p_name r) (f (p_pendding_signals r))
    (p_signal_mask r) (p_signal_handlers r) (p_signal_handlers_mask r) (p_frozen r)
    (p_signal_mask_backup r) (p_signal_handling_flag r) (p_threads r).
#[export] Instance set_p_signal_mask : Setter p_signal_mask := λ f r,
  mkProc (p_state r) (p_chan r) (p_killed r) (p_xstate r) (p_pid r) (p_parent r) (p_sz r)
    (p_pagetable r) (p_trapframe r) (p_ofile r) (p_cwd r) (p_name r) (p_pendding_signals r) (f
    (p_signal_mask r)) (p_signal_handlers r) (p_signal_handlers_mask r) (p_frozen r)
    (p_signal_mask_backup r) (p_signal_handling_flag r) (p_threads r).
#[export] Instance set_p_signal_handlers : Setter p_signal_handlers := λ f r,
  mkProc (p_state r) (p_chan r) (p_killed r) (p_xstate r) (p_pid r) (p_parent r) (p_sz r)
    (p_pagetable r) (p_trapframe r) (p_ofile r) (p_cwd r) (p_name r) (p_pendding_signals r)
    (p_signal_mask r) (f (p_signal_handlers r)) (p_signal_handlers_mask r) (p_frozen r)
    (p_signal_mask_backup r) (p_signal_handling_flag r) (p_threads r).
#[export] Instance set_p_signal_handlers_mask : Setter p_signal_handlers_mask := λ f r,
  mkProc (p_state r) (p_chan r) (p_killed r) (p_xstate r) (p_pid r) (p_parent r) (p_sz r)
    (p_pagetable r) (p_trapframe r) (p_ofile r) (p_cwd r) (p_name r) (p_pendding_signals r)
    (p_signal_mask r) (p_signal_handlers r) (f (p_signal_handlers_mask r)) (p_frozen r)
    (p_signal_mask_backup r) (p_signal_handling_flag r) (p_threads r).
#[export] Instance set_p_frozen : Setter p_frozen := λ f r,
  mkProc (p_state r) (p_chan r) (p_killed r) (p_xstate r) (p_pid r) (p_parent r) (p_sz r)
    (p_pagetable r) (p_trapframe r) (p_ofile r) (p_cwd r) (p_name r) (p_pendding_signals r)
    (p_signal_mask r) (p_signal_handlers r) (p_signal_handlers_mask r) (f (p_frozen r))
    (p_signal_mask_backup r) (p_signal_handling_flag r) (p_threads r).
#[export] Instance set_p_signal_mask_backup : Setter p_signal_mask_backup := λ f r,
  mkProc (p_state r) (p_chan r) (p_killed r) (p_xstate r) (p_pid r) (p_parent r) (p_sz r)
    (p_pagetable r) (p_trapframe r) (p_ofile r) (p_cwd r) (p_name r) (p_pendding_signals r)
    (p_signal_mask r) (p_signal_handlers r) (p_signal_handlers_mask r) (p_frozen r) (f
    (p_signal_mask_backup r)) (p_signal_handling_flag r) (p_threads r).
#[export] Instance set_p_signal_handling_flag : Setter p_signal_handling_flag := λ f r,
  mkProc (p_state r) (p_chan r) (p_killed r) (p_xstate r) (p_pid r) (p_parent r) (p_sz r)
    (p_pagetable r) (p_trapframe r) (p_ofile r) (p_cwd r) (p_name r) (p_pendding_signals r)
    (p_signal_mask r) (p_signal_handlers r) (p_signal_handlers_mask r) (p_frozen r)
    (p_signal_mask_backup r) (f (p_signal_handling_flag r)) (p_threads r).
#[export] Instance set_p_threads : Setter p_threads := λ f r,
  mkProc (p_state r) (p_chan r) (p_killed r) (p_xstate r) (p_pid r) (p_parent r) (p_sz r)
    (p_pagetable r) (p_trapframe r) (p_ofile r) (p_cwd r) (p_name r) (p_pendding_signals r)
    (p_signal_mask r) (p_signal_handlers r) (p_signal_handlers_mask r) (p_frozen r)
    (p_signal_mask_backup r) (p_signal_handling_flag r) (f (p_threads r)).

(** proc.c: struct bsem *)
Record bsem := mkBsem {
  b_state : Z;
  b_bid : Z;
  b_unlocked : Z
}.
#[export] Instance set_b_state : Setter b_state := λ f r,
  mkBsem (f (b_state r)) (b_bid r) (b_unlocked r).
#[export] Instance set_b_bid : Setter b_bid := λ f r,
  mkBsem (b_state r) (f (b_bid r)) (b_unlocked r).
#[export] Instance set_b_unlocked : Setter b_unlocked := λ f r,
  mkBsem (b_state r) (b_bid r) (f (b_unlocked r)).

(** ** Spinlocks and the hart *)

Inductive lockid :=
| LkProc (i : nat)        (* proc[i].lock *)
| LkPid | LkTid | LkWait | LkBsem | LkTicks
| LkBuf (i : nat)         (* bcache.buf[i].lock.lk *)
| LkInode (i : nat)       (* itable.inode[i].lock.lk *)
| LkLog                   (* log.lock *)
| LkPipe (pi : Z)         (* pi->lock *)
| LkCons | LkDisk | LkUart | LkPr.

#[export] Instance lockid_eq_dec : EqDecision lockid.
Proof. solve_decision. Defined.

Record hart := mkHart {
  h_proc : option nat;  (* cpu->proc *)
  h_thread : option (nat * nat);  (* cpu->thread *)
  h_noff : Z;
  h_intena : bool;
  h_intr : bool;  (* SIE of sstatus *)
  h_held : list lockid  (* spinlocks whose cpu is this one *)
}.
#[export] Instance set_h_proc : Setter h_proc := λ f r,
  mkHart (f (h_proc r)) (h_thread r) (h_noff r) (h_intena r) (h_intr r) (h_held r).
#[export] Instance set_h_thread : Setter h_thread := λ f r,
  mkHart (h_proc r) (f (h_thread r)) (h_noff r) (h_intena r) (h_intr r) (h_held r).
#[export] Instance set_h_noff : Setter h_noff := λ f r,
  mkHart (h_proc r) (h_thread r) (f (h_noff r)) (h_intena r) (h_intr r) (h_held r).
#[export] Instance set_h_intena : Setter h_intena := λ f r,
  mkHart (h_proc r) (h_thread r) (h_noff r) (f (h_intena r)) (h_intr r) (h_held r).
#[export] Instance set_h_intr : Setter h_intr := λ f r,
  mkHart (h_proc r) (h_thread r) (h_noff r) (h_intena r) (f (h_intr r)) (h_held r).
#[export] Instance set_h_held : Setter h_held := λ f r,
  mkHart (h_proc r) (h_thread r) (h_noff r) (h_intena r) (h_intr r) (f (h_held r)).

(** ** The whole state *)

Record kstate {F : Type} := mkKstate {
  k_mach : machine;
  k_proc : list proc;
  k_initproc : option nat;
  k_nextpid : Z;
  k_nexttid : Z;
  k_bsems : list bsem;
  k_hart : hart;
  k_ticks : Z;
  k_first : bool;  (* forkret's static *)
  k_fs : F
}.
Arguments kstate : clear implicits.
Arguments mkKstate {F}.
#[export] Instance set_k_mach {F : Type} : Setter (k_mach (F := F)) := λ f r,
  mkKstate (f (k_mach r)) (k_proc r) (k_initproc r) (k_nextpid r) (k_nexttid r) (k_bsems r)
    (k_hart r) (k_ticks r) (k_first r) (k_fs r).
#[export] Instance set_k_proc {F : Type} : Setter (k_proc (F := F)) := λ f r,
  mkKstate (k_mach r) (f (k_proc r)) (k_initproc r) (k_nextpid r) (k_nexttid r) (k_bsems r)
    (k_hart r) (k_ticks r) (k_first r) (k_fs r).
#[export] Instance set_k_initproc {F : Type} : Setter (k_initproc (F := F)) := λ f r,
  mkKstate (k_mach r) (k_proc r) (f (k_initproc r)) (k_nextpid r) (k_nexttid r) (k_bsems r)
    (k_hart r) (k_ticks r) (k_first r) (k_fs r).
#[export] Instance set_k_nextpid {F : Type} : Setter (k_nextpid (F := F)) := λ f r,
  mkKstate (k_mach r) (k_proc r) (k_initproc r) (f (k_nextpid r)) (k_nexttid r) (k_bsems r)
    (k_hart r) (k_ticks r) (k_first r) (k_fs r).
#[export] Instance set_k_nexttid {F : Type} : Setter (k_nexttid (F := F)) := λ f r,
  mkKstate (k_mach r) (k_proc r) (k_initproc r) (k_nextpid r) (f (k_nexttid r)) (k_bsems r)
    (k_hart r) (k_ticks r) (k_first r) (k_fs r).
#[export] Instance set_k_bsems {F : Type} : Setter (k_bsems (F := F)) := λ f r,
  mkKstate (k_mach r) (k_proc r) (k_initproc r) (k_nextpid r) (k_nexttid r) (f (k_bsems r))
    (k_hart r) (k_ticks r) (k_first r) (k_fs r).
#[export] Instance set_k_hart {F : Type} : Setter (k_hart (F := F)) := λ f r,
  mkKstate (k_mach r) (k_proc r) (k_initproc r) (k_nextpid r) (k_nexttid r) (k_bsems r) (f
    (k_hart r)) (k_ticks r) (k_first r) (k_fs r).
#[export] Instance set_k_ticks {F : Type} : Setter (k_ticks (F := F)) := λ f r,
  mkKstate (k_mach r) (k_proc r) (k_initproc r) (k_nextpid r) (k_nexttid r) (k_bsems r) (k_hart
    r) (f (k_ticks r)) (k_first r) (k_fs r).
#[export] Instance set_k_first {F : Type} : Setter (k_first (F := F)) := λ f r,
  mkKstate (k_mach r) (k_proc r) (k_initproc r) (k_nextpid r) (k_nexttid r) (k_bsems r) (k_hart
    r) (k_ticks r) (f (k_first r)) (k_fs r).
#[export] Instance set_k_fs {F : Type} : Setter (k_fs (F := F)) := λ f r,
  mkKstate (k_mach r) (k_proc r) (k_initproc r) (k_nextpid r) (k_nexttid r) (k_bsems r) (k_hart
    r) (k_ticks r) (k_first r) (f (k_fs r)).

(** a context switch: [EvSched] when a thread calls [swtch] to the scheduler,
    [EvRun i j] when the scheduler calls [swtch] to thread [j] of process [i] *)
Inductive kevent := EvSched | EvRun (i j : nat).

Abbreviation K F := (M kevent (kstate F)).

(** ** Access *)

#[export] Instance context_inhabited : Inhabited context := populate (mkContext 0 0 []).
#[export] Instance thread_inhabited : Inhabited thread :=
  populate (mkThread 0 UNUSED None 0 0 inhabitant None 0 0 0).
#[export] Instance proc_inhabited : Inhabited proc :=
  populate (mkProc UNUSED None 0 0 0 None 0 0 0 [] 0 [] 0 0 [] [] 0 0 0 []).
#[export] Instance bsem_inhabited : Inhabited bsem := populate (mkBsem 0 0 0).

Section Access.
Context {F : Type}.

Definition getp (i : nat) : K F proc := gets (λ s, k_proc s !!! i).
Definition setp (i : nat) (f : proc → proc) : K F unit := modify (λ s, s <| k_proc ::= alter f i |>).
Definition gett (i j : nat) : K F thread := gets (λ s, p_threads (k_proc s !!! i) !!! j).
Definition sett (i j : nat) (f : thread → thread) : K F unit := setp i (λ p, p <| p_threads ::= alter f j |>).

(** an operation on RAM and the page allocator *)
Definition mach {A} (m : M Empty_set machine A) : K F A :=
  zoom k_mach (λ x s, s <| k_mach := x |>) (λ e : Empty_set, match e with end) m.

(** fields of a [struct trapframe] in RAM *)
Definition tf_get (tf off : Z) : K F Z := gets (λ s, ld64 (ram (k_mach s)) (tf + off)).
Definition tf_set (tf off v : Z) : K F unit := mach (store64 (tf + off) v).

(** dereferencing a null pointer ends in [panic] by way of [kerneltrap] *)
Definition null_deref {A} : K F A := panic "kerneltrap".

(** an access outside of an array has no defined result: the model stops *)
Definition out_of_bounds {A} : K F A := panic "out of bounds".
End Access.

(** offsets in [struct trapframe] *)
Definition TF_SIZE : Z := 288.
Definition TF_KERNEL_SATP : Z := 0.
Definition TF_KERNEL_SP : Z := 8.
Definition TF_KERNEL_TRAP : Z := 16.
Definition TF_EPC : Z := 24.
Definition TF_KERNEL_HARTID : Z := 32.
Definition TF_RA : Z := 40.
Definition TF_SP : Z := 48.
Definition TF_A0 : Z := 112.
Definition TF_A1 : Z := 120.
Definition TF_A2 : Z := 128.
Definition TF_A3 : Z := 136.
Definition TF_A4 : Z := 144.
Definition TF_A5 : Z := 152.
Definition TF_A7 : Z := 168.

(** unfolds record updates down to the constructors *)
Ltac unset := cbv [set_field
  set_c_ra set_c_sp set_c_s set_t_id set_t_state set_t_tproc set_t_kstack set_t_trapframe
  set_t_context set_t_chan set_t_killed set_t_xstate set_t_backup set_p_state set_p_chan
  set_p_killed set_p_xstate set_p_pid set_p_parent set_p_sz set_p_pagetable set_p_trapframe
  set_p_ofile set_p_cwd set_p_name set_p_pendding_signals set_p_signal_mask
  set_p_signal_handlers set_p_signal_handlers_mask set_p_frozen set_p_signal_mask_backup
  set_p_signal_handling_flag set_p_threads set_b_state set_b_bid set_b_unlocked set_h_proc
  set_h_thread set_h_noff set_h_intena set_h_intr set_h_held set_k_mach set_k_proc
  set_k_initproc set_k_nextpid set_k_nexttid set_k_bsems set_k_hart set_k_ticks set_k_first
  set_k_fs] in *.

(** reduces the projections of record updates in the goal *)
Ltac rproj :=
  repeat match goal with
  | |- context [?p (set_field ?g ?f ?r)] =>
      first [ progress change (p (set_field g f r)) with (p r)
            | progress change (p (set_field g f r)) with (f (g r)); cbv beta ]
  end.
Ltac rproj_in H :=
  repeat match type of H with
  | context [?p (set_field ?g ?f ?r)] =>
      first [ progress change (p (set_field g f r)) with (p r) in H
            | progress change (p (set_field g f r)) with (f (g r)) in H; cbv beta in H ]
  end.

(** reduces updates and projections of an explicit kernel state *)
Ltac kred :=
  repeat (first [match goal with
  | |- context [set_field k_mach ?u (mkKstate ?a ?b ?c ?d ?e ?f ?g ?h ?i ?j)] =>
      change (set_field k_mach u (mkKstate a b c d e f g h i j)) with (mkKstate (u a) b c d e f g h i j)
  | |- context [set_field k_proc ?u (mkKstate ?a ?b ?c ?d ?e ?f ?g ?h ?i ?j)] =>
      change (set_field k_proc u (mkKstate a b c d e f g h i j)) with (mkKstate a (u b) c d e f g h i j)
  | |- context [set_field k_initproc ?u (mkKstate ?a ?b ?c ?d ?e ?f ?g ?h ?i ?j)] =>
      change (set_field k_initproc u (mkKstate a b c d e f g h i j)) with (mkKstate a b (u c) d e f g h i j)
  | |- context [set_field k_nextpid ?u (mkKstate ?a ?b ?c ?d ?e ?f ?g ?h ?i ?j)] =>
      change (set_field k_nextpid u (mkKstate a b c d e f g h i j)) with (mkKstate a b c (u d) e f g h i j)
  | |- context [set_field k_nexttid ?u (mkKstate ?a ?b ?c ?d ?e ?f ?g ?h ?i ?j)] =>
      change (set_field k_nexttid u (mkKstate a b c d e f g h i j)) with (mkKstate a b c d (u e) f g h i j)
  | |- context [set_field k_bsems ?u (mkKstate ?a ?b ?c ?d ?e ?f ?g ?h ?i ?j)] =>
      change (set_field k_bsems u (mkKstate a b c d e f g h i j)) with (mkKstate a b c d e (u f) g h i j)
  | |- context [set_field k_hart ?u (mkKstate ?a ?b ?c ?d ?e ?f ?g ?h ?i ?j)] =>
      change (set_field k_hart u (mkKstate a b c d e f g h i j)) with (mkKstate a b c d e f (u g) h i j)
  | |- context [set_field k_ticks ?u (mkKstate ?a ?b ?c ?d ?e ?f ?g ?h ?i ?j)] =>
      change (set_field k_ticks u (mkKstate a b c d e f g h i j)) with (mkKstate a b c d e f g (u h) i j)
  | |- context [set_field k_first ?u (mkKstate ?a ?b ?c ?d ?e ?f ?g ?h ?i ?j)] =>
      change (set_field k_first u (mkKstate a b c d e f g h i j)) with (mkKstate a b c d e f g h (u i) j)
  | |- context [set_field k_fs ?u (mkKstate ?a ?b ?c ?d ?e ?f ?g ?h ?i ?j)] =>
      change (set_field k_fs u (mkKstate a b c d e f g h i j)) with (mkKstate a b c d e f g h i (u j))
  end | progress cbn [k_mach k_proc k_initproc k_nextpid k_nexttid k_bsems k_hart k_ticks k_first k_fs]];
  cbv beta).

(** updates of the threads of a process *)
Lemma threads_ext p f g : f (p_threads p) = g (p_threads p) → p <| p_threads ::= f |> = p <| p_threads ::= g |>.
Proof. destruct p. cbv [set_field set_p_threads]. simpl. by intros ->. Qed.
Lemma threads_id p f : f (p_threads p) = p_threads p → p <| p_threads ::= f |> = p.
Proof. destruct p. cbv [set_field set_p_threads]. simpl. by intros ->. Qed.
Lemma threads_compose p f g : p <| p_threads ::= f |> <| p_threads ::= g |> = p <| p_threads ::= λ l, g (f l) |>.
Proof. by destruct p. Qed.

Section Run.
Context {F A B : Type} (f : A → K F B) (k : unit → K F B) (kp : proc → K F B) (kt : thread → K F B) (s : kstate F).

Lemma bind_ret x : bind (ret x) f s = f x s.
Proof. done. Qed.
Lemma bind_gets g : bind (gets g) f s = f (g s) s.
Proof. done. Qed.
Lemma bind_modify g : bind (modify g) k s = k tt (g s).
Proof. done. Qed.
Lemma bind_getp i : bind (getp i) kp s = kp (k_proc s !!! i) s.
Proof. done. Qed.
Lemma bind_gett i j : bind (gett i j) kt s = kt (p_threads (k_proc s !!! i) !!! j) s.
Proof. done. Qed.
Lemma bind_setp i g : bind (setp i g) k s = k tt (s <| k_proc ::= alter g i |>).
Proof. done. Qed.
Lemma bind_sett i j g :
  bind (sett i j g) k s = k tt (s <| k_proc ::= alter (λ p, p <| p_threads ::= alter g j |>) i |>).
Proof. done. Qed.
Lemma bind_tf_get (kz : Z → K F B) tf off :
  bind (tf_get tf off) kz s = kz (ld64 (ram (k_mach s)) (tf + off)) s.
Proof. done. Qed.
Lemma bind_tf_set tf off v :
  bind (tf_set tf off v) k s = k tt (s <| k_mach ::= λ m, m <| ram ::= st64 (tf + off) v |> |>).
Proof. done. Qed.
End Run.

(** runs the accesses at the head of a sequence of operations *)
Ltac krun :=
  repeat (first [rewrite bind_ret | rewrite bind_gets | rewrite bind_modify | rewrite bind_getp
    | rewrite bind_gett | rewrite bind_setp | rewrite bind_sett | rewrite bind_tf_get | rewrite bind_tf_set];
    cbv beta; kred).
