(* ===== verification/Asm.v ===== *)
(** * The assembly code (src/kernel/swtch.S, trampoline.S, kernelvec.S, entry.S,
    src/user/initcode.S, usys.pl)

    Each routine is the list of its instructions, in the order of the source,
    and [run_asm] runs them.  A core is its registers, its control registers
    and the memory.  Addresses go through [tr], the translation that the
    hardware does with the page table in satp.  What a called C function does to
    the core, and what a system call does, are arguments. *)

From S2P Require Import Prelude Mem Riscv Kstate.

Module Reg.
Inductive reg :=
| zero | ra | sp | gp | tp | t0 | t1 | t2 | s0 | s1 | a0 | a1 | a2 | a3 | a4 | a5 | a6 | a7
| s2 | s3 | s4 | s5 | s6 | s7 | s8 | s9 | s10 | s11 | t3 | t4 | t5 | t6.
End Reg.
#[export] Instance reg_eq_dec : EqDecision Reg.reg.
Proof. solve_decision. Defined.

Module Csr.
Inductive csr :=
| sscratch | mscratch | satp | mhartid | sip | sie | mie | sstatus | mstatus | mepc | sepc | stvec | mtvec
| medeleg | mideleg | scause | stval | mcounteren | time.
End Csr.
#[export] Instance csr_eq_dec : EqDecision Csr.csr.
Proof. solve_decision. Defined.

(** ** The machine *)

Record core := mkCore {
  x_reg : Reg.reg → Z;
  x_csr : Csr.csr → Z;
  x_mem : gmap Z byte
}.
#[export] Instance set_x_reg : Setter x_reg := λ f r, mkCore (f (x_reg r)) (x_csr r) (x_mem r).
#[export] Instance set_x_csr : Setter x_csr := λ f r, mkCore (x_reg r) (f (x_csr r)) (x_mem r).
#[export] Instance set_x_mem : Setter x_mem := λ f r, mkCore (x_reg r) (x_csr r) (f (x_mem r)).

Definition reg_get (r : Reg.reg) (c : core) : Z := if decide (r = Reg.zero) then 0 else x_reg c r.
Definition reg_set (r : Reg.reg) (v : Z) (c : core) : core := c <| x_reg ::= λ f q, if decide (q = r) then v else f q |>.
Definition csr_set (r : Csr.csr) (v : Z) (c : core) : core := c <| x_csr ::= λ f q, if decide (q = r) then v else f q |>.

Module Instr.
Inductive instr :=
| sd (r : Reg.reg) (off : Z) (base : Reg.reg)
| ld (r : Reg.reg) (off : Z) (base : Reg.reg)
| addi (rd rs : Reg.reg) (imm : Z)
| add (rd rs1 rs2 : Reg.reg)
| mul (rd rs1 rs2 : Reg.reg)
| li (rd : Reg.reg) (imm : Z)
| la (rd : Reg.reg) (sym : string)
| csrrw (rd : Reg.reg) (c : Csr.csr) (rs : Reg.reg)
| csrr (rd : Reg.reg) (c : Csr.csr)
| csrw (c : Csr.csr) (rs : Reg.reg)
| sfence_vma
| call (sym : string)
| ecall
| j (sym : string)
| jr (r : Reg.reg)
| ret
| sret
| mret.
End Instr.

(** where the control goes *)
Inductive stop := Falls | Goto (sym : string) | JumpTo (pc : Z) | SRet | MRet.

Section Exec.
Context (tr : Z → Z → Z) (symbol : string → Z) (callee : string → core → core) (kernel : core → core).

Definition address (off : Z) (base : Reg.reg) (c : core) : Z := tr (x_csr c Csr.satp) (u64 (reg_get base c + off)).
Fixpoint run_asm (p : list Instr.instr) (c : core) : stop * core :=
  match p with
  | [] => (Falls, c)
  | i :: p' =>
      match i with
      | Instr.sd r off base => run_asm p' (c <| x_mem ::= st64 (address off base c) (reg_get r c) |>)
      | Instr.ld r off base => run_asm p' (reg_set r (ld64 (x_mem c) (address off base c)) c)
      | Instr.addi rd rs imm => run_asm p' (reg_set rd (u64 (reg_get rs c + imm)) c)
      | Instr.add rd rs1 rs2 => run_asm p' (reg_set rd (u64 (reg_get rs1 c + reg_get rs2 c)) c)
      | Instr.mul rd rs1 rs2 => run_asm p' (reg_set rd (u64 (reg_get rs1 c * reg_get rs2 c)) c)
      | Instr.li rd imm => run_asm p' (reg_set rd (u64 imm) c)
      | Instr.la rd s => run_asm p' (reg_set rd (symbol s) c)
      | Instr.csrrw rd r rs => run_asm p' (csr_set r (reg_get rs c) (reg_set rd (x_csr c r) c))
      | Instr.csrr rd r => run_asm p' (reg_set rd (x_csr c r) c)
      | Instr.csrw r rs => run_asm p' (csr_set r (reg_get rs c) c)
      | Instr.sfence_vma => run_asm p' c
      | Instr.call s => run_asm p' (callee s c)
      | Instr.ecall => run_asm p' (kernel c)
      | Instr.j s => (Goto s, c)
      | Instr.jr r => (JumpTo (reg_get r c), c)
      | Instr.ret => (JumpTo (reg_get Reg.ra c), c)
      | Instr.sret => (SRet, c)
      | Instr.mret => (MRet, c)
      end
  end.
End Exec.

(** ** The code *)

Module Code.
Import Reg Csr Instr.

(** *** swtch.S *)
Definition swtch : list instr :=
  [sd ra 0 a0; sd sp 8 a0; sd s0 16 a0; sd s1 24 a0; sd s2 32 a0; sd s3 40 a0; sd s4 48 a0; sd s5 56 a0; sd s6 64 a0;
   sd s7 72 a0; sd s8 80 a0; sd s9 88 a0; sd s10 96 a0; sd s11 104 a0; ld ra 0 a1; ld sp 8 a1; ld s0 16 a1;
   ld s1 24 a1; ld s2 32 a1; ld s3 40 a1; ld s4 48 a1; ld s5 56 a1; ld s6 64 a1; ld s7 72 a1; ld s8 80 a1;
   ld s9 88 a1; ld s10 96 a1; ld s11 104 a1; ret].
Definition startCalcSize : list instr := [li a7 (sysnum SYS_sigret); ecall].

(** *** trampoline.S *)
Definition uservec : list instr :=
  [csrrw a0 sscratch a0; sd ra 40 a0; sd sp 48 a0; sd gp 56 a0; sd tp 64 a0; sd t0 72 a0; sd t1 80 a0; sd t2 88 a0;
   sd s0 96 a0; sd s1 104 a0; sd a1 120 a0; sd a2 128 a0; sd a3 136 a0; sd a4 144 a0; sd a5 152 a0; sd a6 160 a0;
   sd a7 168 a0; sd s2 176 a0; sd s3 184 a0; sd s4 192 a0; sd s5 200 a0; sd s6 208 a0; sd s7 216 a0; sd s8 224 a0;
   sd s9 232 a0; sd s10 240 a0; sd s11 248 a0; sd t3 256 a0; sd t4 264 a0; sd t5 272 a0; sd t6 280 a0;
   csrr t0 sscratch; sd t0 112 a0; ld sp 8 a0; ld tp 32 a0; ld t0 16 a0; ld t1 0 a0; csrw satp t1;
   sfence_vma; jr t0].
Definition userret : list instr :=
  [csrw satp a1; sfence_vma; ld t0 112 a0; csrw sscratch t0; ld ra 40 a0; ld sp 48 a0; ld gp 56 a0;
   ld tp 64 a0; ld t0 72 a0; ld t1 80 a0; ld t2 88 a0; ld s0 96 a0; ld s1 104 a0; ld a1 120 a0; ld a2 128 a0;
   ld a3 136 a0; ld a4 144 a0; ld a5 152 a0; ld a6 160 a0; ld a7 168 a0; ld s2 176 a0; ld s3 184 a0; ld s4 192 a0;
   ld s5 200 a0; ld s6 208 a0; ld s7 216 a0; ld s8 224 a0; ld s9 232 a0; ld s10 240 a0; ld s11 248 a0; ld t3 256 a0;
   ld t4 264 a0; ld t5 272 a0; ld t6 280 a0; csrrw a0 sscratch a0; sret].

(** *** kernelvec.S *)
Definition kernelvec : list instr :=
  [addi sp sp (-256); sd ra 0 sp; sd sp 8 sp; sd gp 16 sp; sd tp 24 sp; sd t0 32 sp; sd t1 40 sp; sd t2 48 sp;
   sd s0 56 sp; sd s1 64 sp; sd a0 72 sp; sd a1 80 sp; sd a2 88 sp; sd a3 96 sp; sd a4 104 sp; sd a5 112 sp;
   sd a6 120 sp; sd a7 128 sp; sd s2 136 sp; sd s3 144 sp; sd s4 152 sp; sd s5 160 sp; sd s6 168 sp; sd s7 176 sp;
   sd s8 184 sp; sd s9 192 sp; sd s10 200 sp; sd s11 208 sp; sd t3 216 sp; sd t4 224 sp; sd t5 232 sp; sd t6 240 sp;
   call "kerneltrap"; ld ra 0 sp; ld sp 8 sp; ld gp 16 sp; ld t0 32 sp; ld t1 40 sp; ld t2 48 sp; ld s0 56 sp;
   ld s1 64 sp; ld a0 72 sp; ld a1 80 sp; ld a2 88 sp; ld a3 96 sp; ld a4 104 sp; ld a5 112 sp; ld a6 120 sp;
   ld a7 128 sp; ld s2 136 sp; ld s3 144 sp; ld s4 152 sp; ld s5 160 sp; ld s6 168 sp; ld s7 176 sp; ld s8 184 sp;
   ld s9 192 sp; ld s10 200 sp; ld s11 208 sp; ld t3 216 sp; ld t4 224 sp; ld t5 232 sp; ld t6 240 sp;
   addi sp sp 256; sret].
Definition timervec : list instr :=
  [csrrw a0 mscratch a0; sd a1 0 a0; sd a2 8 a0; sd a3 16 a0; ld a1 24 a0; ld a2 32 a0; ld a3 0 a1; add a3 a3 a2;
   sd a3 0 a1; li a1 2; csrw sip a1; ld a3 16 a0; ld a2 8 a0; ld a1 0 a0; csrrw a0 mscratch a0; mret].

(** *** entry.S *)
Definition _entry : list instr :=
  [la sp "stack0"; li a0 (1024 * 4); csrr a1 mhartid; addi a1 a1 1; mul a0 a0 a1; add sp sp a0; call "start"; j "spin"].

(** *** initcode.S, after its label start, and after exit *)
Definition start : list instr := [la a0 "init"; la a1 "argv"; li a7 (sysnum SYS_exec); ecall].
Definition exit : list instr := [li a7 (sysnum SYS_exit); ecall; j "exit"].

(** *** usys.pl *)
Definition entry (n : sysno) : list instr := [li a7 (sysnum n); ecall; ret].
Definition stubs : list (string * list instr) := prod_map id entry <$>
  [("fork", SYS_fork); ("exit", SYS_exit); ("wait", SYS_wait); ("pipe", SYS_pipe); ("read", SYS_read);
   ("write", SYS_write); ("close", SYS_close); ("kill", SYS_kill); ("exec", SYS_exec); ("open", SYS_open);
   ("mknod", SYS_mknod); ("unlink", SYS_unlink); ("fstat", SYS_fstat); ("link", SYS_link); ("mkdir",
   SYS_mkdir); ("chdir", SYS_chdir); ("dup", SYS_dup); ("getpid", SYS_getpid); ("sbrk", SYS_sbrk); ("sleep",
   SYS_sleep); ("uptime", SYS_uptime); ("sigprocmask", SYS_sigprocmask); ("sigaction", SYS_sigaction);
   ("sigret", SYS_sigret); ("kthread_create", SYS_kthread_create); ("kthread_id", SYS_kthread_id);
   ("kthread_exit", SYS_kthread_exit); ("kthread_join", SYS_kthread_join); ("bsem_alloc", SYS_bsem_alloc);
   ("bsem_free", SYS_bsem_free); ("bsem_down", SYS_bsem_down); ("bsem_up", SYS_bsem_up)].
End Code.
