(* ===== verification/AsmSpec.v ===== *)
(** * The assembly code keeps every register (src/kernel/swtch.S, trampoline.S,
    kernelvec.S)

    A sequence of stores followed by the matching sequence of loads is the
    identity on the registers it names; the routines are such sequences around
    what they do in between. *)

From S2P Require Import Prelude Mem Riscv Kstate Asm.

(** ** Registers *)

Lemma reg_get_set r q v c : q ≠ Reg.zero → reg_get q (reg_set r v c) = if decide (q = r) then v else reg_get q c.
Proof. intros Hq. unfold reg_get, reg_set. rproj. by repeat case_decide. Qed.
Lemma reg_get_same r v c : r ≠ Reg.zero → reg_get r (reg_set r v c) = v.
Proof. intros Hr. rewrite reg_get_set by done. by rewrite decide_True. Qed.
Lemma reg_get_other r q v c : q ≠ r → reg_get q (reg_set r v c) = reg_get q c.
Proof. intros Hq. unfold reg_get, reg_set. rproj. by repeat case_decide. Qed.

(** the registers hold words *)
Definition words (c : core) : Prop := ∀ r, 0 ≤ x_reg c r < 2 ^ 64.
Lemma reg_get_word c r : words c → 0 ≤ reg_get r c < 2 ^ 64.
Proof. intros Hw. unfold reg_get. case_decide; [lia|apply Hw]. Qed.
Lemma words_set r v c : words c → 0 ≤ v < 2 ^ 64 → words (reg_set r v c).
Proof. intros Hw Hv q. unfold reg_set. rproj. by case_decide. Qed.

(** ** Blocks of stores and of loads *)

(** a register and the offset of the word it is kept in *)
Abbreviation layout := (list (Reg.reg * Z)).
Definition saves (base : Reg.reg) (l : layout) : list Instr.instr := (λ x, Instr.sd x.1 x.2 base) <$> l.
Definition loads (base : Reg.reg) (l : layout) : list Instr.instr := (λ x, Instr.ld x.1 x.2 base) <$> l.

(** words of a block of [n] bytes that do not overlap, for different registers *)
Record laid_out (n : Z) (l : layout) : Prop := {
  lo_range r o : (r, o) ∈ l → 0 ≤ o ∧ o + 8 ≤ n ∧ o mod 8 = 0;
  lo_regs : NoDup l.*1;
  lo_offs : NoDup l.*2;
  lo_zero : Reg.zero ∉ l.*1
}.
Definition laid_out_b (n : Z) (l : layout) : bool :=
  forallb (λ x, (0 <=? x.2) && (x.2 + 8 <=? n) && (x.2 mod 8 =? 0)) l &&
  bool_decide (NoDup l.*1) && bool_decide (NoDup l.*2) && bool_decide (Reg.zero ∉ l.*1).
Lemma laid_out_check n l : laid_out_b n l = true → laid_out n l.
Proof.
  unfold laid_out_b. intros (((H1 & H2)%andb_prop & H3)%andb_prop & H4)%andb_prop. split; [|by apply bool_decide_eq_true in H2, H3, H4..].
  intros r o Hx. rewrite forallb_forall in H1. specialize (H1 (r, o) (proj1 (list_elem_of_In _ _) Hx)). cbn in H1. zbool. lia.
Qed.
Lemma laid_out_cons n x l : laid_out n (x :: l) → laid_out n l ∧ x.1 ∉ l.*1 ∧ x.2 ∉ l.*2.
Proof.
  intros [H1 H2 H3 H4]. rewrite fmap_cons in *. apply NoDup_cons in H2 as [H2 H2'], H3 as [H3 H3'].
  split; [|done]. split; [intros r o Hx; apply (H1 r); set_solver|done|done|set_solver].
Qed.

(** the bytes at [va] of the address space [satp] are at [pa] *)
Definition seen_at (tr : Z → Z → Z) (satp va pa n : Z) : Prop := ∀ o, 0 ≤ o → o + 8 ≤ n → tr satp (u64 (va + o)) = pa + o.

Definition saved (pa : Z) (l : layout) (c : core) (m : gmap Z byte) : gmap Z byte :=
  foldl (λ m x, st64 (pa + x.2) (reg_get x.1 c) m) m l.
Lemma saved_cons pa r o l c m : saved pa ((r, o) :: l) c m = saved pa l c (st64 (pa + o) (reg_get r c) m).
Proof. done. Qed.

Lemma ld64_saved_out pa l c a : ∀ m, (∀ o, o ∈ l.*2 → pa + o + 8 ≤ a ∨ a + 8 ≤ pa + o) → ld64 (saved pa l c m) a = ld64 m a.
Proof.
  induction l as [|[r o] l IH]; intros m Ha; [done|]. rewrite saved_cons.
  rewrite IH by (intros o' Ho'; apply Ha; set_solver). apply ld64_st64_out. specialize (Ha o ltac:(set_solver)). lia.
Qed.
Lemma ld8_saved_out pa n l c x : laid_out n l → ¬ (pa ≤ x < pa + n) → ∀ m, ld8 (saved pa l c m) x = ld8 m x.
Proof.
  induction l as [|[r o] l IH]; intros Hl Hx m; [done|]. rewrite saved_cons.
  destruct (lo_range _ _ Hl r o) as (H1 & H2 & _); [set_solver|]. apply laid_out_cons in Hl as [Hl _].
  rewrite (IH Hl Hx). apply ld8_st64_out. lia.
Qed.
(** words of the same alignment are equal or apart *)
Lemma words_apart a o1 o2 : o1 mod 8 = 0 → o2 mod 8 = 0 → o1 ≠ o2 → a + o1 + 8 ≤ a + o2 ∨ a + o2 + 8 ≤ a + o1.
Proof. intros H1 H2 Hne. apply Z.mod_divide in H1 as [k1 ->], H2 as [k2 ->]; lia. Qed.
Lemma ld64_saved pa n l c : words c → laid_out n l → ∀ m r o, (r, o) ∈ l → ld64 (saved pa l c m) (pa + o) = reg_get r c.
Proof.
  intros Hw. induction l as [|[r' o'] l IH]; intros Hl m r o Hx; [set_solver|].
  destruct (lo_range _ _ Hl r o Hx) as (_ & _ & Ha). destruct (lo_range _ _ Hl r' o') as (_ & _ & Ha'); [set_solver|].
  destruct (laid_out_cons _ _ _ Hl) as (Hl' & _ & Ho). cbn [fst snd] in Ho.
  rewrite saved_cons. apply elem_of_cons in Hx as [[= -> ->]|Hx]; [|by apply IH].
  rewrite ld64_saved_out; [by apply ld64_st64_same, reg_get_word|]. intros o2 Ho2. apply words_apart; [|done|by intros ->].
  apply list_elem_of_fmap in Ho2 as ([r2 o2'] & -> & H2). by apply (lo_range _ _ Hl' r2).
Qed.

Definition loaded (pa : Z) (l : layout) (c : core) : core := foldl (λ c x, reg_set x.1 (ld64 (x_mem c) (pa + x.2)) c) c l.
Lemma loaded_cons pa r o l c : loaded pa ((r, o) :: l) c = loaded pa l (reg_set r (ld64 (x_mem c) (pa + o)) c).
Proof. done. Qed.
Lemma loaded_rest pa l : ∀ c, x_csr (loaded pa l c) = x_csr c ∧ x_mem (loaded pa l c) = x_mem c.
Proof. induction l as [|[r o] l IH]; intros c; [done|]. rewrite loaded_cons. apply (IH (reg_set _ _ c)). Qed.
Lemma loaded_other pa l r : r ∉ l.*1 → ∀ c, reg_get r (loaded pa l c) = reg_get r c.
Proof.
  induction l as [|[r' o] l IH]; intros Hr c; [done|]. rewrite loaded_cons.
  rewrite IH by set_solver. apply reg_get_other. set_solver.
Qed.
Lemma reg_get_loaded pa n l : laid_out n l → ∀ c r o, (r, o) ∈ l → reg_get r (loaded pa l c) = ld64 (x_mem c) (pa + o).
Proof.
  induction l as [|[r' o'] l IH]; intros Hl c r o Hx; [set_solver|]. destruct (laid_out_cons _ _ _ Hl) as (Hl' & Hr & _). cbn [fst] in Hr.
  rewrite loaded_cons. apply elem_of_cons in Hx as [[= -> ->]|Hx].
  - rewrite loaded_other by done. apply reg_get_same. intros ->. apply (lo_zero _ _ Hl). set_solver.
  - by apply (IH Hl' (reg_set r' _ c)).
Qed.

Section Blocks.
Context (tr : Z → Z → Z) (symbol : string → Z) (callee : string → core → core) (kernel : core → core).
Abbreviation run_asm := (run_asm tr symbol callee kernel).

Lemma exec_csrrw rd r rs p c : run_asm (Instr.csrrw rd r rs :: p) c = run_asm p (csr_set r (reg_get rs c) (reg_set rd (x_csr c r) c)).
Proof. done. Qed.
Lemma exec_csrr rd r p c : run_asm (Instr.csrr rd r :: p) c = run_asm p (reg_set rd (x_csr c r) c).
Proof. done. Qed.
Lemma exec_csrw r rs p c : run_asm (Instr.csrw r rs :: p) c = run_asm p (csr_set r (reg_get rs c) c).
Proof. done. Qed.
Lemma exec_sfence p c : run_asm (Instr.sfence_vma :: p) c = run_asm p c.
Proof. done. Qed.
Lemma exec_ld r off base p c : run_asm (Instr.ld r off base :: p) c = run_asm p (reg_set r (ld64 (x_mem c) (address tr off base c)) c).
Proof. done. Qed.
Lemma exec_addi rd rs imm p c : run_asm (Instr.addi rd rs imm :: p) c = run_asm p (reg_set rd (u64 (reg_get rs c + imm)) c).
Proof. done. Qed.
Lemma exec_call s p c : run_asm (Instr.call s :: p) c = run_asm p (callee s c).
Proof. done. Qed.
Lemma exec_jr r p c : run_asm (Instr.jr r :: p) c = (JumpTo (reg_get r c), c).
Proof. done. Qed.
Lemma exec_sret p c : run_asm (Instr.sret :: p) c = (SRet, c).
Proof. done. Qed.
Lemma exec_saves base n pa l p : ∀ c, laid_out n l → seen_at tr (x_csr c Csr.satp) (reg_get base c) pa n →
  run_asm (saves base l ++ p) c = run_asm p (c <| x_mem ::= saved pa l c |>).
Proof.
  induction l as [|[r o] l IH]; intros c Hl Hs; [by destruct c|]. cbn [saves fmap list_fmap app fst snd Asm.run_asm].
  destruct (lo_range _ _ Hl r o) as (H1 & H2 & _); [set_solver|]. unfold address. rewrite Hs by lia.
  apply laid_out_cons in Hl as [Hl _]. rewrite (IH _ Hl); [|done]. done.
Qed.
(** the base may be loaded, when it is loaded with its value *)
Lemma exec_loads base n pa l p : ∀ c, laid_out n l → seen_at tr (x_csr c Csr.satp) (reg_get base c) pa n →
  (∀ o, (base, o) ∈ l → ld64 (x_mem c) (pa + o) = reg_get base c) →
  run_asm (loads base l ++ p) c = run_asm p (loaded pa l c).
Proof.
  induction l as [|[r o] l IH]; intros c Hl Hs Hb; [done|]. cbn [loads fmap list_fmap app fst snd Asm.run_asm].
  destruct (lo_range _ _ Hl r o) as (H1 & H2 & _); [set_solver|]. unfold address. rewrite Hs by lia.
  assert (Eb : reg_get base (reg_set r (ld64 (x_mem c) (pa + o)) c) = reg_get base c).
  { destruct (decide (base = r)) as [->|Hne]; [|by apply reg_get_other]. rewrite reg_get_same; [apply Hb; set_solver|].
    intros ->. apply (lo_zero _ _ Hl). set_solver. }
  apply laid_out_cons in Hl as [Hl _]. rewrite (IH _ Hl); [done|by rewrite Eb|]. intros o' Ho'. rewrite Eb. apply (Hb o'). set_solver.
Qed.
End Blocks.

(** ** The context switch *)

Module SwtchSpec.
Import Reg.
Definition context_layout : layout :=
  [(ra, 0); (sp, 8); (s0, 16); (s1, 24); (s2, 32); (s3, 40); (s4, 48); (s5, 56); (s6, 64); (s7, 72); (s8, 80); (s9, 88); (s10, 96); (s11, 104)].
Lemma context_laid_out : laid_out 112 context_layout.
Proof. apply laid_out_check. by vm_compute. Qed.
Lemma swtch_blocks : Code.swtch = saves a0 context_layout ++ loads a1 context_layout ++ [Instr.ret].
Proof. done. Qed.
End SwtchSpec.

(** the [struct context] at an address, and the one in the registers *)
Definition context_at (m : gmap Z byte) (a : Z) : context :=
  mkContext (ld64 m a) (ld64 m (a + 8)) ((λ i, ld64 m (a + 16 + 8 * Z.of_nat i)) <$> seq 0 12).
Definition context_of (c : core) : context :=
  mkContext (reg_get Reg.ra c) (reg_get Reg.sp c)
    ((λ r, reg_get r c) <$> [Reg.s0; Reg.s1; Reg.s2; Reg.s3; Reg.s4; Reg.s5; Reg.s6; Reg.s7; Reg.s8; Reg.s9; Reg.s10; Reg.s11]).

(** a context in memory and the registers agree when they do on the layout *)
Lemma context_match m a c : (∀ r o, (r, o) ∈ SwtchSpec.context_layout → ld64 m (a + o) = reg_get r c) → context_at m a = context_of c.
Proof.
  intros H. unfold context_at, context_of. cbn [seq fmap list_fmap].
  assert (Hin : ∀ r o, bool_decide ((r, o) ∈ SwtchSpec.context_layout) = true → ld64 m (a + o) = reg_get r c)
    by (intros r o Ho; by apply H, (bool_decide_eq_true_1 _ Ho)).
  f_equal; [rewrite <- (Z.add_0_r a) at 1; by apply Hin|by apply Hin|].
  repeat (f_equal; [rewrite <- Z.add_assoc; by apply Hin|]). f_equal. rewrite <- Z.add_assoc. by apply Hin.
Qed.

(** C9: swtch(old, new) switches contexts.  The code returns to the place and on
    the stack that new holds, with the callee-saved registers of new;
    old holds those of the caller, so that a later switch to old goes on exactly
    there; no other register and no other byte of memory changes. *)
Theorem swtch_switches tr symbol callee kernel c old new : words c →
  reg_get Reg.a0 c = old → reg_get Reg.a1 c = new → old + 112 ≤ new ∨ new + 112 ≤ old →
  seen_at tr (x_csr c Csr.satp) old old 112 → seen_at tr (x_csr c Csr.satp) new new 112 →
  ∃ c', run_asm tr symbol callee kernel Code.swtch c = (JumpTo (c_ra (context_at (x_mem c) new)), c') ∧
    context_of c' = context_at (x_mem c) new ∧ context_at (x_mem c') old = context_of c ∧
    (∀ r, r ∉ SwtchSpec.context_layout.*1 → reg_get r c' = reg_get r c) ∧ x_csr c' = x_csr c ∧
    (∀ x, ¬ (old ≤ x < old + 112) → ld8 (x_mem c') x = ld8 (x_mem c) x).
Proof.
  intros Hw E0 E1 Hd S0 S1. rewrite SwtchSpec.swtch_blocks. pose proof SwtchSpec.context_laid_out as Hl.
  rewrite (exec_saves _ _ _ _ Reg.a0 112 old) by (rewrite ?E0; done). set (c1 := c <| x_mem ::= _ |>).
  rewrite (exec_loads _ _ _ _ Reg.a1 112 new); [|done|unfold c1; change (reg_get Reg.a1 _) with (reg_get Reg.a1 c); by rewrite E1|].
  2: { intros o Ho. exfalso. apply (list_elem_of_fmap_2 fst) in Ho. by apply (bool_decide_unpack (Reg.a1 ∉ SwtchSpec.context_layout.*1)). }
  set (c2 := loaded new _ c1). destruct (loaded_rest new SwtchSpec.context_layout c1) as [Ec Em].
  assert (Hnew : ∀ r o, (r, o) ∈ SwtchSpec.context_layout → ld64 (x_mem c) (new + o) = reg_get r c2).
  { intros r o Ho. unfold c2. rewrite (reg_get_loaded new 112 _ Hl _ r o Ho). unfold c1. rproj.
    destruct (lo_range _ _ Hl r o Ho) as (? & ? & _). rewrite ld64_saved_out; [done|]. intros o' Ho'.
    apply list_elem_of_fmap in Ho' as ([r' o2] & -> & Ho'). destruct (lo_range _ _ Hl r' o2 Ho') as (? & ? & _). cbn. lia. }
  apply context_match in Hnew as Hctx. exists c2. split_and!; [|done| | |done|].
  - cbn [run_asm]. by rewrite Hctx.
  - apply context_match. intros r o Ho. unfold c2. rewrite Em. unfold c1. rproj. by apply (ld64_saved old 112).
  - intros r Hr. unfold c2. by rewrite loaded_other.
  - intros x Hx. unfold c2. rewrite Em. unfold c1. rproj. by apply (ld8_saved_out old 112).
Qed.

(** ** Traps from user space *)

Module TrapSpec.
Import Reg.
(** where [struct trapframe] has the user registers, a0 apart *)
Definition rest_layout : layout :=
  [(ra, TF_RA); (sp, TF_SP); (gp, 56); (tp, 64); (t0, 72); (t1, 80); (t2, 88); (s0, 96); (s1, 104);
   (a1, TF_A1); (a2, TF_A2); (a3, TF_A3); (a4, TF_A4); (a5, TF_A5); (a6, 160); (a7, TF_A7);
   (s2, 176); (s3, 184); (s4, 192); (s5, 200); (s6, 208); (s7, 216); (s8, 224); (s9, 232); (s10, 240); (s11, 248);
   (t3, 256); (t4, 264); (t5, 272); (t6, 280)].
Definition trapframe_layout : layout := (a0, TF_A0) :: rest_layout.
Lemma trapframe_laid_out : laid_out TF_SIZE trapframe_layout.
Proof. apply laid_out_check. by vm_compute. Qed.
Lemma rest_laid_out : laid_out TF_SIZE rest_layout.
Proof. apply laid_out_check. by vm_compute. Qed.
(** what the kernel left there for [uservec] *)
Definition kernel_layout : layout := [(sp, TF_KERNEL_SP); (tp, TF_KERNEL_HARTID); (t0, TF_KERNEL_TRAP); (t1, TF_KERNEL_SATP)].
Lemma kernel_laid_out : laid_out TF_SIZE kernel_layout.
Proof. apply laid_out_check. by vm_compute. Qed.
Lemma t0_laid_out : laid_out TF_SIZE [(t0, TF_A0)].
Proof. apply laid_out_check. by vm_compute. Qed.
Lemma uservec_blocks : Code.uservec = Instr.csrrw a0 Csr.sscratch a0 :: saves a0 rest_layout ++
  Instr.csrr t0 Csr.sscratch :: saves a0 [(t0, TF_A0)] ++ loads a0 kernel_layout ++ [Instr.csrw Csr.satp t1; Instr.sfence_vma; Instr.jr t0].
Proof. done. Qed.
Lemma userret_blocks : Code.userret =
  Instr.csrw Csr.satp a1 :: Instr.sfence_vma :: Instr.ld t0 112 a0 :: Instr.csrw Csr.sscratch t0 :: loads a0 rest_layout ++
  [Instr.csrrw a0 Csr.sscratch a0; Instr.sret].
Proof. done. Qed.
(** every register is in the layout *)
Lemma layout_total r : r ≠ zero → ∃ o, (r, o) ∈ trapframe_layout.
Proof.
  intros Hr. destruct (list_find (λ x, x.1 = r) trapframe_layout) as [[i [r' o]]|] eqn:E.
  - apply list_find_Some in E as (E & <- & _). exists o. by eapply list_elem_of_lookup_2.
  - by destruct r.
Qed.
Lemma rest_offset r o : (r, o) ∈ rest_layout → 40 ≤ o ∧ o ≠ 112 ∧ r ≠ a0.
Proof.
  intros H. assert (Hall : forallb (λ x, (40 <=? x.2) && negb (x.2 =? 112) && negb (bool_decide (x.1 = a0))) rest_layout = true) by (by vm_compute).
  rewrite forallb_forall in Hall. specialize (Hall (r, o) (proj1 (list_elem_of_In _ _) H)). cbn [fst snd] in Hall.
  repeat apply andb_prop in Hall as [Hall ?]. zbool. by case_bool_decide.
Qed.
End TrapSpec.

Section UserTraps.
Context (tr : Z → Z → Z) (symbol : string → Z) (callee : string → core → core) (kernel : core → core).
Context (us va tf : Z) (Hseen : seen_at tr us va tf TF_SIZE) (Hva : 0 ≤ va < 2 ^ 64).
Abbreviation run_asm := (run_asm tr symbol callee kernel).

(** the trapframe holds the user registers *)
Definition kept (m : gmap Z byte) (c : core) : Prop := ∀ r o, (r, o) ∈ TrapSpec.trapframe_layout → ld64 m (tf + o) = reg_get r c.

Lemma uservec_saves c : words c → x_csr c Csr.sscratch = va → x_csr c Csr.satp = us →
  ∃ c1, run_asm Code.uservec c = (JumpTo (ld64 (x_mem c) (tf + TF_KERNEL_TRAP)), c1) ∧ kept (x_mem c1) c ∧
    reg_get Reg.sp c1 = ld64 (x_mem c) (tf + TF_KERNEL_SP) ∧ reg_get Reg.tp c1 = ld64 (x_mem c) (tf + TF_KERNEL_HARTID) ∧
    x_csr c1 Csr.satp = ld64 (x_mem c) (tf + TF_KERNEL_SATP) ∧
    (∀ o, 0 ≤ o → o + 8 ≤ 40 → ld64 (x_mem c1) (tf + o) = ld64 (x_mem c) (tf + o)) ∧
    (∀ x, ¬ (tf ≤ x < tf + TF_SIZE) → ld8 (x_mem c1) x = ld8 (x_mem c) x).
Proof.
  intros Hw Es Eu. rewrite TrapSpec.uservec_blocks, exec_csrrw.
  set (c0 := csr_set Csr.sscratch _ _). assert (E0 : reg_get Reg.a0 c0 = va) by exact Es. assert (Eu0 : x_csr c0 Csr.satp = us) by exact Eu.
  assert (Hw0 : words c0) by (apply (words_set Reg.a0 (x_csr c Csr.sscratch) c Hw); by rewrite Es).
  rewrite (exec_saves _ _ _ _ Reg.a0 TF_SIZE tf _ _ _ TrapSpec.rest_laid_out) by (by rewrite E0, Eu0). rewrite exec_csrr.
  set (c1 := reg_set Reg.t0 _ _). assert (E1 : reg_get Reg.a0 c1 = va) by exact Es. assert (Eu1 : x_csr c1 Csr.satp = us) by exact Eu.
  rewrite (exec_saves _ _ _ _ Reg.a0 TF_SIZE tf _ _ _ TrapSpec.t0_laid_out) by (by rewrite E1, Eu1).
  set (c2 := c1 <| x_mem ::= _ |>). assert (E2 : reg_get Reg.a0 c2 = va) by exact Es. assert (Eu2 : x_csr c2 Csr.satp = us) by exact Eu.
  rewrite (exec_loads _ _ _ _ Reg.a0 TF_SIZE tf _ _ _ TrapSpec.kernel_laid_out); [|by rewrite E2, Eu2|].
  2: { intros o Ho. exfalso. apply (list_elem_of_fmap_2 fst) in Ho. by apply (bool_decide_unpack (Reg.a0 ∉ TrapSpec.kernel_layout.*1)). }
  assert (Em : x_mem c2 = saved tf [(Reg.t0, TF_A0)] c1 (saved tf TrapSpec.rest_layout c0 (x_mem c))) by done.
  assert (Hlow : ∀ o, 0 ≤ o → o + 8 ≤ 40 → ld64 (x_mem c2) (tf + o) = ld64 (x_mem c) (tf + o)).
  { intros o H1 H2. rewrite Em, !ld64_saved_out; [done| |].
    - intros o' ([r' o2] & -> & Ho')%list_elem_of_fmap. apply TrapSpec.rest_offset in Ho' as (? & _). cbn. lia.
    - intros o' ->%list_elem_of_singleton. cbn [snd]. unfold TF_A0. lia. }
  rewrite exec_csrw, exec_sfence, exec_jr. set (c3 := loaded tf TrapSpec.kernel_layout c2). destruct (loaded_rest tf TrapSpec.kernel_layout c2) as [Ec3 Em3].
  assert (Hk : ∀ r o, bool_decide ((r, o) ∈ TrapSpec.kernel_layout) && (o + 8 <=? 40) = true → reg_get r c3 = ld64 (x_mem c) (tf + o)).
  { intros r o (Ho%bool_decide_eq_true_1 & Ho'%Z.leb_le)%andb_prop. destruct (lo_range _ _ TrapSpec.kernel_laid_out r o Ho) as (? & _).
    unfold c3. rewrite (reg_get_loaded tf TF_SIZE _ TrapSpec.kernel_laid_out _ r o Ho). by apply Hlow. }
  exists (csr_set Csr.satp (reg_get Reg.t1 c3) c3). split; [|split_and!; [|exact (Hk Reg.sp TF_KERNEL_SP eq_refl)|exact (Hk Reg.tp TF_KERNEL_HARTID eq_refl)|
    exact (Hk Reg.t1 TF_KERNEL_SATP eq_refl)| |]].
  - f_equal. f_equal. exact (Hk Reg.t0 TF_KERNEL_TRAP eq_refl).
  - intros r o Ho. change (x_mem (csr_set _ _ c3)) with (x_mem c3). unfold c3. rewrite Em3, Em.
    apply elem_of_cons in Ho as [[= -> ->]|Ho].
    + rewrite (ld64_saved tf TF_SIZE) with (r := Reg.t0); [done| |apply TrapSpec.t0_laid_out|set_solver].
      apply (words_set Reg.t0 (reg_get Reg.a0 c) c0 Hw0). by apply reg_get_word.
    + destruct (TrapSpec.rest_offset r o Ho) as (Ho1 & Ho2 & Hr). destruct (lo_range _ _ TrapSpec.rest_laid_out r o Ho) as (_ & _ & Hm).
      rewrite ld64_saved_out; [|intros o' ->%list_elem_of_singleton; apply words_apart; [done|done|intros E; by apply Ho2; rewrite <- E]].
      rewrite (ld64_saved tf TF_SIZE) with (r := r); [by apply reg_get_other| |apply TrapSpec.rest_laid_out|done].
      exact Hw0.
  - intros o H1 H2. change (x_mem (csr_set _ _ c3)) with (x_mem c3). unfold c3. rewrite Em3. by apply Hlow.
  - intros x Hx. change (x_mem (csr_set _ _ c3)) with (x_mem c3). unfold c3. rewrite Em3, Em.
    rewrite (ld8_saved_out tf TF_SIZE _ _ _ TrapSpec.t0_laid_out Hx). by apply (ld8_saved_out tf TF_SIZE _ _ _ TrapSpec.rest_laid_out).
Qed.

Lemma userret_restores c2 c : reg_get Reg.a0 c2 = va → reg_get Reg.a1 c2 = us → kept (x_mem c2) c →
  ∃ c3, run_asm Code.userret c2 = (SRet, c3) ∧ (∀ r, reg_get r c3 = reg_get r c) ∧ x_csr c3 Csr.satp = us ∧
    x_csr c3 Csr.sscratch = va ∧ x_mem c3 = x_mem c2.
Proof.
  intros E0 E1 Hk. rewrite TrapSpec.userret_blocks, exec_csrw, exec_sfence, exec_ld, exec_csrw.
  set (d0 := csr_set Csr.satp _ c2). assert (Ea : address tr 112 Reg.a0 d0 = tf + 112).
  { unfold address. change (x_csr d0 Csr.satp) with (reg_get Reg.a1 c2). rewrite E1. change (reg_get Reg.a0 d0) with (reg_get Reg.a0 c2).
    rewrite E0. apply Hseen; unfold TF_SIZE; lia. }
  rewrite Ea. set (d1 := csr_set Csr.sscratch _ _). assert (F0 : reg_get Reg.a0 d1 = va) by exact E0. assert (F1 : x_csr d1 Csr.satp = us) by exact E1.
  rewrite (exec_loads _ _ _ _ Reg.a0 TF_SIZE tf _ _ _ TrapSpec.rest_laid_out); [|by rewrite F0, F1|].
  2: { intros o Ho. by destruct (TrapSpec.rest_offset _ _ Ho) as (_ & _ & ?). }
  rewrite exec_csrrw, exec_sret. set (d2 := loaded tf TrapSpec.rest_layout d1). destruct (loaded_rest tf TrapSpec.rest_layout d1) as [Ec Em]. fold d2 in Ec, Em.
  eexists. split; [reflexivity|]. split_and!.
  - intros r. destruct (decide (r = Reg.zero)) as [->|Hz]; [done|]. destruct (TrapSpec.layout_total r Hz) as [o Ho].
    change (reg_get r (reg_set Reg.a0 (x_csr d2 Csr.sscratch) d2) = reg_get r c).
    pose proof (Hk r o Ho) as Hko. apply elem_of_cons in Ho as [[= -> ->]|Ho].
    + rewrite reg_get_same by done. by rewrite Ec.
    + destruct (TrapSpec.rest_offset _ _ Ho) as (_ & _ & Hr). rewrite reg_get_other by done. unfold d2.
      rewrite (reg_get_loaded tf TF_SIZE _ TrapSpec.rest_laid_out _ r o Ho). exact Hko.
  - change (x_csr d2 Csr.satp = us). by rewrite Ec.
  - change (reg_get Reg.a0 d2 = va). unfold d2. rewrite loaded_other; [done|]. by apply (bool_decide_unpack (Reg.a0 ∉ TrapSpec.rest_layout.*1)).
  - exact Em.
Qed.
End UserTraps.

(** C8: a trap from user space and the return to it.  Let the trapframe of the thread
    be mapped at sscratch.  uservec saves every user register at its place
    in struct trapframe, changes nothing else in memory, and goes to the kernel's
    handler on the kernel's stack and page table.  When userret is later called
    with a trapframe that has the same registers, the user runs with every
    register as it was, and sscratch is ready for the next trap. *)
Theorem trap_roundtrip tr symbol callee kernel us va tf c :
  seen_at tr us va tf TF_SIZE → 0 ≤ va < 2 ^ 64 → words c → x_csr c Csr.sscratch = va → x_csr c Csr.satp = us →
  ∃ c1, run_asm tr symbol callee kernel Code.uservec c = (JumpTo (ld64 (x_mem c) (tf + TF_KERNEL_TRAP)), c1) ∧
    (∀ r o, (r, o) ∈ TrapSpec.trapframe_layout → ld64 (x_mem c1) (tf + o) = reg_get r c) ∧
    reg_get Reg.sp c1 = ld64 (x_mem c) (tf + TF_KERNEL_SP) ∧ reg_get Reg.tp c1 = ld64 (x_mem c) (tf + TF_KERNEL_HARTID) ∧
    x_csr c1 Csr.satp = ld64 (x_mem c) (tf + TF_KERNEL_SATP) ∧
    (∀ x, ¬ (tf ≤ x < tf + TF_SIZE) → ld8 (x_mem c1) x = ld8 (x_mem c) x) ∧
    ∀ c2, reg_get Reg.a0 c2 = va → reg_get Reg.a1 c2 = us →
      (∀ r o, (r, o) ∈ TrapSpec.trapframe_layout → ld64 (x_mem c2) (tf + o) = ld64 (x_mem c1) (tf + o)) →
      ∃ c3, run_asm tr symbol callee kernel Code.userret c2 = (SRet, c3) ∧ (∀ r, reg_get r c3 = reg_get r c) ∧
        x_csr c3 Csr.satp = us ∧ x_csr c3 Csr.sscratch = va ∧ x_mem c3 = x_mem c2.
Proof.
  intros Hs Hva Hw Es Eu.
  destruct (uservec_saves tr symbol callee kernel us va tf Hs Hva c Hw Es Eu) as (c1 & E & Hk & H1 & H2 & H3 & _ & H5).
  exists c1. split_and!; [exact E|exact Hk|exact H1|exact H2|exact H3|exact H5|]. intros c2 E0 E1 Hsame. apply (userret_restores _ _ _ _ us va tf Hs c2 c E0 E1).
  intros r o Ho. rewrite (Hsame r o Ho). by apply Hk.
Qed.

(** ** Traps from the kernel *)

Module KernelSpec.
Import Reg.
Definition frame_layout : layout :=
  [(ra, 0); (sp, 8); (gp, 16); (tp, 24); (t0, 32); (t1, 40); (t2, 48); (s0, 56); (s1, 64); (a0, 72); (a1, 80); (a2, 88); (a3, 96);
   (a4, 104); (a5, 112); (a6, 120); (a7, 128); (s2, 136); (s3, 144); (s4, 152); (s5, 160); (s6, 168); (s7, 176); (s8, 184); (s9, 192);
   (s10, 200); (s11, 208); (t3, 216); (t4, 224); (t5, 232); (t6, 240)].
Definition restored : layout := filter (λ x, x.1 ≠ tp) frame_layout.
Lemma frame_laid_out : laid_out 256 frame_layout.
Proof. apply laid_out_check. by vm_compute. Qed.
Lemma restored_laid_out : laid_out 256 restored.
Proof. apply laid_out_check. by vm_compute. Qed.
Lemma kernelvec_blocks : Code.kernelvec = Instr.addi sp sp (-256) :: saves sp frame_layout ++
  Instr.call "kerneltrap" :: loads sp restored ++ [Instr.addi sp sp 256; Instr.sret].
Proof. by vm_compute. Qed.
Lemma restored_total r : r ≠ zero → r ≠ tp → ∃ o, (r, o) ∈ restored ∧ (r, o) ∈ frame_layout.
Proof.
  intros Hr Ht. destruct (list_find (λ x, x.1 = r) frame_layout) as [[i [r' o]]|] eqn:E; [|by destruct r].
  apply list_find_Some in E as (E & <- & _). exists o. apply list_elem_of_lookup_2 in E. split; [|done]. by apply list_elem_of_filter.
Qed.
End KernelSpec.

(** what the calling convention says of [f], called with the frame at [pa] on top of
    its stack: it gives the stack pointer back and leaves the frame alone *)
Definition conventional (f : core → core) (pa : Z) : Prop := ∀ c,
  reg_get Reg.sp (f c) = reg_get Reg.sp c ∧ x_csr (f c) Csr.satp = x_csr c Csr.satp ∧
  ∀ x, pa ≤ x < pa + 256 → ld8 (x_mem (f c)) x = ld8 (x_mem c) x.


(** ** Cores for the witnesses *)

Module Demo.
(** each register holds its place in this list *)
Definition order : list Reg.reg := TrapSpec.trapframe_layout.*1.
Definition regs (r : Reg.reg) : Z := match list_find (λ q, q = r) order with Some (i, _) => 100 + Z.of_nat i | None => 0 end.
Definition put (r : Reg.reg) (v : Z) (f : Reg.reg → Z) (q : Reg.reg) : Z := if decide (q = r) then v else f q.
Definition no_csr (r : Csr.csr) : Z := 0.
(** the context at 0x2000 has the register [r] of offset [o] hold [o] *)
Definition other_context : gmap Z byte := foldr (λ x m, st64 (0x2000 + x.2) x.2 m) ∅ SwtchSpec.context_layout.
Definition before_swtch : core := mkCore (put Reg.a0 0x1000 (put Reg.a1 0x2000 regs)) no_csr other_context.
Lemma swtch_switches_witness : ∃ c', run_asm (λ _ a, a) (λ _, 0) (λ _, id) id Code.swtch before_swtch = (JumpTo 0, c') ∧
  context_of c' = mkContext 0 8 [16; 24; 32; 40; 48; 56; 64; 72; 80; 88; 96; 104] ∧ context_at (x_mem c') 0x1000 = context_of before_swtch.
Proof.
  assert (Ec : context_at (x_mem before_swtch) 0x2000 = mkContext 0 8 [16; 24; 32; 40; 48; 56; 64; 72; 80; 88; 96; 104]) by (by vm_compute).
  destruct (swtch_switches (λ _ a, a) (λ _, 0) (λ _, id) id before_swtch 0x1000 0x2000) as (c' & H1 & H2 & H3 & _).
  - intros r. destruct r; (split; by vm_compute).
  - done.
  - done.
  - lia.
  - intros o H1 H2. apply u64_small. lia.
  - intros o H1 H2. apply u64_small. lia.
  - rewrite Ec in H1, H2. exists c'. split_and!; [exact H1|exact H2|exact H3].
Defined.

(** the user page table 1 maps the page at [TRAPFRAME] to the page at 0x4000 *)
Definition mmu (satp a : Z) : Z := if (satp =? 1) && (TRAPFRAME <=? a) then a - TRAPFRAME + 0x4000 else a.
Definition in_user : core := mkCore regs (λ r, if decide (r = Csr.sscratch) then TRAPFRAME else if decide (r = Csr.satp) then 1 else 0)
  (st64 0x4000 2 (st64 0x4008 0x9000 (st64 0x4010 0x80000000 (st64 0x4020 0 ∅)))).
Lemma trap_roundtrip_witness : ∃ c1, run_asm mmu (λ _, 0) (λ _, id) id Code.uservec in_user = (JumpTo 0x80000000, c1) ∧
  reg_get Reg.sp c1 = 0x9000 ∧ x_csr c1 Csr.satp = 2 ∧ ld64 (x_mem c1) (0x4000 + TF_A7) = regs Reg.a7 ∧
  ∃ c3, run_asm mmu (λ _, 0) (λ _, id) id Code.userret (reg_set Reg.a0 TRAPFRAME (reg_set Reg.a1 1 c1)) = (SRet, c3) ∧
    ∀ r, reg_get r c3 = reg_get r in_user.
Proof.
  destruct (trap_roundtrip mmu (λ _, 0) (λ _, id) id 1 TRAPFRAME 0x4000 in_user) as (c1 & H1 & H2 & H3 & _ & H4 & _ & H5).
  - intros o Ho Hn. unfold TF_SIZE in Hn. rewrite u64_small by (change TRAPFRAME with 0x3fffffe000; lia).
    unfold mmu. cbn [Z.eqb andb Pos.eqb]. rewrite (proj2 (Z.leb_le _ _)) by lia. lia.
  - done.
  - intros r. destruct r; (split; by vm_compute).
  - done.
  - done.
  - exists c1. split_and!; [exact H1|exact H3|exact H4|rewrite (H2 Reg.a7) by (apply (bool_decide_unpack _); by vm_compute); reflexivity|].
    destruct (H5 (reg_set Reg.a0 TRAPFRAME (reg_set Reg.a1 1 c1))) as (c3 & H6 & H7 & _); [reflexivity|reflexivity|reflexivity|]. exists c3. split; [exact H6|exact H7].
Defined.

(** a handler that clobbers a0 and moves to hart 5 *)
Definition handler (s : string) (c : core) : core := reg_set Reg.a0 77 (reg_set Reg.tp 5 c).
Definition in_kernel : core := mkCore (put Reg.sp 0x9000 regs) no_csr ∅.
End Demo.
