(* ===== verification/Spinlock.v ===== *)
(** * Spinlocks and interrupt nesting (src/kernel/spinlock.c)

    [acquire] and [release] as the hart that runs the code sees them: the
    nesting counter of [push_off] and [pop_off], the interrupt-enable flag
    they save, and the locks this hart holds.  A lock held by another hart
    only makes [acquire] spin, so it does not show here. *)

From S2P Require Import Prelude Mem Riscv Kalloc Vm Uvm Pagetable Kstate.

Section Spinlock.
Context {F : Type}.

Definition get_hart {A} (f : hart → A) : K F A := gets (λ s, f (k_hart s)).
Definition set_hart (f : hart → hart) : K F unit := modify (λ s, s <| k_hart ::= f |>).

(** riscv.h: the SIE bit of sstatus *)
Definition intr_get : K F bool := get_hart h_intr.
Definition intr_on : K F unit := set_hart (λ h, h <| h_intr := true |>).
Definition intr_off : K F unit := set_hart (λ h, h <| h_intr := false |>).

Definition push_off : K F unit :=
  let* old := intr_get in
  intr_off ;;;
  let* noff := get_hart h_noff in
  when (noff =? 0) (set_hart (λ h, h <| h_intena := old |>)) ;;;
  set_hart (λ h, h <| h_noff ::= Z.add 1 |>).

Definition pop_off : K F unit :=
  let* i := intr_get in
  if i then panic "pop_off - interruptible"
  else
    let* noff := get_hart h_noff in
    if noff <? 1 then panic "pop_off"
    else
      set_hart (λ h, h <| h_noff := noff - 1 |>) ;;;
      let* intena := get_hart h_intena in
      when ((noff - 1 =? 0) && intena) intr_on.

Definition holding (lk : lockid) : K F bool := get_hart (λ h, bool_decide (lk ∈ h_held h)).

Definition acquire (lk : lockid) : K F unit :=
  push_off ;;;
  let* h := holding lk in
  if h then panic "acquire"
  else set_hart (λ h, h <| h_held ::= cons lk |>).

Definition release (lk : lockid) : K F unit :=
  let* h := holding lk in
  if negb h then panic "release"
  else
    set_hart (λ h, h <| h_held ::= filter (.≠ lk) |>) ;;;
    pop_off.

(** ** What they do to the hart *)

Record hart_ok (h : hart) : Prop := {
  hart_noff : h_noff h = Z.of_nat (length (h_held h));
  hart_nodup : NoDup (h_held h);
  hart_off : h_held h ≠ [] → h_intr h = false
}.

(** the hart inside the critical section of [lk] *)
Definition locked (lk : lockid) (h : hart) : hart :=
  mkHart (h_proc h) (h_thread h) (h_noff h + 1)
    (if h_noff h =? 0 then h_intr h else h_intena h) false (lk :: h_held h).

(** the hart after a balanced use of locks: [intena] may have been set *)
Definition settle (h : hart) : hart :=
  if h_noff h =? 0 then h <| h_intena := h_intr h |> else h.

(** the hart after the release of [lk] *)
Definition unlocked (lk : lockid) (h : hart) : hart :=
  mkHart (h_proc h) (h_thread h) (h_noff h - 1) (h_intena h)
    (if (h_noff h - 1 =? 0) && h_intena h then true else h_intr h) (filter (.≠ lk) (h_held h)).

Lemma hart_eta h :
  mkHart (h_proc h) (h_thread h) (h_noff h) (h_intena h) (h_intr h) (h_held h) = h.
Proof. by destruct h. Qed.

Lemma set_hart_id (s : kstate F) f : f (k_hart s) = k_hart s → s <| k_hart ::= f |> = s.
Proof. destruct s. unset. simpl. by intros ->. Qed.

Lemma acquire_ok lk s :
  lk ∉ h_held (k_hart s) → acquire lk s = Ok tt (s <| k_hart ::= locked lk |>).
Proof.
  intros Hn. unfold acquire, push_off, intr_get, intr_off, holding, get_hart, set_hart, when, bind,
    gets, modify, ret, locked. unset. simpl.
  destruct (Z.eqb_spec (h_noff (k_hart s)) 0) as [->|Hne]; simpl;
    rewrite bool_decide_false by done; simpl; [done|]. by rewrite (Z.add_comm 1).
Qed.

Lemma acquire_held lk s : lk ∈ h_held (k_hart s) → acquire lk s = Panic "acquire".
Proof.
  intros Hn. unfold acquire, push_off, intr_get, intr_off, holding, get_hart, set_hart, when, bind,
    gets, modify, ret. unset. simpl.
  by destruct (Z.eqb_spec (h_noff (k_hart s)) 0); simpl; rewrite bool_decide_true by done.
Qed.

Lemma release_ok lk s :
  lk ∈ h_held (k_hart s) → hart_ok (k_hart s) → release lk s = Ok tt (s <| k_hart ::= unlocked lk |>).
Proof.
  intros Hin [Hno Hnd Hoff].
  assert (Hl : (0 < length (h_held (k_hart s)))%nat) by (destruct (h_held (k_hart s)); [set_solver|simpl; lia]).
  unfold release, pop_off, intr_get, intr_on, holding, get_hart, set_hart, when, bind,
    gets, modify, ret, unlocked. unset. simpl.
  rewrite bool_decide_true by done. simpl.
  rewrite Hoff by (intros He; rewrite He in Hl; simpl in Hl; lia). simpl.
  rewrite (proj2 (Z.ltb_ge _ _)) by lia. simpl.
  by destruct ((h_noff (k_hart s) - 1 =? 0) && h_intena (k_hart s)).
Qed.

Lemma release_unheld lk s : lk ∉ h_held (k_hart s) → release lk s = Panic "release".
Proof.
  intros Hin. unfold release, holding, get_hart, bind, gets. simpl. by rewrite bool_decide_false.
Qed.

Lemma locked_ok lk h : hart_ok h → lk ∉ h_held h → hart_ok (locked lk h).
Proof.
  intros [Hno Hnd Hoff] Hn. constructor; simpl; [lia|by constructor|done].
Qed.

Lemma filter_notin lk (l : list lockid) : lk ∉ l → filter (.≠ lk) l = l.
Proof.
  induction l as [|a l IH]; intros Hn; [done|]. apply not_elem_of_cons in Hn as [Ha Hn].
  rewrite filter_cons_True by congruence. by rewrite IH.
Qed.

Lemma unlocked_ok lk h : hart_ok h → lk ∈ h_held h → hart_ok (unlocked lk h).
Proof.
  intros [Hno Hnd Hoff] Hin.
  assert (Hp : h_held h ≡ₚ lk :: filter (.≠ lk) (h_held h)).
  { apply NoDup_Permutation; [done| |].
    - apply NoDup_cons. split; [|by apply NoDup_filter]. rewrite list_elem_of_filter. tauto.
    - intros x. rewrite elem_of_cons, list_elem_of_filter. destruct (decide (x = lk)) as [->|]; tauto. }
  pose proof (Permutation_length Hp) as Hl. simpl in Hl.
  constructor; simpl; [lia|by apply NoDup_filter|].
  intros Hne. rewrite Hoff by (intros He; by rewrite He in Hne).
  destruct (filter (.≠ lk) (h_held h)); [done|]. simpl in Hl.
  by rewrite (proj2 (Z.eqb_neq _ _)) by lia.
Qed.

Lemma unlocked_locked lk h : hart_ok h → lk ∉ h_held h → unlocked lk (locked lk h) = settle h.
Proof.
  intros [Hno Hnd Hoff] Hn. unfold unlocked, locked, settle. unset. simpl.
  rewrite filter_cons_False, filter_notin by tauto.
  replace (h_noff h + 1 - 1) with (h_noff h) by lia.
  destruct (Z.eqb_spec (h_noff h) 0) as [E0|E0]; simpl.
  - by destruct (h_intr h).
  - rewrite <- (Hoff) at 1; [by destruct h|]. intros He. rewrite He in Hno. by apply E0.
Qed.

Lemma settle_ok h : hart_ok h → hart_ok (settle h).
Proof. intros [? ? ?]. unfold settle. case_if; by constructor. Qed.

Lemma settle_settle h : settle (settle h) = settle h.
Proof. unfold settle. destruct (h_noff h =? 0) eqn:E0; simpl; rewrite E0; [|done]. by destruct h. Qed.

Lemma locked_settle lk h : locked lk (settle h) = locked lk h.
Proof. unfold settle. destruct (h_noff h =? 0) eqn:E0; [|done]. unfold locked. simpl. by rewrite E0. Qed.

Lemma settle_locked lk h : hart_ok h → settle (locked lk h) = locked lk h.
Proof.
  intros [Hno _ _]. unfold settle, locked. simpl. by rewrite (proj2 (Z.eqb_neq _ _)) by lia.
Qed.

Lemma settle_held h : h_held (settle h) = h_held h.
Proof. unfold settle. by case_if. Qed.
Lemma settle_proc h : h_proc (settle h) = h_proc h.
Proof. unfold settle. by case_if. Qed.
Lemma settle_thread h : h_thread (settle h) = h_thread h.
Proof. unfold settle. by case_if. Qed.
Lemma settle_intr h : h_intr (settle h) = h_intr h.
Proof. unfold settle. by case_if. Qed.
Lemma settle_noff h : h_noff (settle h) = h_noff h.
Proof. unfold settle. by case_if. Qed.

Lemma locked_held lk h : h_held (locked lk h) = lk :: h_held h.
Proof. done. Qed.
Lemma locked_proc lk h : h_proc (locked lk h) = h_proc h.
Proof. done. Qed.
Lemma locked_thread lk h : h_thread (locked lk h) = h_thread h.
Proof. done. Qed.

(** the operations inside of a sequence *)
Section Bind.
Context {A : Type} (k : unit → K F A) (m : machine) (ps : list proc) (ip : option nat) (np nt : Z) (bs : list bsem)
  (h : hart) (tk : Z) (fi : bool) (fs : F).

Lemma bind_acquire lk :
  lk ∉ h_held h → bind (acquire lk) k (mkKstate m ps ip np nt bs h tk fi fs) =
    k tt (mkKstate m ps ip np nt bs (locked lk h) tk fi fs).
Proof.
  intros Hn. by rewrite (bind_Ok _ _ _ _ _ (acquire_ok lk (mkKstate m ps ip np nt bs h tk fi fs) Hn)).
Qed.

Lemma release_locked lk :
  hart_ok h → lk ∉ h_held h → release lk (mkKstate m ps ip np nt bs (locked lk h) tk fi fs) =
    Ok tt (mkKstate m ps ip np nt bs (settle h) tk fi fs).
Proof.
  intros Hh Hn. rewrite release_ok; [|set_solver|by apply locked_ok].
  f_equal. kred. by rewrite unlocked_locked.
Qed.

Lemma bind_release lk :
  hart_ok h → lk ∉ h_held h → bind (release lk) k (mkKstate m ps ip np nt bs (locked lk h) tk fi fs) =
    k tt (mkKstate m ps ip np nt bs (settle h) tk fi fs).
Proof. intros Hh Hn. by rewrite (bind_Ok _ _ _ _ _ (release_locked lk Hh Hn)). Qed.
End Bind.

(** the hart [h], holding the locks [l] besides its own *)
Definition nest (h : hart) (l : list lockid) : hart :=
  mkHart (h_proc h) (h_thread h) (h_noff h + Z.of_nat (length l))
    (if h_noff h =? 0 then h_intr h else h_intena h)
    (if decide (l = []) then h_intr h else false) (l ++ h_held h).

Lemma nest_nil h : nest h [] = settle h.
Proof.
  unfold nest, settle. simpl. rewrite Z.add_0_r. unset. by destruct h; simpl; case_if.
Qed.

Lemma locked_nest lk h l : hart_ok h → locked lk (nest h l) = nest h (lk :: l).
Proof.
  intros [Hno Hnd Hoff]. unfold locked, nest. simpl. f_equal; [lia|].
  destruct l; simpl.
  - rewrite Z.add_0_r. by destruct (h_noff h =? 0).
  - by rewrite (proj2 (Z.eqb_neq (_ + _) 0)) by lia.
Qed.

Lemma unlocked_nest lk h l :
  hart_ok h → NoDup l → lk ∈ l → lk ∉ h_held h → unlocked lk (nest h l) = nest h (filter (.≠ lk) l).
Proof.
  intros Hok Hnd Hin Hn. assert (Hoff := hart_off _ Hok).
  assert (Hl : l ≡ₚ lk :: filter (.≠ lk) l).
  { apply NoDup_Permutation; [done| |].
    - apply NoDup_cons. split; [|by apply NoDup_filter]. rewrite list_elem_of_filter. tauto.
    - intros x. rewrite elem_of_cons, list_elem_of_filter. destruct (decide (x = lk)) as [->|]; tauto. }
  apply Permutation_length in Hl. simpl in Hl.
  unfold unlocked, nest. simpl. rewrite filter_app, (filter_notin lk (h_held h)) by done.
  rewrite (decide_False (P := l = [])) by (intros ->; set_solver).
  f_equal; [lia|]. pose proof (hart_noff _ Hok).
  destruct (filter (.≠ lk) l) as [|a l'] eqn:Ef; simpl in *.
  - replace (h_noff h + Z.of_nat (length l) - 1) with (h_noff h) by lia.
    destruct (Z.eqb_spec (h_noff h) 0) as [E0|E0]; simpl; [by destruct (h_intr h)|].
    symmetry. apply Hoff. intros He. rewrite He in *. simpl in *. lia.
  - by rewrite (proj2 (Z.eqb_neq _ _)) by lia.
Qed.

Lemma nest_ok h l : hart_ok h → NoDup (l ++ h_held h) → hart_ok (nest h l).
Proof.
  intros [Hno Hnd Hoff] Hnd'. constructor; simpl; [rewrite length_app; lia|done|].
  intros Hne. case_if; [|done]. subst. by apply Hoff.
Qed.

Lemma acquire_all ls : ∀ l h (s : kstate F),
  hart_ok h → k_hart s = nest h l → NoDup (ls ++ l ++ h_held h) →
  for_each ls acquire s = Ok tt (s <| k_hart := nest h (rev ls ++ l) |>).
Proof.
  induction ls as [|lk ls IH]; intros l h s Hok Hs Hnd; simpl.
  { by rewrite set_hart_id. }
  apply NoDup_cons in Hnd as [Hn Hnd].
  rewrite (bind_Ok _ _ _ _ _ (acquire_ok lk s ltac:(rewrite Hs; simpl; rewrite elem_of_app in *; set_solver))).
  rewrite (IH (lk :: l) h).
  - by rewrite <- app_assoc.
  - done.
  - change (locked lk (k_hart s) = nest h (lk :: l)). rewrite Hs. by apply locked_nest.
  - simpl. rewrite <- Permutation_middle. by apply NoDup_cons.
Qed.

Lemma release_all rs : ∀ l h (s : kstate F),
  hart_ok h → k_hart s = nest h l → rs ≡ₚ l → NoDup (l ++ h_held h) →
  for_each rs release s = Ok tt (s <| k_hart := settle h |>).
Proof.
  induction rs as [|lk rs IH]; intros l h s Hok Hs Hp Hnd; simpl.
  { symmetry in Hp; apply Permutation_nil_r in Hp as ->. rewrite nest_nil in Hs. by rewrite set_hart_id. }
  assert (Hin : lk ∈ l) by (rewrite <- Hp; set_solver).
  assert (Hnl : lk ∉ h_held h) by (apply NoDup_app in Hnd as (_ & Hd & _); by apply Hd).
  rewrite (bind_Ok _ _ _ _ _ (release_ok lk s ltac:(rewrite Hs; simpl; set_solver)
    ltac:(rewrite Hs; by apply nest_ok))).
  assert (Hl : NoDup l) by (by apply NoDup_app in Hnd as [? _]).
  rewrite (IH (filter (.≠ lk) l) h).
  - done.
  - done.
  - change (unlocked lk (k_hart s) = nest h (filter (.≠ lk) l)). rewrite Hs. by apply unlocked_nest.
  - rewrite <- Hp in Hl. apply NoDup_cons in Hl as [Hr _].
    rewrite <- Hp, filter_cons_False, filter_notin by tauto. done.
  - apply NoDup_app in Hnd as (H1 & H2 & H3). apply NoDup_app. split_and!; [by apply NoDup_filter| |done].
    intros x [_ Hx]%list_elem_of_filter. by apply H2.
Qed.

(** C39: spinlocks nest.  A thread that acquires any number of different locks
    and releases them, in whatever order, does not panic and ends with the
    interrupt flag, the nesting counter and the set of held locks as they were
    before; nothing but [intena] of the hart has changed.  While it holds a
    lock, interrupts are off.  Acquiring a lock that is already held, or
    releasing one that is not, panics. *)
Theorem spinlocks_nest (ls rs : list lockid) (s : kstate F) :
  hart_ok (k_hart s) → NoDup (ls ++ h_held (k_hart s)) → rs ≡ₚ ls → ls ≠ [] →
  (∃ s1, for_each ls acquire s = Ok tt s1 ∧ h_intr (k_hart s1) = false ∧
    (∀ lk, lk ∈ ls → acquire lk s1 = Panic "acquire") ∧
    for_each rs release s1 = Ok tt (s <| k_hart := settle (k_hart s) |>)) ∧
  (∀ lk, lk ∈ ls → release lk s = Panic "release").
Proof.
  intros Hok Hnd Hp Hne. destruct ls as [|lk ls]; [done|]. clear Hne.
  assert (Hd : ∀ k, k ∈ lk :: ls → k ∉ h_held (k_hart s)) by (by apply NoDup_app in Hnd as (_ & ? & _)).
  split; [|intros k Hk; apply release_unheld; by apply Hd].
  set (h := k_hart s) in *.
  assert (Hl : for_each (lk :: ls) acquire s = Ok tt (s <| k_hart := nest h (rev ls ++ [lk]) |>)).
  { simpl. rewrite (bind_Ok _ _ _ _ _ (acquire_ok lk s ltac:(apply Hd; set_solver))).
    rewrite (acquire_all ls [lk] h); [done|done| |].
    - change (locked lk h = nest h [lk]). rewrite <- locked_nest, nest_nil by done. by rewrite locked_settle.
    - simpl. by rewrite <- Permutation_middle. }
  eexists. split; [exact Hl|]. split_and!.
  - unset. simpl. rewrite decide_False; [done|]. by destruct (rev ls).
  - intros k Hk. apply acquire_held. unset. simpl. rewrite <- Permutation_rev, !elem_of_app. set_solver.
  - rewrite (release_all rs (rev ls ++ [lk]) h); [done|done|done| |].
    + rewrite Hp. by rewrite <- Permutation_rev, (Permutation_app_comm _ [lk]).
    + by rewrite <- Permutation_rev, (Permutation_app_comm _ [lk]).
Qed.
End Spinlock.

#[export] Hint Resolve settle_ok locked_ok : xv6.
#[export] Hint Rewrite settle_held settle_proc settle_thread locked_held locked_proc locked_thread
  settle_settle locked_settle : hart.

(** side conditions on the hart: it is well formed, it does not hold a lock *)
Ltac unheld :=
  autorewrite with hart;
  repeat match goal with H : h_held ?h = [] |- context [h_held ?h] => rewrite H end;
  repeat (apply not_elem_of_cons; split);
  first [assumption | discriminate | congruence | apply not_elem_of_nil | set_solver].
Ltac hart :=
  repeat first [ assumption | apply settle_ok | apply locked_ok ];
  match goal with |- _ ∉ _ => unheld | _ => idtac end.
