(* ===== verification/Proc.v ===== *)
(** * Processes and threads (src/kernel/proc.c, allocation and life cycle)

    The functions that allocate and free process and thread slots, and
    [fork], [exit], [wait], [kill] and the scheduler, on the kernel state.
    [sched] is the only place where a thread gives up the hart: it raises the
    event [EvSched], and continues in whatever state the scheduler resumes it
    in.  What proc.c needs of the file system is the interface [FileSys]. *)

From S2P Require Import Prelude Mem Riscv Kalloc Vm Uvm Pagetable Kstate Spinlock.

Class FileSys (F : Type) := {
  filedup : Z → K F Z;           (* file.c *)
  fileclose : Z → K F unit;      (* file.c *)
  idup : Z → K F Z;              (* fs.c *)
  iput : Z → K F unit;           (* fs.c *)
  namei : list byte → K F Z;     (* fs.c *)
  fsinit : Z → K F unit;         (* fs.c *)
  begin_op : K F unit;           (* log.c *)
  end_op : K F unit              (* log.c *)
}.

Section Proc.
Context {F : Type} `{KernelSymbols}.

(** ** The running process and thread *)

Definition myproc : K F (option nat) :=
  push_off ;;;
  let* p := get_hart h_proc in
  pop_off ;;;
  ret p.

Definition mythread : K F (option (nat * nat)) :=
  push_off ;;;
  let* t := get_hart h_thread in
  pop_off ;;;
  ret t.

(** [myproc()] and [mythread()] where the result is dereferenced *)
Definition myproc' : K F nat :=
  let* p := myproc in match p with Some i => ret i | None => null_deref end.
Definition mythread' : K F (nat * nat) :=
  let* t := mythread in match t with Some ij => ret ij | None => null_deref end.

(** ** Identifiers *)

Definition allocpid : K F Z :=
  acquire LkPid ;;;
  let* pid := gets k_nextpid in
  modify (λ s, s <| k_nextpid := i32 (pid + 1) |>) ;;;
  release LkPid ;;;
  ret pid.

Definition alloctid : K F Z :=
  acquire LkTid ;;;
  let* tid := gets k_nexttid in
  modify (λ s, s <| k_nexttid := i32 (tid + 1) |>) ;;;
  release LkTid ;;;
  ret tid.

(** ** Freeing *)

Definition freethread (i j : nat) : K F unit :=
  let* t := gett i j in
  when (negb (t_backup t =? 0)) (mach (kfree (t_backup t))) ;;;
  sett i j (λ t, t <| t_backup := 0 |> <| t_id := 0 |> <| t_tproc := None |> <| t_chan := None |>
                   <| t_killed := 0 |> <| t_xstate := 0 |> <| t_state := UNUSED |>).

Definition freeproc_thread (i j : nat) : K F unit :=
  let* t := gett i j in
  when (bool_decide (t_state t ≠ UNUSED) && bool_decide (t_state t ≠ RUNNING))
    (sett i j (λ t, t <| t_trapframe := 0 |>) ;;;
     freethread i j).

Definition freeproc (i : nat) : K F unit :=
  for_each (seq 0 NTHREAD) (freeproc_thread i) ;;;
  let* p := getp i in
  when (negb (p_trapframe p =? 0)) (mach (kfree (p_trapframe p))) ;;;
  setp i (λ p, p <| p_trapframe := 0 |>) ;;;
  let* p := getp i in
  when (negb (p_pagetable p =? 0)) (mach (proc_freepagetable (p_pagetable p) (p_sz p))) ;;;
  setp i (λ p, p <| p_pagetable := 0 |> <| p_sz := 0 |> <| p_pid := 0 |> <| p_parent := None |>
                 <| p_name ::= <[O := x00]> |> <| p_chan := None |> <| p_killed := 0 |>
                 <| p_xstate := 0 |> <| p_state := UNUSED |>).

(** ** Allocating *)

(** the new thread's slot, or [None] with [p->lock] released *)
Definition allocthread (i : nat) : K F (option nat) :=
  let* p := getp i in
  match find_index (λ t, bool_decide (t_state t = UNUSED)) (p_threads p) with
  | None => release (LkProc i) ;;; ret None
  | Some j =>
      let* tid := alloctid in
      sett i j (λ t, t <| t_id := tid |> <| t_state := USED |> <| t_tproc := Some i |>) ;;;
      let* pa := mach kalloc in
      sett i j (λ t, t <| t_backup := pa |>) ;;;
      if pa =? 0 then
        freeproc i ;;;
        release (LkProc i) ;;;
        ret None
      else
        sett i j (λ t, t <| t_context := mkContext sym_forkret (t_kstack t + PGSIZE) (replicate 12 0) |>) ;;;
        ret (Some j)
  end.

Definition allocproc_scan (i : nat) : K F (option nat) :=
  acquire (LkProc i) ;;;
  let* p := getp i in
  if bool_decide (p_state p = UNUSED) then ret (Some i)
  else release (LkProc i) ;;; ret None.

(** [allocproc] from the label [found] on *)
Definition allocproc_found (i : nat) : K F (option (nat * nat)) :=
  let* pid := allocpid in
  setp i (λ p, p <| p_pid := pid |> <| p_state := USED |>) ;;;
  let* tf := mach kalloc in
  setp i (λ p, p <| p_trapframe := tf |>) ;;;
  if tf =? 0 then
    freeproc i ;;;
    release (LkProc i) ;;;
    ret None
  else
    for_each (seq 0 NTHREAD) (λ j, sett i j (λ t, t <| t_trapframe := tf + TF_SIZE * Z.of_nat j |>)) ;;;
    let* pagetable := mach (proc_pagetable tf) in
    setp i (λ p, p <| p_pagetable := pagetable |>) ;;;
    if pagetable =? 0 then
      freeproc i ;;;
      release (LkProc i) ;;;
      ret None
    else
      setp i (λ p, p <| p_signal_handlers := replicate 32 SIG_DFL |>
                     <| p_signal_handlers_mask := replicate 32 0 |>) ;;;
      let* t := allocthread i in
      match t with
      | None => freeproc i ;;; ret None
      | Some j => ret (Some (i, j))
      end.

Definition allocproc : K F (option (nat * nat)) :=
  let* found := for_until (seq 0 NPROC) allocproc_scan in
  match found with
  | None => ret None
  | Some i => allocproc_found i
  end.

(** [procinit], on the zero-initialised table; the locks start free *)
Definition procinit : K F unit :=
  for_each (seq 0 NPROC) (λ i,
    for_each (seq 0 NTHREAD) (λ j,
      sett i j (λ t, t <| t_kstack := KSTACK (Z.of_nat (NTHREAD * i + j)) |>)) ;;;
    setp i (λ p, p <| p_signal_handlers := replicate 32 SIG_DFL |>
                   <| p_signal_handlers_mask := replicate 32 0 |>
                   <| p_frozen := 0 |> <| p_signal_handling_flag := 0 |>)).

(** ** Memory of the running process *)

Definition growproc (n : Z) : K F Z :=
  let* i := myproc' in
  let* p := getp i in
  let sz := u32 (p_sz p) in
  let* sz' :=
    if 0 <? n then
      let* r := mach (uvmalloc (p_pagetable p) sz (u32 (sz + n))) in ret (u32 r)
    else if n <? 0 then
      let* r := mach (uvmdealloc (p_pagetable p) sz (u32 (sz + n))) in ret (u32 r)
    else ret sz in
  if (0 <? n) && (sz' =? 0) then ret (-1)
  else
    acquire (LkProc i) ;;;
    setp i (λ p, p <| p_sz := sz' |>) ;;;
    release (LkProc i) ;;;
    ret 0.

(** ** Giving up the hart *)

Definition sched : K F unit :=
  let* i := myproc' in
  let* '(ti, tj) := mythread' in
  let* h := holding (LkProc i) in
  if negb h then panic "sched p->lock"
  else
    let* noff := get_hart h_noff in
    if negb (noff =? 1) then panic "sched locks"
    else
      let* t := gett ti tj in
      if bool_decide (t_state t = RUNNING) then panic "sched running"
      else
        let* intr := intr_get in
        if intr then panic "sched interruptible"
        else
          let* intena := get_hart h_intena in
          emit EvSched ;;;
          set_hart (λ h, h <| h_intena := intena |>).

Definition yield : K F unit :=
  let* '(ti, tj) := mythread' in
  let* i := myproc' in
  acquire (LkProc i) ;;;
  sett ti tj (λ t, t <| t_state := RUNNABLE |>) ;;;
  sched ;;;
  release (LkProc i).

Definition sleep (ch : chan) (lk : lockid) : K F unit :=
  let* '(ti, tj) := mythread' in
  let* t := gett ti tj in
  match t_tproc t with
  | None => null_deref
  | Some i =>
      acquire (LkProc i) ;;;
      release lk ;;;
      sett ti tj (λ t, t <| t_chan := Some ch |> <| t_state := SLEEPING |>) ;;;
      sched ;;;
      sett ti tj (λ t, t <| t_chan := None |>) ;;;
      release (LkProc i) ;;;
      acquire lk
  end.

(** [None] is the null pointer *)
Definition wakeup (ch : option chan) : K F unit :=
  for_each (seq 0 NPROC) (λ i,
    acquire (LkProc i) ;;;
    for_each (seq 0 NTHREAD) (λ j,
      let* me := mythread in
      let* t := gett i j in
      when (bool_decide (me ≠ Some (i, j)) && bool_decide (t_state t = SLEEPING)
            && bool_decide (t_chan t = ch))
        (sett i j (λ t, t <| t_state := RUNNABLE |>))) ;;;
    release (LkProc i)).

(** one round of the scheduler over the process table *)
Definition scheduler_thread (i j : nat) : K F unit :=
  let* t := gett i j in
  when (bool_decide (t_state t = RUNNABLE))
    (sett i j (λ t, t <| t_state := RUNNING |>) ;;;
     set_hart (λ h, h <| h_thread := Some (i, j) |> <| h_proc := Some i |>) ;;;
     emit (EvRun i j) ;;;
     set_hart (λ h, h <| h_thread := None |> <| h_proc := None |>)).

Definition scheduler_round : K F unit :=
  intr_on ;;;
  for_each (seq 0 NPROC) (λ i,
    acquire (LkProc i) ;;;
    let* p := getp i in
    when (bool_decide (p_state p ≠ UNUSED))
      (for_each (seq 0 NTHREAD) (scheduler_thread i)) ;;;
    release (LkProc i)).

(** the first [n] rounds of [scheduler], which never returns *)
Fixpoint scheduler_rounds (n : nat) : K F unit :=
  match n with
  | O => ret tt
  | S n' => scheduler_round ;;; scheduler_rounds n'
  end.
Definition scheduler (n : nat) : K F unit :=
  set_hart (λ h, h <| h_proc := None |> <| h_thread := None |>) ;;;
  scheduler_rounds n.
End Proc.

(** ** The running process and thread *)

Section Running.
Context {F : Type}.

Lemma push_pop_off {A B} (g : hart → A) (k : A → K F B) (s : kstate F) :
  hart_ok (k_hart s) → (∀ h b n i, g (mkHart (h_proc h) (h_thread h) n b i (h_held h)) = g h) →
  bind push_off (λ _, bind (get_hart g) (λ a, bind pop_off (λ _, k a))) s =
  k (g (k_hart s)) (s <| k_hart ::= settle |>).
Proof.
  intros [Hno Hnd Hoff] Hg. destruct s as [m ps ip np nt bs h tk fi fs].
  unfold push_off, pop_off, intr_get, intr_off, intr_on, get_hart, set_hart, when, bind, gets, modify, ret, settle.
  unset. simpl in *.
  destruct (Z.eqb_spec (h_noff h) 0) as [E0|E0]; simpl.
  - rewrite E0. simpl. destruct (h_intr h) eqn:Ei; simpl; rewrite Hg; [by rewrite <- Ei|].
    by rewrite <- Ei.
  - rewrite (proj2 (Z.ltb_ge _ _)) by lia. simpl.
    replace (1 + h_noff h - 1) with (h_noff h) by lia. rewrite (proj2 (Z.eqb_neq _ _)) by lia. simpl.
    rewrite Hg. rewrite <- Hoff; [by rewrite hart_eta|]. intros He. rewrite He in Hno. done.
Qed.

Lemma myproc_ok (s : kstate F) :
  hart_ok (k_hart s) → myproc s = Ok (h_proc (k_hart s)) (s <| k_hart ::= settle |>).
Proof. intros Hh. exact (push_pop_off h_proc ret s Hh ltac:(done)). Qed.
Lemma mythread_ok (s : kstate F) :
  hart_ok (k_hart s) → mythread s = Ok (h_thread (k_hart s)) (s <| k_hart ::= settle |>).
Proof. intros Hh. exact (push_pop_off h_thread ret s Hh ltac:(done)). Qed.
Lemma myproc'_ok (s : kstate F) i :
  hart_ok (k_hart s) → h_proc (k_hart s) = Some i → myproc' s = Ok i (s <| k_hart ::= settle |>).
Proof. intros Hh Hi. unfold myproc'. by rewrite (bind_Ok _ _ _ _ _ (myproc_ok s Hh)), Hi. Qed.
Lemma mythread'_ok (s : kstate F) t :
  hart_ok (k_hart s) → h_thread (k_hart s) = Some t → mythread' s = Ok t (s <| k_hart ::= settle |>).
Proof. intros Hh Hi. unfold mythread'. by rewrite (bind_Ok _ _ _ _ _ (mythread_ok s Hh)), Hi. Qed.

Section Bind.
Context {A : Type} (m : machine) (ps : list proc) (ip : option nat) (np nt : Z) (bs : list bsem)
  (h : hart) (tk : Z) (fi : bool) (fs : F) (Hh : hart_ok h).

Lemma bind_myproc' (k : nat → K F A) i : h_proc h = Some i →
  bind myproc' k (mkKstate m ps ip np nt bs h tk fi fs) = k i (mkKstate m ps ip np nt bs (settle h) tk fi fs).
Proof.
  intros Hi. by rewrite (bind_Ok _ _ _ _ _ (myproc'_ok (mkKstate m ps ip np nt bs h tk fi fs) i Hh Hi)).
Qed.
Lemma bind_mythread' (k : nat * nat → K F A) t : h_thread h = Some t →
  bind mythread' k (mkKstate m ps ip np nt bs h tk fi fs) = k t (mkKstate m ps ip np nt bs (settle h) tk fi fs).
Proof.
  intros Hi. by rewrite (bind_Ok _ _ _ _ _ (mythread'_ok (mkKstate m ps ip np nt bs h tk fi fs) t Hh Hi)).
Qed.
End Bind.

Lemma allocpid_ok m ps ip np nt bs h tk fi (fs : F) :
  hart_ok h → LkPid ∉ h_held h → allocpid (mkKstate m ps ip np nt bs h tk fi fs) =
    Ok np (mkKstate m ps ip (i32 (np + 1)) nt bs (settle h) tk fi fs).
Proof. intros Hh Hn. unfold allocpid. rewrite bind_acquire by done. krun. by rewrite bind_release. Qed.
Lemma alloctid_ok m ps ip np nt bs h tk fi (fs : F) :
  hart_ok h → LkTid ∉ h_held h → alloctid (mkKstate m ps ip np nt bs h tk fi fs) =
    Ok nt (mkKstate m ps ip np (i32 (nt + 1)) bs (settle h) tk fi fs).
Proof. intros Hh Hn. unfold alloctid. rewrite bind_acquire by done. krun. by rewrite bind_release. Qed.
Lemma bind_allocpid {A} (k : Z → K F A) m ps ip np nt bs h tk fi (fs : F) :
  hart_ok h → LkPid ∉ h_held h → bind allocpid k (mkKstate m ps ip np nt bs h tk fi fs) =
    k np (mkKstate m ps ip (i32 (np + 1)) nt bs (settle h) tk fi fs).
Proof. intros. by rewrite (bind_Ok _ _ _ _ _ (allocpid_ok m ps ip np nt bs h tk fi fs ltac:(done) ltac:(done))). Qed.
Lemma bind_alloctid {A} (k : Z → K F A) m ps ip np nt bs h tk fi (fs : F) :
  hart_ok h → LkTid ∉ h_held h → bind alloctid k (mkKstate m ps ip np nt bs h tk fi fs) =
    k nt (mkKstate m ps ip np (i32 (nt + 1)) bs (settle h) tk fi fs).
Proof. intros. by rewrite (bind_Ok _ _ _ _ _ (alloctid_ok m ps ip np nt bs h tk fi fs ltac:(done) ltac:(done))). Qed.
End Running.

(** ** The tables *)

Definition shaped (ps : list proc) : Prop :=
  length ps = NPROC ∧ ∀ i p, ps !! i = Some p → length (p_threads p) = NTHREAD.

Lemma shaped_lookup ps i : shaped ps → (i < NPROC)%nat → ps !! i = Some (ps !!! i) ∧ length (p_threads (ps !!! i)) = NTHREAD.
Proof.
  intros [Hl Ht] Hi. assert (Hs : ps !! i = Some (ps !!! i)) by (apply list_lookup_lookup_total_lt; lia).
  split; [done|]. by apply (Ht i).
Qed.

Lemma shaped_alter ps f i :
  (∀ p, length (p_threads (f p)) = length (p_threads p)) → shaped ps → shaped (alter f i ps).
Proof.
  intros Hf [Hl Ht]. split; [by rewrite length_alter|]. intros j p. destruct (decide (i = j)) as [->|Hne].
  - rewrite list_lookup_alter_eq. intros (q & Hq & ->)%fmap_Some. rewrite Hf. by apply (Ht j).
  - rewrite list_lookup_alter_ne by done. apply Ht.
Qed.

Lemma shaped_insert ps i p : shaped ps → length (p_threads p) = NTHREAD → shaped (<[i := p]> ps).
Proof.
  intros [Hl Ht] Hp. split; [by rewrite length_insert|]. intros j q.
  destruct (decide (j = i)) as [->|Hne]; [|rewrite list_lookup_insert_ne by done; apply Ht].
  intros Hq. assert (Hi := lookup_lt_Some _ _ _ Hq). rewrite length_insert in Hi.
  rewrite list_lookup_insert_eq in Hq by done. by injection Hq as <-.
Qed.

Lemma shaped_imap ps f :
  (∀ i p, length (p_threads (f i p)) = length (p_threads p)) → shaped ps → shaped (imap f ps).
Proof.
  intros Hf [Hl Ht]. split; [by rewrite length_imap|]. intros j p.
  rewrite list_lookup_imap. intros (q & Hq & ->)%fmap_Some. rewrite Hf. by apply (Ht j).
Qed.

Lemma shaped_upto ps f n :
  (∀ i p, length (p_threads (f i p)) = length (p_threads p)) → shaped ps → shaped (upto n f ps).
Proof. intros Hf. apply shaped_imap. intros. by case_if. Qed.

Lemma alter_alter_same {A} (f g : A → A) i (l : list A) : alter f i (alter g i l) = alter (f ∘ g) i l.
Proof.
  apply list_eq. intros j. destruct (decide (i = j)) as [->|Hne].
  - rewrite !list_lookup_alter_eq. by destruct (l !! j).
  - by rewrite !list_lookup_alter_ne.
Qed.

Section Loops.
Context {F : Type}.

(** a loop that updates every thread of process [i] *)
Lemma for_threads (i : nat) (f : nat → thread → thread) (body : nat → K F unit) (s : kstate F) :
  shaped (k_proc s) → (i < NPROC)%nat →
  (∀ j s', (j < NTHREAD)%nat → shaped (k_proc s') → k_hart s' = k_hart s → body j s' = sett i j (f j) s') →
  for_each (seq 0 NTHREAD) body s = Ok tt (s <| k_proc ::= alter (λ p, p <| p_threads ::= imap f |>) i |>).
Proof.
  intros Hs Hi Hb.
  set (st k := s <| k_proc ::= alter (λ p, p <| p_threads ::= upto k f |>) i |>).
  assert (H0 : s = st O).
  { unfold st. destruct s as [m ps ip np nt bs h tk fi fs]. kred. f_equal. symmetry. apply list_eq. intros k.
    destruct (decide (i = k)) as [->|]; [|by rewrite list_lookup_alter_ne].
    rewrite list_lookup_alter_eq. destruct (ps !! k) as [[]|]; simpl; unset; [|done]. by rewrite upto_0. }
  rewrite H0 at 1. rewrite (for_each_seq _ st).
  - f_equal. unfold st. destruct s as [m ps ip np nt bs h tk fi fs]. kred. f_equal. simpl in Hs.
    destruct (shaped_lookup ps i Hs Hi) as [Hp Hlen]. apply list_eq. intros k.
    destruct (decide (i = k)) as [->|]; [|by rewrite !list_lookup_alter_ne].
    rewrite !list_lookup_alter_eq, Hp. simpl. unset. by rewrite upto_all by (rewrite Hlen; done).
  - intros k Hk. rewrite Hb; [|lia| |done].
    + unfold st, sett, setp, modify. destruct s as [m ps ip np nt bs h tk fi fs]. kred. do 2 f_equal.
      rewrite alter_alter_same. apply list_alter_ext; [|done]. intros p _. simpl. unset. simpl. by rewrite upto_S.
    + unfold st. destruct s as [m ps ip np nt bs h tk fi fs]. kred. apply shaped_alter; [|done].
      intros p. simpl. unset. simpl. apply length_upto.
Qed.
End Loops.

(** locks in the process table that the hart does not hold *)
Definition no_proc_lock (h : hart) : Prop := ∀ i, LkProc i ∉ h_held h.

Section LockedLoops.
Context {F : Type}.

(** a critical section *)
Lemma critical lk (body : K F unit) (g : kstate F → kstate F) s :
  hart_ok (k_hart s) → lk ∉ h_held (k_hart s) →
  body (s <| k_hart ::= locked lk |>) = Ok tt ((g s) <| k_hart := locked lk (k_hart s) |>) →
  (acquire lk ;;; body ;;; release lk) s = Ok tt ((g s) <| k_hart := settle (k_hart s) |>).
Proof.
  intros Hh Hn Hb. rewrite (bind_Ok _ _ _ _ _ (acquire_ok lk s Hn)), (bind_Ok _ _ _ _ _ Hb).
  rewrite release_ok.
  - f_equal. destruct (g s) as [m ps ip np nt bs h tk fi fs]. kred. f_equal. by apply unlocked_locked.
  - destruct (g s). kred. simpl. set_solver.
  - destruct (g s). kred. by apply locked_ok.
Qed.

(** a loop that updates every process *)
Lemma for_procs (f : nat → proc → proc) (body : nat → K F unit) (s : kstate F) :
  shaped (k_proc s) → (∀ i p, length (p_threads (f i p)) = length (p_threads p)) →
  (∀ i s', (i < NPROC)%nat → shaped (k_proc s') → settle (k_hart s') = settle (k_hart s) →
    body i s' = Ok tt (s' <| k_proc ::= alter (f i) i |> <| k_hart ::= settle |>)) →
  for_each (seq 0 NPROC) body s = Ok tt (s <| k_proc ::= imap f |> <| k_hart ::= settle |>).
Proof.
  intros Hs Hf Hb. destruct s as [m ps ip np nt bs h tk fi fs]. kred.
  destruct (for_each_inv body (λ k s', ∃ h', s' = mkKstate m (upto k f ps) ip np nt bs h' tk fi fs ∧
    settle h' = settle h ∧ (k ≠ O → h' = settle h)) NPROC 0 (mkKstate m ps ip np nt bs h tk fi fs)) as (s' & -> & h' & -> & Hh & Hk).
  - exists h. by rewrite upto_0.
  - intros k s' Hk (h' & -> & Hh & _). simpl in Hs. eexists. split.
    + apply Hb; [lia| |done]. by apply shaped_upto.
    + exists (settle h'). kred. rewrite upto_S, settle_settle. by rewrite Hh.
  - destruct Hs as [Hl _]. simpl in Hl. rewrite upto_all by lia. by rewrite Hk.
Qed.
End LockedLoops.

Section Cond.
Context {F : Type}.

(** a conditional update is an update by a conditional *)
Lemma setp_cond i (c : proc → bool) g (s : kstate F) :
  shaped (k_proc s) → (i < NPROC)%nat →
  when (c (k_proc s !!! i)) (setp i g) s = setp i (λ p, if c p then g p else p) s.
Proof.
  intros Hs Hi. destruct (shaped_lookup _ i Hs Hi) as [Hp _].
  destruct s as [m ps ip np nt bs h tk fi fs]. simpl in *. unfold when, setp, modify, ret.
  case_if; kred; do 2 f_equal; apply list_eq; intros k; (destruct (decide (i = k)) as [->|];
    [|by rewrite ?list_lookup_alter_ne]); by rewrite ?list_lookup_alter_eq, Hp; simpl; rewrite E.
Qed.

Lemma sett_cond i j (c : thread → bool) g (s : kstate F) :
  shaped (k_proc s) → (i < NPROC)%nat → (j < NTHREAD)%nat →
  when (c (p_threads (k_proc s !!! i) !!! j)) (sett i j g) s = sett i j (λ t, if c t then g t else t) s.
Proof.
  intros Hs Hi Hj. destruct (shaped_lookup _ i Hs Hi) as [Hp Hlen].
  unfold sett. rewrite (setp_cond i (λ p, c (p_threads p !!! j))) by done.
  unfold setp, modify. f_equal. destruct s as [m ps ip np nt bs h tk fi fs]. simpl in *. kred. f_equal.
  apply list_alter_ext; [|done]. intros p Hp'. rewrite Hp in Hp'. injection Hp' as <-.
  destruct (ps !!! i) as [? ? ? ? ? ? ? ? ? ? ? ? ? ? ? ? ? ? ? ts]. unset. simpl in *.
  assert (Ht : ts !! j = Some (ts !!! j)) by (apply list_lookup_lookup_total_lt; lia).
  assert (Ha : alter (λ t, if c t then g t else t) j ts = if c (ts !!! j) then alter g j ts else ts).
  { apply list_eq. intros k. destruct (decide (j = k)) as [->|Hne].
    - rewrite list_lookup_alter_eq, Ht. simpl. case_if; [by rewrite list_lookup_alter_eq, Ht|done].
    - rewrite list_lookup_alter_ne by done. case_if; [by rewrite list_lookup_alter_ne|done]. }
  rewrite Ha. by case_if.
Qed.
End Cond.

Section LockScan.
Context {F B : Type} (c : proc → bool) (found : nat → K F (option B)).
Context (m : machine) (ps : list proc) (ip : option nat) (np nt : Z) (bs : list bsem)
  (h : hart) (tk : Z) (fi : bool) (fs : F).

(** a scan of the process table that looks at each slot under its lock *)
Definition lock_scan (i : nat) : K F (option B) :=
  acquire (LkProc i) ;;;
  let* p := getp i in
  if c p then found i
  else release (LkProc i) ;;; ret None.

Context (Hh : hart_ok h) (Hheld : h_held h = []) (Hl : length ps = NPROC).

Lemma lock_scan_step i h0 :
  settle h0 = settle h → hart_ok h0 → h_held h0 = [] → (i < NPROC)%nat →
  lock_scan i (mkKstate m ps ip np nt bs h0 tk fi fs) =
    if c (ps !!! i) then found i (mkKstate m ps ip np nt bs (locked (LkProc i) h) tk fi fs)
    else Ok None (mkKstate m ps ip np nt bs (settle h) tk fi fs).
Proof.
  intros He Hh0 Hn Hi. unfold lock_scan. rewrite bind_acquire by (rewrite Hn; set_solver). krun.
  rewrite <- (locked_settle _ h0), He, locked_settle.
  case_if; [done|]. by rewrite bind_release by hart.
Qed.

(** it stops at the first slot that passes the test, with its lock *)
Lemma lock_scan_ok b s' :
  (∀ i, find_index c ps = Some i →
    found i (mkKstate m ps ip np nt bs (locked (LkProc i) h) tk fi fs) = Ok (Some b) s') →
  for_until (seq 0 NPROC) lock_scan (mkKstate m ps ip np nt bs h tk fi fs) =
    if find_index c ps then Ok (Some b) s' else Ok None (mkKstate m ps ip np nt bs (settle h) tk fi fs).
Proof.
  intros Hfound.
  set (st k := mkKstate m ps ip np nt bs (if decide (k = O) then h else settle h) tk fi fs).
  assert (Hst : ∀ k, (k < NPROC)%nat → lock_scan k (st k) =
    if c (ps !!! k) then found k (mkKstate m ps ip np nt bs (locked (LkProc k) h) tk fi fs) else Ok None (st (S k))).
  { intros k Hk. unfold st. rewrite lock_scan_step; [|case_if; by rewrite ?settle_settle|case_if; auto with xv6
      |case_if; by rewrite ?settle_held|lia]. by rewrite (decide_False (P := S k = O)) by lia. }
  change (mkKstate m ps ip np nt bs h tk fi fs) with (st O).
  destruct (find_index c ps) as [i|] eqn:Hf.
  - assert (Hf' := Hf). apply find_index_Some in Hf' as [(p & Hp & Hu) Hlt].
    assert (Hi : (i < NPROC)%nat) by (rewrite <- Hl; by eapply lookup_lt_Some).
    apply (for_until_seq _ st _ _ i); [lia| |].
    + intros k Hk. rewrite Hst by lia.
      by rewrite (Hlt k (ps !!! k)) by (lia || apply list_lookup_lookup_total_lt; lia).
    + rewrite Hst by done. rewrite (list_lookup_total_correct _ _ _ Hp), Hu. by apply Hfound.
  - rewrite (for_until_none _ st); [done|]. intros k Hk. rewrite Hst by lia.
    by rewrite (proj1 (find_index_None _ _) Hf k) by (apply list_lookup_lookup_total_lt; lia).
Qed.
End LockScan.

(** ** wakeup *)

Definition wake_thread (me : option (nat * nat)) (ch : option chan) (i j : nat) (t : thread) : thread :=
  if bool_decide (me ≠ Some (i, j)) && bool_decide (t_state t = SLEEPING) && bool_decide (t_chan t = ch)
  then t <| t_state := RUNNABLE |> else t.
Definition wake_proc (me : option (nat * nat)) (ch : option chan) (i : nat) (p : proc) : proc :=
  p <| p_threads ::= imap (wake_thread me ch i) |>.

Lemma wake_proc_threads me ch i p : length (p_threads (wake_proc me ch i p)) = length (p_threads p).
Proof. unfold wake_proc. unset. simpl. apply length_imap. Qed.

Section Wakeup.
Context {F : Type}.

Lemma wakeup_ok ch (s : kstate F) :
  hart_ok (k_hart s) → no_proc_lock (k_hart s) → shaped (k_proc s) →
  wakeup ch s = Ok tt (s <| k_proc ::= imap (wake_proc (h_thread (k_hart s)) ch) |> <| k_hart ::= settle |>).
Proof.
  intros Hh Hn Hs. apply for_procs; [done|apply wake_proc_threads|]. intros i s' Hi Hs' Hh'.
  assert (Hok : hart_ok (k_hart s')).
  { apply settle_ok in Hh. rewrite <- Hh' in Hh. unfold settle in Hh. case_if_in Hh; [|done].
    destruct Hh as [? ? ?]. by constructor. }
  assert (Hth : h_thread (k_hart s') = h_thread (k_hart s)) by (by rewrite <- settle_thread, Hh', settle_thread).
  assert (Hni : LkProc i ∉ h_held (k_hart s')) by (by rewrite <- settle_held, Hh', settle_held).
  rewrite (critical (LkProc i) _ (λ s', s' <| k_proc ::= alter (wake_proc (h_thread (k_hart s)) ch i) i |>)).
  { by destruct s'. }
  - done.
  - done.
  - rewrite (for_threads i (wake_thread (h_thread (k_hart s)) ch i)).
    + by destruct s'.
    + by destruct s'.
    + done.
    + intros j s2 Hj Hs2 Hh2. assert (hart_ok (k_hart s2)) by (rewrite Hh2; by apply locked_ok).
      rewrite (bind_Ok _ _ _ _ _ (mythread_ok s2 ltac:(done))).
      rewrite (eq_trans (f_equal h_thread Hh2) Hth : h_thread (k_hart s2) = h_thread (k_hart s)).
      assert (settle (k_hart s2) = k_hart s2) as Hset by (rewrite Hh2; by apply settle_locked).
      rewrite (set_hart_id s2 settle Hset). krun.
      exact (sett_cond i j (λ t, bool_decide (h_thread (k_hart s) ≠ Some (i, j)) &&
        bool_decide (t_state t = SLEEPING) && bool_decide (t_chan t = ch)) _ s2 Hs2 Hi Hj).
Qed.
End Wakeup.
