(* ===== verification/Sched.v ===== *)
(** * Giving up the hart (src/kernel/proc.c: sched, yield, sleep, scheduler)

    A thread gives up the hart in [sched], with its process lock held and no
    other, and the scheduler hands it back in the same way. *)

From S2P Require Import Prelude Mem Riscv Kalloc Vm Uvm Pagetable Kstate Spinlock Proc.

(** the hart of a thread that runs without spinlocks *)
Record running_on (h : hart) (i ti tj : nat) : Prop := {
  ro_ok : hart_ok h;
  ro_held : h_held h = [];
  ro_proc : h_proc h = Some i;
  ro_thread : h_thread h = Some (ti, tj)
}.

Section Sched.
Context {F : Type}.

Lemma unlocked_swap lk lk' h :
  hart_ok h → h_held h = [] → lk ≠ lk' → unlocked lk (locked lk' (locked lk h)) = locked lk' h.
Proof.
  intros Hh Hn Hne.
  assert (H1 : ∀ l, locked l h = nest h [l]) by (intros l; by rewrite <- (locked_settle l h), <- nest_nil, locked_nest).
  rewrite (H1 lk), locked_nest, (H1 lk') by done. rewrite unlocked_nest; [|done|repeat constructor; set_solver|set_solver|by rewrite Hn; set_solver].
  f_equal. rewrite filter_cons_True, filter_cons_False by (done || tauto). by rewrite filter_nil.
Qed.

Lemma sched_ok i ti tj m ps ip np nt bs h tk fi (fs : F) :
  running_on h i ti tj → t_state (p_threads (ps !!! ti) !!! tj) ≠ RUNNING →
  sched (mkKstate m ps ip np nt bs (locked (LkProc i) h) tk fi fs) =
    Event EvSched (mkKstate m ps ip np nt bs (locked (LkProc i) h) tk fi fs)
      (λ s', Ok tt (s' <| k_hart ::= λ h', h' <| h_intena := h_intr h |> |>)).
Proof.
  intros [Hh Hheld Hp Ht] Hst. unfold sched.
  assert (Hn : h_noff h = 0) by (rewrite (hart_noff _ Hh), Hheld; done).
  assert (Hl : hart_ok (locked (LkProc i) h)) by hart.
  rewrite (bind_myproc' _ _ _ _ _ _ _ _ _ _ Hl _ i) by done. rewrite settle_locked by done.
  rewrite (bind_mythread' _ _ _ _ _ _ _ _ _ _ Hl _ (ti, tj)) by done. rewrite settle_locked by done.
  unfold holding, get_hart, intr_get, get_hart. krun. rewrite bool_decide_true by (rewrite locked_held; set_solver).
  cbn [negb]. krun. change (h_noff (locked (LkProc i) h)) with (h_noff h + 1). rewrite Hn.
  change (0 + 1 =? 1) with true. cbn [negb]. krun. rewrite bool_decide_false by done. krun.
  change (h_intr (locked (LkProc i) h)) with false. cbv iota. krun.
  unfold emit, bind, set_hart, modify. simpl. by rewrite Hn.
Qed.

Lemma bind_Event {E S A B} (op : M E S A) (f : A → M E S B) s e s1 k :
  op s = Event e s1 k → bind op f s = Event e s1 (λ s', run_bind (k s') f).
Proof. intros Hop. unfold bind. by rewrite Hop. Qed.

(** what a thread does when it is resumed in [sleep] *)
Definition sleep_resume (i ti tj : nat) (intena : bool) (lk : lockid) : K F unit :=
  set_hart (λ h, h <| h_intena := intena |>) ;;;
  sett ti tj (λ t, t <| t_chan := None |>) ;;;
  release (LkProc i) ;;;
  acquire lk.

Lemma sleep_ok ch lk i ti tj m ps ip np nt bs h tk fi (fs : F) :
  running_on h i ti tj → lk ≠ LkProc i → shaped ps → (ti < NPROC)%nat → (tj < NTHREAD)%nat →
  t_tproc (p_threads (ps !!! ti) !!! tj) = Some i →
  sleep ch lk (mkKstate m ps ip np nt bs (locked lk h) tk fi fs) =
    Event EvSched
      (mkKstate m (alter (λ p, p <| p_threads ::= alter (λ t, t <| t_chan := Some ch |> <| t_state := SLEEPING |>) tj |>) ti ps)
        ip np nt bs (locked (LkProc i) h) tk fi fs)
      (sleep_resume i ti tj (h_intr h) lk).
Proof.
  intros Hr Hne Hs Hti Htj Htp. assert (Hr' := Hr). destruct Hr' as [Hh Hheld Hp Ht]. unfold sleep.
  assert (Hl : hart_ok (locked lk h)) by hart.
  rewrite (bind_mythread' _ _ _ _ _ _ _ _ _ _ Hl _ (ti, tj)) by done. rewrite settle_locked by done.
  krun. rewrite Htp. rewrite bind_acquire by (rewrite locked_held, Hheld; set_solver).
  erewrite bind_Ok.
  2: { apply release_ok; kred; [rewrite !locked_held; set_solver|]. apply locked_ok; [hart|rewrite locked_held, Hheld; set_solver]. }
  kred. rewrite unlocked_swap by done. krun.
  destruct (shaped_lookup ps ti Hs Hti) as [Hpt Hlen].
  assert (not_running : t_state (p_threads (alter (λ p, p <| p_threads ::= alter (λ t,
      t <| t_chan := Some ch |> <| t_state := SLEEPING |>) tj |>) ti ps !!! ti) !!! tj) ≠ RUNNING).
  { rewrite lookup_total_alter, decide_True by (done || (apply lookup_lt_Some in Hpt; lia)).
    rproj. rewrite lookup_total_alter, decide_True by (done || lia). done. }
  rewrite (bind_Event _ _ _ _ _ _ (sched_ok i ti tj _ _ _ _ _ _ h _ _ _ Hr not_running)).
  done.
Qed.

(** thread [tj] of slot [ti] runs on the hart, on behalf of process [i] *)
Record thread_runs (s : kstate F) (i ti tj : nat) : Prop := {
  tr_run : running_on (k_hart s) i ti tj;
  tr_shaped : shaped (k_proc s);
  tr_slot : (ti < NPROC)%nat ∧ (tj < NTHREAD)%nat;
  tr_tproc : t_tproc (p_threads (k_proc s !!! ti) !!! tj) = Some i
}.

(** the state in which the scheduler resumes a thread that called [sched]:
    it runs on some hart, whose only lock is the thread's process lock *)
Definition resumed (i ti tj : nat) (s : kstate F) : Prop :=
  ∃ h, k_hart s = locked (LkProc i) h ∧ thread_runs (s <| k_hart := h |>) i ti tj.

Definition set_thread (ti tj : nat) (f : thread → thread) (ps : list proc) : list proc :=
  alter (λ p, p <| p_threads ::= alter f tj |>) ti ps.

Lemma set_thread_lookup ti tj f ps : shaped ps → (ti < NPROC)%nat → (tj < NTHREAD)%nat →
  p_threads (set_thread ti tj f ps !!! ti) !!! tj = f (p_threads (ps !!! ti) !!! tj).
Proof.
  intros Hs Hti Htj. destruct (shaped_lookup ps ti Hs Hti) as [Hpt Hlen]. unfold set_thread.
  rewrite lookup_total_alter, decide_True by (done || (apply lookup_lt_Some in Hpt; lia)).
  rproj. by rewrite lookup_total_alter, decide_True by (done || lia).
Qed.

Lemma set_thread_other ti tj f ps i j : (i, j) ≠ (ti, tj) →
  p_threads (set_thread ti tj f ps !!! i) !!! j = p_threads (ps !!! i) !!! j.
Proof.
  intros Hne. unfold set_thread. rewrite !(list_lookup_total_alt _ i). destruct (decide (ti = i)) as [->|].
  - rewrite list_lookup_alter_eq. destruct (ps !! i) as [p|]; [|done]. simpl. rproj.
    rewrite !list_lookup_total_alt, list_lookup_alter_ne by congruence. done.
  - by rewrite list_lookup_alter_ne.
Qed.

Lemma set_thread_shaped ti tj f ps : shaped ps → shaped (set_thread ti tj f ps).
Proof. apply shaped_alter. intros p. rproj. apply length_alter. Qed.

Lemma set_intena lk h b : h_noff h = 0 → (locked lk h) <| h_intena := b |> = locked lk (h <| h_intr := b |>).
Proof. intros Hn. unfold locked. unset. simpl. by rewrite Hn. Qed.

Lemma sleep_resume_ok i ti tj b lk (s : kstate F) :
  resumed i ti tj s → ∃ h, thread_runs (s <| k_proc ::= set_thread ti tj (λ t, t <| t_chan := None |>) |> <| k_hart := h |>) i ti tj ∧
    sleep_resume i ti tj b lk s =
      Ok tt (s <| k_proc ::= set_thread ti tj (λ t, t <| t_chan := None |>) |> <| k_hart := locked lk h |>).
Proof.
  intros (h & Eh & [[Hh Hheld Hp Ht] Hsh [Hti Htj] Htp]). destruct s as [m ps ip np nt bs h0 tk fi fs]. simpl in *. subst h0.
  assert (Hn : h_noff h = 0) by (rewrite (hart_noff _ Hh), Hheld; done).
  assert (Hb : hart_ok (h <| h_intr := b |>)).
  { destruct h as [? ? ? ? ? hl]. cbv [set_field set_h_intr] in *. simpl in *. subst. split; [done|constructor|done]. }
  exists (settle (h <| h_intr := b |>)). split.
  - split.
    + kred. split; [hart|by rewrite settle_held|by rewrite settle_proc|by rewrite settle_thread].
    + kred. by apply set_thread_shaped.
    + done.
    + kred. rewrite set_thread_lookup by done. done.
  - unfold sleep_resume, set_hart. krun. rewrite set_intena by done.
    rewrite bind_release by (done || (rproj; rewrite Hheld; set_solver)).
    rewrite acquire_ok; [done|]. kred. rewrite settle_held. rproj. rewrite Hheld. set_solver.
Qed.

(** [sleep] for a thread that runs, in terms of [resumed] *)
Lemma sleep_sleeps ch lk i ti tj (s : kstate F) :
  thread_runs s i ti tj → lk ≠ LkProc i →
  sleep ch lk (s <| k_hart ::= locked lk |>) =
    Event EvSched (s <| k_proc ::= set_thread ti tj (λ t, t <| t_chan := Some ch |> <| t_state := SLEEPING |>) |>
                     <| k_hart ::= locked (LkProc i) |>)
      (sleep_resume i ti tj (h_intr (k_hart s)) lk).
Proof.
  intros [Hr Hsh [Hti Htj] Htp] Hne. destruct s as [m ps ip np nt bs h tk fi fs]. simpl in *. kred.
  by apply sleep_ok.
Qed.

Lemma yield_yields (s : kstate F) i ti tj :
  thread_runs s i ti tj → ∃ k, yield s =
    Event EvSched (s <| k_proc ::= set_thread ti tj (λ t, t <| t_state := RUNNABLE |>) |> <| k_hart ::= locked (LkProc i) |>) k.
Proof.
  intros [Hr Hsh [Hti Htj] Htp]. assert (Hr' := Hr). destruct Hr' as [Hh Hheld Hp Ht].
  destruct s as [m ps ip np nt bs h tk fi fs]. simpl in *. unfold yield.
  rewrite (bind_mythread' _ _ _ _ _ _ _ _ _ _ Hh _ (ti, tj) Ht).
  rewrite (bind_myproc' _ _ _ _ _ _ _ _ _ _ (settle_ok h Hh) _ i) by (by rewrite settle_proc).
  rewrite settle_settle, bind_acquire by hart. rewrite locked_settle. krun.
  erewrite bind_Event; [|apply (sched_ok i ti tj); [done|]].
  - eexists. done.
  - change (t_state (p_threads (set_thread ti tj (λ t, t <| t_state := RUNNABLE |>) ps !!! ti) !!! tj) ≠ RUNNING).
    by rewrite set_thread_lookup.
Qed.

(** the running thread does not depend on [intena] *)
Lemma thread_runs_settle (s s' : kstate F) i ti tj :
  thread_runs s i ti tj → k_hart s' = settle (k_hart s) → shaped (k_proc s') →
  t_tproc (p_threads (k_proc s' !!! ti) !!! tj) = t_tproc (p_threads (k_proc s !!! ti) !!! tj) → thread_runs s' i ti tj.
Proof.
  intros [[Hh Hheld Hp Ht] Hsh Hsl Htp] Eh Hs Et. split; [split| |done|by rewrite Et].
  all: rewrite ?Eh, ?settle_held, ?settle_proc, ?settle_thread; auto with xv6.
Qed.

(** the thread table after [wakeup] *)
Lemma wake_lookup me ch ps i j : shaped ps → (i < NPROC)%nat → (j < NTHREAD)%nat →
  p_threads (imap (wake_proc me ch) ps !!! i) !!! j = wake_thread me ch i j (p_threads (ps !!! i) !!! j).
Proof.
  intros Hsh Hi Hj. destruct (shaped_lookup _ i Hsh Hi) as [Hpi Hlen].
  rewrite (list_lookup_total_correct _ _ (wake_proc me ch i (ps !!! i))) by (by rewrite list_lookup_imap, Hpi).
  unfold wake_proc. rproj. apply list_lookup_total_correct. rewrite list_lookup_imap.
  by rewrite list_lookup_lookup_total_lt by lia.
Qed.

(** no thread but [me] sleeps on [ch] *)
Definition none_sleeps (ch : chan) (me : nat * nat) (ps : list proc) : Prop :=
  ∀ i j, (i < NPROC)%nat → (j < NTHREAD)%nat → (i, j) ≠ me →
    let t := p_threads (ps !!! i) !!! j in ¬ (t_state t = SLEEPING ∧ t_chan t = Some ch).

Lemma wake_none_sleeps ch me ps : shaped ps → none_sleeps ch me (imap (wake_proc (Some me) (Some ch)) ps).
Proof.
  intros Hs i j Hi Hj Hne t [Hst Hch]. unfold t in *. rewrite wake_lookup in Hst, Hch by done. unfold wake_thread in *.
  case_match; [done|]. repeat case_bool_decide; simpl in *; naive_solver congruence.
Qed.

Lemma wake_runs ch (s : kstate F) i ti tj : thread_runs s i ti tj →
  thread_runs (s <| k_proc ::= imap (wake_proc (h_thread (k_hart s)) ch) |> <| k_hart ::= settle |>) i ti tj.
Proof.
  intros Hr. apply (thread_runs_settle _ _ i ti tj Hr); rproj; [done| |].
  - apply shaped_imap; [|apply Hr]. intros. apply wake_proc_threads.
  - rewrite wake_lookup by (apply Hr). unfold wake_thread. by case_match.
Qed.
End Sched.

(** ** A state in which a thread runs *)
Module Running.
Definition the_thread : thread := mkThread 1 RUNNING (Some O) 0 0 (mkContext 0 0 (replicate 12 0)) None 0 0 0.
Definition sleeper (ch : chan) : thread := the_thread <| t_state := SLEEPING |> <| t_chan := Some ch |>.
Definition the_proc (ts : list thread) : proc :=
  mkProc USED None 0 0 1 None 0 0 0 (replicate NOFILE 0) 0 (replicate 16 x00) 0 0 (replicate 32 0) (replicate 32 0) 0 0 0 ts.
Definition the_hart : hart := mkHart (Some O) (Some (O, O)) 0 false true [].
(** slot 0 runs its thread 0; its other threads, and all others, sleep on [ch] *)
Definition the_state (ch : chan) (bs : list bsem) : kstate unit :=
  mkKstate (mkMachine ∅ 0)
    (replicate NPROC (the_proc (the_thread :: replicate (pred NTHREAD) (sleeper ch)))) None 2 2 bs the_hart 0 true tt.

Lemma the_state_runs ch bs : thread_runs (the_state ch bs) 0 0 0.
Proof.
  split; [split; [split; [done|constructor|done]|done..]| |unfold NPROC, NTHREAD; lia|done].
  split; [done|]. by intros i p [-> _]%lookup_replicate.
Qed.
End Running.
