(* ===== verification/ProcMem.v ===== *)
(** * The memory of processes

    Which pages a slot of the process table owns: its trapframe page, the
    backup trapframes of its threads, its page tables and its user pages.
    [freeproc] returns exactly these to the allocator and [allocproc] takes
    them from it; the invariant [table_inv] of the whole table says that no
    page has two owners. *)

From S2P Require Import Prelude Mem Riscv Kalloc Vm Uvm Pagetable VmSpec Kstate Spinlock Proc.

(** ** Page pools *)

Section Pools.
Context `{KernelSymbols}.

#[export] Instance pool_step_proper :
  Proper (pointwise_relation Z iff ==> pointwise_relation Z iff ==> eq ==> eq ==> eq ==> eq ==> iff) pool_step.
Proof.
  assert (Himp : ∀ o1 o2 : Z → Prop, pointwise_relation Z iff o1 o2 → ∀ o1' o2' : Z → Prop,
    pointwise_relation Z iff o1' o2' → ∀ s f s' f', pool_step o1 o1' s f s' f' → pool_step o2 o2' s f s' f').
  { intros o1 o2 Ho o1' o2' Ho' s f s' f' [Hk Hp Hf]. constructor; [done|..].
    - intros p. by rewrite <- (Ho p), <- (Ho' p).
    - intros x Hx. apply Hf. intros p. rewrite (Ho p). apply Hx. }
  intros o1 o2 Ho o1' o2' Ho' s ? <- f ? <- s' ? <- f' ? <-.
  split; apply Himp; try done; intros p; symmetry; (apply Ho || apply Ho').
Qed.

Lemma pool_conv (o1 o2 o1' o2' : Z → Prop) s f s' f' :
  pool_step o1 o1' s f s' f' → (∀ q, o1 q ↔ o2 q) → (∀ q, o1' q ↔ o2' q) → pool_step o2 o2' s f s' f'.
Proof. intros Hs H1 H2. by rewrite <- (H1 : pointwise_relation Z iff o1 o2), <- (H2 : pointwise_relation Z iff o1' o2'). Qed.

Lemma pool_refl own s free : kmem_ok s free → pool_step own own s free s free.
Proof. by constructor. Qed.

(** pages beside those of a step keep their owner *)
Lemma pool_frame own own' (rest : Z → Prop) s free s' free' :
  pool_step own own' s free s' free' → (∀ q, rest q → q ∉ free ∧ ¬ own q) →
  pool_step (λ q, own q ∨ rest q) (λ q, own' q ∨ rest q) s free s' free' ∧
  (∀ q, rest q → q ∉ free' ∧ ¬ own' q).
Proof.
  intros [Hk Hp Hf] Hr. split.
  - constructor; [done|..].
    + intros p. specialize (Hp p). tauto.
    + intros x Hx. apply Hf. intros p Hp'. apply Hx. tauto.
  - intros q Hq. specialize (Hp q). specialize (Hr q Hq). tauto.
Qed.

(** and their contents *)
Lemma pool_bytes own own' s free s' free' q x :
  pool_step own own' s free s' free' → kmem_ok s free → (∀ p, own p → valid_page p) →
  valid_page q → q ∉ free → ¬ own q → in_page q x → ld8 (ram s') x = ld8 (ram s) x.
Proof.
  intros [Hk Hp Hf] Hk0 Hv Hq Hqf Hqo Hx. apply Hf. intros p Hp'.
  apply (in_page_disjoint q); [done| |by (intros ->; tauto)|done].
  destruct Hp'; [by apply (kmem_valid s free)|by apply Hv].
Qed.

Lemma kfree_step pa s free :
  kmem_ok s free → valid_page pa → pa ∉ free →
  ∃ s', kfree (E := Empty_set) pa s = Ok tt s' ∧ pool_step (λ q, q = pa) none s free s' (pa :: free).
Proof.
  intros Hk Hv Hn. destruct (kfree_ok (E := Empty_set) s pa free Hk Hv Hn) as (s' & Hs & Hk' & Hf).
  exists s'. split; [done|]. constructor; [done|..].
  - intros p. rewrite elem_of_cons. unfold none. tauto.
  - intros x Hx. apply Hf. apply Hx. by right.
Qed.

Lemma kalloc_step s free :
  kmem_ok s free →
  (free = [] ∧ kalloc (E := Empty_set) s = Ok 0 s) ∨
  (∃ p ps s', free = p :: ps ∧ kalloc (E := Empty_set) s = Ok p s' ∧ valid_page p ∧ p ≠ 0 ∧ p ∉ ps ∧
    pool_step none (λ q, q = p) s free s' ps).
Proof.
  intros Hk. assert (Ha := kalloc_ok (E := Empty_set) s free Hk). destruct free as [|p ps]; [by left|]. right.
  destruct Ha as (s' & Hs & Hk' & Hv & Hn & Hf). exists p, ps, s'. split_and!; try done.
  - unfold valid_page in Hv. lia.
  - constructor; [done|..].
    + intros q. rewrite elem_of_cons. unfold none. tauto.
    + intros x Hx. apply Hf. apply Hx. left. set_solver.
Qed.
End Pools.

(** ** The pages of a slot *)

Definition backup_at (ts : list thread) (j : nat) (q : Z) : Prop :=
  ∃ t, ts !! j = Some t ∧ t_backup t = q ∧ q ≠ 0.
Definition backups (ts : list thread) (q : Z) : Prop := ∃ j, backup_at ts j q.

Definition proc_pages (m : gmap Z byte) (p : proc) (q : Z) : Prop :=
  (p_trapframe p ≠ 0 ∧ q = p_trapframe p) ∨ backups (p_threads p) q ∨
  (p_pagetable p ≠ 0 ∧ owns m (p_pagetable p) q).

Section Slot.
Context `{KernelSymbols}.

(** a slot that may be freed: its pages are in use and different *)
Record freeable (m : gmap Z byte) (p : proc) (free : list Z) : Prop := {
  fr_tf : p_trapframe p ≠ 0 → valid_page (p_trapframe p) ∧ p_trapframe p ∉ free ∧
    ¬ backups (p_threads p) (p_trapframe p);
  fr_pt : p_pagetable p ≠ 0 → ∃ tf, utable m (p_pagetable p) (p_sz p) tf free;
  fr_backup j t : p_threads p !! j = Some t → t_backup t ≠ 0 →
    valid_page (t_backup t) ∧ t_backup t ∉ free ∧ t_state t ≠ UNUSED ∧ t_state t ≠ RUNNING;
  fr_inj j j' q : backup_at (p_threads p) j q → backup_at (p_threads p) j' q → j = j';
  fr_own q : p_pagetable p ≠ 0 → owns m (p_pagetable p) q →
    (p_trapframe p ≠ 0 → q ≠ p_trapframe p) ∧ ¬ backups (p_threads p) q
}.

(** what [freethread] and [freeproc] leave *)
Definition freed_thread (t : thread) : thread :=
  mkThread 0 UNUSED None (t_kstack t) (t_trapframe t) (t_context t) None 0 0 0.
Definition freeproc_thread_result (t : thread) : thread :=
  if bool_decide (t_state t ≠ UNUSED) && bool_decide (t_state t ≠ RUNNING)
  then freed_thread (t <| t_trapframe := 0 |>) else t.
Definition freed_proc (p : proc) : proc :=
  p <| p_threads ::= fmap freeproc_thread_result |> <| p_trapframe := 0 |>
    <| p_pagetable := 0 |> <| p_sz := 0 |> <| p_pid := 0 |> <| p_parent := None |>
    <| p_name ::= <[O := x00]> |> <| p_chan := None |> <| p_killed := 0 |>
    <| p_xstate := 0 |> <| p_state := UNUSED |>.

Lemma utable_frame m m' pt sz tf free free' :
  utable m pt sz tf free →
  (∀ p x, owns m pt p → in_page p x → ld8 m' x = ld8 m x) → (∀ p, owns m pt p → p ∉ free') →
  utable m' pt sz tf free' ∧ (∀ p, owns m' pt p ↔ owns m pt p) ∧
  (∀ va, 0 ≤ va < TRAPFRAME → uview m' pt va = uview m pt va).
Proof.
  intros [Has Hsz Hs Htr Htf] Hm Hf. destruct (aspace_frame m m' pt free free' Has Hm Hf) as (Has' & Ho & Hpte & Hv).
  split; [|done]. constructor; [done|done|by apply (sized_ext m)|by rewrite Hpte|by rewrite Hpte].
Qed.

(** a step on other pages leaves an address space alone *)
Lemma utable_pool own own' s free s' free' pt sz tf :
  pool_step own own' s free s' free' → kmem_ok s free → (∀ p, own p → valid_page p) →
  utable (ram s) pt sz tf free → (∀ q, owns (ram s) pt q → ¬ own q) →
  utable (ram s') pt sz tf free' ∧ (∀ p, owns (ram s') pt p ↔ owns (ram s) pt p) ∧
  (∀ va, 0 ≤ va < TRAPFRAME → uview (ram s') pt va = uview (ram s) pt va).
Proof.
  intros Hp Hk Hv Hu Hd. apply (utable_frame (ram s) _ _ _ _ free).
  - done.
  - intros q x Hq Hx. destruct (owns_page _ _ _ _ (ut_as _ _ _ _ _ Hu) Hq).
    apply (pool_bytes own own' s free s' free' q); auto.
  - intros q Hq Hf. destruct (owns_page _ _ _ _ (ut_as _ _ _ _ _ Hu) Hq).
    destruct (proj1 (ps_pool _ _ _ _ _ _ Hp q) (or_introl Hf)); [done|by apply (Hd q)].
Qed.

Lemma backups_upto_S (f : thread → thread) ts k t q :
  ts !! k = Some t → t_backup (f t) = 0 →
  backups (upto k (λ _, f) ts) q ↔ backups (upto (S k) (λ _, f) ts) q ∨ (t_backup t ≠ 0 ∧ q = t_backup t).
Proof.
  intros Ht H0. unfold backups, backup_at. setoid_rewrite lookup_upto. split.
  - intros (j & t' & Hj & Hq & Hq0). destruct (ts !! j) as [t1|] eqn:Ej; [|done]. simpl in Hj.
    destruct (decide (j = k)) as [->|Hne].
    + right. rewrite decide_False in Hj by lia. injection Hj as <-. rewrite Ht in Ej. injection Ej as <-. by subst.
    + left. exists j, t'. rewrite Ej. simpl. split_and!; [|done|done].
      by destruct (decide (j < k)%nat), (decide (j < S k)%nat); try lia.
  - intros [(j & t' & Hj & Hq & Hq0)|[Hb ->]].
    + destruct (ts !! j) as [t1|] eqn:Ej; [|done]. simpl in Hj.
      destruct (decide (j = k)) as [->|Hne].
      * exfalso. rewrite decide_True in Hj by lia. injection Hj as <-. rewrite Ht in Ej. injection Ej as <-. congruence.
      * exists j, t'. rewrite Ej. simpl. split_and!; [|done|done].
        by destruct (decide (j < k)%nat), (decide (j < S k)%nat); try lia.
    + exists k, t. rewrite Ht. simpl. by rewrite decide_False by lia.
Qed.

Lemma backups_upto_rest (f : thread → thread) ts k t q :
  (∀ j j' q, backup_at ts j q → backup_at ts j' q → j = j') → ts !! k = Some t → t_backup (f t) = 0 →
  (∀ t, t_backup (f t) = t_backup t ∨ t_backup (f t) = 0) →
  backups (upto (S k) (λ _, f) ts) q → backups ts q ∧ q ≠ t_backup t.
Proof.
  intros Hinj Ht H0 Hf (j & t' & Hj & Hq & Hq0). rewrite lookup_upto in Hj.
  destruct (ts !! j) as [t1|] eqn:Ej; [|done]. simpl in Hj.
  assert (Hb : backup_at ts j q).
  { exists t1. split_and!; [done| |done]. case_if_in Hj; injection Hj as <-; [|done].
    destruct (Hf t1); congruence. }
  split; [by exists j|]. intros ->. assert (j = k) as -> by (apply (Hinj _ _ (t_backup t) Hb); by exists t).
  rewrite decide_True in Hj by lia. injection Hj as <-. rewrite Ht in Ej. injection Ej as <-. congruence.
Qed.

Lemma mach_Ok {F A} (op : M Empty_set machine A) (s : kstate F) a x :
  op (k_mach s) = Ok a x → mach op s = Ok a (s <| k_mach := x |>).
Proof. intros Hm. unfold mach. by rewrite (zoom_Ok _ _ _ _ _ _ _ Hm). Qed.
Lemma mach_read {F A} (op : M Empty_set machine A) (s : kstate F) a :
  op (k_mach s) = Ok a (k_mach s) → mach op s = Ok a s.
Proof. intros Hm. rewrite (mach_Ok _ _ _ _ Hm). by destruct s. Qed.


Lemma alter_fix {A} (f : A → A) (l : list A) i x : l !! i = Some x → f x = x → alter f i l = l.
Proof.
  intros Hx Hf. apply list_eq. intros j. destruct (decide (i = j)) as [->|Hne].
  - by rewrite list_lookup_alter_eq, Hx; simpl; rewrite Hf.
  - by rewrite list_lookup_alter_ne.
Qed.

Lemma freeproc_thread_ok {F} i j m (ps : list proc) p t free ip np nt bs h tk fi (fs : F) :
  (i < length ps)%nat → p_threads p !! j = Some t → kmem_ok m free →
  (t_backup t ≠ 0 → valid_page (t_backup t) ∧ t_backup t ∉ free ∧ t_state t ≠ UNUSED ∧ t_state t ≠ RUNNING) →
  ∃ m' free', freeproc_thread i j (mkKstate m (<[i := p]> ps) ip np nt bs h tk fi fs) =
    Ok tt (mkKstate m' (<[i := p <| p_threads ::= alter freeproc_thread_result j |>]> ps) ip np nt bs h tk fi fs) ∧
    pool_step (λ q, t_backup t ≠ 0 ∧ q = t_backup t) none m free m' free'.
Proof.
  intros Hi Ht Hk Hb. unfold freeproc_thread, freethread, when. krun.
  rewrite list_lookup_total_insert_eq by done. rewrite (list_lookup_total_correct _ _ _ Ht).
  destruct (bool_decide (t_state t ≠ UNUSED) && bool_decide (t_state t ≠ RUNNING)) eqn:Ec; cycle 1.
  - assert (Ht0 : t_backup t = 0).
    { destruct (decide (t_backup t = 0)) as [|Hne]; [done|]. destruct (Hb Hne) as (_ & _ & Hu & Hr).
      by rewrite !bool_decide_true in Ec. }
    exists m, free. split.
    + assert (alter freeproc_thread_result j (p_threads p) = p_threads p) as Ha.
      { apply (alter_fix _ _ _ t); [done|]. unfold freeproc_thread_result. by rewrite Ec. }
      unfold ret. by rewrite threads_id.
    + rewrite Ht0. split; [done|intros q; unfold none; tauto|done].
  - assert (HR : freeproc_thread_result t = freed_thread (t <| t_trapframe := 0 |>))
      by (unfold freeproc_thread_result; by rewrite Ec).
    krun. rewrite alter_insert_same. kred. krun. rewrite list_lookup_total_insert_eq by done. unfold when.
    assert (Hget : p_threads (p <| p_threads ::= alter (λ t0, t0 <| t_trapframe := 0 |>) j |>) !!! j =
      t <| t_trapframe := 0 |>).
    { change (alter (λ t0, t0 <| t_trapframe := 0 |>) j (p_threads p) !!! j = t <| t_trapframe := 0 |>).
      rewrite list_lookup_total_alt, list_lookup_alter_eq, Ht. done. }
    rewrite Hget. rproj.
    assert (Hfin : ∀ m', sett i j (λ t, t <| t_backup := 0 |> <| t_id := 0 |> <| t_tproc := None |>
        <| t_chan := None |> <| t_killed := 0 |> <| t_xstate := 0 |> <| t_state := UNUSED |>)
      (mkKstate m' (<[i := p <| p_threads ::= alter (λ t0, t0 <| t_trapframe := 0 |>) j |>]> ps)
         ip np nt bs h tk fi fs) =
      Ok tt (mkKstate m' (<[i := p <| p_threads ::= alter freeproc_thread_result j |>]> ps) ip np nt bs h tk fi fs)).
    { intros m'. unfold sett, setp, modify. kred. rewrite alter_insert_same. do 3 f_equal.
      rewrite threads_compose. apply threads_ext. rewrite alter_alter_same. apply list_alter_ext; [|done].
      intros t' Ht'. assert (t' = t) as -> by congruence. rewrite HR. done. }
    destruct (Z.eqb_spec (t_backup t) 0) as [E0|E0]; simpl negb; cbn [negb].
    + exists m, free. krun. rewrite Hfin. split; [done|].
      rewrite E0. split; [done|intros q; unfold none; tauto|done].
    + destruct (Hb E0) as (Hv & Hn & _). destruct (kfree_step (t_backup t) m free Hk Hv Hn) as (m' & Hm & Hst).
      exists m', (t_backup t :: free). erewrite bind_Ok by (apply mach_Ok; exact Hm). kred. rewrite Hfin.
      split; [done|]. eapply pool_step_proper; [..|exact Hst]; try done. intros q. tauto.
Qed.
End Slot.

Section Freeproc.
Context {F : Type} `{KernelSymbols}.

(** the page [pa], unless it is null *)
Definition page_at (pa q : Z) : Prop := pa ≠ 0 ∧ q = pa.

Lemma kfree_nonnull pa (s : kstate F) free :
  kmem_ok (k_mach s) free → (pa ≠ 0 → valid_page pa ∧ pa ∉ free) →
  ∃ m' free', when (negb (pa =? 0)) (mach (kfree pa)) s = Ok tt (s <| k_mach := m' |>) ∧
    pool_step (page_at pa) none (k_mach s) free m' free'.
Proof.
  intros Hk Hv. destruct (Z.eqb_spec pa 0) as [->|Hne]; simpl.
  - exists (k_mach s), free. split; [by destruct s|].
    split; [done|intros q; unfold none, page_at; tauto|done].
  - destruct (Hv Hne) as [Hv1 Hn]. destruct (kfree_step pa _ _ Hk Hv1 Hn) as (m' & Hm & Hst).
    exists m', (pa :: free). split; [by apply mach_Ok|].
    eapply pool_step_proper; [..|exact Hst]; try done. intros q. unfold page_at. tauto.
Qed.

Lemma freeproc_thread_result_backup t :
  t_backup (freeproc_thread_result t) = t_backup t ∨ t_backup (freeproc_thread_result t) = 0.
Proof. unfold freeproc_thread_result. case_if; [by right|by left]. Qed.

Lemma freeproc_threads_ok i m (ps : list proc) p free ip np nt bs h tk fi (fs : F) :
  ps !! i = Some p → length (p_threads p) = NTHREAD → kmem_ok m free → freeable (ram m) p free →
  ∃ m' free', for_each (seq 0 NTHREAD) (freeproc_thread i) (mkKstate m ps ip np nt bs h tk fi fs) =
    Ok tt (mkKstate m' (<[i := p <| p_threads ::= fmap freeproc_thread_result |>]> ps) ip np nt bs h tk fi fs) ∧
    pool_step (backups (p_threads p)) none m free m' free'.
Proof.
  intros Hp Hlen Hk Hfr. assert (Hi := lookup_lt_Some _ _ _ Hp).
  set (R := freeproc_thread_result). set (ts := p_threads p).
  destruct (for_each_inv (freeproc_thread i) (λ k s', ∃ m' f',
    s' = mkKstate m' (<[i := p <| p_threads ::= upto k (λ _, R) |>]> ps) ip np nt bs h tk fi fs ∧
    pool_step (backups ts) (backups (upto k (λ _, R) ts)) m free m' f' ∧
    (∀ q, backups (upto k (λ _, R) ts) q → valid_page q ∧ q ∉ f')) NTHREAD 0 (mkKstate m ps ip np nt bs h tk fi fs))
    as (s' & Hs' & m' & f' & -> & Hst & _).
  - exists m, free. rewrite upto_0. split_and!.
    + by rewrite threads_id, list_insert_id by (done || apply upto_0).
    + by apply pool_refl.
    + intros q (j & t & Ht & <- & H0). destruct (fr_backup _ _ _ Hfr j t Ht H0) as (? & ? & _). done.
  - intros k s' Hk' (m1 & f1 & -> & Hst & Hd).
    assert (Ht : ∃ t, ts !! k = Some t) by (apply lookup_lt_is_Some_2; unfold ts; lia). destruct Ht as [t Ht].
    assert (H0 : t_backup (R t) = 0).
    { unfold R, freeproc_thread_result. case_if; [done|]. destruct (decide (t_backup t = 0)) as [|Hne]; [done|].
      destruct (fr_backup _ _ _ Hfr k t Ht Hne) as (_ & _ & Hu & Hr). by rewrite !bool_decide_true in E. }
    assert (Hk1 : p_threads (p <| p_threads ::= upto k (λ _, R) |>) !! k = Some t).
    { change (upto k (λ _, R) ts !! k = Some t). rewrite lookup_upto, Ht. simpl. by rewrite decide_False by lia. }
    destruct (freeproc_thread_ok i k m1 ps _ t f1 ip np nt bs h tk fi fs Hi Hk1) as (m2 & f2 & Hrun & Hst2).
    { apply Hst. }
    { intros Hne. destruct (Hd (t_backup t)) as [Hv Hn].
      - apply (backups_upto_S _ _ _ t); [done|done|]. by right.
      - destruct (fr_backup _ _ _ Hfr k t Ht Hne) as (_ & _ & ? & ?). done. }
    assert (Hrest := λ q, backups_upto_rest R ts k t q (fr_inj _ _ _ Hfr) Ht H0 freeproc_thread_result_backup).
    destruct (pool_frame _ _ (backups (upto (S k) (λ _, R) ts)) _ _ _ _ Hst2) as [Hst3 Hd3].
    { intros q Hq. split; [|intros [_ ->]; by apply (Hrest _ Hq)].
      apply Hd. apply (backups_upto_S _ _ _ t); [done|done|by left]. }
    eexists. split; [exact Hrun|]. exists m2, f2. split_and!.
    + by rewrite threads_compose, (threads_ext _ _ (upto (S k) (λ _, R))) by apply (upto_S (λ _, R)).
    + eapply pool_step_trans; [exact Hst|]. eapply pool_step_proper; [..|exact Hst3]; try done.
      * intros q. rewrite (backups_upto_S R ts k t) by done. tauto.
      * intros q. unfold none. tauto.
    + intros q Hq. split; [|by apply Hd3]. apply Hd. apply (backups_upto_S _ _ _ t); [done|done|by left].
  - assert (Hall : upto NTHREAD (λ _, R) ts = R <$> ts).
    { rewrite upto_all by (unfold ts; lia). apply list_eq. intros j. rewrite list_lookup_imap, list_lookup_fmap. done. }
    exists m', f'. rewrite Hs'. split.
    + by rewrite (threads_ext _ _ (fmap R)) by exact Hall.
    + eapply pool_step_proper; [..|exact Hst]; try done. intros q. simpl. rewrite Hall. split; [done|].
      intros (j & t & Ht & <- & Hne). rewrite list_lookup_fmap in Ht. destruct (ts !! j) as [t0|] eqn:Ej; [|done].
      injection Ht as <-. apply Hne. unfold R, freeproc_thread_result in *. case_if; [done|].
      destruct (fr_backup _ _ _ Hfr j t0 Ej Hne) as (_ & _ & Hu & Hr). by rewrite !bool_decide_true in E.
Qed.
(** the three groups of pages of a slot, freed one after the other *)
Lemma freeproc_mem m p free m1 f1 :
  kmem_ok m free → freeable (ram m) p free → pool_step (backups (p_threads p)) none m free m1 f1 →
  (p_trapframe p ≠ 0 → valid_page (p_trapframe p) ∧ p_trapframe p ∉ f1) ∧
  ∀ m2 f2, pool_step (page_at (p_trapframe p)) none m1 f1 m2 f2 →
    (p_pagetable p ≠ 0 → ∃ tf, utable (ram m2) (p_pagetable p) (p_sz p) tf f2) ∧
    pool_step (proc_pages (ram m) p) (λ q, p_pagetable p ≠ 0 ∧ owns (ram m2) (p_pagetable p) q) m free m2 f2.
Proof.
  intros Hk Hfr Hs1.
  assert (Hv1 : ∀ q, backups (p_threads p) q → valid_page q).
  { intros q (j & t & Ht & <- & H0). by apply (fr_backup _ _ _ Hfr j t). }
  assert (Hot : ∀ q, p_pagetable p ≠ 0 → owns (ram m) (p_pagetable p) q → ¬ page_at (p_trapframe p) q).
  { intros q H0 Hq [H1 ->]. destruct (fr_own _ _ _ Hfr _ H0 Hq) as [Hne _]. by apply Hne. }
  destruct (pool_frame _ _ (λ q, page_at (p_trapframe p) q ∨ (p_pagetable p ≠ 0 ∧ owns (ram m) (p_pagetable p) q))
    _ _ _ _ Hs1) as [Hs1' Hd1].
  { intros q [[H0 ->]|[H0 Hq]].
    - by apply (fr_tf _ _ _ Hfr).
    - destruct (fr_pt _ _ _ Hfr H0) as [tf Hu]. destruct (owns_page _ _ _ _ (ut_as _ _ _ _ _ Hu) Hq).
      split; [done|]. by apply (fr_own _ _ _ Hfr). }
  split. { intros H0. split; [by apply (fr_tf _ _ _ Hfr)|]. apply Hd1. by left. }
  intros m2 f2 Hs2.
  destruct (pool_frame _ _ (λ q, p_pagetable p ≠ 0 ∧ owns (ram m) (p_pagetable p) q) _ _ _ _ Hs2) as [Hs2' Hd2].
  { intros q [H0 Hq]. split; [apply Hd1; by right|]. by apply Hot. }
  assert (Hpt : p_pagetable p ≠ 0 → (∃ tf, utable (ram m2) (p_pagetable p) (p_sz p) tf f2) ∧
    ∀ q, owns (ram m2) (p_pagetable p) q ↔ owns (ram m) (p_pagetable p) q).
  { intros H0. destruct (fr_pt _ _ _ Hfr H0) as [tf Hu].
    destruct (utable_pool _ _ _ _ _ _ _ _ _ Hs1 Hk Hv1 Hu) as (Hu1 & Ho1 & _).
    { intros q Hq. by apply (fr_own _ _ _ Hfr). }
    assert (Hv2 : ∀ q, page_at (p_trapframe p) q → valid_page q) by (intros q [H1 ->]; by apply (fr_tf _ _ _ Hfr)).
    destruct (utable_pool _ _ _ _ _ _ _ _ _ Hs2 (ps_kmem _ _ _ _ _ _ Hs1) Hv2 Hu1) as (Hu2 & Ho2 & _).
    { intros q Hq. apply Hot; [done|]. by apply Ho1. }
    split; [by exists tf|]. intros q. by rewrite Ho2, Ho1. }
  split; [intros H0; by apply Hpt|].
  apply (pool_step_trans _ (λ q, page_at (p_trapframe p) q ∨ (p_pagetable p ≠ 0 ∧ owns (ram m) (p_pagetable p) q))
    _ _ _ m1 f1).
  - eapply pool_step_proper; [..|exact Hs1']; try done; intros q; unfold proc_pages, page_at, none; tauto.
  - eapply pool_step_proper; [..|exact Hs2']; try done. intros q. unfold none.
    split; [|by intros [|[H0 Hq]]; [|split; [|apply Hpt]]]. intros [H0 Hq]. right. split; [done|]. by apply Hpt.
Qed.

Lemma freeproc_ok i (s : kstate F) p free :
  k_proc s !! i = Some p → length (p_threads p) = NTHREAD → kmem_ok (k_mach s) free →
  freeable (ram (k_mach s)) p free →
  ∃ m' free', freeproc i s = Ok tt (s <| k_mach := m' |> <| k_proc ::= <[i := freed_proc p]> |>) ∧
    pool_step (proc_pages (ram (k_mach s)) p) none (k_mach s) free m' free'.
Proof.
  intros Hp Hlen Hk Hfr. destruct s as [m ps ip np nt bs h tk fi fs]. simpl in Hp, Hk, Hfr. kred.
  assert (Hi := lookup_lt_Some _ _ _ Hp).
  destruct (freeproc_threads_ok i m ps p free ip np nt bs h tk fi fs Hp Hlen Hk Hfr) as (m1 & f1 & Hr1 & Hs1).
  destruct (freeproc_mem m p free m1 f1 Hk Hfr Hs1) as [Htf Hrest].
  unfold freeproc. rewrite (bind_Ok _ _ _ _ _ Hr1). krun. rewrite list_lookup_total_insert_eq by done. rproj.
  edestruct (kfree_nonnull (p_trapframe p)) as (m2 & f2 & Hr2 & Hs2); [|exact Htf|erewrite bind_Ok by exact Hr2].
  { apply Hs1. }
  kred. krun. rewrite alter_insert_same, list_lookup_total_insert_eq by done. rproj. kred.
  destruct (Hrest m2 f2 Hs2) as [Hpt Hst].
  assert (Hend : ∀ m3, setp i (λ p, p <| p_pagetable := 0 |> <| p_sz := 0 |> <| p_pid := 0 |> <| p_parent := None |>
        <| p_name ::= <[O := x00]> |> <| p_chan := None |> <| p_killed := 0 |> <| p_xstate := 0 |> <| p_state := UNUSED |>)
      (mkKstate m3 (<[i := p <| p_threads ::= fmap freeproc_thread_result |> <| p_trapframe := 0 |>]> ps)
         ip np nt bs h tk fi fs) =
    Ok tt (mkKstate m3 (<[i := freed_proc p]> ps) ip np nt bs h tk fi fs)).
  { intros m3. unfold setp, modify. kred. by rewrite alter_insert_same. }
  unfold when. destruct (Z.eqb_spec (p_pagetable p) 0) as [E0|E0]; cbn [negb].
  - krun. exists m2, f2. rewrite Hend. split; [done|].
    eapply pool_step_proper; [..|exact Hst]; try done. intros q. unfold none. tauto.
  - destruct (Hpt E0) as [tf Hu].
    destruct (proc_freepagetable_ok (E := Empty_set) _ _ _ _ _ (ps_kmem _ _ _ _ _ _ Hst) Hu) as (m3 & f3 & Hr3 & Hs3).
    erewrite bind_Ok by (apply mach_Ok; exact Hr3). kred. exists m3, f3. rewrite Hend. split; [done|].
    eapply pool_step_trans; [exact Hst|]. eapply pool_step_proper; [..|exact Hs3]; try done. intros q. tauto.
Qed.
End Freeproc.

(** ** The invariant of the process table *)

Section Table.
Context `{KernelSymbols}.

Record slot_ok (i : nat) (m : gmap Z byte) (p : proc) (free : list Z) : Prop := {
  so_len : length (p_threads p) = NTHREAD;
  so_unused : p_state p = UNUSED → p_trapframe p = 0 ∧ p_pagetable p = 0 ∧ p_sz p = 0 ∧ p_pid p = 0 ∧
    ∀ j t, p_threads p !! j = Some t → t_state t = UNUSED;
  so_used : p_state p ≠ UNUSED → p_pagetable p ≠ 0 ∧ valid_page (p_trapframe p) ∧ p_trapframe p ∉ free ∧
    utable m (p_pagetable p) (p_sz p) (p_trapframe p) free ∧ ¬ owns m (p_pagetable p) (p_trapframe p) ∧
    (∀ j t, p_threads p !! j = Some t → t_trapframe t = p_trapframe p + TF_SIZE * Z.of_nat j);
  so_thread j t : p_threads p !! j = Some t →
    if decide (t_state t = UNUSED) then t_backup t = 0
    else valid_page (t_backup t) ∧ t_backup t ∉ free ∧ t_backup t ≠ p_trapframe p ∧
      ¬ owns m (p_pagetable p) (t_backup t) ∧ t_tproc t = Some i;
  so_inj j j' q : backup_at (p_threads p) j q → backup_at (p_threads p) j' q → j = j'
}.

(** pages in use in the whole table *)
Definition table_pages (m : gmap Z byte) (ps : list proc) (q : Z) : Prop :=
  ∃ i p, ps !! i = Some p ∧ proc_pages m p q.

Record table_inv (m : machine) (ps : list proc) (nextpid : Z) (free : list Z) : Prop := {
  ti_kmem : kmem_ok m free;
  ti_len : length ps = NPROC;
  ti_slot i p : ps !! i = Some p → slot_ok i (ram m) p free;
  ti_disj i j p p' q : ps !! i = Some p → ps !! j = Some p' → proc_pages (ram m) p q → proc_pages (ram m) p' q → i = j;
  ti_pid i p : ps !! i = Some p → p_state p ≠ UNUSED → 0 < p_pid p < nextpid;
  ti_pid_inj i j p p' : ps !! i = Some p → ps !! j = Some p' → p_state p ≠ UNUSED → p_state p' ≠ UNUSED →
    p_pid p = p_pid p' → i = j
}.

Lemma table_shaped m ps np free : table_inv m ps np free → shaped ps.
Proof. intros Hi. split; [apply Hi|]. intros i p Hp. by apply (so_len i (ram m) p free), Hi. Qed.

Lemma slot_backup i m p free q :
  slot_ok i m p free → backups (p_threads p) q → valid_page q ∧ q ∉ free ∧
    p_state p ≠ UNUSED ∧ q ≠ p_trapframe p ∧ ¬ owns m (p_pagetable p) q.
Proof.
  intros Hs (j & t & Ht & <- & H0). assert (Hst := so_thread _ _ _ _ Hs j t Ht). case_if_in Hst; [done|].
  destruct Hst as (? & ? & ? & ? & _). split_and!; try done.
  intros Hu. destruct (so_unused _ _ _ _ Hs Hu) as (_ & _ & _ & _ & Hall). by apply E, (Hall j).
Qed.

Lemma slot_page i m p free q : slot_ok i m p free → proc_pages m p q → valid_page q ∧ q ∉ free ∧ p_state p ≠ UNUSED.
Proof.
  intros Hs. destruct (decide (p_state p = UNUSED)) as [Hu|Hu].
  - destruct (so_unused _ _ _ _ Hs Hu) as (Ht & Hp & _ & _ & Hall). intros [[? _]|[Hb|[? _]]]; try done.
    by destruct (slot_backup _ _ _ _ _ Hs Hb) as (_ & _ & ? & _).
  - destruct (so_used _ _ _ _ Hs Hu) as (Hp & Hv & Hn & Ht & _). intros [[? ->]|[Hb|[? Ho]]]; [done| |].
    + by destruct (slot_backup _ _ _ _ _ Hs Hb) as (? & ? & ? & _).
    + by destruct (owns_page _ _ _ _ (ut_as _ _ _ _ _ Ht) Ho).
Qed.

Lemma slot_freeable i m p free :
  slot_ok i m p free → (∀ j t, p_threads p !! j = Some t → t_state t ≠ RUNNING) → freeable m p free.
Proof.
  intros Hs Hr. constructor.
  - intros H0. destruct (decide (p_state p = UNUSED)) as [Hu|Hu].
    + by destruct (so_unused _ _ _ _ Hs Hu) as (? & _).
    + destruct (so_used _ _ _ _ Hs Hu) as (_ & Hv & Hn & _). split_and!; [done..|].
      intros Hb. by destruct (slot_backup _ _ _ _ _ Hs Hb) as (_ & _ & _ & ? & _).
  - intros H0. destruct (decide (p_state p = UNUSED)) as [Hu|Hu].
    + by destruct (so_unused _ _ _ _ Hs Hu) as (_ & ? & _).
    + destruct (so_used _ _ _ _ Hs Hu) as (_ & _ & _ & Ht & _). by exists (p_trapframe p).
  - intros j t Ht H0. assert (Hst := so_thread _ _ _ _ Hs j t Ht). case_if_in Hst; [done|].
    destruct Hst as (? & ? & _). split_and!; [done..|]. by apply (Hr j).
  - apply Hs.
  - intros q H0 Ho. destruct (decide (p_state p = UNUSED)) as [Hu|Hu].
    + by destruct (so_unused _ _ _ _ Hs Hu) as (_ & ? & _).
    + destruct (so_used _ _ _ _ Hs Hu) as (_ & _ & _ & _ & Hno & _). split.
      * by intros _ ->.
      * intros Hb. by destruct (slot_backup _ _ _ _ _ Hs Hb) as (_ & _ & _ & _ & ?).
Qed.

(** a step on the pages of others preserves a slot *)
Lemma slot_frame i p own own' s free s' free' :
  pool_step own own' s free s' free' → kmem_ok s free → (∀ q, own q → valid_page q) →
  slot_ok i (ram s) p free → (∀ q, proc_pages (ram s) p q → ¬ own q) →
  slot_ok i (ram s') p free' ∧ (∀ q, proc_pages (ram s') p q ↔ proc_pages (ram s) p q) ∧
  (∀ va, p_state p ≠ UNUSED → 0 ≤ va < TRAPFRAME →
    uview (ram s') (p_pagetable p) va = uview (ram s) (p_pagetable p) va).
Proof.
  intros Hp Hk Hv Hs Hd.
  assert (Hfree : ∀ q, proc_pages (ram s) p q → q ∉ free').
  { intros q Hq Hf. destruct (proj1 (ps_pool _ _ _ _ _ _ Hp q) (or_introl Hf)) as [Hf'|Ho].
    - by destruct (slot_page _ _ _ _ _ Hs Hq) as (_ & ? & _).
    - by apply (Hd q). }
  destruct (decide (p_state p = UNUSED)) as [Hu|Hu].
  - destruct (so_unused _ _ _ _ Hs Hu) as (Ht & Hpt & Hsz & Hpid & Hall). split_and!.
    + constructor; try (by apply Hs || done). intros j t Htj. rewrite decide_True by (by apply (Hall j)).
      assert (Hst := so_thread _ _ _ _ Hs j t Htj). by rewrite decide_True in Hst by (by apply (Hall j)).
    + intros q. unfold proc_pages. rewrite Ht, Hpt. tauto.
    + done.
  - destruct (so_used _ _ _ _ Hs Hu) as (H0 & Hvt & Hnt & Hut & Hno & Htfs).
    assert (Htf0 : p_trapframe p ≠ 0) by (unfold valid_page in Hvt; lia).
    destruct (utable_pool _ _ _ _ _ _ _ _ _ Hp Hk Hv Hut) as (Hut' & Ho & Hview).
    { intros q Hq. apply Hd. right. by right. }
    split_and!; [|intros q; unfold proc_pages; by rewrite Ho|intros va _; apply Hview].
    constructor; try (by apply Hs); [intros _|].
    + rewrite Ho. split_and!; try done. apply Hfree. by left.
    + intros j t Ht. assert (Hst := so_thread _ _ _ _ Hs j t Ht). case_if; [done|].
      rewrite Ho. destruct Hst as (Hvb & _ & ? & ? & ?). split_and!; try done. apply Hfree. right. left.
      exists j, t. split_and!; try done. unfold valid_page in Hvb. lia.
Qed.

(** what an operation on slot [i] leaves: the invariant, the same pages in the
    table and the pool together, and the memory of the other processes *)
Definition table_step (i : nat) (m : machine) (ps : list proc) (free : list Z)
    (m' : machine) (ps' : list proc) (np' : Z) (free' : list Z) : Prop :=
  table_inv m' ps' np' free' ∧
  (∀ q, q ∈ free' ∨ table_pages (ram m') ps' q ↔ q ∈ free ∨ table_pages (ram m) ps q) ∧
  (∀ j pj, j ≠ i → ps !! j = Some pj → p_state pj ≠ UNUSED → ∀ va, 0 ≤ va < TRAPFRAME →
    uview (ram m') (p_pagetable pj) va = uview (ram m) (p_pagetable pj) va) ∧
  (∀ j pj q, j ≠ i → ps !! j = Some pj → proc_pages (ram m') pj q ↔ proc_pages (ram m) pj q).

(** replacing a slot and its pages *)
Lemma table_update m ps np free i p m' p' np' free' :
  table_inv m ps np free → ps !! i = Some p →
  pool_step (proc_pages (ram m) p) (proc_pages (ram m') p') m free m' free' →
  slot_ok i (ram m') p' free' → np ≤ np' →
  (p_state p' ≠ UNUSED → (p_state p ≠ UNUSED ∧ p_pid p' = p_pid p) ∨ np ≤ p_pid p' < np' ∧ 0 < p_pid p') →
  table_step i m ps free m' (<[i := p']> ps) np' free'.
Proof.
  intros Hi Hp Hst Hs' Hnp Hpid.
  assert (Hfr : ∀ j pj, j ≠ i → ps !! j = Some pj → slot_ok j (ram m') pj free' ∧
    (∀ q, proc_pages (ram m') pj q ↔ proc_pages (ram m) pj q) ∧
    (∀ va, p_state pj ≠ UNUSED → 0 ≤ va < TRAPFRAME → uview (ram m') (p_pagetable pj) va = uview (ram m) (p_pagetable pj) va)).
  { intros j pj Hj Hpj. apply (slot_frame _ _ _ _ _ _ _ _ Hst).
    - apply Hi.
    - intros q Hq. by destruct (slot_page i (ram m) p free q (ti_slot _ _ _ _ Hi i p Hp) Hq).
    - by apply Hi.
    - intros q Hq Hq'. by apply Hj, (ti_disj _ _ _ _ Hi j i pj p q). }
  assert (Hlt := lookup_lt_Some _ _ _ Hp).
  assert (Hlk : ∀ j pj, <[i := p']> ps !! j = Some pj → (j = i ∧ pj = p') ∨ (j ≠ i ∧ ps !! j = Some pj)).
  { intros j pj. destruct (decide (j = i)) as [->|Hne].
    - rewrite list_lookup_insert_eq by done. intros [= <-]. by left.
    - rewrite list_lookup_insert_ne by done. by right. }
  assert (Hnot : ∀ j pj q, j ≠ i → ps !! j = Some pj → proc_pages (ram m) pj q → ¬ proc_pages (ram m') p' q).
  { intros j pj q Hj Hpj Hq Hq'. destruct (proj1 (ps_pool _ _ _ _ _ _ Hst q) (or_intror Hq')) as [Hf|Hq1].
    - by destruct (slot_page j (ram m) pj free q (ti_slot _ _ _ _ Hi j pj Hpj) Hq) as (_ & ? & _).
    - by apply Hj, (ti_disj _ _ _ _ Hi j i pj p q). }
  unfold table_step. split_and!.
  - constructor.
    + apply Hst.
    + rewrite length_insert. apply Hi.
    + intros j pj [[-> ->]|[Hj Hpj]]%Hlk; [done|]. by apply Hfr.
    + intros j k pj pk q [[-> ->]|[Hj Hpj]]%Hlk [[-> ->]|[Hk Hpk]]%Hlk Hq1 Hq2; [done|..].
      * exfalso. apply (Hfr k pk Hk Hpk) in Hq2. by apply (Hnot k pk q).
      * exfalso. apply (Hfr j pj Hj Hpj) in Hq1. by apply (Hnot j pj q).
      * apply (ti_disj _ _ _ _ Hi j k pj pk q Hpj Hpk); [by apply (Hfr j pj)|by apply (Hfr k pk)].
    + intros j pj [[-> ->]|[Hj Hpj]]%Hlk Hu.
      * destruct (Hpid Hu) as [[Hu0 ->]|?]; [|lia]. assert (Hr := ti_pid _ _ _ _ Hi i p Hp Hu0). lia.
      * assert (Hr := ti_pid _ _ _ _ Hi j pj Hpj Hu). lia.
    + assert (Hone : ∀ j pj, j ≠ i → ps !! j = Some pj → p_state pj ≠ UNUSED → p_state p' ≠ UNUSED → p_pid p' = p_pid pj → False).
      { intros j pj Hj Hpj Huj Hu He. assert (Hr := ti_pid _ _ _ _ Hi j pj Hpj Huj).
        destruct (Hpid Hu) as [[Hu0 Hpp]|?]; [|lia]. apply Hj. apply (ti_pid_inj _ _ _ _ Hi j i pj p); congruence. }
      intros j k pj pk [[-> ->]|[Hj Hpj]]%Hlk [[-> ->]|[Hk Hpk]]%Hlk Hu1 Hu2 He; [done| | |].
      * by destruct (Hone k pk).
      * by destruct (Hone j pj).
      * by apply (ti_pid_inj _ _ _ _ Hi j k pj pk).
  - intros q. assert (Hpool := ps_pool _ _ _ _ _ _ Hst q). split.
    + intros [Hf|(j & pj & [[-> ->]|[Hj Hpj]]%Hlk & Hq)].
      * destruct (proj1 Hpool (or_introl Hf)); [by left|]. right. by exists i, p.
      * destruct (proj1 Hpool (or_intror Hq)); [by left|]. right. by exists i, p.
      * right. exists j, pj. split; [done|]. by apply (Hfr j pj).
    + assert (Hi' : proc_pages (ram m') p' q → table_pages (ram m') (<[i := p']> ps) q).
      { intros Hq. exists i, p'. by rewrite list_lookup_insert_eq. }
      intros [Hf|(j & pj & Hpj & Hq)].
      * destruct (proj2 Hpool (or_introl Hf)); [by left|]. right. by apply Hi'.
      * destruct (decide (j = i)) as [->|Hj].
        -- assert (pj = p) as -> by congruence. destruct (proj2 Hpool (or_intror Hq)); [by left|right; by apply Hi'].
        -- right. exists j, pj. rewrite list_lookup_insert_ne by done. split; [done|]. by apply (Hfr j pj).
  - intros j pj Hj Hpj Hu va Hva. by apply (Hfr j pj).
  - intros j pj q Hj Hpj. by apply (Hfr j pj).
Qed.

(** writing the memory of a process *)
Lemma written_utable pt sz tf free va bs s s' :
  kmem_ok s free → utable (ram s) pt sz tf free → user_written pt free va bs s s' →
  utable (ram s') pt sz tf free ∧ (∀ q, owns (ram s') pt q ↔ owns (ram s) pt q) ∧
  pool_step (owns (ram s) pt) (owns (ram s') pt) s free s' free.
Proof.
  intros Hk [Has Hsz Hs Htr Htf] Hw. assert (Hpte := uw_pte _ _ _ _ _ _ Hw).
  assert (Has' := user_written_aspace _ _ _ _ _ _ Has Hw).
  assert (Hl : ∀ v, lpage (ram s') pt v = lpage (ram s) pt v) by (intros v; unfold lpage; by rewrite Hpte).
  assert (Hfr : ∀ x, (∀ p, owns (ram s) pt p → ¬ is_table (ram s) pt p → ¬ in_page p x) → ld8 (ram s') x = ld8 (ram s) x).
  { intros x Hx. apply (uw_frame _ _ _ _ _ _ Hw). intros v pa Hv Hpa.
    destruct (uvm_page _ _ _ (aspace_uvm _ _ _ Has) v pa Hv Hpa) as [_ Hpn].
    assert (Hit : ¬ is_table (ram s) pt pa) by (intros Ht; apply Hpn; by left).
    apply Hx; [|done]. right. exists v. unfold upage in Hpa. unfold lpage.
    destruct (has (pte_at (ram s) pt v) PTE_V) eqn:HV; [|done].
    destruct (has (pte_at (ram s) pt v) PTE_U) eqn:HU; [|done]. split; [|done].
    destruct (Z.lt_ge_cases v TRAPFRAME); [lia|]. by rewrite (as_top _ _ _ Has) in HU by lia. }
  assert (Ho : ∀ q, owns (ram s') pt q ↔ owns (ram s) pt q).
  { destruct (tables_ext (ram s) (ram s') pt) as (Htab & _).
    { intros id t x Hid Ht Hx. apply Hfr. intros p Hp Hnt.
      assert (Ht' : is_table (ram s) pt t) by (by exists id).
      apply (in_page_disjoint t); [apply (owns_page _ _ _ _ Has); by left|by apply (owns_page _ _ _ _ Has)|congruence|done]. }
    intros q. unfold owns, is_table. f_equiv.
    - f_equiv. intros id. split; intros [Hid Ht]; (split; [done|]); [by rewrite <- Htab|by rewrite Htab].
    - f_equiv. intros v. by rewrite Hl. }
  split_and!; [|done|].
  - constructor; [done|done| |by rewrite Hpte|by rewrite Hpte].
    intros v Hv. rewrite <- (Hs v Hv), !uview_None, Hl. done.
  - constructor; [apply Hw|intros q; by rewrite Ho|]. intros x Hx. apply Hfr. intros p Hp _. apply Hx. by right.
Qed.

Lemma slot_written i m p free va bs m' :
  kmem_ok m free → slot_ok i (ram m) p free → p_state p ≠ UNUSED →
  user_written (p_pagetable p) free va bs m m' →
  slot_ok i (ram m') p free ∧ pool_step (proc_pages (ram m) p) (proc_pages (ram m') p) m free m' free.
Proof.
  intros Hk Hs Hu Hw. destruct (so_used _ _ _ _ Hs Hu) as (Hpt & Hv & Hn & Hut & Hno & Htfs).
  destruct (written_utable _ _ _ _ _ _ _ _ Hk Hut Hw) as (Hut' & Ho & Hst). split.
  - constructor; try (by apply Hs); [intros _; by rewrite Ho|].
    intros j t Ht. assert (Hth := so_thread _ _ _ _ Hs j t Ht). case_if; [done|]. by rewrite Ho.
  - destruct (pool_frame _ _ (λ q, page_at (p_trapframe p) q ∨ backups (p_threads p) q) _ _ _ _ Hst) as [Hst' _].
    + intros q [[_ ->]|Hb]; [done|]. by destruct (slot_backup _ _ _ _ _ Hs Hb) as (_ & ? & _ & _ & ?).
    + apply (pool_conv _ _ _ _ _ _ _ _ Hst'); intros q; unfold proc_pages, page_at; tauto.
Qed.

(** the table after [copyout] into the memory of process [i] *)
Lemma table_written m ps np free i p va bs m' :
  table_inv m ps np free → ps !! i = Some p → p_state p ≠ UNUSED →
  user_written (p_pagetable p) free va bs m m' → table_step i m ps free m' ps np free.
Proof.
  intros Hi Hp Hu Hw. destruct (slot_written i m p free va bs m' (ti_kmem _ _ _ _ Hi) (ti_slot _ _ _ _ Hi i p Hp) Hu Hw) as [Hs Hst].
  rewrite <- (list_insert_id ps i p Hp) at 2.
  apply (table_update m ps np free i p m' p np free Hi Hp Hst Hs); [lia|]. intros _. by left.
Qed.
End Table.
