(* ===== verification/ProcAlloc.v ===== *)
(** * Allocation of processes and threads

    What [allocthread] and [allocproc] do to the process table and to the
    page allocator, in every case: success, a full table, and each of the
    allocations failing. *)

From S2P Require Import Prelude Mem Riscv Kalloc Vm Uvm Pagetable Kstate Spinlock Proc ProcMem.

Definition is_unused (p : proc) : bool := bool_decide (p_state p = UNUSED).

Section Scan.
Context {F : Type}.

(** the scan stops at the first unused slot, with its lock *)
Lemma alloc_scan_ok m ps ip np nt bs h tk fi (fs : F) :
  hart_ok h → h_held h = [] → length ps = NPROC →
  for_until (seq 0 NPROC) allocproc_scan (mkKstate m ps ip np nt bs h tk fi fs) =
    match find_index is_unused ps with
    | Some i => Ok (Some i) (mkKstate m ps ip np nt bs (locked (LkProc i) h) tk fi fs)
    | None => Ok None (mkKstate m ps ip np nt bs (settle h) tk fi fs)
    end.
Proof.
  intros Hh Hn Hl. destruct (find_index is_unused ps) as [i|] eqn:Hf.
  - assert (Hs := lock_scan_ok is_unused (λ i, ret (Some i)) m ps ip np nt bs h tk fi fs Hh Hn Hl i). rewrite Hf in Hs.
    apply Hs. by intros ? [= <-].
  - assert (Hs := lock_scan_ok is_unused (λ i, ret (Some i)) m ps ip np nt bs h tk fi fs Hh Hn Hl O). rewrite Hf in Hs.
    by apply (Hs (mkKstate m ps ip np nt bs h tk fi fs)).
Qed.
End Scan.

Section Allocthread.
Context {F : Type} `{KernelSymbols}.

Definition t_is_unused (t : thread) : bool := bool_decide (t_state t = UNUSED).

(** the thread that [allocthread] makes in a slot *)
Definition new_thread (tid : Z) (i : nat) (pa : Z) (t : thread) : thread :=
  t <| t_id := tid |> <| t_state := USED |> <| t_tproc := Some i |> <| t_backup := pa |>
    <| t_context := mkContext sym_forkret (t_kstack t + PGSIZE) (replicate 12 0) |>.
(** the slot when there is no page for the backup trapframe *)
Definition half_thread (tid : Z) (i : nat) (t : thread) : thread :=
  t <| t_id := tid |> <| t_state := USED |> <| t_tproc := Some i |> <| t_backup := 0 |>.

Section Run.
Context (i : nat) (m : machine) (ps : list proc) (p : proc) (ip : option nat) (np nt : Z) (bs : list bsem)
  (h : hart) (tk : Z) (fi : bool) (fs : F) (free : list Z).
Context (Hp : ps !! i = Some p) (Hh : hart_ok h) (Hheld : h_held h = []) (Hk : kmem_ok m free).

Lemma allocthread_full :
  find_index t_is_unused (p_threads p) = None →
  allocthread i (mkKstate m ps ip np nt bs (locked (LkProc i) h) tk fi fs) =
    Ok None (mkKstate m ps ip np nt bs (settle h) tk fi fs).
Proof.
  intros Hn. unfold allocthread. krun. rewrite (list_lookup_total_correct _ _ _ Hp).
  fold t_is_unused. rewrite Hn. by rewrite bind_release by hart.
Qed.

Lemma allocthread_new j pa free' :
  find_index t_is_unused (p_threads p) = Some j → free = pa :: free' →
  ∃ m', allocthread i (mkKstate m ps ip np nt bs (locked (LkProc i) h) tk fi fs) =
    Ok (Some j) (mkKstate m' (<[i := p <| p_threads ::= alter (new_thread nt i pa) j |>]> ps) ip np
      (i32 (nt + 1)) bs (locked (LkProc i) h) tk fi fs) ∧
    valid_page pa ∧ pa ∉ free' ∧ pool_step none (λ q, q = pa) m free m' free'.
Proof.
  intros Hn Hf. destruct (kalloc_step m free Hk) as [[? _]|(pa' & ps' & m' & Hf' & Hr & Hv & H0 & Hni & Hst)]; [congruence|].
  assert (pa' = pa ∧ ps' = free') as [-> ->] by (split; congruence).
  exists m'. split_and!; try done. unfold allocthread. krun. rewrite (list_lookup_total_correct _ _ _ Hp).
  fold t_is_unused. rewrite Hn.
  rewrite bind_alloctid by hart.
  rewrite settle_locked by done. krun.
  erewrite bind_Ok by (apply mach_Ok; exact Hr). krun. rewrite (proj2 (Z.eqb_neq pa 0)) by done. krun.
  unfold ret. do 2 f_equal. rewrite !alter_alter_same.
  apply list_eq. intros k. destruct (decide (i = k)) as [->|]; [|by rewrite list_lookup_alter_ne, list_lookup_insert_ne].
  rewrite list_lookup_alter_eq, list_lookup_insert_eq by (by eapply lookup_lt_Some). rewrite Hp. simpl. f_equal.
  unfold compose. rewrite !threads_compose. apply threads_ext. by rewrite !alter_alter_same.
Qed.

Lemma allocthread_nomem j :
  find_index t_is_unused (p_threads p) = Some j → free = [] →
  length (p_threads p) = NTHREAD → freeable (ram m) (p <| p_threads ::= alter (half_thread nt i) j |>) free →
  ∃ m' free', allocthread i (mkKstate m ps ip np nt bs (locked (LkProc i) h) tk fi fs) =
    Ok None (mkKstate m' (<[i := freed_proc (p <| p_threads ::= alter (half_thread nt i) j |>)]> ps) ip np
      (i32 (nt + 1)) bs (settle h) tk fi fs) ∧
    pool_step (proc_pages (ram m) (p <| p_threads ::= alter (half_thread nt i) j |>)) none m free m' free'.
Proof.
  intros Hn Hf Hlen Hfr. destruct (kalloc_step m free Hk) as [[_ Hr]|(? & ? & ? & Hf' & _)]; [|congruence].
  unfold allocthread. krun. rewrite (list_lookup_total_correct _ _ _ Hp).
  fold t_is_unused. rewrite Hn.
  rewrite bind_alloctid by hart.
  rewrite settle_locked by done. krun.
  erewrite bind_Ok by (apply mach_Ok; exact Hr). krun. change (0 =? 0) with true. cbv iota.
  assert (Hps : alter (λ p0, p0 <| p_threads ::= alter (λ t, t <| t_backup := 0 |>) j |>) i
      (alter (λ p0, p0 <| p_threads ::= alter (λ t, t <| t_id := nt |> <| t_state := USED |> <| t_tproc := Some i |>) j |>) i ps) =
    <[i := p <| p_threads ::= alter (half_thread nt i) j |>]> ps).
  { rewrite !alter_alter_same.
    apply list_eq. intros k. destruct (decide (i = k)) as [->|]; [|by rewrite list_lookup_alter_ne, list_lookup_insert_ne].
    rewrite list_lookup_alter_eq, list_lookup_insert_eq by (by eapply lookup_lt_Some). rewrite Hp. simpl. f_equal.
    unfold compose. rewrite !threads_compose. apply threads_ext. by rewrite !alter_alter_same. }
  rewrite Hps.
  edestruct (freeproc_ok (F := F) i) as (m' & free' & Hr' & Hst); cycle 4.
  - erewrite bind_Ok by exact Hr'. kred. rewrite bind_release by hart.
    rewrite list_insert_insert_eq. by exists m', free'.
  - kred. apply list_lookup_insert_eq. by eapply lookup_lt_Some.
  - change (length (alter (half_thread nt i) j (p_threads p)) = NTHREAD). by rewrite length_alter.
  - done.
  - done.
Qed.
End Run.
End Allocthread.

(** ** allocproc *)

Section Fresh.
Context `{KernelSymbols}.

(** a slot without backup trapframes *)
Lemma fresh_pages m p q : (∀ j t, p_threads p !! j = Some t → t_backup t = 0) →
  proc_pages m p q ↔ page_at (p_trapframe p) q ∨ (p_pagetable p ≠ 0 ∧ owns m (p_pagetable p) q).
Proof.
  intros Hb. unfold proc_pages, page_at. assert (¬ backups (p_threads p) q); [|tauto].
  intros (j & t & Ht & <- & H0). by apply H0, (Hb j).
Qed.

Lemma fresh_freeable m p free : (∀ j t, p_threads p !! j = Some t → t_backup t = 0) →
  (p_trapframe p ≠ 0 → valid_page (p_trapframe p) ∧ p_trapframe p ∉ free) →
  (p_pagetable p ≠ 0 → (∃ tf, utable m (p_pagetable p) (p_sz p) tf free) ∧ ¬ owns m (p_pagetable p) (p_trapframe p)) →
  freeable m p free.
Proof.
  intros Hb Htf Hpt. assert (Hnb : ∀ q, ¬ backups (p_threads p) q).
  { intros q (j & t & Ht & <- & H0). by apply H0, (Hb j). }
  constructor.
  - intros H0. destruct (Htf H0). done.
  - intros H0. by destruct (Hpt H0).
  - intros j t Ht H0. by destruct H0; apply (Hb j).
  - intros j j' q Hq. destruct (Hnb q). by exists j.
  - intros q H0 Ho. split; [|done]. intros _ ->. by destruct (Hpt H0).
Qed.

Lemma freed_slot i m p free : length (p_threads p) = NTHREAD →
  (∀ j t, p_threads p !! j = Some t → t_state t ≠ RUNNING ∧ (t_state t = UNUSED → t_backup t = 0)) →
  slot_ok i m (freed_proc p) free ∧ ∀ q, ¬ proc_pages m (freed_proc p) q.
Proof.
  intros Hl Ht.
  assert (Hth : ∀ j t, p_threads (freed_proc p) !! j = Some t → t_state t = UNUSED ∧ t_backup t = 0).
  { intros j t. change (p_threads (freed_proc p)) with (freeproc_thread_result <$> p_threads p).
    rewrite list_lookup_fmap. intros (t0 & Ht0 & ->)%fmap_Some. destruct (Ht j t0 Ht0) as [Hr Hu].
    unfold freeproc_thread_result. case_if; [done|]. apply andb_false_iff in E as [E|E]; apply bool_decide_eq_false in E.
    - destruct (decide (t_state t0 = UNUSED)); [auto|done].
    - done. }
  assert (Hnb : ∀ q, ¬ backups (p_threads (freed_proc p)) q).
  { intros q (j & t & Hj & <- & H0). by apply H0, (Hth j). }
  split.
  - constructor; try done.
    + change (length (freeproc_thread_result <$> p_threads p) = NTHREAD). by rewrite length_fmap.
    + intros _. split_and!; try done. intros j t Hj. by apply (Hth j).
    + intros j t Hj. destruct (Hth j t Hj) as [-> ?]. done.
    + intros j j' q Hq. destruct (Hnb q). by exists j.
  - intros q [[? _]|[?|[? _]]]; try done. by apply (Hnb q).
Qed.
End Fresh.

Section Allocproc.
Context {F : Type} `{KernelSymbols}.

(** the slot of a new process before its thread is allocated *)
Definition proc_base (pid tf pt : Z) (p : proc) : proc :=
  p <| p_pid := pid |> <| p_state := USED |> <| p_trapframe := tf |>
    <| p_threads ::= imap (λ j t, t <| t_trapframe := tf + TF_SIZE * Z.of_nat j |>) |>
    <| p_pagetable := pt |>.
Definition default_signals (p : proc) : proc :=
  p <| p_signal_handlers := replicate 32 SIG_DFL |> <| p_signal_handlers_mask := replicate 32 0 |>.
(** the slot that [allocproc] returns *)
Definition new_proc (i : nat) (pid tid tf pt pa : Z) (p : proc) : proc :=
  (default_signals (proc_base pid tf pt p)) <| p_threads ::= alter (new_thread tid i pa) O |>.


(** the unused slot at any point of [allocproc] *)
Section Run.
Context (i : nat) (m : machine) (ps : list proc) (p : proc) (ip : option nat) (np nt : Z) (bs : list bsem)
  (h : hart) (tk : Z) (fi : bool) (fs : F) (free : list Z).
Context (Hinv : table_inv m ps np free) (Hp : ps !! i = Some p) (Hu : p_state p = UNUSED)
  (Hh : hart_ok h) (Hheld : h_held h = []) (Hnp : 0 < np < 2 ^ 31 - 1).

Lemma unused_threads j t : p_threads p !! j = Some t → t_state t = UNUSED ∧ t_backup t = 0.
Proof.
  intros Ht. destruct (so_unused _ _ _ _ (ti_slot _ _ _ _ Hinv i p Hp) Hu) as (_ & _ & _ & _ & Hall).
  assert (Hs := so_thread _ _ _ _ (ti_slot _ _ _ _ Hinv i p Hp) j t Ht). rewrite (Hall j t Ht) in *. done.
Qed.

Lemma unused_pages m' q : ¬ proc_pages m' p q.
Proof.
  destruct (so_unused _ _ _ _ (ti_slot _ _ _ _ Hinv i p Hp) Hu) as (Ht & Hpt & _).
  unfold proc_pages. rewrite Ht, Hpt. intros [[? _]|[(j & t & Hj & <- & H0)|[? _]]]; try done.
  by apply H0, (unused_threads j).
Qed.

(** giving up: the slot [p'] in progress is freed *)
Lemma alloc_fail p' m1 f1 m2 f2 :
  pool_step none (proc_pages (ram m1) p') m free m1 f1 →
  pool_step (proc_pages (ram m1) p') none m1 f1 m2 f2 →
  length (p_threads p') = NTHREAD →
  (∀ j t, p_threads p' !! j = Some t → t_state t ≠ RUNNING ∧ (t_state t = UNUSED → t_backup t = 0)) →
  table_step i m ps free m2 (<[i := freed_proc p']> ps) (i32 (np + 1)) f2.
Proof.
  intros H1 H2 Hl Ht. destruct (freed_slot i (ram m2) p' f2 Hl Ht) as [Hs Hn].
  rewrite i32_small by lia. apply (table_update m ps np free i p); try done; [|lia].
  eapply pool_step_proper; [..|eapply pool_step_trans; [exact H1|exact H2]]; try done; intros q; unfold none.
  - split; [|done]. apply unused_pages.
  - split; [|done]. apply Hn.
Qed.

Lemma base_threads (f : nat → thread → thread) j t :
  (∀ j t, t_state (f j t) = t_state t ∧ t_backup (f j t) = t_backup t) →
  imap f (p_threads p) !! j = Some t → t_state t = UNUSED ∧ t_backup t = 0.
Proof.
  intros Hf. rewrite list_lookup_imap. intros (t0 & Ht0 & ->)%fmap_Some. destruct (Hf j t0) as [-> ->].
  by apply (unused_threads j).
Qed.

Lemma alloc_tf tf m1 f1 :
  tf ≠ 0 → pool_step none (λ q, q = tf) m free m1 f1 →
  pool_step none (proc_pages (ram m1) (proc_base np tf 0 p)) m free m1 f1.
Proof.
  intros H0 Hst. eapply pool_step_proper; [..|exact Hst]; try done. intros q. rewrite fresh_pages.
  - unfold page_at. change (p_trapframe (proc_base np tf 0 p)) with tf. change (p_pagetable (proc_base np tf 0 p)) with 0. tauto.
  - intros j t Ht. by apply (base_threads _ j t) in Ht as [_ ?].
Qed.

Lemma alloc_pt tf m1 f1 pt m2 f2 :
  tf ≠ 0 → valid_page tf → tf ∉ f1 → pool_step none (λ q, q = tf) m free m1 f1 →
  pt ≠ 0 → utable (ram m2) pt 0 tf f2 → pool_step none (owns (ram m2) pt) m1 f1 m2 f2 →
  tf ∉ f2 ∧ ¬ owns (ram m2) pt tf ∧
  pool_step none (proc_pages (ram m2) (proc_base np tf pt p)) m free m2 f2.
Proof.
  intros H0 Hv Hn Hs1 Hpt Hut Hs2.
  destruct (pool_frame _ _ (λ q, q = tf) _ _ _ _ Hs2) as [Hs2' Hd]; [by intros q ->; split; [|intros []]|].
  destruct (Hd tf eq_refl) as [Hn2 Ho]. split_and!; [done|done|].
  assert (Hst : pool_step none (λ q, owns (ram m2) pt q ∨ q = tf) m free m2 f2).
  { apply (pool_step_trans _ (λ q, q = tf) _ _ _ m1 f1 _ _ Hs1).
    apply (pool_conv _ _ _ _ _ _ _ _ Hs2'); intros q; unfold none; tauto. }
  apply (pool_conv _ _ _ _ _ _ _ _ Hst); [done|]. intros q. rewrite fresh_pages.
  - unfold page_at. change (p_trapframe (proc_base np tf pt p)) with tf. change (p_pagetable (proc_base np tf pt p)) with pt. tauto.
  - intros j t Ht. by apply (base_threads _ j t) in Ht as [_ ?].
Qed.

Lemma new_proc_threads tid tf pt pa j t :
  p_threads (new_proc i np tid tf pt pa p) !! j = Some t →
  t_trapframe t = tf + TF_SIZE * Z.of_nat j ∧ t_state t ≠ RUNNING ∧
  ((j = O ∧ t_state t = USED ∧ t_backup t = pa ∧ t_tproc t = Some i) ∨ (j ≠ O ∧ t_state t = UNUSED ∧ t_backup t = 0)).
Proof.
  change (p_threads (new_proc i np tid tf pt pa p)) with
    (alter (new_thread tid i pa) O (imap (λ j t, t <| t_trapframe := tf + TF_SIZE * Z.of_nat j |>) (p_threads p))).
  destruct j as [|j].
  - rewrite list_lookup_alter_eq, list_lookup_imap. destruct (p_threads p !! O) as [t0|] eqn:E; [|done].
    intros [= <-]. split_and!; [done|done|]. by left.
  - rewrite list_lookup_alter_ne, list_lookup_imap by done. destruct (p_threads p !! S j) as [t0|] eqn:E; [|done].
    intros [= <-]. destruct (unused_threads (S j) t0 E) as [Hs Hb]. split_and!; [done| |right; split_and!; done].
    change (t_state t0 ≠ RUNNING). by rewrite Hs.
Qed.

Lemma alloc_done tid tf pt m2 f2 pa m3 f3 :
  valid_page tf → tf ∉ f2 → ¬ owns (ram m2) pt tf → pt ≠ 0 → utable (ram m2) pt 0 tf f2 →
  pool_step none (proc_pages (ram m2) (proc_base np tf pt p)) m free m2 f2 →
  valid_page pa → pa ∉ f3 → pool_step none (λ q, q = pa) m2 f2 m3 f3 →
  slot_ok i (ram m3) (new_proc i np tid tf pt pa p) f3 ∧
  pool_step none (proc_pages (ram m3) (new_proc i np tid tf pt pa p)) m free m3 f3.
Proof.
  intros Hv Hn Hno Hpt Hut Hs2 Hva Hna Hs3. assert (Hk2 := ps_kmem _ _ _ _ _ _ Hs2).
  assert (Hsz : p_sz p = 0) by (by destruct (so_unused _ _ _ _ (ti_slot _ _ _ _ Hinv i p Hp) Hu) as (_ & _ & ? & _)).
  assert (Htf0 : tf ≠ 0) by (unfold valid_page in Hv; lia).
  assert (Hpa0 : pa ≠ 0) by (unfold valid_page in Hva; lia).
  destruct (utable_pool none _ m2 f2 m3 f3 pt 0 tf Hs3 Hk2) as (Hut3 & Ho & _);
    [intros q []|done|intros q _ []|].
  destruct (pool_frame _ _ (λ q, q = tf ∨ owns (ram m2) pt q) _ _ _ _ Hs3) as [Hs3' Hd].
  { intros q [->|Hq]; (split; [|intros []]); [done|]. by destruct (owns_page _ _ _ _ (ut_as _ _ _ _ _ Hut) Hq). }
  assert (Hthr := new_proc_threads tid tf pt pa).
  assert (Hbk : ∀ j q, backup_at (p_threads (new_proc i np tid tf pt pa p)) j q → j = O ∧ q = pa).
  { intros j q (t & Ht & <- & H0). by destruct (Hthr j t Ht) as (_ & _ & [(? & _ & ? & _)|(_ & _ & ?)]). }
  set (p' := new_proc i np tid tf pt pa p) in *.
  assert (Hlen : length (p_threads p') = NTHREAD).
  { unfold p'. change (length (alter (new_thread tid i pa) O
      (imap (λ j t, t <| t_trapframe := tf + TF_SIZE * Z.of_nat j |>) (p_threads p))) = NTHREAD).
    rewrite length_alter, length_imap. apply (so_len _ _ _ _ (ti_slot _ _ _ _ Hinv i p Hp)). }
  split.
  - constructor; [done|done|intros _|..].
    + unfold p'. change (p_pagetable _) with pt. change (p_trapframe _) with tf. change (p_sz _) with (p_sz p). rewrite Hsz, Ho.
      split_and!; try done; [by apply Hd; left|]. intros j t Ht. by destruct (Hthr j t Ht) as (? & _).
    + intros j t Ht. destruct (Hthr j t Ht) as (_ & _ & [(_ & Hst & -> & ->)|(_ & Hst & ->)]); rewrite Hst; simpl.
      * change (p_trapframe p') with tf. change (p_pagetable p') with pt. rewrite Ho. split_and!; try done.
        -- intros ->. by destruct (Hd tf) as [_ []]; [left|].
        -- intros Hq. by destruct (Hd pa) as [_ []]; [right|].
      * done.
    + intros j j' q Hq Hq'. destruct (Hbk _ _ Hq), (Hbk _ _ Hq'). congruence.
  - apply (pool_step_trans _ (proc_pages (ram m2) (proc_base np tf pt p)) _ _ _ m2 f2 _ _ Hs2).
    apply (pool_conv _ _ _ _ _ _ _ _ Hs3'); intros q.
    + rewrite fresh_pages by (intros j t Ht; by apply (base_threads _ j t) in Ht as [_ ?]).
      unfold none, page_at. change (p_trapframe _) with tf. change (p_pagetable _) with pt. tauto.
    + unfold proc_pages. change (p_trapframe p') with tf. change (p_pagetable p') with pt. rewrite Ho.
      assert (Hb : backups (p_threads p') q ↔ q = pa); [|tauto]. split.
      * intros [j Hj]. by apply (Hbk j).
      * intros ->. assert (H0 : (0 < length (p_threads p'))%nat) by (rewrite Hlen; unfold NTHREAD; lia).
        apply lookup_lt_is_Some_2 in H0 as [t Ht]. exists O, t. split_and!; [done| |done].
        by destruct (Hthr O t Ht) as (_ & _ & [(_ & _ & ? & _)|[? _]]).
Qed.

Lemma alloc_first (f : nat → thread → thread) :
  (∀ j t, t_state (f j t) = t_state t ∧ t_backup (f j t) = t_backup t) →
  find_index t_is_unused (imap f (p_threads p)) = Some O.
Proof.
  intros Hf. assert (Hl := so_len _ _ _ _ (ti_slot _ _ _ _ Hinv i p Hp)).
  destruct (p_threads p) as [|t ts] eqn:E; [done|]. simpl.
  assert (t_is_unused (f O t) = true) as ->; [|done]. apply bool_decide_eq_true. destruct (Hf O t) as [-> _].
  apply (unused_threads O). by rewrite E.
Qed.
End Run.

Section Found.
Context (i : nat) (m : machine) (ps : list proc) (p : proc) (ip : option nat) (np nt : Z) (bs : list bsem)
  (h : hart) (tk : Z) (fi : bool) (fs : F) (free : list Z).
Context (Hinv : table_inv m ps np free) (Hp : ps !! i = Some p) (Hu : p_state p = UNUSED)
  (Hh : hart_ok h) (Hheld : h_held h = []) (Hnp : 0 < np < 2 ^ 31 - 1) (Htr : 0 ≤ sym_trampoline < 2 ^ 56).

(** [freeproc] and [release] on a slot in progress *)
Lemma abandon_slot {A} (k : K F A) p' m1 f1 nt' :
  pool_step none (proc_pages (ram m1) p') m free m1 f1 → freeable (ram m1) p' f1 →
  length (p_threads p') = NTHREAD →
  (∀ j t, p_threads p' !! j = Some t → t_state t ≠ RUNNING ∧ (t_state t = UNUSED → t_backup t = 0)) →
  ∃ m2 f2,
    (freeproc i ;;; release (LkProc i) ;;; k)
      (mkKstate m1 (<[i := p']> ps) ip (i32 (np + 1)) nt' bs (locked (LkProc i) h) tk fi fs) =
    k (mkKstate m2 (<[i := freed_proc p']> ps) ip (i32 (np + 1)) nt' bs (settle h) tk fi fs) ∧
    table_step i m ps free m2 (<[i := freed_proc p']> ps) (i32 (np + 1)) f2.
Proof.
  intros Hst Hfr Hl Ht. assert (Hi := lookup_lt_Some _ _ _ Hp).
  edestruct (freeproc_ok (F := F) i (mkKstate m1 (<[i := p']> ps) ip (i32 (np + 1)) nt' bs (locked (LkProc i) h) tk fi fs))
    as (m2 & f2 & Hr & Hst2); [by apply list_lookup_insert_eq|done|apply Hst|exact Hfr|].
  exists m2, f2. rewrite (bind_Ok _ _ _ _ _ Hr). kred. rewrite bind_release by hart.
  rewrite list_insert_insert_eq. split; [done|]. by apply (alloc_fail i m ps p np free Hinv Hp Hu Hnp p' m1 f1).
Qed.

Lemma base_length tf pt : length (p_threads (proc_base np tf pt p)) = NTHREAD.
Proof.
  change (length (imap (λ j t, t <| t_trapframe := tf + TF_SIZE * Z.of_nat j |>) (p_threads p)) = NTHREAD).
  rewrite length_imap. apply (so_len _ _ _ _ (ti_slot _ _ _ _ Hinv i p Hp)).
Qed.

Lemma base_unused tf pt j t : p_threads (proc_base np tf pt p) !! j = Some t → t_state t = UNUSED ∧ t_backup t = 0.
Proof. by apply (base_threads i m ps p np free Hinv Hp Hu). Qed.

(** no page for the backup trapframe: [allocthread] and [allocproc] both free the slot *)
Lemma alloc_nothread tf pt m2 f2 :
  valid_page tf → tf ∉ f2 → ¬ owns (ram m2) pt tf → pt ≠ 0 → utable (ram m2) pt 0 tf f2 →
  pool_step none (proc_pages (ram m2) (proc_base np tf pt p)) m free m2 f2 → f2 = [] →
  ∃ m' f' nt' p',
    (let* t := allocthread i in
     match t with None => freeproc i ;;; ret None | Some j => ret (Some (i, j)) end)
      (mkKstate m2 (<[i := default_signals (proc_base np tf pt p)]> ps) ip (i32 (np + 1)) nt bs
        (locked (LkProc i) h) tk fi fs) =
    Ok None (mkKstate m' (<[i := p']> ps) ip (i32 (np + 1)) nt' bs (settle h) tk fi fs) ∧ p_state p' = UNUSED ∧
    table_step i m ps free m' (<[i := p']> ps) (i32 (np + 1)) f'.
Proof.
  intros Hv Hn Hno Hpt Hut Hst Hf. assert (Hi := lookup_lt_Some _ _ _ Hp).
  set (p1 := default_signals (proc_base np tf pt p)).
  set (p2 := p1 <| p_threads ::= alter (half_thread nt i) O |>).
  assert (Hsz : p_sz p = 0) by (by destruct (so_unused _ _ _ _ (ti_slot _ _ _ _ Hinv i p Hp) Hu) as (_ & _ & ? & _)).
  assert (Hth : ∀ j t, p_threads p2 !! j = Some t → t_backup t = 0 ∧ t_state t ≠ RUNNING).
  { intros j t. change (p_threads p2) with (alter (half_thread nt i) O (p_threads (proc_base np tf pt p))).
    destruct j as [|j]; [rewrite list_lookup_alter_eq; by intros (t0 & _ & ->)%fmap_Some|].
    rewrite list_lookup_alter_ne by done. intros Ht. by destruct (base_unused tf pt (S j) t Ht) as [-> ->]. }
  assert (Hpg : ∀ q, proc_pages (ram m2) (proc_base np tf pt p) q ↔ proc_pages (ram m2) p2 q).
  { intros q. rewrite !fresh_pages; [done| |]; intros j t Ht; [by apply (Hth j)|by apply (base_unused tf pt j)]. }
  assert (Hfr : freeable (ram m2) p2 f2).
  { apply fresh_freeable; [intros j t Ht; by apply (Hth j)|done|]. intros _. split; [|done]. exists tf.
    change (p_sz p2) with (p_sz p). by rewrite Hsz. }
  destruct (allocthread_nomem (F := F) i m2 (<[i := p1]> ps) p1 ip (i32 (np + 1)) nt bs h tk fi fs f2) with (j := O)
    as (m3 & f3 & Hr & Hs3); [by apply list_lookup_insert_eq|done|done|apply Hst| |done|apply base_length|exact Hfr|].
  { by apply (alloc_first i m ps p np free Hinv Hp Hu). }
  fold p2 in Hr, Hs3. rewrite list_insert_insert_eq in Hr. rewrite (bind_Ok _ _ _ _ _ Hr). cbv iota.
  assert (Hl2 : length (p_threads p2) = NTHREAD).
  { change (length (alter (half_thread nt i) O (p_threads (proc_base np tf pt p))) = NTHREAD).
    rewrite length_alter. apply base_length. }
  set (p3 := freed_proc p2) in *.
  destruct (freed_slot i (ram m3) p2 f3 Hl2) as [Hs Hnp3]; [intros j t Ht; by destruct (Hth j t Ht)|].
  fold p3 in Hs, Hnp3.
  assert (Hth3 : ∀ j t, p_threads p3 !! j = Some t → t_state t = UNUSED).
  { destruct (so_unused _ _ _ _ Hs eq_refl) as (_ & _ & _ & _ & Hall). exact Hall. }
  edestruct (freeproc_ok (F := F) i (mkKstate m3 (<[i := p3]> ps) ip (i32 (np + 1)) (i32 (nt + 1)) bs (settle h) tk fi fs))
    as (m4 & f4 & Hr4 & Hs4); [by apply list_lookup_insert_eq|apply (so_len _ _ _ _ Hs)|apply Hs3| |].
  { apply (slot_freeable i); [exact Hs|]. intros j t Ht. by rewrite (Hth3 j t Ht). }
  rewrite (bind_Ok _ _ _ _ _ Hr4). kred. rewrite list_insert_insert_eq.
  exists m4, f4, (i32 (nt + 1)), (freed_proc p3). split_and!; [done|done|].
  apply (alloc_fail i m ps p np free Hinv Hp Hu Hnp p3 m3 f3).
  - apply (pool_step_trans _ (proc_pages (ram m2) p2) _ _ _ m2 f2); [by apply (pool_conv _ _ _ _ _ _ _ _ Hst)|].
    apply (pool_conv _ _ _ _ _ _ _ _ Hs3); [done|]. intros q. split; [by intros []|apply Hnp3].
  - exact Hs4.
  - apply (so_len _ _ _ _ Hs).
  - intros j t Ht. rewrite (Hth3 j t Ht). split; [done|]. intros _.
    assert (Hb := so_thread _ _ _ _ Hs j t Ht). by rewrite (Hth3 j t Ht) in Hb.
Qed.

Lemma valid_page_bound pa : valid_page pa → 0 ≤ pa < 2 ^ 56.
Proof. unfold valid_page. change PHYSTOP with 2281701376. lia. Qed.

(** no page for the trapframes *)
Lemma alloc_notf :
  free = [] → let p' := p <| p_pid := np |> <| p_state := USED |> <| p_trapframe := 0 |> in
  pool_step none (proc_pages (ram m) p') m free m free ∧ freeable (ram m) p' free ∧
  length (p_threads p') = NTHREAD ∧
  ∀ j t, p_threads p' !! j = Some t → t_state t ≠ RUNNING ∧ (t_state t = UNUSED → t_backup t = 0).
Proof.
  intros Hf p'. destruct (so_unused _ _ _ _ (ti_slot _ _ _ _ Hinv i p Hp) Hu) as (_ & Hpt & _).
  assert (Hth : ∀ j t, p_threads p' !! j = Some t → t_state t = UNUSED ∧ t_backup t = 0)
    by (intros j t Ht; by apply (unused_threads i m ps p np free Hinv Hp Hu j)).
  assert (Hb : ∀ j t, p_threads p' !! j = Some t → t_backup t = 0) by (intros j t Ht; by apply (Hth j)).
  split_and!.
  - apply (pool_conv none none none); [apply pool_refl, Hinv|done|]. intros q. rewrite fresh_pages by done.
    unfold page_at, none. change (p_trapframe p') with 0. change (p_pagetable p') with (p_pagetable p). tauto.
  - apply fresh_freeable; [done|done|]. change (p_pagetable p') with (p_pagetable p). done.
  - apply (so_len _ _ _ _ (ti_slot _ _ _ _ Hinv i p Hp)).
  - intros j t Ht. destruct (Hth j t Ht) as [-> ?]. done.
Qed.

(** no page for the page table *)
Lemma alloc_nopt tf m1 f1 m2 f2 :
  tf ≠ 0 → valid_page tf → tf ∉ f1 → pool_step none (λ q, q = tf) m free m1 f1 → pool_step none none m1 f1 m2 f2 →
  let p' := proc_base np tf 0 p in
  pool_step none (proc_pages (ram m2) p') m free m2 f2 ∧ freeable (ram m2) p' f2 ∧
  length (p_threads p') = NTHREAD ∧
  ∀ j t, p_threads p' !! j = Some t → t_state t ≠ RUNNING ∧ (t_state t = UNUSED → t_backup t = 0).
Proof.
  intros H0 Hv Hn Hs1 Hs2 p'.
  destruct (pool_frame _ _ (λ q, q = tf) _ _ _ _ Hs2) as [Hs2' Hd]; [by intros q ->; split; [|intros []]|].
  split_and!.
  - apply (alloc_tf i m ps p np free Hinv Hp Hu Hnp tf); [done|].
    apply (pool_step_trans _ (λ q, q = tf) _ _ _ m1 f1 _ _ Hs1).
    apply (pool_conv _ _ _ _ _ _ _ _ Hs2'); intros q; unfold none; tauto.
  - apply fresh_freeable; [intros j t Ht; by apply (base_unused tf 0 j)| |done].
    intros _. split; [done|]. by apply Hd.
  - apply base_length.
  - intros j t Ht. destruct (base_unused tf 0 j t Ht) as [-> ?]. done.
Qed.

Lemma allocproc_found_ok :
  let s := mkKstate m ps ip np nt bs (locked (LkProc i) h) tk fi fs in
  (∃ tf pt pa m' f',
    allocproc_found i s = Ok (Some (i, O)) (mkKstate m' (<[i := new_proc i np nt tf pt pa p]> ps) ip (i32 (np + 1))
      (i32 (nt + 1)) bs (locked (LkProc i) h) tk fi fs) ∧
    table_step i m ps free m' (<[i := new_proc i np nt tf pt pa p]> ps) (i32 (np + 1)) f' ∧
    (length free ≤ length f' + 7)%nat) ∨
  (∃ p' nt' m' f',
    allocproc_found i s = Ok None (mkKstate m' (<[i := p']> ps) ip (i32 (np + 1)) nt' bs (settle h) tk fi fs) ∧
    p_state p' = UNUSED ∧ table_step i m ps free m' (<[i := p']> ps) (i32 (np + 1)) f' ∧ (length free ≤ 6)%nat).
Proof.
  intros s. unfold s, allocproc_found. assert (Hi := lookup_lt_Some _ _ _ Hp).
  rewrite bind_allocpid by hart. rewrite settle_locked by done. krun. rewrite (insert_alter _ _ _ p Hp).
  destruct (kalloc_step m free (ti_kmem _ _ _ _ Hinv)) as [[Hf0 Hr]|(tf & f1 & m1 & Hf & Hr & Hv & Htf0 & Hn & Hs1)].
  { right. erewrite bind_Ok by (apply mach_Ok; exact Hr). krun. rewrite alter_insert_same.
    change (0 =? 0) with true. cbv iota. destruct (alloc_notf Hf0) as (Ha & Hb & Hc & Hd).
    destruct (abandon_slot (A := option (nat * nat)) (ret None) _ _ _ nt Ha Hb Hc Hd) as (m2 & f2 & Hr2 & Hst).
    eexists _, nt, m2, f2. rewrite Hr2. split_and!; [done|done|exact Hst|rewrite Hf0; simpl; lia]. }
  erewrite bind_Ok by (apply mach_Ok; exact Hr). krun. rewrite alter_insert_same.
  rewrite (proj2 (Z.eqb_neq tf 0)) by done.
  erewrite bind_Ok by (apply (for_threads i (λ j t, t <| t_trapframe := tf + TF_SIZE * Z.of_nat j |>));
    [kred; apply shaped_insert; [by eapply table_shaped|apply (so_len _ _ _ _ (ti_slot _ _ _ _ Hinv i p Hp))]
    |rewrite <- (ti_len _ _ _ _ Hinv); exact Hi|done]).
  kred. rewrite alter_insert_same.
  destruct (proc_pagetable_ok (E := Empty_set) tf m1 f1 (ps_kmem _ _ _ _ _ _ Hs1) (valid_page_bound tf Hv) Htr)
    as (pt & m2 & f2 & Hr2 & [(-> & Hs2 & Hl2)|(Hpt & Hut & Hs2 & Hl2)]);
    erewrite bind_Ok by (apply mach_Ok; exact Hr2); krun; rewrite alter_insert_same.
  - right. change (0 =? 0) with true. cbv iota.
    match goal with |- context [<[i := ?x]> ps] => change x with (proc_base np tf 0 p) end.
    destruct (alloc_nopt tf m1 f1 m2 f2 Htf0 Hv Hn Hs1 Hs2) as (Ha & Hb & Hc & Hd).
    destruct (abandon_slot (A := option (nat * nat)) (ret None) _ _ _ nt Ha Hb Hc Hd) as (m3 & f3 & Hr3 & Hst).
    eexists _, nt, m3, f3. rewrite Hr3. split_and!; [done|done|exact Hst|rewrite Hf; simpl; lia].
  - rewrite (proj2 (Z.eqb_neq pt 0)) by done. krun. rewrite alter_insert_same.
    match goal with |- context [<[i := ?x]> ps] => change x with (default_signals (proc_base np tf pt p)) end.
    destruct (alloc_pt i m ps p np free Hinv Hp Hu Hnp tf m1 f1 pt m2 f2) as (Hn2 & Hno & Hst); try done.
    destruct f2 as [|pa f3].
    + right. destruct (alloc_nothread tf pt m2 []) as (m' & f' & nt' & p' & Hr3 & Hu' & Hst'); try done.
      exists p', nt', m', f'. split_and!; [exact Hr3|done|done|rewrite Hf; simpl in *; lia].
    + left. edestruct (allocthread_new (F := F) i m2 (<[i := default_signals (proc_base np tf pt p)]> ps)
        (default_signals (proc_base np tf pt p)) ip (i32 (np + 1)) nt bs h tk fi fs (pa :: f3)) with (j := O)
        as (m3 & Hr3 & Hva & Hna & Hs3);
        [by apply list_lookup_insert_eq|done|done|apply Hst|by apply (alloc_first i m ps p np free Hinv Hp Hu)|done|].
      rewrite list_insert_insert_eq in Hr3. exists tf, pt, pa, m3, f3.
      erewrite bind_Ok by exact Hr3. split; [done|].
      destruct (alloc_done i m ps p np free Hinv Hp Hu Hnp nt tf pt m2 (pa :: f3) pa m3 f3) as [Hso Hst3]; try done.
      split; [|rewrite Hf; simpl in *; lia].
      rewrite i32_small by lia. apply (table_update m ps np free i p); try done; [|lia|].
      * apply (pool_conv _ _ _ _ _ _ _ _ Hst3); [|done]. intros q. split; [by intros []|].
        by intros ?%(unused_pages i m ps p np free Hinv Hp Hu).
      * intros _. right. change (p_pid _) with np. lia.
Qed.
End Found.
End Allocproc.

(** ** The specification *)

Section Spec.
Context {F : Type} `{KernelSymbols}.

(** an idle hart: it holds no spinlock *)
Definition unlocked_hart (h : hart) : Prop := hart_ok h ∧ h_held h = [].

(** the used slots are untouched, and so is their memory *)
Definition others_kept (s s' : kstate F) : Prop :=
  ∀ j pj, k_proc s !! j = Some pj → p_state pj ≠ UNUSED →
    k_proc s' !! j = Some pj ∧
    ∀ va, 0 ≤ va < TRAPFRAME → uview (ram (k_mach s')) (p_pagetable pj) va = uview (ram (k_mach s)) (p_pagetable pj) va.

(** the same pages in the process table and on the free list together *)
Definition pages_kept (s : kstate F) (free : list Z) (s' : kstate F) (free' : list Z) : Prop :=
  ∀ q, q ∈ free' ∨ table_pages (ram (k_mach s')) (k_proc s') q ↔
       q ∈ free ∨ table_pages (ram (k_mach s)) (k_proc s) q.

Lemma table_step_spec i m ps free m' p' np' free' p ip np nt bs h tk fi (fs : F) nt' h' :
  table_step i m ps free m' (<[i := p']> ps) np' free' → ps !! i = Some p → p_state p = UNUSED →
  let s := mkKstate m ps ip np nt bs h tk fi fs in
  let s' := mkKstate m' (<[i := p']> ps) ip np' nt' bs h' tk fi fs in
  table_inv m' (<[i := p']> ps) np' free' ∧ pages_kept s free s' free' ∧ others_kept s s'.
Proof.
  intros (Hi & Hpool & Hview & _) Hp Hu s s'. split_and!; [done|exact Hpool|].
  intros j pj Hpj Huj. simpl in *. destruct (decide (j = i)) as [->|Hne]; [congruence|].
  rewrite list_lookup_insert_ne by done. split; [done|]. by apply (Hview j).
Qed.

Lemma new_proc_facts i np nt tf pt pa p m free :
  slot_ok i m (new_proc i np nt tf pt pa p) free → p_state p = UNUSED → p_sz p = 0 →
  let p' := new_proc i np nt tf pt pa p in
  (∀ va, 0 ≤ va < TRAPFRAME → uview m (p_pagetable p') va = None) ∧
  ∃ t, p_threads p' !! O = Some t ∧ t_state t = USED ∧ t_id t = nt ∧
    t_context t = mkContext sym_forkret (t_kstack t + PGSIZE) (replicate 12 0).
Proof.
  intros Hs Hu Hsz p'. split.
  - intros va Hva. destruct (so_used _ _ _ _ Hs) as (_ & _ & _ & Hut & _); [done|].
    assert (Hsized := ut_sized _ _ _ _ _ Hut va Hva). change (p_sz _) with (p_sz p) in Hsized. rewrite Hsz in Hsized.
    change (PGROUNDUP 0) with 0 in Hsized. destruct (uview m (p_pagetable p') va) eqn:E; [|done].
    assert (va < 0); [|lia]. apply Hsized. fold p'. by rewrite E.
  - assert (Hl := so_len _ _ _ _ Hs). fold p' in Hl.
    assert (H0 : (0 < length (p_threads p'))%nat) by (rewrite Hl; unfold NTHREAD; lia).
    apply lookup_lt_is_Some_2 in H0 as [t Ht]. exists t. split; [done|].
    change (p_threads p') with
      (alter (new_thread nt i pa) O (imap (λ j t, t <| t_trapframe := tf + TF_SIZE * Z.of_nat j |>) (p_threads p))) in Ht.
    rewrite list_lookup_alter_eq in Ht. by apply fmap_Some in Ht as (t0 & _ & ->).
Qed.

End Spec.
