(* ===== verification/Process.v ===== *)
(** * Process system calls (src/kernel/proc.c)

    [userinit], [fork], [reparent], [exit], [wait], [kill] and the copies to
    and from user or kernel memory.  Loops that sleep take as fuel the number
    of times they may be woken. *)

From S2P Require Import Prelude Mem Riscv Kalloc Vm Uvm Pagetable Kstate Spinlock Proc.

(** [safestrcpy] between two arrays outside of the modelled RAM *)
Definition arr_safestrcpy (dst src : list byte) (n : Z) : list byte :=
  let d := Z.of_nat (length src) in
  ldbytes (length dst) (safestrcpy d 0 n (stbytes d dst (stbytes 0 src ∅))) d.

Definition initcode : list byte :=
  [x17; x05; x00; x00; x13; x05; x45; x02;
   x97; x05; x00; x00; x93; x85; x35; x02;
   x93; x08; x70; x00; x73; x00; x00; x00;
   x93; x08; x20; x00; x73; x00; x00; x00;
   xef; xf0; x9f; xff; x2f; x69; x6e; x69;
   x74; x00; x00; x24; x00; x00; x00; x00;
   x00; x00; x00; x00].

(** "initcode" and "/" with their terminators *)
Definition str_initcode : list byte := [x69; x6e; x69; x74; x63; x6f; x64; x65; x00].
Definition str_root : list byte := [x2f; x00].

Section Process.
Context {F : Type} `{KernelSymbols} `{FileSys F}.

Definition userinit : K F unit :=
  let* nt := allocproc in
  match nt with
  | None => null_deref
  | Some (i, j) =>
      modify (λ s, s <| k_initproc := Some i |>) ;;;
      let* p := getp i in
      mach (uvminit (p_pagetable p) initcode) ;;;
      setp i (λ p, p <| p_sz := PGSIZE |>) ;;;
      let* t := gett i j in
      tf_set (t_trapframe t) TF_EPC 0 ;;;
      tf_set (t_trapframe t) TF_SP PGSIZE ;;;
      setp i (λ p, p <| p_name ::= λ n, arr_safestrcpy n str_initcode 16 |>) ;;;
      let* cwd := namei str_root in
      setp i (λ p, p <| p_cwd := cwd |> <| p_state := RUNNABLE |> <| p_frozen := 0 |>
                     <| p_signal_mask := 0 |>) ;;;
      sett i j (λ t, t <| t_state := RUNNABLE |>) ;;;
      release (LkProc i)
  end.

Definition fork : K F Z :=
  let* i := myproc' in
  let* '(ti, tj) := mythread' in
  let* nt := allocproc in
  match nt with
  | None => ret (-1)
  | Some (ni, nj) =>
      let* p := getp i in
      let* np := getp ni in
      let* r := mach (uvmcopy (p_pagetable p) (p_pagetable np) (p_sz p)) in
      if r <? 0 then
        freeproc ni ;;;
        release (LkProc ni) ;;;
        ret (-1)
      else
        setp ni (λ np, np <| p_sz := p_sz p |>) ;;;
        let* t := gett ti tj in
        let* nt := gett ni nj in
        mach (mem_move (t_trapframe nt) (t_trapframe t) TF_SIZE) ;;;
        tf_set (t_trapframe nt) TF_A0 0 ;;;
        for_each (seq 0 NOFILE) (λ fd,
          let* p := getp i in
          when (negb (p_ofile p !!! fd =? 0))
            (let* f := filedup (p_ofile p !!! fd) in
             setp ni (λ np, np <| p_ofile ::= <[fd := f]> |>))) ;;;
        let* p := getp i in
        let* cwd := idup (p_cwd p) in
        setp ni (λ np, np <| p_cwd := cwd |>) ;;;
        let* p := getp i in
        setp ni (λ np, np <| p_name ::= λ n, arr_safestrcpy n (p_name p) 16 |>) ;;;
        let* np := getp ni in
        let pid := p_pid np in
        setp ni (λ np, np <| p_signal_mask := p_signal_mask p |>
                          <| p_signal_handlers := p_signal_handlers p |>
                          <| p_signal_handlers_mask := p_signal_handlers_mask p |>
                          <| p_frozen := 0 |> <| p_signal_handling_flag := 0 |>) ;;;
        release (LkProc ni) ;;;
        acquire LkWait ;;;
        setp ni (λ np, np <| p_parent := Some i |>) ;;;
        release LkWait ;;;
        acquire (LkProc ni) ;;;
        setp ni (λ np, np <| p_state := RUNNABLE |>) ;;;
        sett ni nj (λ t, t <| t_state := RUNNABLE |>) ;;;
        release (LkProc ni) ;;;
        ret pid
  end.

Definition reparent (i : nat) : K F unit :=
  for_each (seq 0 NPROC) (λ k,
    let* pp := getp k in
    when (bool_decide (p_parent pp = Some i))
      (let* init := gets k_initproc in
       setp k (λ pp, pp <| p_parent := init |>) ;;;
       wakeup (ChProc <$> init))).

Definition exit_close (i : nat) : K F unit :=
  for_each (seq 0 NOFILE) (λ fd,
    let* p := getp i in
    when (negb (p_ofile p !!! fd =? 0))
      (fileclose (p_ofile p !!! fd) ;;;
       setp i (λ p, p <| p_ofile ::= <[fd := 0]> |>))).

Definition exit_thread (status : Z) (t : thread) : thread :=
  if bool_decide (t_state t ≠ UNUSED) && bool_decide (t_state t ≠ ZOMBIE)
  then t <| t_state := ZOMBIE |> <| t_xstate := status |> else t.

Definition exit {A} (status : Z) : K F A :=
  let* i := myproc' in
  let* init := gets k_initproc in
  if bool_decide (init = Some i) then panic "init exiting"
  else
    exit_close i ;;;
    begin_op ;;;
    let* p := getp i in
    iput (p_cwd p) ;;;
    end_op ;;;
    setp i (λ p, p <| p_cwd := 0 |>) ;;;
    acquire LkWait ;;;
    reparent i ;;;
    let* p := getp i in
    wakeup (ChProc <$> p_parent p) ;;;
    acquire (LkProc i) ;;;
    for_each (seq 0 NTHREAD) (λ j, sett i j (exit_thread status)) ;;;
    setp i (λ p, p <| p_xstate := status |> <| p_state := ZOMBIE |>) ;;;
    release LkWait ;;;
    sched ;;;
    panic "zombie exit".

(** one scan for exited children: [inl] is the result of [wait], [inr] whether
    there are children *)
Fixpoint wait_scan (i : nat) (addr : Z) (ns : list nat) (havekids : bool) : K F (Z + bool) :=
  match ns with
  | [] => ret (inr havekids)
  | n :: ns' =>
      let* np := getp n in
      if bool_decide (p_parent np = Some i) then
        acquire (LkProc n) ;;;
        let* np := getp n in
        if bool_decide (p_state np = ZOMBIE) then
          let pid := p_pid np in
          let* p := getp i in
          let* r := if negb (addr =? 0)
                    then mach (copyout (p_pagetable p) addr (le_split 4 (p_xstate np)))
                    else ret 0 in
          if r <? 0 then
            release (LkProc n) ;;;
            release LkWait ;;;
            ret (inl (-1))
          else
            freeproc n ;;;
            release (LkProc n) ;;;
            release LkWait ;;;
            ret (inl pid)
        else
          release (LkProc n) ;;;
          wait_scan i addr ns' true
      else wait_scan i addr ns' havekids
  end.

Definition wait_body (i : nat) (addr : Z) : K F (unit + Z) :=
  let* r := wait_scan i addr (seq 0 NPROC) false in
  match r with
  | inl result => ret (inr result)
  | inr havekids =>
      let* p := getp i in
      if negb havekids || negb (p_killed p =? 0) then
        release LkWait ;;;
        ret (inr (-1))
      else
        sleep (ChProc i) LkWait ;;;
        ret (inl tt)
  end.
Definition wait (fuel : nat) (addr : Z) : K F Z :=
  let* i := myproc' in
  acquire LkWait ;;;
  iterate fuel (λ _, wait_body i addr) tt.

Definition kill_scan (pid signum : Z) (i : nat) : K F (option Z) :=
  acquire (LkProc i) ;;;
  let* p := getp i in
  if p_pid p =? pid then
    setp i (λ p, p <| p_pendding_signals ::= λ x, Z.lor x (u32 (Z.shiftl 1 signum)) |>) ;;;
    release (LkProc i) ;;;
    ret (Some 0)
  else
    release (LkProc i) ;;;
    ret None.
Definition kill (pid signum : Z) : K F Z :=
  if (signum <? 0) || (31 <? signum) then ret (-1)
  else
    let* r := for_until (seq 0 NPROC) (kill_scan pid signum) in
    ret (default (-1) r).

(** A kernel buffer is the list of its bytes. *)
Definition either_copyout (user_dst : bool) (dst : Z) (src : list byte) : K F Z :=
  let* i := myproc in
  if user_dst then
    match i with
    | None => null_deref
    | Some i => let* p := getp i in mach (copyout (p_pagetable p) dst src)
    end
  else mach (modify (λ m, m <| ram ::= stbytes dst src |>)) ;;; ret 0.

Definition either_copyin (user_src : bool) (src len : Z) : K F (Z * list byte) :=
  let* i := myproc in
  if user_src then
    match i with
    | None => null_deref
    | Some i => let* p := getp i in mach (copyin (p_pagetable p) src len)
    end
  else
    let* bs := mach (gets (λ m, ldbytes (Z.to_nat len) (ram m) src)) in
    ret (0, bs).
End Process.

(** ** kill *)

Section Kill.
Context {F : Type}.

(** the table after a signal to process [pid] *)
Definition signalled (pid signum : Z) (ps : list proc) : list proc :=
  match find_index (λ p, p_pid p =? pid) ps with
  | Some i => alter (λ p, p <| p_pendding_signals ::= λ x, Z.lor x (u32 (Z.shiftl 1 signum)) |>) i ps
  | None => ps
  end.

Lemma kill_ok pid signum (s : kstate F) :
  hart_ok (k_hart s) → h_held (k_hart s) = [] → length (k_proc s) = NPROC →
  kill pid signum s =
    if decide (0 ≤ signum ≤ 31)
    then Ok (if find_index (λ p, p_pid p =? pid) (k_proc s) then 0 else -1)
      (s <| k_proc ::= signalled pid signum |> <| k_hart ::= settle |>)
    else Ok (-1) s.
Proof.
  intros Hh Hn Hl. destruct s as [m ps ip np nt bs h tk fi fs]. simpl in Hh, Hn, Hl. kred.
  unfold kill. destruct (decide (0 ≤ signum ≤ 31)) as [Hs|Hs]; cycle 1.
  { assert ((signum <? 0) || (31 <? signum) = true) as ->; [|done].
    apply orb_true_iff. rewrite !Z.ltb_lt. lia. }
  assert ((signum <? 0) || (31 <? signum) = false) as ->.
  { apply orb_false_iff. rewrite !Z.ltb_ge. lia. }
  assert (Hr : for_until (seq 0 NPROC) (kill_scan pid signum) (mkKstate m ps ip np nt bs h tk fi fs) =
    Ok (if find_index (λ p, p_pid p =? pid) ps then Some 0 else None)
      (mkKstate m (signalled pid signum ps) ip np nt bs (settle h) tk fi fs)).
  { unfold signalled. set (c := λ p, p_pid p =? pid).
    assert (Hscan := lock_scan_ok c (λ i,
      setp i (λ p, p <| p_pendding_signals ::= λ x, Z.lor x (u32 (Z.shiftl 1 signum)) |>) ;;;
      release (LkProc i) ;;; ret (Some 0)) m ps ip np nt bs h tk fi fs Hh Hn Hl 0).
    destruct (find_index c ps) as [i|].
    - apply Hscan. intros i' [= <-]. krun. by rewrite bind_release by hart.
    - by apply (Hscan (mkKstate m ps ip np nt bs h tk fi fs)). }
  rewrite (bind_Ok _ _ _ _ _ Hr). by destruct (find_index _ ps).
Qed.
End Kill.
