(* ===== verification/Wait.v ===== *)
(** * wait (src/kernel/proc.c)

    What [wait] does to the process table: it reaps the first exited child,
    and every page of that child is back on the free list. *)

From S2P Require Import Prelude Mem Riscv Kalloc Vm Uvm Pagetable VmSpec Kstate Spinlock Proc.
From S2P Require Import ProcMem ProcAlloc Process.

Definition is_child (i : nat) (p : proc) : bool := bool_decide (p_parent p = Some i).
Definition is_zombie_child (i : nat) (p : proc) : bool :=
  bool_decide (p_parent p = Some i) && bool_decide (p_state p = ZOMBIE).

(** equal views are equal memory *)
Lemma view_ubyte `{KernelSymbols} m m' pt free free' v :
  aspace m pt free → aspace m' pt free' →
  (∀ va, 0 ≤ va < TRAPFRAME → uview m' pt va = uview m pt va) → ubyte m' pt v = ubyte m pt v.
Proof.
  intros Has Has' Hv. unfold ubyte. case_if; [|done].
  assert (Hsplit : ∀ m0, (upage m0 pt v ≫= λ pa, Some (ld8 m0 (pa + v mod PGSIZE))) =
    if has (pte_at m0 pt v) PTE_U then (uview m0 pt v ≫= λ x, Some x.2) else None).
  { intros m0. unfold upage, uview, lpage.
    destruct (has (pte_at m0 pt v) PTE_V), (has (pte_at m0 pt v) PTE_U); done. }
  destruct (Z.lt_ge_cases v TRAPFRAME); rewrite !Hsplit; cycle 1.
  { rewrite (as_top _ _ _ Has), (as_top _ _ _ Has') by lia. done. }
  assert (Hvv := Hv v ltac:(lia)). rewrite Hvv.
  destruct (uview m pt v) as [[fl b]|] eqn:E1; [|by destruct (has _ _), (has _ _)].
  assert (Hfl : ∀ m0, uview m0 pt v = Some (fl, b) → has (pte_at m0 pt v) PTE_U = has fl PTE_U).
  { intros m0. unfold uview. destruct (lpage m0 pt v); [|done]. simpl. intros [= <- _]. unfold has, PTE_FLAGS.
    by rewrite <- Z.land_assoc. }
  rewrite (Hfl m E1), (Hfl m'); [done|congruence].
Qed.

Section Wait.
Context {F : Type} `{KernelSymbols}.
Context (i : nat) (addr : Z) (m : machine) (ps : list proc) (ip : option nat) (np nt : Z) (bs : list bsem)
  (h : hart) (tk : Z) (fi : bool) (fs : F).
Context (Hh : hart_ok h) (Hheld : h_held h = []).

(** the scan passes over slots that are not exited children *)
Lemma wait_scan_skip ns rest kids :
  (∀ n, n ∈ ns → is_zombie_child i (ps !!! n) = false) →
  wait_scan i addr (ns ++ rest) kids (mkKstate m ps ip np nt bs (locked LkWait h) tk fi fs) =
  wait_scan i addr rest (kids || existsb (λ n, is_child i (ps !!! n)) ns)
    (mkKstate m ps ip np nt bs (locked LkWait h) tk fi fs).
Proof.
  revert kids. induction ns as [|n ns IH]; intros kids Hns; simpl.
  { by rewrite orb_false_r. }
  krun. unfold is_zombie_child, is_child in *. assert (Hn := Hns n ltac:(set_solver)).
  destruct (bool_decide (p_parent (ps !!! n) = Some i)) eqn:Ep; simpl in Hn.
  - rewrite bind_acquire by hart. krun. rewrite Hn. rewrite bind_release by hart. rewrite settle_locked by hart.
    rewrite IH by (intros; apply Hns; set_solver). by rewrite orb_true_l, orb_true_r.
  - rewrite IH by (intros; apply Hns; set_solver). done.
Qed.

Context (free : list Z) (n : nat) (pi pn : proc).
Context (Hinv : table_inv m ps np free) (Hpi : ps !! i = Some pi) (Hui : p_state pi ≠ UNUSED) (Hni : n ≠ i)
  (Hpn : ps !! n = Some pn) (Hz : is_zombie_child i pn = true)
  (Hrun : ∀ j t, p_threads pn !! j = Some t → t_state t ≠ RUNNING) (Haddr : 0 ≤ addr).

(** the exit status is delivered, or not *)
Lemma wait_copyout :
  ∃ r m1, (if negb (addr =? 0)
           then mach (copyout (p_pagetable pi) addr (le_split 4 (p_xstate pn)))
           else ret 0) (mkKstate m ps ip np nt bs (locked (LkProc n) (locked LkWait h)) tk fi fs) =
      Ok r (mkKstate m1 ps ip np nt bs (locked (LkProc n) (locked LkWait h)) tk fi fs) ∧
    table_step i m ps free m1 ps np free ∧
    ((r = 0 ∧ (addr ≠ 0 → user_bytes (ram m1) (p_pagetable pi) addr (le_split 4 (p_xstate pn)))) ∨
     (r = -1 ∧ addr ≠ 0 ∧ ∃ k, 0 ≤ k < 4 ∧ ubyte (ram m) (p_pagetable pi) (addr + k) = None)).
Proof.
  destruct (so_used _ _ _ _ (ti_slot _ _ _ _ Hinv i pi Hpi) Hui) as (_ & _ & _ & Hut & _).
  destruct (Z.eqb_spec addr 0) as [E0|E0]; cbn [negb].
  { exists 0, m. split; [done|]. split; [|by left]. split_and!; done. }
  destruct (copyout_ok (E := Empty_set) (p_pagetable pi) addr (le_split 4 (p_xstate pn)) m free)
    as (k & r & m1 & Hr & Hw & Hcase); [apply Hinv|apply aspace_uvm, Hut|done|].
  exists r, m1. split; [by apply mach_Ok|].
  split; [by apply (table_written m ps np free i pi addr (take k (le_split 4 (p_xstate pn))))|].
  destruct Hcase as [[-> Hk]|(-> & Hk & Hub)].
  - left. split; [done|]. intros _ j Hj. rewrite (uw_byte _ _ _ _ _ _ Hw), take_ge by lia.
    rewrite decide_True by lia. f_equal. lia.
  - right. rewrite length_le_split in Hk. split_and!; [done|done|]. exists (Z.of_nat k). split; [lia|done].
Qed.

Lemma wait_reap rest kids :
  ∃ r m' ps' free',
    wait_scan i addr (n :: rest) kids (mkKstate m ps ip np nt bs (locked LkWait h) tk fi fs) =
      Ok (inl r) (mkKstate m' ps' ip np nt bs (settle h) tk fi fs) ∧
    table_inv m' ps' np free' ∧
    (∀ q, q ∈ free' ∨ table_pages (ram m') ps' q ↔ q ∈ free ∨ table_pages (ram m) ps q) ∧
    ((r = p_pid pn ∧ ps' = <[n := freed_proc pn]> ps ∧ (∀ q, proc_pages (ram m) pn q → q ∈ free') ∧
      (addr ≠ 0 → user_bytes (ram m') (p_pagetable pi) addr (le_split 4 (p_xstate pn)))) ∨
     (r = -1 ∧ ps' = ps ∧ free' = free ∧ addr ≠ 0 ∧
      ∃ k, 0 ≤ k < 4 ∧ ubyte (ram m) (p_pagetable pi) (addr + k) = None)).
Proof.
  assert (Hz' := Hz). unfold is_zombie_child in Hz'. apply andb_prop in Hz' as [Hpar Hst].
  simpl. krun. rewrite (list_lookup_total_correct _ _ _ Hpn), Hpar.
  rewrite bind_acquire by hart. krun. rewrite (list_lookup_total_correct _ _ _ Hpn), Hst. krun.
  rewrite (list_lookup_total_correct _ _ _ Hpi).
  destruct wait_copyout as (r & m1 & Hr & (Hinv1 & Hpool1 & Hview1 & Hpg1) & Hcase). rewrite (bind_Ok _ _ _ _ _ Hr).
  destruct Hcase as [[-> Hbytes]|(-> & Haddr0 & Hub)].
  2: { change (-1 <? 0) with true. cbv iota. rewrite bind_release by hart. rewrite settle_locked by hart.
    rewrite bind_release by hart. exists (-1), m1, ps, free. split_and!; try done. right. done. }
  change (0 <? 0) with false. cbv iota.
  assert (Hs1 := ti_slot _ _ _ _ Hinv1 n pn Hpn).
  edestruct (freeproc_ok (F := F) n (mkKstate m1 ps ip np nt bs (locked (LkProc n) (locked LkWait h)) tk fi fs) pn free)
    as (m2 & f2 & Hr2 & Hst2); [done|apply Hs1|apply Hinv1|by apply (slot_freeable n)|].
  rewrite (bind_Ok _ _ _ _ _ Hr2). kred. rewrite bind_release by hart. rewrite settle_locked by hart.
  rewrite bind_release by hart. exists (p_pid pn), m2, (<[n := freed_proc pn]> ps), f2. split; [done|].
  destruct (freed_slot n (ram m2) pn f2 (so_len _ _ _ _ Hs1)) as [Hs2 Hnone].
  { intros j t Ht. split; [by apply (Hrun j)|]. intros Hut. assert (Hb := so_thread _ _ _ _ Hs1 j t Ht).
    by rewrite decide_True in Hb. }
  destruct (table_update m1 ps np free n pn m2 (freed_proc pn) np f2 Hinv1 Hpn) as (Hinv2 & Hpool2 & Hview2 & _);
    [|done|lia|done|].
  { apply (pool_conv _ _ _ _ _ _ _ _ Hst2); [done|]. intros q. split; [by intros []|apply Hnone]. }
  split_and!; [done|intros q; by rewrite Hpool2, Hpool1|]. left. split_and!; [done|done| |].
  - intros q Hq. apply (Hpg1 n pn q Hni Hpn) in Hq.
    by destruct (proj2 (ps_pool _ _ _ _ _ _ Hst2 q) (or_intror Hq)) as [|[]].
  - intros Ha j Hj. rewrite <- (Hbytes Ha j Hj).
    assert (Hpi2 : <[n := freed_proc pn]> ps !! i = Some pi) by (by rewrite list_lookup_insert_ne).
    destruct (so_used _ _ _ _ (ti_slot _ _ _ _ Hinv1 i pi Hpi) Hui) as (_ & _ & _ & Hut1 & _).
    destruct (so_used _ _ _ _ (ti_slot _ _ _ _ Hinv2 i pi Hpi2) Hui) as (_ & _ & _ & Hut2 & _).
    apply (view_ubyte _ _ _ free f2); [apply Hut1|apply Hut2|]. by apply (Hview2 i).
Qed.
End Wait.
