(* ===== verification/ProcSpec.v ===== *)
(** * What the process operations do (src/kernel/proc.c)

    Specifications of [kill], [wakeup] and [wait] on the process table, with a
    table on which they can be tried. *)

From S2P Require Import Prelude Mem Riscv Kalloc Vm Uvm Pagetable VmSpec Kstate Spinlock Proc Sched.
From S2P Require Import ProcMem ProcAlloc Process Wait.

Section Spec.
Context {F : Type} `{KernelSymbols}.

(** an update of a slot that leaves its memory, its pid and its threads alone *)
Lemma table_inv_touch m ps np free i p p1 :
  table_inv m ps np free → ps !! i = Some p →
  p_threads p1 = p_threads p → p_trapframe p1 = p_trapframe p → p_pagetable p1 = p_pagetable p →
  p_sz p1 = p_sz p → p_pid p1 = p_pid p → (p_state p1 = UNUSED ↔ p_state p = UNUSED) →
  table_inv m (<[i := p1]> ps) np free.
Proof.
  intros Hinv Hp Et Etf Ept Esz Epid Est.
  assert (Hpages : ∀ q, proc_pages (ram m) p1 q ↔ proc_pages (ram m) p q).
  { intros q. unfold proc_pages. by rewrite Et, Etf, Ept. }
  assert (Hcase : ∀ j pj, <[i := p1]> ps !! j = Some pj → ∃ p0, ps !! j = Some p0 ∧
    (∀ q, proc_pages (ram m) pj q ↔ proc_pages (ram m) p0 q) ∧ p_pid pj = p_pid p0 ∧ (p_state pj = UNUSED ↔ p_state p0 = UNUSED)).
  { intros j pj Hj. apply list_lookup_insert_Some in Hj as [(-> & -> & _)|[Hne Hj]]; eauto. }
  split.
  - apply Hinv.
  - rewrite length_insert. apply Hinv.
  - intros j pj Hj. apply list_lookup_insert_Some in Hj as [(-> & -> & _)|[Hne Hj]]; [|by apply Hinv].
    destruct (ti_slot _ _ _ _ Hinv j p Hp) as [H1 H2 H3 H4 H5]. split; rewrite ?Et, ?Etf, ?Ept, ?Esz, ?Epid, ?Est; auto.
  - intros j k pj pk q Hj Hk Hqj Hqk. destruct (Hcase j pj Hj) as (p0 & H0 & Hq0 & _), (Hcase k pk Hk) as (p0' & H0' & Hq0' & _).
    eapply (ti_disj _ _ _ _ Hinv); eauto; [by apply Hq0|by apply Hq0'].
  - intros j pj Hj Hu. destruct (Hcase j pj Hj) as (p0 & H0 & _ & -> & Hs). eapply (ti_pid _ _ _ _ Hinv); eauto. tauto.
  - intros j k pj pk Hj Hk Huj Huk Heq.
    destruct (Hcase j pj Hj) as (p0 & H0 & _ & E0 & Hs), (Hcase k pk Hk) as (p0' & H0' & _ & E0' & Hs').
    eapply (ti_pid_inj _ _ _ _ Hinv); eauto; [tauto|tauto|congruence].
Qed.

(** ** kill *)

Lemma sigbit_set x n : 0 ≤ n ≤ 31 → Z.lor x (u32 (Z.shiftl 1 n)) = Z.setbit x n.
Proof.
  intros Hn. unfold Z.setbit. f_equal. apply u32_small. rewrite Z.shiftl_1_l.
  split; [apply Z.pow_nonneg; lia|]. apply Z.pow_lt_mono_r; lia.
Qed.

(** [kill] on a table of processes.  A number that is not a signal is
    refused.  Otherwise the signal becomes pending in the one process with the
    given pid and [kill] returns 0; when there is none, it returns -1.  Nothing
    else in the table changes and no lock stays held. *)
Theorem kill_spec pid signum (s : kstate F) free :
  table_inv (k_mach s) (k_proc s) (k_nextpid s) free → unlocked_hart (k_hart s) → 0 < pid →
  ∃ r ps', kill pid signum s = Ok r (s <| k_proc := ps' |> <| k_hart := if decide (0 ≤ signum ≤ 31) then settle (k_hart s) else k_hart s |>) ∧
    ((r = 0 ∧ 0 ≤ signum ≤ 31 ∧ ∃ i p, k_proc s !! i = Some p ∧ p_pid p = pid ∧ p_state p ≠ UNUSED ∧
       ps' = <[i := p <| p_pendding_signals ::= λ x, Z.setbit x signum |>]> (k_proc s)) ∨
     (r = -1 ∧ ps' = k_proc s ∧
      (¬ (0 ≤ signum ≤ 31) ∨ ∀ i p, k_proc s !! i = Some p → p_state p ≠ UNUSED → p_pid p ≠ pid))).
Proof.
  intros Hinv [Hh Hheld] Hpid. rewrite kill_ok by (done || apply Hinv).
  destruct (decide (0 ≤ signum ≤ 31)) as [Hs|Hs]; cycle 1.
  { exists (-1), (k_proc s). split; [by destruct s|]. right. auto. }
  assert (Hsig : signalled pid signum (k_proc s) = match find_index (λ p, p_pid p =? pid) (k_proc s) with
    | Some i => alter (λ p, p <| p_pendding_signals ::= λ x, Z.lor x (u32 (Z.shiftl 1 signum)) |>) i (k_proc s)
    | None => k_proc s end) by done.
  destruct (find_index _ (k_proc s)) as [i|] eqn:Ef; exists (if find_index (λ p, p_pid p =? pid) (k_proc s) then 0 else -1), (signalled pid signum (k_proc s));
    (split; [rewrite Ef; by destruct s|]); rewrite Ef, Hsig.
  - apply find_index_Some in Ef as [(p & Hp & Hpp%Z.eqb_eq) _].
    left. split_and!; [done|lia|lia|]. exists i, p. split_and!; [done|done| |].
    + intros Hu. destruct (so_unused _ _ _ _ (ti_slot _ _ _ _ Hinv i p Hp) Hu) as (_ & _ & _ & ? & _). lia.
    + rewrite (insert_alter _ _ _ _ Hp). f_equal. destruct p. cbv [set_field set_p_pendding_signals]. simpl.
      by rewrite sigbit_set.
  - right. split_and!; [done|done|]. right. intros i p Hp _ Heq.
    rewrite find_index_None in Ef. specialize (Ef i p Hp). lia.
Qed.

(** C40: Pid 0 is the pid of an unused slot, so [kill] of process 0 succeeds on
    a table with an unused slot; and since neither [freeproc] nor [allocproc]
    clears the pending signals, the next process created there starts with the
    signal pending. *)
Theorem kill_zero_reaches_next_process signum (s : kstate F) free i :
  table_inv (k_mach s) (k_proc s) (k_nextpid s) free → unlocked_hart (k_hart s) → 0 ≤ signum ≤ 31 →
  0 < k_nextpid s < 2 ^ 31 - 1 → 0 ≤ sym_trampoline < 2 ^ 56 →
  find_index is_unused (k_proc s) = Some i → (7 ≤ length free)%nat →
  ∃ s1 s2 p, kill 0 signum s = Ok 0 s1 ∧ allocproc s1 = Ok (Some (i, O)) s2 ∧
    k_proc s2 !! i = Some p ∧ p_pid p = k_nextpid s ∧ Z.testbit (p_pendding_signals p) signum = true.
Proof.
  intros Hinv [Hh Hheld] Hs Hnp Htr Hf Hfree.
  assert (Hf' := Hf). apply find_index_Some in Hf' as [(p & Hp & Hu%bool_decide_eq_true) Hbefore].
  assert (Hf0 : find_index (λ p, p_pid p =? 0) (k_proc s) = Some i).
  { apply find_index_Some. destruct (so_unused _ _ _ _ (ti_slot _ _ _ _ Hinv i p Hp) Hu) as (_ & _ & _ & Hp0 & _).
    split; [exists p; by rewrite Hp0|]. intros j y Hj Hy. specialize (Hbefore j y Hj Hy). apply bool_decide_eq_false in Hbefore.
    pose proof (ti_pid _ _ _ _ Hinv j y Hy Hbefore). lia. }
  set (p1 := p <| p_pendding_signals ::= λ x, Z.lor x (u32 (Z.shiftl 1 signum)) |>).
  assert (Hps : signalled 0 signum (k_proc s) = <[i := p1]> (k_proc s)).
  { unfold signalled. by rewrite Hf0, (insert_alter _ _ _ _ Hp). }
  set (s1 := s <| k_proc ::= signalled 0 signum |> <| k_hart ::= settle |>).
  assert (Hk : kill 0 signum s = Ok 0 s1).
  { rewrite kill_ok by (done || apply Hinv). rewrite decide_True by done. by rewrite Hf0. }
  assert (Hinv1 : table_inv (k_mach s) (<[i := p1]> (k_proc s)) (k_nextpid s) free).
  { eapply table_inv_touch; done. }
  destruct s as [m ps ip np nt bs h tk fi fs]. simpl in *.
  assert (Hs1 : s1 = mkKstate m (<[i := p1]> ps) ip np nt bs (settle h) tk fi fs) by (unfold s1; kred; by rewrite Hps).
  assert (Hlt := lookup_lt_Some _ _ _ Hp).
  destruct (allocproc_found_ok i m (<[i := p1]> ps) p1 ip np nt bs (settle h) tk fi fs free Hinv1)
    as [(tf & pt & pa & m' & f' & Hr & Hst & _)|(p' & nt' & m' & f' & _ & _ & _ & Hl)]; try done.
  { by apply list_lookup_insert_eq. }
  { by apply settle_ok. }
  { by rewrite settle_held. }
  2: { lia. }
  eexists s1, _, (new_proc i np nt tf pt pa p1). split; [done|]. split; [|split_and!].
  - rewrite Hs1. unfold allocproc.
    assert (Hscan := alloc_scan_ok m (<[i := p1]> ps) ip np nt bs (settle h) tk fi fs ltac:(by apply settle_ok)
      ltac:(by rewrite settle_held) ltac:(rewrite length_insert; apply Hinv)).
    assert (Hfi : find_index is_unused (<[i := p1]> ps) = Some i).
    { apply find_index_Some. split.
      - exists p1. split; [by apply list_lookup_insert_eq|]. by apply bool_decide_eq_true.
      - intros j y Hj. rewrite list_lookup_insert_ne by lia. eauto. }
    rewrite Hfi in Hscan. rewrite (bind_Ok _ _ _ _ _ Hscan). exact Hr.
  - kred. apply list_lookup_insert_eq. by rewrite length_insert.
  - done.
  - change (p_pendding_signals _) with (Z.lor (p_pendding_signals p) (u32 (Z.shiftl 1 signum))).
    rewrite sigbit_set by done. apply Z.setbit_eq. lia.
Qed.

(** ** wakeup *)

(** C38: [wakeup] makes runnable exactly the threads that sleep on the channel,
    other than the caller, and changes nothing else in the table. *)
Theorem wakeup_exact ch (s : kstate F) :
  hart_ok (k_hart s) → no_proc_lock (k_hart s) → shaped (k_proc s) →
  ∃ s', wakeup (Some ch) s = Ok tt s' ∧ k_mach s' = k_mach s ∧ length (k_proc s') = length (k_proc s) ∧
    ∀ i p, k_proc s !! i = Some p → ∃ p', k_proc s' !! i = Some p' ∧
      p' <| p_threads := p_threads p |> = p ∧ length (p_threads p') = length (p_threads p) ∧
      ∀ j t, p_threads p !! j = Some t → p_threads p' !! j = Some
        (if decide (t_state t = SLEEPING ∧ t_chan t = Some ch ∧ h_thread (k_hart s) ≠ Some (i, j))
         then t <| t_state := RUNNABLE |> else t).
Proof.
  intros Hh Hn Hs. eexists. split; [by apply wakeup_ok|]. split_and!.
  - by destruct s.
  - destruct s as [m ps ip np nt bs h tk fi fs]. kred. apply length_imap.
  - intros i p Hp. destruct s as [m ps ip np nt bs h tk fi fs]. simpl in *. kred.
    exists (wake_proc (h_thread h) (Some ch) i p). split_and!.
    + by rewrite list_lookup_imap, Hp.
    + unfold wake_proc. by destruct p.
    + apply wake_proc_threads.
    + intros j t Ht. unfold wake_proc. rproj. rewrite list_lookup_imap, Ht. simpl. f_equal. unfold wake_thread.
      repeat case_bool_decide; simpl; case_decide; tauto.
Qed.

(** ** wait *)

Lemma seq_split_at n k : (k < n)%nat → seq 0 n = seq 0 k ++ k :: seq (S k) (n - S k).
Proof. intros Hk. replace n with (k + S (n - S k))%nat at 1 by lia. by rewrite seq_app. Qed.

Lemma existsb_seq {A} `{Inhabited A} (f : A → bool) (l : list A) n :
  length l = n → existsb (λ k, f (l !!! k)) (seq 0 n) = existsb f l.
Proof.
  intros <-. apply Bool.eq_iff_eq_true. rewrite !existsb_exists. split.
  - intros (k & Hk%in_seq & Hf). exists (l !!! k). split; [|done].
    apply list_elem_of_In, list_elem_of_lookup_total_2. lia.
  - intros (x & Hx%list_elem_of_In & Hf). apply list_elem_of_lookup in Hx as [k Hk]. exists k.
    rewrite in_seq, (list_lookup_total_correct _ _ _ Hk). apply lookup_lt_Some in Hk. split; [lia|done].
Qed.

(** the running process [i] with thread [tj] of slot [ti] *)
Record caller_ok (s : kstate F) (i ti tj : nat) (pi : proc) : Prop := {
  co_run : running_on (k_hart s) i ti tj;
  co_proc : k_proc s !! i = Some pi;
  co_used : p_state pi ≠ UNUSED;
  co_slot : (ti < NPROC)%nat ∧ (tj < NTHREAD)%nat;
  co_tproc : t_tproc (p_threads (k_proc s !!! ti) !!! tj) = Some i;
  co_parent : p_parent pi ≠ Some i
}.

(** [wait] when no child has exited *)
Lemma wait_nothing m ps ip np nt bs h tk fi (fs : F) i ti tj pi fuel addr :
  running_on h i ti tj → shaped ps → ps !! i = Some pi → (ti < NPROC)%nat → (tj < NTHREAD)%nat →
  t_tproc (p_threads (ps !!! ti) !!! tj) = Some i → find_index (is_zombie_child i) ps = None →
  let s1 := mkKstate m ps ip np nt bs (locked LkWait h) tk fi fs in
  if existsb (is_child i) ps && (p_killed pi =? 0)
  then ∃ s' k, iterate (S fuel) (λ _, wait_body i addr) tt s1 = Event EvSched s' k ∧
    k_proc s' = alter (λ p, p <| p_threads ::= alter (λ t, t <| t_chan := Some (ChProc i) |> <| t_state := SLEEPING |>) tj |>) ti ps
  else iterate (S fuel) (λ _, wait_body i addr) tt s1 = Ok (-1) (mkKstate m ps ip np nt bs (settle h) tk fi fs).
Proof.
  intros Hr Hsh Hpi Hti Htj Htp Hno s1. assert (Hr' := Hr). destruct Hr' as [Hh Hheld Hproc Hthr].
  assert (Hscan := wait_scan_skip i addr m ps ip np nt bs h tk fi fs Hh Hheld (seq 0 NPROC) [] false).
  rewrite app_nil_r, existsb_seq in Hscan by apply Hsh. cbn [wait_scan orb] in Hscan.
  assert (Hnz : ∀ n, n ∈ seq 0 NPROC → is_zombie_child i (ps !!! n) = false).
  { intros n Hn%elem_of_seq. rewrite find_index_None in Hno. destruct (lookup_lt_is_Some_2 ps n) as [pn Hpn].
    - destruct Hsh. lia.
    - rewrite (list_lookup_total_correct _ _ _ Hpn). eauto. }
  assert (Hbody : wait_body i addr s1 = (if negb (existsb (is_child i) ps) || negb (p_killed pi =? 0) then
      release LkWait ;;; ret (inr (-1)) else sleep (ChProc i) LkWait ;;; ret (inl tt)) s1).
  { unfold wait_body. rewrite (bind_Ok _ _ _ _ _ (Hscan Hnz)), bind_getp. unfold s1. kred.
    by rewrite (list_lookup_total_correct _ _ _ Hpi). }
  cbn [iterate]. unfold bind. rewrite Hbody. destruct (existsb (is_child i) ps), (p_killed pi =? 0); cbn [negb orb andb].
  1: { unfold s1. rewrite (bind_Event _ _ _ _ _ _ (sleep_ok (ChProc i) LkWait i ti tj m ps ip np nt bs h tk fi fs
        Hr ltac:(done) Hsh Hti Htj Htp)). simpl. eauto. }
  all: unfold s1; rewrite bind_release by hart; done.
Qed.

End Spec.

(** ** A process table on which the specifications apply *)
Module Demo.
#[local] Existing Instance small_image.

Definition thread0 : thread := mkThread 0 UNUSED None 0 0 (mkContext 0 0 (replicate 12 0)) None 0 0 0.
Definition proc0 : proc :=
  mkProc UNUSED None 0 0 0 None 0 0 0 (replicate NOFILE 0) 0 (replicate 16 x00) 0 0 (replicate 32 0) (replicate 32 0) 0 0 0
    (replicate NTHREAD thread0).
Definition hart0 : hart := mkHart None None 0 false true [].
Definition boot (m : machine) : kstate unit :=
  mkKstate m (replicate NPROC proc0) None 1 1 (replicate MAX_BSEM (mkBsem 0 0 0)) hart0 0 true tt.

Lemma hart0_ok : unlocked_hart hart0.
Proof. split; [|done]. split; [done|constructor|done]. Qed.

(** the state after kinit and procinit: the table is empty *)
Lemma booted : ∃ m free, table_inv m (k_proc (boot m)) 1 free ∧ length free = 64%nat.
Proof.
  destruct VmSpec.Demo.machine_booted as (m & free & _ & Hk & Hl). exists m, free. split; [|done].
  assert (Hz : ∀ i p, replicate NPROC proc0 !! i = Some p → p = proc0) by (by intros i p [-> _]%lookup_replicate).
  assert (Ht : ∀ j t, p_threads proc0 !! j = Some t → t = thread0) by (by intros j t [-> _]%lookup_replicate).
  assert (Hnp : ∀ q, ¬ proc_pages (ram m) proc0 q).
  { intros q [[? _]|[(j & t & Hj%Ht & <- & ?)|[? _]]]; try done. by subst. }
  split; [done|done| | | |].
  - intros i p ->%Hz. split; [done| |done| |].
    + intros _. split_and!; try done. by intros j t ->%Ht.
    + intros j t ->%Ht. done.
    + intros j j' q (t & Hj%Ht & <- & ?). by subst.
  - intros i j p p' q ->%Hz _ Hq. by destruct (Hnp q).
  - intros i p ->%Hz. done.
  - intros i j p p' ->%Hz. done.
Qed.

Lemma spinlocks_nest_witness : ∃ s1, for_each [LkWait; LkPid] acquire (boot (mkMachine ∅ 0)) = Ok tt s1 ∧ h_intr (k_hart s1) = false.
Proof.
  destruct (spinlocks_nest (F := unit) [LkWait; LkPid] [LkWait; LkPid] (boot (mkMachine ∅ 0))) as [(s1 & H1 & H2 & _) _]; eauto.
  - apply hart0_ok.
  - simpl. repeat constructor; set_solver.
Defined.


Lemma kill_spec_witness : ∃ m r ps', kill 1 9 (boot m) = Ok r ((boot m) <| k_proc := ps' |> <| k_hart := settle hart0 |>).
Proof.
  destruct booted as (m & free & Hinv & Hl).
  destruct (kill_spec (F := unit) 1 9 (boot m) free Hinv hart0_ok ltac:(lia)) as (r & ps' & Hr & _). eauto.
Defined.

Lemma kill_zero_reaches_next_process_witness : ∃ m s1 s2 p, kill 0 9 (boot m) = Ok 0 s1 ∧
  allocproc s1 = Ok (Some (O, O)) s2 ∧ k_proc s2 !! O = Some p ∧ Z.testbit (p_pendding_signals p) 9 = true.
Proof.
  destruct booted as (m & free & Hinv & Hl).
  destruct (kill_zero_reaches_next_process (F := unit) 9 (boot m) free O Hinv hart0_ok) as (s1 & s2 & p & H1 & H2 & H3 & _ & H5).
  - lia.
  - simpl. lia.
  - done.
  - done.
  - lia.
  - exists m, s1, s2, p. done.
Defined.

Lemma wakeup_exact_witness : ∃ s', wakeup (Some ChLog) (boot (mkMachine ∅ 0)) = Ok tt s' ∧ length (k_proc s') = NPROC.
Proof.
  destruct (wakeup_exact (F := unit) ChLog (boot (mkMachine ∅ 0))) as (s' & H1 & _ & H2 & _); eauto.
  - apply hart0_ok.
  - intros i. simpl. set_solver.
  - split; [done|]. by intros i p [-> _]%lookup_replicate.
Defined.

(** two processes, made by [allocproc] *)
Lemma two_procs : ∃ m free tf0 pt0 pa0 tf1 pt1 pa1,
  table_inv m (<[1%nat := new_proc 1 2 2 tf1 pt1 pa1 proc0]> (<[O := new_proc 0 1 1 tf0 pt0 pa0 proc0]> (replicate NPROC proc0))) 3 free ∧
  ∀ j t, p_threads (new_proc 1 2 2 tf1 pt1 pa1 proc0) !! j = Some t → t_state t ≠ RUNNING.
Proof.
  destruct booted as (m & free & Hinv & Hl). destruct hart0_ok as [Hh Hheld].
  destruct (allocproc_found_ok (F := unit) 0 m (replicate NPROC proc0) proc0 None 1 1 [] hart0 0 true tt free Hinv)
    as [(tf0 & pt0 & pa0 & m1 & f1 & _ & Hst & Hl1)|(p' & nt' & m' & f' & _ & _ & _ & Hl1)]; try done; [|lia].
  destruct Hst as [Hinv1 _].
  destruct (allocproc_found_ok (F := unit) 1 m1 (<[O := new_proc 0 1 1 tf0 pt0 pa0 proc0]> (replicate NPROC proc0)) proc0
    None 2 2 [] hart0 0 true tt f1 Hinv1)
    as [(tf1 & pt1 & pa1 & m2 & f2 & _ & Hst2 & Hl2)|(p' & nt' & m' & f' & _ & _ & _ & Hl2)]; try done; [|lia].
  destruct Hst2 as [Hinv2 _]. exists m2, f2, tf0, pt0, pa0, tf1, pt1, pa1. split; [exact Hinv2|].
  intros j t Ht. assert (Hp : <[O := new_proc 0 1 1 tf0 pt0 pa0 proc0]> (replicate NPROC proc0) !! 1%nat = Some proc0).
  { rewrite list_lookup_insert_ne by lia. apply lookup_replicate_2. unfold NPROC. lia. }
  exact (proj1 (proj2 (new_proc_threads 1 m1 _ proc0 2 f1 Hinv1 Hp eq_refl 2 tf1 pt1 pa1 j t Ht))).
Qed.

(** the second is a child of the first and has exited *)
Definition hart1 : hart := mkHart (Some O) (Some (O, O)) 0 false true [].
Lemma family : ∃ s free pi, table_inv (k_mach s) (k_proc s) (k_nextpid s) free ∧ caller_ok (F := unit) s 0 0 0 pi ∧
  find_index (is_zombie_child 0) (k_proc s) = Some 1%nat ∧
  (∀ n pn j t, k_proc s !! n = Some pn → is_zombie_child 0 pn = true → p_threads pn !! j = Some t → t_state t ≠ RUNNING) ∧
  ∃ pn, k_proc s !! 1%nat = Some pn ∧ p_pid pn = 2.
Proof.
  destruct two_procs as (m & free & tf0 & pt0 & pa0 & tf1 & pt1 & pa1 & Hinv & Hrun).
  set (p0 := new_proc 0 1 1 tf0 pt0 pa0 proc0) in *. set (p1 := new_proc 1 2 2 tf1 pt1 pa1 proc0) in *.
  set (child := p1 <| p_parent := Some O |> <| p_state := ZOMBIE |>).
  pose proof (table_inv_touch _ _ _ _ 1%nat p1 child Hinv) as Ht.
  rewrite list_insert_insert_eq in Ht.
  assert (H1 : <[1%nat := p1]> (<[O := p0]> (replicate NPROC proc0)) !! 1%nat = Some p1).
  { apply list_lookup_insert_eq. rewrite length_insert, length_replicate. unfold NPROC. lia. }
  specialize (Ht H1).
  specialize (Ht eq_refl eq_refl eq_refl eq_refl eq_refl).
  assert (Hs : p_state child = UNUSED ↔ p_state p1 = UNUSED) by (split; intros Hx; discriminate Hx).
  specialize (Ht Hs). clear Hinv. rename Ht into Hinv.
  exists (mkKstate m (<[1%nat := child]> (<[O := p0]> (replicate NPROC proc0))) None 3 3 [] hart1 0 true tt), free, p0.
  split; [exact Hinv|]. split; [|split_and!].
  - split; try done.
    + split; try done. split; [done|constructor|done].
    + split; unfold NPROC, NTHREAD; lia.
  - done.
  - intros n pn j t Hn Hz Ht.
    change (<[1%nat := child]> (<[O := p0]> (replicate NPROC proc0)) !! n = Some pn) in Hn.
    apply list_lookup_insert_Some in Hn as [(<- & <- & _)|[_ Hn]].
    + exact (Hrun j t Ht).
    + apply list_lookup_insert_Some in Hn as [(<- & <- & _)|[_ [-> _]%lookup_replicate]]; done.
  - exists child. split; [|reflexivity].
    change (<[1%nat := child]> (<[O := p0]> (replicate NPROC proc0)) !! 1%nat = Some child).
    apply list_lookup_insert_eq. rewrite length_insert, length_replicate. unfold NPROC. lia.
Qed.

End Demo.
