(* ===== verification/Initcode.v ===== *)
(** * The first process runs /init (initcode of src/kernel/proc.c, which
    src/user/initcode.S describes)

    The bytes that [userinit] copies to address 0 are decoded and run as
    RISC-V instructions. *)

From S2P Require Import Prelude Mem Riscv Kstate Proc Process.

(** ** RISC-V *)

Record ucore := mkUcore { u_pc : Z; u_reg : Z → Z }.
Definition uget (r : Z) (c : ucore) : Z := if r =? 0 then 0 else u_reg c r.
Definition uset (rd v : Z) (c : ucore) : ucore := mkUcore (u_pc c) (λ r, if r =? rd then v else u_reg c r).
Definition goto (pc : Z) (c : ucore) : ucore := mkUcore (u64 pc) (u_reg c).

(** a field of [n] bits from bit [lo], and sign extension of [n] bits *)
Definition field (w lo n : Z) : Z := Z.land (Z.shiftr w lo) (Z.ones n).
Definition sext (n x : Z) : Z := if Z.testbit x (n - 1) then x - 2 ^ n else x.
Definition jal_offset (w : Z) : Z :=
  sext 21 (Z.lor (Z.lor (Z.shiftl (field w 31 1) 20) (Z.shiftl (field w 12 8) 12)) (Z.lor (Z.shiftl (field w 20 1) 11) (Z.shiftl (field w 21 10) 1))).

Inductive effect := Continues (c : ucore) | Calls (c : ucore) | Illegal.
Definition step (page : list byte) (c : ucore) : effect :=
  let w := le_combine (take 4 (drop (Z.to_nat (u_pc c)) page)) in
  let rd := field w 7 5 in
  let op := field w 0 7 in
  if op =? 0x17 then (* auipc *)
    Continues (goto (u_pc c + 4) (uset rd (u64 (u_pc c + sext 32 (Z.shiftl (field w 12 20) 12))) c))
  else if (op =? 0x13) && (field w 12 3 =? 0) then (* addi *)
    Continues (goto (u_pc c + 4) (uset rd (u64 (uget (field w 15 5) c + sext 12 (field w 20 12))) c))
  else if op =? 0x6f then (* jal *)
    Continues (goto (u_pc c + jal_offset w) (uset rd (u64 (u_pc c + 4)) c))
  else if w =? 0x73 then Calls c (* ecall *)
  else Illegal.
(** to the next system call *)
Fixpoint to_ecall (n : nat) (page : list byte) (c : ucore) : option ucore :=
  match n with
  | O => None
  | S n' => match step page c with Continues c' => to_ecall n' page c' | Calls c' => Some c' | Illegal => None end
  end.

Definition a0 : Z := 10.
Definition a1 : Z := 11.
Definition a7 : Z := 17.

(** the page after [uvminit] *)
Definition first_page : list byte := initcode ++ replicate (Z.to_nat PGSIZE - length initcode) x00.
Definition string_at (page : list byte) (a : Z) : list byte :=
  take (default 0%nat (fst <$> list_find (λ b, b = x00) (drop (Z.to_nat a) page))) (drop (Z.to_nat a) page).
Definition word_at (page : list byte) (a : Z) : Z := le_combine (take 8 (drop (Z.to_nat a) page)).
Definition bytes_init : list byte := [x2f; x69; x6e; x69; x74].

(** C12: the first process executes /init.  Started at address 0, with any
    registers, its code calls exec with the path /init and with arguments of
    which the first is that path and the second null.  If exec returns, the code calls
    exit, and again for as long as exit returns. *)
Theorem initcode_execs_init regs : ∃ c1, to_ecall 6 first_page (mkUcore 0 regs) = Some c1 ∧
  uget a7 c1 = sysnum SYS_exec ∧ string_at first_page (uget a0 c1) = bytes_init ∧
  word_at first_page (uget a1 c1) = uget a0 c1 ∧ word_at first_page (uget a1 c1 + 8) = 0 ∧
  ∀ regs1, ∃ c2, to_ecall 2 first_page (mkUcore (u_pc c1 + 4) regs1) = Some c2 ∧ uget a7 c2 = sysnum SYS_exit ∧
    ∀ regs2, ∃ c3, to_ecall 3 first_page (mkUcore (u_pc c2 + 4) regs2) = Some c3 ∧ uget a7 c3 = sysnum SYS_exit ∧ u_pc c3 = u_pc c2.
Proof.
  eexists. split; [vm_compute; reflexivity|]. split_and!; [by vm_compute..|].
  intros regs1. eexists. split; [vm_compute; reflexivity|]. split; [by vm_compute|].
  intros regs2. eexists. split; [vm_compute; reflexivity|]. by vm_compute.
Qed.

(** The array of arguments starts at 43.  initcode.S aligns it to four bytes, which would
    put it at 44: the bytes in proc.c are of another version of the file. *)
Lemma initcode_argv_unaligned regs : ∃ c1, to_ecall 6 first_page (mkUcore 0 regs) = Some c1 ∧ uget a1 c1 = 43.
Proof. eexists. split; [vm_compute; reflexivity|by vm_compute]. Qed.
