(* ===== verification/Growproc.v ===== *)
(** * Growing a process (src/kernel/proc.c: growproc)

    What [growproc] does to the process table and to the memory of the process
    that calls it. *)

From S2P Require Import Prelude Mem Riscv Kalloc Vm Uvm Pagetable VmSpec Kstate Spinlock Proc Sched.
From S2P Require Import ProcMem ProcAlloc ProcSpec.

Section Growproc.
Context {F : Type} `{KernelSymbols}.

(** a slot whose address space has changed *)
Lemma table_resize m ps np free i p m' sz' free' :
  table_inv m ps np free → ps !! i = Some p → p_state p ≠ UNUSED →
  as_step (p_pagetable p) m free m' free' → sized (ram m') (p_pagetable p) sz' → 0 ≤ sz' ≤ TRAPFRAME →
  table_step i m ps free m' (<[i := p <| p_sz := sz' |>]> ps) np free'.
Proof.
  intros Hi Hp Hu Hst Hsz Hr. assert (Hs := ti_slot _ _ _ _ Hi i p Hp).
  destruct (so_used _ _ _ _ Hs Hu) as (Hpt & Hv & Hn & Hut & Hno & Htfs).
  assert (Hback : ∀ q, backups (p_threads p) q → q ∉ free ∧ ¬ owns (ram m) (p_pagetable p) q).
  { intros q Hq. by destruct (slot_backup _ _ _ _ _ Hs Hq) as (_ & ? & _ & _ & ?). }
  destruct (pool_frame _ _ (λ q, page_at (p_trapframe p) q ∨ backups (p_threads p) q) _ _ _ _ (as_step_pool _ _ _ _ _ Hst)) as [Hst' Hrest].
  { intros q [[_ ->]|Hb]; [done|]. by apply Hback. }
  assert (Hpages : pool_step (proc_pages (ram m) p) (proc_pages (ram m') (p <| p_sz := sz' |>)) m free m' free').
  { apply (pool_conv _ _ _ _ _ _ _ _ Hst'); intros q; unfold proc_pages, page_at; rproj; tauto. }
  destruct (Hrest (p_trapframe p)) as [Hn' Hno']; [left; split; [unfold valid_page in Hv; lia|done]|].
  apply (table_update m ps np free i p m' (p <| p_sz := sz' |>) np free' Hi Hp Hpages); [|lia|intros _; by left].
  constructor; try (by apply Hs); rproj.
  - done.
  - intros _. split_and!; try done. constructor; [apply Hst|done|done| |].
    + rewrite (st_top _ _ _ _ _ Hst) by apply top_pages. apply Hut.
    + rewrite (st_top _ _ _ _ _ Hst) by apply top_pages. apply Hut.
  - intros j t Ht. assert (Hth := so_thread _ _ _ _ Hs j t Ht). case_if; [done|].
    destruct Hth as (? & ? & ? & ? & ?).
    assert (Hb : backups (p_threads p) (t_backup t)) by (exists j, t; split_and!; try done; unfold valid_page in *; lia).
    destruct (Hrest (t_backup t)) as [? ?]; [by right|]. done.
Qed.

(** user memory after a change of size: what stays, zeroed new pages *)
Definition resized (m m' : gmap Z byte) (pt sz sz' : Z) : Prop :=
  ∀ v, 0 ≤ v < TRAPFRAME → uview m' pt v =
    if decide (v < PGROUNDUP sz') then
      if decide (v < PGROUNDUP sz) then uview m pt v else Some (Z.lor user_perm PTE_V, x00)
    else None.

Lemma resized_refl m pt sz : sized m pt sz → resized m m pt sz sz.
Proof.
  intros Hs v Hv. repeat case_if; try done. specialize (Hs v Hv).
  destruct (uview m pt v); [|done]. destruct E. by apply Hs.
Qed.
Lemma resized_sized m m' pt sz sz' : sized m pt sz → resized m m' pt sz sz' → sized m' pt sz'.
Proof.
  intros Hs Hr v Hv. rewrite (Hr v Hv). specialize (Hs v Hv). repeat case_if; try done.
  split; [done|]. intros _. by apply Hs.
Qed.

(** the memory part of [growproc] *)
Lemma growproc_mem n m pt sz tf free :
  kmem_ok m free → utable (ram m) pt sz tf free → - 2 ^ 31 ≤ n < 2 ^ 31 → sz + Z.max 0 n < 2 ^ 32 →
  let sz' := if 0 <=? sz + n then sz + n else sz in
  ∃ (b : bool) m' free', (∀ (s : kstate F), k_mach s = m → (
    if 0 <? n then
      let* r := mach (uvmalloc pt sz (u32 (sz + n))) in ret (u32 r)
    else if n <? 0 then
      let* r := mach (uvmdealloc pt sz (u32 (sz + n))) in ret (u32 r)
    else ret sz) s = Ok (if b then sz' else 0) (s <| k_mach := m' |>)) ∧
    as_step pt m free m' free' ∧
    (b = false → 0 < n ∧ Z.of_nat (length free) ≤ 3 * ((PGROUNDUP sz' - PGROUNDUP sz) / PGSIZE)) ∧
    resized (ram m) (ram m') pt sz (if b then sz' else sz).
Proof.
  intros Hk Hut Hn Hsz sz'. destruct Hut as [Has Hszr Hsd _ _]. assert (TRAPFRAME > 2 ^ 32) by (rewrite TRAPFRAME_val; lia).
  destruct (Z.ltb_spec 0 n).
  - assert (Esz : sz' = sz + n) by (unfold sz'; by rewrite (proj2 (Z.leb_le _ _)) by lia).
    rewrite u32_small by lia. rewrite Esz.
    destruct (uvmalloc_ok (E := Empty_set) pt sz (sz + n) m free) as (b & m' & f' & Hrun & Hst & Hb & Hv); [done|done|done|lia|lia|].
    exists b, m', f'. split_and!; [|done|auto|].
    + intros s <-. rewrite (bind_Ok _ _ _ _ _ (mach_Ok _ s _ _ Hrun)). unfold ret. destruct b; [|done].
      by rewrite u32_small by lia.
    + intros v Hv0. rewrite Hv by done. assert (Hm := PGROUNDUP_mono sz (sz + n) ltac:(lia) ltac:(lia)).
      specialize (Hsd v Hv0). destruct b; repeat case_if; try done; try lia; try tauto.
      all: destruct (uview (ram m) pt v); [|done]; exfalso; assert (v < PGROUNDUP sz) by (by apply Hsd); lia.
  - destruct (Z.ltb_spec n 0) as [Hneg|Hzero].
    + destruct (Z.leb_spec 0 (sz + n)) as [Hge|Hlt]; subst sz'.
      * rewrite u32_small by lia.
        destruct (uvmdealloc_ok (E := Empty_set) pt sz (sz + n) m free) as (m' & f' & Hrun & Hst & _ & Hv); [done|done|lia|lia| |].
        { intros v Hv0. apply Hsd; [|lia]. destruct (PGROUNDUP_user sz), (PGROUNDUP_user (sz + n)); lia. }
        exists true, m', f'. rewrite Z.min_r in Hrun by lia. split_and!; [|done|done|].
        -- intros s <-. rewrite (bind_Ok _ _ _ _ _ (mach_Ok _ s _ _ Hrun)). by rewrite u32_small by lia.
        -- intros v Hv0. rewrite Hv by done. assert (Hm := PGROUNDUP_mono (sz + n) sz ltac:(lia) ltac:(lia)).
           specialize (Hsd v Hv0). repeat case_if; try done; try lia.
           destruct (uview (ram m) pt v); [|done]; exfalso; assert (v < PGROUNDUP sz) by (by apply Hsd); lia.
      * exists true, m, free. split_and!; [|by apply as_step_refl|done|by apply resized_refl].
        intros s <-. assert (Eu : u32 (sz + n) = sz + n + 2 ^ 32).
        { unfold u32. symmetry. apply Z.mod_unique with (-1); [left; lia|lia]. }
        rewrite Eu. unfold uvmdealloc. rewrite (proj2 (Z.leb_le _ _)) by lia.
        rewrite (bind_Ok _ _ _ _ _ (mach_Ok _ s sz (k_mach s) eq_refl)). by rewrite u32_small by lia.
    + assert (n = 0) as -> by lia. assert (Esz : sz' = sz) by (unfold sz'; rewrite Z.add_0_r; by case_match).
      exists true, m, free. rewrite Esz. split_and!; [|by apply as_step_refl|done|by apply resized_refl].
      intros s <-. by destruct s.
Qed.

Lemma growproc_ok n (s : kstate F) free i ti tj p :
  table_inv (k_mach s) (k_proc s) (k_nextpid s) free → running_on (k_hart s) i ti tj →
  k_proc s !! i = Some p → p_state p ≠ UNUSED → - 2 ^ 31 ≤ n < 2 ^ 31 → p_sz p + Z.max 0 n < 2 ^ 32 →
  let sz' := if 0 <=? p_sz p + n then p_sz p + n else p_sz p in
  ∃ (b : bool) s' free', growproc n s = Ok (if b then 0 else -1) s' ∧
    table_inv (k_mach s') (k_proc s') (k_nextpid s') free' ∧ pages_kept s free s' free' ∧
    k_hart s' = settle (k_hart s) ∧
    k_proc s' = (if b then <[i := p <| p_sz := sz' |>]> (k_proc s) else k_proc s) ∧
    resized (ram (k_mach s)) (ram (k_mach s')) (p_pagetable p) (p_sz p) (if b then sz' else p_sz p) ∧
    (b = false → 0 < n ∧ Z.of_nat (length free) ≤ 3 * ((PGROUNDUP sz' - PGROUNDUP (p_sz p)) / PGSIZE)).
Proof.
  intros Hi [Hh Hheld Hproc _] Hp Hu Hn Hsz sz'.
  destruct (so_used _ _ _ _ (ti_slot _ _ _ _ Hi i p Hp) Hu) as (_ & _ & _ & Hut & _).
  destruct (growproc_mem n (k_mach s) (p_pagetable p) (p_sz p) (p_trapframe p) free (ti_kmem _ _ _ _ Hi) Hut Hn Hsz)
    as (b & m' & free' & Hrun & Hst & Hb & Hres). fold sz' in Hrun, Hb, Hres.
  assert (Hszr := ut_size _ _ _ _ _ Hut).
  assert (Hr' : 0 ≤ (if b then sz' else p_sz p) ≤ TRAPFRAME).
  { rewrite TRAPFRAME_val in *. unfold sz'. destruct b, (Z.leb_spec 0 (p_sz p + n)); lia. }
  destruct (table_resize (k_mach s) (k_proc s) (k_nextpid s) free i p m' _ free' Hi Hp Hu Hst
    (resized_sized _ _ _ _ _ (ut_sized _ _ _ _ _ Hut) Hres) Hr') as (Hinv' & Hpool & _).
  destruct s as [m ps ip np nt bs h tk fi fs]. simpl in *.
  exists b, (mkKstate m' (if b then <[i := p <| p_sz := sz' |>]> ps else ps) ip np nt bs (settle h) tk fi fs), free'.
  assert (Eps : <[i := p <| p_sz := if b then sz' else p_sz p |>]> ps = if b then <[i := p <| p_sz := sz' |>]> ps else ps).
  { destruct b; [done|]. apply list_insert_same. rewrite Hp. f_equal. by destruct p. }
  rewrite Eps in Hinv', Hpool. split_and!; try done.
  unfold growproc. rewrite (bind_myproc' _ _ _ _ _ _ _ _ _ _ Hh _ i Hproc). krun.
  rewrite (list_lookup_total_correct _ _ _ Hp), u32_small by lia.
  rewrite (bind_Ok _ _ _ _ _ (Hrun (mkKstate m ps ip np nt bs (settle h) tk fi fs) eq_refl)). kred.
  destruct b.
  - assert (Hz : (0 <? n) && (sz' =? 0) = false).
    { unfold sz'. destruct (Z.ltb_spec 0 n); [|done]. rewrite (proj2 (Z.leb_le _ _)) by lia. simpl. lia. }
    rewrite Hz, bind_acquire by hart. krun. rewrite locked_settle, bind_release by hart.
    by rewrite (insert_alter _ _ _ _ Hp).
  - destruct Hb as [Hpos _]; [done|]. by rewrite (proj2 (Z.ltb_lt _ _) Hpos).
Qed.

(** C36: [growproc] changes the size of the calling process by [n] bytes.  On
    success the memory below the smaller of the two sizes is unchanged, new
    memory is zero, and memory above the new size is gone; a process that gives
    back more than it has keeps what it has.  It fails only when it grows and
    memory is short, and then nothing changes.  The invariant of the process
    table is kept and no page is lost. *)
Theorem growproc_spec n (s : kstate F) free i ti tj p :
  table_inv (k_mach s) (k_proc s) (k_nextpid s) free → running_on (k_hart s) i ti tj →
  k_proc s !! i = Some p → p_state p ≠ UNUSED → - 2 ^ 31 ≤ n < 2 ^ 31 → p_sz p + Z.max 0 n < 2 ^ 32 →
  let sz' := if 0 <=? p_sz p + n then p_sz p + n else p_sz p in
  ∃ (b : bool) s' free', growproc n s = Ok (if b then 0 else -1) s' ∧
    table_inv (k_mach s') (k_proc s') (k_nextpid s') free' ∧ pages_kept s free s' free' ∧
    k_hart s' = settle (k_hart s) ∧
    k_proc s' = (if b then <[i := p <| p_sz := sz' |>]> (k_proc s) else k_proc s) ∧
    resized (ram (k_mach s)) (ram (k_mach s')) (p_pagetable p) (p_sz p) (if b then sz' else p_sz p) ∧
    (b = false → 0 < n ∧ Z.of_nat (length free) ≤ 3 * ((PGROUNDUP sz' - PGROUNDUP (p_sz p)) / PGSIZE)).
Proof. apply growproc_ok. Qed.
End Growproc.

(** a page that the user may access is memory *)
Lemma uview_ubyte m pt v fl b :
  0 ≤ v < TRAPFRAME → uview m pt v = Some (fl, b) → has fl PTE_U = true → ubyte m pt v = Some b.
Proof.
  intros Hv Hu HU. unfold ubyte. rewrite TRAPFRAME_val in Hv. rewrite decide_True by (rewrite MAXVA_val; lia).
  unfold uview, lpage in Hu. unfold upage.
  assert (HU' : has (PTE_FLAGS (pte_at m pt v)) PTE_U = has (pte_at m pt v) PTE_U) by (unfold has, PTE_FLAGS; by rewrite <- Z.land_assoc).
  destruct (has (pte_at m pt v) PTE_V); [|done]. simpl in Hu. injection Hu as <- <-. rewrite HU' in HU. by rewrite HU.
Qed.

(** ** A process with memory *)
Module GrowDemo.
Import ProcSpec.Demo.
#[local] Existing Instance small_image.

(** a table with one process *)
Lemma one_proc : ∃ m free tf pt pa,
  table_inv m (<[O := new_proc 0 1 1 tf pt pa proc0]> (replicate NPROC proc0)) 2 free ∧ (50 ≤ length free)%nat.
Proof.
  destruct booted as (m & free & Hinv & Hl). destruct hart0_ok as [Hh Hheld].
  destruct (allocproc_found_ok (F := unit) 0 m (replicate NPROC proc0) proc0 None 1 1 [] hart0 0 true tt free Hinv)
    as [(tf0 & pt0 & pa0 & m1 & f1 & _ & Hst & Hl1)|(p' & nt' & m' & f' & _ & _ & _ & Hl1)]; try done; [|lia].
  destruct Hst as [Hinv1 _]. exists m1, f1, tf0, pt0, pa0. split; [exact Hinv1|lia].
Qed.

Definition running (m : machine) (ps : list proc) : kstate unit := mkKstate m ps None 2 2 [] hart1 0 true tt.
Lemma hart1_runs : running_on hart1 0 0 0.
Proof. split; try done. split; [done|constructor|done]. Qed.

Lemma growproc_spec_witness : ∃ m ps s', growproc 4096 (running m ps) = Ok 0 s' ∧ p_sz (k_proc s' !!! O) = 4096.
Proof.
  destruct one_proc as (m & free & tf & pt & pa & Hinv & Hl).
  set (p0 := new_proc 0 1 1 tf pt pa proc0) in *. set (ps := <[O := p0]> (replicate NPROC proc0)) in *.
  assert (Hp0 : ps !! O = Some p0).
  { apply list_lookup_insert_eq. rewrite length_replicate. unfold NPROC. lia. }
  destruct (growproc_spec 4096 (running m ps) free 0 0 0 p0 Hinv hart1_runs Hp0)
    as (b & s' & f' & Hrun & _ & _ & _ & Hps & _ & Hb); [discriminate|lia|simpl; lia|].
  change (p_sz p0) with 0 in *. destruct b; [|destruct Hb as [_ Hb]; [done|]; change (Z.of_nat (length free) ≤ 3) in Hb; lia].
  exists m, ps, s'. split; [exact Hrun|]. rewrite Hps.
  rewrite list_lookup_total_insert_eq; [reflexivity|]. eapply lookup_lt_Some. exact Hp0.
Defined.

(** the same process, with one page of memory *)
Lemma proc_with_page : ∃ m np free tf pt pa,
  let p := (new_proc 0 1 1 tf pt pa proc0) <| p_sz := 4096 |> in
  table_inv m (<[O := p]> (replicate NPROC proc0)) np free ∧
  p_pagetable p = pt ∧ ∀ v, 0 ≤ v < 4096 → ubyte (ram m) pt v = Some x00.
Proof.
  destruct one_proc as (m & free & tf & pt & pa & Hinv & Hl).
  set (p0 := new_proc 0 1 1 tf pt pa proc0) in *. set (ps := <[O := p0]> (replicate NPROC proc0)) in *.
  assert (Hp0 : ps !! O = Some p0).
  { apply list_lookup_insert_eq. rewrite length_replicate. unfold NPROC. lia. }
  destruct (growproc_ok 4096 (running m ps) free 0 0 0 p0 Hinv hart1_runs Hp0)
    as (b & s' & f' & Hrun & Hinv' & _ & _ & Hps & Hres & Hb); [discriminate|lia|simpl; lia|].
  change (p_sz p0) with 0 in *. destruct b; [|destruct Hb as [_ Hb]; [done|]; change (Z.of_nat (length free) ≤ 3) in Hb; lia].
  exists (k_mach s'), (k_nextpid s'), f', tf, pt, pa. split_and!.
  - rewrite Hps in Hinv'. change (k_proc (running m ps)) with ps in Hinv'. unfold ps in Hinv'.
    rewrite list_insert_insert_eq in Hinv'. exact Hinv'.
  - reflexivity.
  - intros v Hv. assert (Hvt : 0 ≤ v < TRAPFRAME) by (rewrite TRAPFRAME_val; lia). specialize (Hres v Hvt).
    rewrite decide_True, decide_False in Hres by (change (PGROUNDUP 0) with 0; change (PGROUNDUP _) with 4096; lia).
    assert (Ept : p_pagetable p0 = pt) by reflexivity. rewrite Ept in Hres.
    exact (uview_ubyte _ _ v _ _ Hvt Hres eq_refl).
Qed.
End GrowDemo.
