(* ===== verification/Signal.v ===== *)
(** * Signals (src/kernel/proc.c)

    [sigprocmask], [sigaction], [sigret], the kernel's handlers, the delivery
    of pending signals on the way back to user space and the set-up of a user
    handler.  A signal set is a 32-bit integer, as in the code. *)

From S2P Require Import Prelude Mem Riscv Kalloc Vm Uvm Pagetable Kstate Spinlock Proc.

(** [(uint)1 << i] *)
Definition sigbit (i : Z) : Z := u32 (Z.shiftl 1 i).
(** [set &= ~bit] *)
Definition sig_clear (i set : Z) : Z := Z.land set (u32 (Z.lnot (sigbit i))).
(** [(set & bit) != 0] *)
Definition sig_in (i set : Z) : bool := negb (Z.land set (sigbit i) =? 0).

Section Signal.
Context {F : Type} `{KernelSymbols}.

Definition sigprocmask (sigmask : Z) : K F Z :=
  let* i := myproc' in
  acquire (LkProc i) ;;;
  let* p := getp i in
  let prev := p_signal_mask p in
  setp i (λ p, p <| p_signal_mask := sigmask |>) ;;;
  release (LkProc i) ;;;
  ret prev.

Definition sigret : K F unit :=
  let* i := myproc' in
  let* '(ti, tj) := mythread' in
  acquire (LkProc i) ;;;
  let* t := gett ti tj in
  mach (mem_move (t_trapframe t) (t_backup t) TF_SIZE) ;;;
  setp i (λ p, p <| p_signal_mask := p_signal_mask_backup p |> <| p_signal_handling_flag := 0 |>) ;;;
  release (LkProc i).

Definition sigkill_thread (t : thread) : thread :=
  let t := t <| t_killed := 1 |> in
  if bool_decide (t_state t = SLEEPING) then t <| t_state := RUNNABLE |> else t.

Definition sigKillHandler : K F unit :=
  let* i := myproc' in
  mythread ;;;
  setp i (λ p, p <| p_killed := 1 |>) ;;;
  setp i (λ p, if bool_decide (p_state p = SLEEPING) then p <| p_state := RUNNABLE |> else p) ;;;
  for_each (seq 0 NTHREAD) (λ j, sett i j sigkill_thread).

Definition sigStopHandler : K F unit :=
  let* i := myproc' in
  acquire (LkProc i) ;;;
  setp i (λ p, p <| p_frozen := 1 |>) ;;;
  release (LkProc i).

Definition sigContHandler : K F unit :=
  let* i := myproc' in
  acquire (LkProc i) ;;;
  setp i (λ p, p <| p_frozen := 0 |>) ;;;
  release (LkProc i).

(** The bytes of [struct sigaction]: the handler, the mask, padding.  [kact0]
    is what the local variable [Kact] holds before it is assigned. *)
Definition sigaction_bytes (handler mask : Z) (kact0 : list byte) : list byte :=
  le_split 8 handler ++ le_split 4 mask ++ drop 12 kact0.
Definition sa_handler (kact : list byte) : Z := le_combine (take 8 kact).
Definition sa_mask (kact : list byte) : Z := le_combine (take 4 (drop 8 kact)).

Definition sigaction (kact0 : list byte) (signum act oldact : Z) : K F Z :=
  let* i := myproc' in
  acquire (LkProc i) ;;;
  if (signum <? 0) || (31 <? signum) || (signum =? SIGKILL) || (signum =? SIGSTOP) then
    release (LkProc i) ;;;
    ret (-1)
  else
    let* p := getp i in
    let sig := Z.to_nat signum in
    let* kact :=
      if negb (oldact =? 0) then
        let kact := sigaction_bytes (p_signal_handlers p !!! sig) (p_signal_handlers_mask p !!! sig) kact0 in
        mach (copyout (p_pagetable p) oldact kact) ;;;
        ret kact
      else ret kact0 in
    if negb (act =? 0) then
      let* '(_, bs) := mach (copyin (p_pagetable p) act 16) in
      let kact := bs ++ drop (length bs) kact in
      if sa_mask kact <? 0 then
        release (LkProc i) ;;;
        ret (-1)
      else
        setp i (λ p, p <| p_signal_handlers ::= <[sig := sa_handler kact]> |>
                       <| p_signal_handlers_mask ::= <[sig := sa_mask kact]> |>) ;;;
        release (LkProc i) ;;;
        ret 0
    else
      release (LkProc i) ;;;
      ret 0.

Definition userhandler (i : nat) : K F unit :=
  let* pi := myproc' in
  let* '(ti, tj) := mythread' in
  acquire (LkProc pi) ;;;
  setp pi (λ p, p <| p_signal_mask_backup := p_signal_mask p |>) ;;;
  setp pi (λ p, p <| p_signal_mask := p_signal_handlers_mask p !!! i |>
                  <| p_signal_handling_flag := 1 |>) ;;;
  let* p := getp pi in
  let* t := gett ti tj in
  let tf := t_trapframe t in
  let* sp := tf_get tf TF_SP in
  tf_set tf TF_SP (u64 (sp - TF_SIZE)) ;;;
  let* bsp := tf_get (t_backup t) TF_SP in
  let* frame := mach (gets (λ m, ldbytes (Z.to_nat TF_SIZE) (ram m) tf)) in
  mach (copyout (p_pagetable p) bsp frame) ;;;
  tf_set tf TF_EPC (p_signal_handlers p !!! i) ;;;
  let sigret_size := i32 (sym_endFunc - sym_startCalcSize) in
  let* sp := tf_get tf TF_SP in
  tf_set tf TF_SP (u64 (sp - sigret_size)) ;;;
  let* sp := tf_get tf TF_SP in
  let* code := mach (gets (λ m, ldbytes (Z.to_nat sigret_size) (ram m) sym_startCalcSize)) in
  mach (copyout (p_pagetable p) sp code) ;;;
  tf_set tf TF_A0 (Z.of_nat i) ;;;
  let* sp := tf_get tf TF_SP in
  tf_set tf TF_RA sp ;;;
  setp pi (λ p, p <| p_pendding_signals ::= sig_clear (Z.of_nat i) |>) ;;;
  release (LkProc pi).

(** the loop [while (p->frozen==1)]; fuel is the number of iterations *)
Definition frozen_body (i : nat) : K F (unit + unit) :=
  let* p := getp i in
  if p_frozen p =? 1 then
    if negb (sig_in SIGCONT (p_pendding_signals p)) then
      release (LkProc i) ;;;
      yield ;;;
      acquire (LkProc i) ;;;
      ret (inl tt)
    else
      release (LkProc i) ;;;
      sigContHandler ;;;
      acquire (LkProc i) ;;;
      setp i (λ p, p <| p_pendding_signals ::= sig_clear SIGCONT |>) ;;;
      ret (inl tt)
  else ret (inr tt).

(** a default action, run with [p->lock] released when it takes the lock *)
Definition deliver (i : nat) (sig : Z) (unlocked : bool) (handler : K F unit) : K F (option Z) :=
  when unlocked (release (LkProc i)) ;;;
  handler ;;;
  when unlocked (acquire (LkProc i)) ;;;
  setp i (λ p, p <| p_pendding_signals ::= sig_clear sig |>) ;;;
  release (LkProc i) ;;;
  ret (Some (-1)).

(** the body of [for(int i=0;i<32;i++)]: [Some] is the value returned *)
Definition signal_body (i : nat) (n : nat) : K F (option Z) :=
  let* p := getp i in
  let sig := Z.of_nat n in
  let currentHandler := p_signal_handlers p !!! n in
  if sig_in sig (p_pendding_signals p) && (p_signal_handling_flag p =? 0) then
    if sig =? SIGKILL then deliver i sig false sigKillHandler
    else if sig =? SIGSTOP then deliver i sig true sigStopHandler
    else if negb (sig_in sig (p_signal_mask p)) then
      if currentHandler =? SIG_IGN then deliver i sig false (ret tt)
      else if currentHandler =? SIGSTOP then deliver i sig true sigStopHandler
      else if currentHandler =? SIGCONT then deliver i sig true sigContHandler
      else if (currentHandler =? SIGKILL) || (currentHandler =? SIG_DFL)
        then deliver i sig false sigKillHandler
      else release (LkProc i) ;;; ret (Some sig)
    else ret None
  else ret None.

Definition handle_pendding_sinals (fuel : nat) : K F Z :=
  let* i := myproc' in
  let* '(ti, tj) := mythread' in
  acquire (LkProc i) ;;;
  let* t := gett ti tj in
  mach (mem_move (t_backup t) (t_trapframe t) TF_SIZE) ;;;
  iterate fuel (λ _, frozen_body i) tt ;;;
  let* r := for_until (seq 0 32) (signal_body i) in
  match r with
  | Some v => ret v
  | None => release (LkProc i) ;;; ret (-1)
  end.
End Signal.
