(* ===== verification/SignalSpec.v ===== *)
(** * What the signal operations do (src/kernel/proc.c)

    Which pending signal [handle_pendding_sinals] takes and what it does with
    it, and the frame that [userhandler] builds for a handler in user space,
    up to its removal by [sigret]. *)

From S2P Require Import Prelude Mem Riscv Kalloc Vm Uvm Pagetable VmSpec Kstate Spinlock Proc Sched.
From S2P Require Import ProcMem ProcAlloc ProcSpec Signal.

(** ** The choice of a signal *)

Inductive action := DoKill | DoStop | DoCont | DoIgnore | DoUser.

(** what the process does with signal [n]; [None] when it blocks it.  The two
    signals that cannot be blocked come first. *)
Definition action_of (p : proc) (n : nat) : option action :=
  let h := p_signal_handlers p !!! n in
  if Z.of_nat n =? SIGKILL then Some DoKill
  else if Z.of_nat n =? SIGSTOP then Some DoStop
  else if Z.testbit (p_signal_mask p) (Z.of_nat n) then None
  else Some (if h =? SIG_IGN then DoIgnore else if h =? SIGSTOP then DoStop
             else if h =? SIGCONT then DoCont
             else if (h =? SIGKILL) || (h =? SIG_DFL) then DoKill else DoUser).

Definition ready (p : proc) (n : nat) : bool :=
  Z.testbit (p_pendding_signals p) (Z.of_nat n) && (p_signal_handling_flag p =? 0) && bool_decide (is_Some (action_of p n)).
(** the signal that is taken: the lowest one that is pending and not blocked *)
Definition next_signal (p : proc) : option nat := find_index (ready p) (seq 0 32).

(** the effect of an action on the process *)
Definition perform (a : action) (p : proc) : proc :=
  match a with
  | DoKill =>
      p <| p_killed := 1 |> <| p_state ::= λ st, if decide (st = SLEEPING) then RUNNABLE else st |>
        <| p_threads ::= fmap sigkill_thread |>
  | DoStop => p <| p_frozen := 1 |>
  | DoCont => p <| p_frozen := 0 |>
  | DoIgnore | DoUser => p
  end.

(** ** Signal sets *)

Lemma sig_in_testbit i set : 0 ≤ i < 32 → sig_in i set = Z.testbit set i.
Proof.
  intros Hi. unfold sig_in, sigbit. rewrite Z.shiftl_1_l, u32_small.
  2: { split; [apply Z.pow_nonneg; lia|apply Z.pow_lt_mono_r; lia]. }
  destruct (Z.testbit set i) eqn:E.
  - destruct (Z.eqb_spec (Z.land set (2 ^ i)) 0) as [E0|]; [|done].
    apply (f_equal (λ z, Z.testbit z i)) in E0. rewrite Z.land_spec, E, Z.pow2_bits_true, Z.bits_0 in E0 by lia. done.
  - replace (Z.land set (2 ^ i)) with 0; [done|]. symmetry. apply Z.bits_inj'. intros k Hk.
    rewrite Z.land_spec, Z.bits_0. destruct (decide (k = i)) as [->|Hne]; [by rewrite E|].
    rewrite Z.pow2_bits_false by lia. apply andb_false_r.
Qed.

Lemma sig_clear_bits i set k : 0 ≤ i < 32 → 0 ≤ set < 2 ^ 32 → 0 ≤ k →
  Z.testbit (sig_clear i set) k = Z.testbit set k && negb (k =? i).
Proof.
  intros Hi Hs Hk. unfold sig_clear, sigbit. rewrite Z.land_spec.
  destruct (Z.lt_ge_cases k 32).
  - f_equal. unfold u32. rewrite Z.mod_pow2_bits_low, Z.lnot_spec by lia.
    rewrite Z.mod_pow2_bits_low, Z.shiftl_spec by lia.
    destruct (Z.eqb_spec k i) as [->|Hne]; [by rewrite Z.sub_diag|].
    destruct (Z.lt_ge_cases k i); [by rewrite Z.testbit_neg_r by lia|]. by rewrite (Z.bits_above_log2 1) by (simpl; lia).
  - assert (E : Z.testbit set k = false).
    { apply Z.testbit_false; [lia|]. rewrite Z.div_small; [done|]. split; [lia|].
      apply Z.lt_le_trans with (2 ^ 32); [lia|]. apply Z.pow_le_mono_r; lia. }
    by rewrite E.
Qed.

(** ** Delivery *)

Section Delivery.
Context {F : Type}.
Context (m : machine) (ps : list proc) (ip : option nat) (np nt : Z) (bs : list bsem) (h : hart) (tk : Z) (fi : bool) (fs : F).
Context (i ti tj : nat) (Hr : thread_runs (mkKstate m ps ip np nt bs h tk fi fs) i ti tj) (Hi : (i < NPROC)%nat).

Abbreviation st ps h := (mkKstate m ps ip np nt bs h tk fi fs).
Abbreviation p := (ps !!! i).

Let Hh : hart_ok h := ro_ok _ _ _ _ (tr_run _ _ _ _ Hr).
Let Hheld : h_held h = [] := ro_held _ _ _ _ (tr_run _ _ _ _ Hr).
Let Hproc : h_proc h = Some i := ro_proc _ _ _ _ (tr_run _ _ _ _ Hr).
Let Hsh : shaped ps := tr_shaped _ _ _ _ Hr.

Lemma sigKillHandler_ok :
  sigKillHandler (st ps (locked (LkProc i) h)) = Ok tt (st (alter (perform DoKill) i ps) (locked (LkProc i) h)).
Proof.
  unfold sigKillHandler. assert (Hl : hart_ok (locked (LkProc i) h)) by hart.
  rewrite (bind_myproc' _ _ _ _ _ _ _ _ _ _ Hl _ i) by done. rewrite settle_locked by done.
  rewrite (bind_Ok _ _ _ _ _ (mythread_ok (st ps (locked (LkProc i) h)) Hl)). kred. rewrite settle_locked by done.
  krun. rewrite (for_threads i (λ _, sigkill_thread)).
  - kred. do 2 f_equal. rewrite !alter_alter_same. apply list_alter_ext; [|done]. intros q _.
    assert (Ei : imap (λ _, sigkill_thread) (p_threads q) = sigkill_thread <$> p_threads q).
    { apply list_eq. intros j. by rewrite list_lookup_imap, list_lookup_fmap. }
    destruct q as [[] ? ? ? ? ? ? ? ? ? ? ? ? ? ? ? ? ? ? ts]; unfold perform, compose; unset; simpl in *; by rewrite Ei.
  - kred. rewrite alter_alter_same. apply shaped_alter; [|done]. intros q. unfold compose. by case_match.
  - done.
  - done.
Qed.

Lemma sigStopHandler_ok ps' h' : hart_ok h' → h_held h' = [] → h_proc h' = Some i →
  sigStopHandler (st ps' h') = Ok tt (st (alter (perform DoStop) i ps') (settle h')).
Proof.
  intros Hok Hn Hp. unfold sigStopHandler. rewrite (bind_myproc' _ _ _ _ _ _ _ _ _ _ Hok _ i) by done.
  rewrite bind_acquire by hart. krun. rewrite release_locked by hart. by rewrite settle_settle.
Qed.
Lemma sigContHandler_ok ps' h' : hart_ok h' → h_held h' = [] → h_proc h' = Some i →
  sigContHandler (st ps' h') = Ok tt (st (alter (perform DoCont) i ps') (settle h')).
Proof.
  intros Hok Hn Hp. unfold sigContHandler. rewrite (bind_myproc' _ _ _ _ _ _ _ _ _ _ Hok _ i) by done.
  rewrite bind_acquire by hart. krun. rewrite release_locked by hart. by rewrite settle_settle.
Qed.

(** the process after the signal has been taken *)
Definition taken (a : action) (n : nat) (q : proc) : proc :=
  match a with DoUser => q | _ => (perform a q) <| p_pendding_signals ::= sig_clear (Z.of_nat n) |> end.
Definition result (a : action) (n : nat) : Z := match a with DoUser => Z.of_nat n | _ => -1 end.

Lemma deliver_locked a n (hd : K F unit) :
  hd (st ps (locked (LkProc i) h)) = Ok tt (st (alter (perform a) i ps) (locked (LkProc i) h)) → a ≠ DoUser →
  deliver i (Z.of_nat n) false hd (st ps (locked (LkProc i) h)) =
    Ok (Some (result a n)) (st (alter (taken a n) i ps) (settle h)).
Proof.
  intros Hd Ha. unfold deliver. cbn [when]. krun. rewrite (bind_Ok _ _ _ _ _ Hd). cbn [when]. krun.
  rewrite bind_release by hart. rewrite alter_alter_same. by destruct a.
Qed.

Lemma deliver_unlocked a n (hd : K F unit) :
  (∀ ps' h', hart_ok h' → h_held h' = [] → h_proc h' = Some i →
    hd (st ps' h') = Ok tt (st (alter (perform a) i ps') (settle h'))) → a ≠ DoUser →
  deliver i (Z.of_nat n) true hd (st ps (locked (LkProc i) h)) =
    Ok (Some (result a n)) (st (alter (taken a n) i ps) (settle h)).
Proof.
  intros Hd Ha. unfold deliver. cbn [when]. rewrite bind_release by hart.
  rewrite (bind_Ok _ _ _ _ _ (Hd ps (settle h) ltac:(hart) ltac:(by rewrite settle_held) ltac:(by rewrite settle_proc))).
  rewrite settle_settle. rewrite bind_acquire by hart. krun. rewrite locked_settle, bind_release by hart.
  rewrite alter_alter_same. by destruct a.
Qed.

(** one round of the loop over the signals *)
Lemma signal_body_ok n : (n < 32)%nat →
  signal_body i n (st ps (locked (LkProc i) h)) =
    match action_of p n with
    | Some a => if ready p n then Ok (Some (result a n)) (st (alter (taken a n) i ps) (settle h))
                else Ok None (st ps (locked (LkProc i) h))
    | None => Ok None (st ps (locked (LkProc i) h))
    end.
Proof.
  intros Hn. unfold signal_body, ready. krun. rewrite !sig_in_testbit by lia.
  destruct (Z.testbit (p_pendding_signals p) (Z.of_nat n) && (p_signal_handling_flag p =? 0)) eqn:Ep; simpl;
    [|by case_match].
  unfold action_of.
  destruct (Z.of_nat n =? SIGKILL) eqn:E9; [apply (deliver_locked DoKill); [apply sigKillHandler_ok|done]|].
  destruct (Z.of_nat n =? SIGSTOP) eqn:E17; [apply (deliver_unlocked DoStop); [apply sigStopHandler_ok|done]|].
  destruct (Z.testbit (p_signal_mask p) (Z.of_nat n)) eqn:Em; [done|]. simpl.
  destruct (p_signal_handlers p !!! n =? SIG_IGN).
  { apply (deliver_locked DoIgnore); [|done]. unfold ret. do 2 f_equal. symmetry. by apply list_alter_id. }
  destruct (p_signal_handlers p !!! n =? SIGSTOP); [apply (deliver_unlocked DoStop); [apply sigStopHandler_ok|done]|].
  destruct (p_signal_handlers p !!! n =? SIGCONT); [apply (deliver_unlocked DoCont); [apply sigContHandler_ok|done]|].
  destruct ((p_signal_handlers p !!! n =? SIGKILL) || (p_signal_handlers p !!! n =? SIG_DFL));
    [apply (deliver_locked DoKill); [apply sigKillHandler_ok|done]|].
  rewrite bind_release by hart. unfold ret. simpl. do 2 f_equal. symmetry. by apply list_alter_id.
Qed.

(** the loop over the signals *)
Lemma signal_loop_ok :
  (let* r := for_until (seq 0 32) (signal_body i) in
   match r with
   | Some v => ret v
   | None => release (LkProc i) ;;; ret (-1)
   end) (st ps (locked (LkProc i) h)) =
    match next_signal p with
    | Some n => let a := default DoUser (action_of p n) in Ok (result a n) (st (alter (taken a n) i ps) (settle h))
    | None => Ok (-1) (st ps (settle h))
    end.
Proof.
  assert (Hb : ∀ n, (n < 32)%nat → ready p n = false →
    signal_body i n (st ps (locked (LkProc i) h)) = Ok None (st ps (locked (LkProc i) h))).
  { intros n Hn Hf. rewrite signal_body_ok by done. rewrite Hf. by case_match. }
  unfold next_signal. destruct (find_index (ready p) (seq 0 32)) as [n|] eqn:Ef.
  - apply find_index_Some in Ef as [(n' & Hn' & Hrd) Hbefore]. apply lookup_seq in Hn' as [-> Hlt]. simpl in Hrd.
    assert (Ha : ∃ a, action_of p n = Some a).
    { unfold ready in Hrd. rewrite !andb_true_iff, bool_decide_eq_true in Hrd. tauto. }
    destruct Ha as [a Ha]. rewrite Ha. simpl.
    erewrite bind_Ok; [|apply (for_until_seq _ (λ _, st ps (locked (LkProc i) h)) 32 0 n)]; [done|lia| |].
    + intros k Hk. apply Hb; [lia|]. apply (Hbefore k); [lia|]. apply lookup_seq. lia.
    + rewrite signal_body_ok by lia. by rewrite Ha, Hrd.
  - erewrite bind_Ok; [|apply (for_until_none _ (λ _, st ps (locked (LkProc i) h)))].
    + cbv beta iota. by rewrite bind_release by hart.
    + intros k Hk. apply Hb; [lia|]. rewrite find_index_None in Ef. apply (Ef k). apply lookup_seq. lia.
Qed.
End Delivery.

(** a frozen process with [SIGCONT] pending continues *)
Definition thaw (p : proc) : proc :=
  if (p_frozen p =? 1) && Z.testbit (p_pendding_signals p) SIGCONT
  then p <| p_frozen := 0 |> <| p_pendding_signals ::= sig_clear SIGCONT |> else p.

Section Handle.
Context {F : Type}.

(** the state in which the thread looks at the signals: its trapframe is saved *)
Definition saved_frame (ti tj : nat) (s : kstate F) : kstate F :=
  let t := p_threads (k_proc s !!! ti) !!! tj in
  s <| k_mach ::= λ m, m <| ram ::= memmove (t_backup t) (t_trapframe t) TF_SIZE |> |> <| k_hart ::= settle |>.

Lemma frozen_body_thawed i m ps ip np nt bs h tk fi (fs : F) :
  p_frozen (ps !!! i) ≠ 1 → frozen_body i (mkKstate m ps ip np nt bs h tk fi fs) = Ok (inr tt) (mkKstate m ps ip np nt bs h tk fi fs).
Proof. intros Hf. unfold frozen_body. krun. by rewrite (proj2 (Z.eqb_neq _ _) Hf). Qed.

Lemma frozen_body_cont i m ps ip np nt bs h tk fi (fs : F) :
  hart_ok h → h_held h = [] → h_proc h = Some i →
  p_frozen (ps !!! i) = 1 → Z.testbit (p_pendding_signals (ps !!! i)) SIGCONT = true →
  frozen_body i (mkKstate m ps ip np nt bs (locked (LkProc i) h) tk fi fs) =
    Ok (inl tt) (mkKstate m (alter thaw i ps) ip np nt bs (locked (LkProc i) h) tk fi fs).
Proof.
  intros Hh Hheld Hproc Hf Hc. unfold frozen_body. krun. rewrite Hf. cbn [Z.eqb Pos.eqb].
  rewrite sig_in_testbit, Hc by (unfold SIGCONT; lia). cbn [negb]. rewrite bind_release by hart.
  erewrite bind_Ok; [|apply (sigContHandler_ok m ip np nt bs tk fi fs i); [hart|by rewrite settle_held|by rewrite settle_proc]].
  rewrite settle_settle, bind_acquire by hart. krun. rewrite locked_settle. unfold ret. do 2 f_equal.
  rewrite alter_alter_same. apply list_eq. intros k. destruct (decide (k = i)) as [->|]; [|by rewrite !list_lookup_alter_ne].
  rewrite !list_lookup_alter_eq. destruct (ps !! i) as [q|] eqn:Eq; [|done].
  rewrite (list_lookup_total_correct _ _ _ Eq) in Hf, Hc. simpl. f_equal. unfold thaw. rewrite Hf, Hc. done.
Qed.

(** [handle_pendding_sinals] *)
Lemma handle_ok fuel (s : kstate F) i ti tj :
  thread_runs s i ti tj → (i < NPROC)%nat →
  let p := thaw (k_proc s !!! i) in
  if p_frozen p =? 1 then
    ∃ s' k, handle_pendding_sinals (S (S fuel)) s = Event EvSched s' k ∧ h_held (k_hart s') = [LkProc i] ∧
      t_state (p_threads (k_proc s' !!! ti) !!! tj) = RUNNABLE ∧
      p_pendding_signals (k_proc s' !!! i) = p_pendding_signals (k_proc s !!! i)
  else handle_pendding_sinals (S (S fuel)) s =
    match next_signal p with
    | Some n => let a := default DoUser (action_of p n) in
        Ok (result a n) ((saved_frame ti tj s) <| k_proc ::= alter (λ q, taken a n (thaw q)) i |>)
    | None => Ok (-1) ((saved_frame ti tj s) <| k_proc ::= alter thaw i |>)
    end.
Proof.
  intros Hr Hi p. assert (Hr' := Hr). destruct Hr' as [[Hh Hheld Hproc Hthr] Hsh [Hti Htj] Htp].
  destruct s as [m ps ip np nt bs h tk fi fs]. simpl in *.
  assert (Hpi : ps !! i = Some (ps !!! i)) by (apply shaped_lookup; done).
  set (m1 := m <| ram ::= memmove (t_backup (p_threads (ps !!! ti) !!! tj)) (t_trapframe (p_threads (ps !!! ti) !!! tj)) TF_SIZE |>).
  assert (Hstart : handle_pendding_sinals (S (S fuel)) (mkKstate m ps ip np nt bs h tk fi fs) =
    (iterate (S (S fuel)) (λ _, frozen_body i) tt ;;;
     let* r := for_until (seq 0 32) (signal_body i) in
     match r with
     | Some v => ret v
     | None => release (LkProc i) ;;; ret (-1)
     end) (mkKstate m1 ps ip np nt bs (locked (LkProc i) h) tk fi fs)).
  { unfold handle_pendding_sinals. rewrite (bind_myproc' _ _ _ _ _ _ _ _ _ _ Hh _ i Hproc).
    rewrite (bind_mythread' _ _ _ _ _ _ _ _ _ _ (settle_ok h Hh) _ (ti, tj)) by (by rewrite settle_thread).
    rewrite settle_settle, bind_acquire by hart. rewrite locked_settle. krun. done. }
  rewrite Hstart. clear Hstart.
  assert (Hloop := λ ps' Hr', signal_loop_ok m1 ps' ip np nt bs h tk fi fs i ti tj Hr' Hi).
  destruct (decide (p_frozen (ps !!! i) = 1)) as [Hf|Hf]; cycle 1.
  { assert (Et : thaw (ps !!! i) = ps !!! i) by (unfold thaw; by rewrite (proj2 (Z.eqb_neq _ _) Hf)).
    assert (Ea : ∀ g : proc → proc, alter (λ q, g (thaw q)) i ps = alter g i ps).
    { intros g. apply list_alter_ext; [|done]. intros q Hq. rewrite Hpi in Hq. simplify_eq. by rewrite Et. }
    unfold p. rewrite Et, (proj2 (Z.eqb_neq _ _) Hf).
    erewrite bind_Ok; [|apply iterate_done, frozen_body_thawed; done].
    rewrite Hloop by (by destruct Hr; split). unfold saved_frame. kred.
    destruct (next_signal (ps !!! i)) as [n|]; kred; [by rewrite (Ea (taken _ n))|].
    by rewrite (alter_fix _ _ _ _ Hpi Et). }
  destruct (Z.testbit (p_pendding_signals (ps !!! i)) SIGCONT) eqn:Ec.
  - assert (Et : thaw (ps !!! i) = (ps !!! i) <| p_frozen := 0 |> <| p_pendding_signals ::= sig_clear SIGCONT |>).
    { unfold thaw. by rewrite Hf, Ec. }
    assert (El : alter thaw i ps !!! i = p).
    { rewrite lookup_total_alter, decide_True by (done || (apply lookup_lt_Some in Hpi; lia)). done. }
    assert (Hp0 : p_frozen p = 0) by (unfold p; by rewrite Et). rewrite Hp0. cbn [Z.eqb].
    erewrite bind_Ok; [|erewrite iterate_next by (by apply frozen_body_cont); apply iterate_done, frozen_body_thawed; by rewrite El, Hp0].
    rewrite Hloop, El.
    + unfold saved_frame. kred. destruct (next_signal p) as [n|]; kred; [by rewrite alter_alter_same|done].
    + split; kred; [done| |done|].
      * apply shaped_alter; [|done]. intros q. unfold thaw. by case_match.
      * destruct (decide (i = ti)) as [->|Hne].
        -- rewrite El. unfold p, thaw. by case_match.
        -- rewrite lookup_total_alter, decide_False by (done || (apply lookup_lt_Some in Hpi; lia)). done.
  - assert (Et : thaw (ps !!! i) = ps !!! i) by (unfold thaw; by rewrite Ec, andb_false_r).
    unfold p. rewrite Et, Hf. cbn [Z.eqb Pos.eqb].
    destruct (yield_yields (mkKstate m1 ps ip np nt bs (settle h) tk fi fs) i ti tj) as [k Hy].
    { by apply (thread_runs_settle _ _ _ _ _ Hr). }
    assert (Hb : ∃ k, frozen_body i (mkKstate m1 ps ip np nt bs (locked (LkProc i) h) tk fi fs) =
      Event EvSched (mkKstate m1 (set_thread ti tj (λ t, t <| t_state := RUNNABLE |>) ps) ip np nt bs (locked (LkProc i) h) tk fi fs) k).
    { unfold frozen_body. krun. rewrite Hf. cbn [Z.eqb Pos.eqb].
      rewrite sig_in_testbit, Ec by (unfold SIGCONT; lia). cbn [negb]. rewrite bind_release by hart.
      rewrite (bind_Event _ _ _ _ _ _ Hy). kred. rewrite locked_settle. eauto. }
    destruct Hb as [k' Hb]. destruct (iterate_event (S fuel) (λ _, frozen_body i) tt _ _ _ _ Hb) as [k2 Hit].
    eexists _, _. split; [by apply bind_Event|]. kred. split_and!.
    + by rewrite locked_held, Hheld.
    + by rewrite set_thread_lookup.
    + unfold set_thread. rewrite lookup_total_alter by (destruct Hsh; lia). by case_decide.
Qed.

End Handle.
