(* ===== verification/SignalFrame.v ===== *)
(** * The frame of a signal handler (src/kernel/proc.c)

    The memory that [handle_pendding_sinals], [userhandler] and [sigret] touch:
    the trapframe of the thread, its backup, and the user stack.  The three
    together run a handler in user space and then resume the interrupted code
    with the registers it had. *)

From S2P Require Import Prelude Mem Riscv Kalloc Vm Uvm Pagetable VmSpec Kstate Spinlock Proc Sched.
From S2P Require Import ProcMem ProcAlloc Process Wait ProcSpec Growproc Signal SignalSpec.

Section Pages.
Context `{KernelSymbols}.

(** a page of the process that only the kernel writes *)
Definition kernel_page (p : proc) (q : Z) : Prop := q = p_trapframe p ∨ backups (p_threads p) q.

Lemma kernel_page_ok i m p free q :
  slot_ok i m p free → p_state p ≠ UNUSED → kernel_page p q →
  valid_page q ∧ q ∉ free ∧ ¬ owns m (p_pagetable p) q ∧ proc_pages m p q.
Proof.
  intros Hs Hu Hq. destruct (so_used _ _ _ _ Hs Hu) as (Hpt & Hv & Hn & Hut & Hno & _).
  destruct Hq as [->|Hb].
  - split_and!; try done. left. split; [unfold valid_page in Hv; lia|done].
  - destruct (slot_backup _ _ _ _ _ Hs Hb) as (? & ? & _ & _ & ?). split_and!; try done. right. by left.
Qed.

(** the kernel writes such a page: no address space changes *)
Lemma table_kernel_write m ps np free i p q m' :
  table_inv m ps np free → ps !! i = Some p → p_state p ≠ UNUSED → kernel_page p q →
  page_changed q (ram m) m' →
  table_inv (mkMachine m' (freelist m)) ps np free ∧
  ∀ v, ubyte m' (p_pagetable p) v = ubyte (ram m) (p_pagetable p) v.
Proof.
  intros Hi Hp Hu Hq Hc. assert (Hs := ti_slot _ _ _ _ Hi i p Hp).
  destruct (kernel_page_ok _ _ _ _ _ Hs Hu Hq) as (Hqv & Hqf & Hqo & Hqp).
  destruct (so_used _ _ _ _ Hs Hu) as (Hpt & Hv & Hn & Hut & Hno & Htfs).
  destruct (utable_frame (ram m) m' (p_pagetable p) (p_sz p) (p_trapframe p) free free Hut) as (Hut' & Ho & Hview).
  { intros t x Ht Hx. apply Hc. destruct (owns_page _ _ _ _ (ut_as _ _ _ _ _ Hut) Ht).
    apply (in_page_disjoint t); [done..|intros ->; done|done]. }
  { intros t Ht. by destruct (owns_page _ _ _ _ (ut_as _ _ _ _ _ Hut) Ht). }
  split; [|intros v; by apply (view_ubyte _ _ _ free free); [apply Hut|apply Hut'|]].
  assert (Hs' : slot_ok i m' p free).
  { constructor; try (by apply Hs); [intros _; by rewrite Ho|].
    intros j t Ht. assert (Hth := so_thread _ _ _ _ Hs j t Ht). case_if; [done|]. by rewrite Ho. }
  assert (Hst : pool_step (proc_pages (ram m) p) (proc_pages m' p) m free (mkMachine m' (freelist m)) free).
  { constructor.
    - apply (page_changed_kmem q m m' free (p_pagetable p)); [apply Hi|done| |done].
      intros [Ht|?]; [|done]. apply Hqo. by left.
    - intros t. unfold proc_pages. by rewrite Ho.
    - intros x Hx. apply Hc. apply Hx. by right. }
  rewrite <- (list_insert_id ps i p Hp).
  apply (table_update m ps np free i p (mkMachine m' (freelist m)) p np free Hi Hp Hst Hs'); [lia|]. intros _. by left.
Qed.

(** the kernel copies to the user memory of the process *)
Lemma table_user_write m ps np free i p va bs m' :
  table_inv m ps np free → ps !! i = Some p → p_state p ≠ UNUSED →
  user_written (p_pagetable p) free va bs m m' →
  table_inv m' ps np free ∧
  (∀ q x, kernel_page p q → in_page q x → ld8 (ram m') x = ld8 (ram m) x) ∧
  (∀ x, x < sym_end → ld8 (ram m') x = ld8 (ram m) x).
Proof.
  intros Hi Hp Hu Hw. split; [by eapply table_written|].
  assert (Hs := ti_slot _ _ _ _ Hi i p Hp). destruct (so_used _ _ _ _ Hs Hu) as (_ & _ & _ & Hut & _).
  assert (Hup : ∀ v pa, 0 ≤ v < MAXVA → upage (ram m) (p_pagetable p) v = Some pa → owns (ram m) (p_pagetable p) pa).
  { intros v pa Hv Hpa. right. exists v. unfold upage in Hpa. unfold lpage.
    destruct (has (pte_at (ram m) (p_pagetable p) v) PTE_V) eqn:HV; [|done].
    destruct (has (pte_at (ram m) (p_pagetable p) v) PTE_U) eqn:HU; [|done]. split; [|done].
    destruct (Z.lt_ge_cases v TRAPFRAME); [lia|]. by rewrite (as_top _ _ _ (ut_as _ _ _ _ _ Hut)) in HU by lia. }
  split.
  - intros q x Hq Hx. apply (uw_frame _ _ _ _ _ _ Hw). intros v pa Hv Hpa%Hup; [|done].
    destruct (kernel_page_ok _ _ _ _ _ Hs Hu Hq) as (Hqv & _ & Hqo & _).
    apply (in_page_disjoint q); [done|by apply (owns_page _ _ _ _ (ut_as _ _ _ _ _ Hut))|congruence|done].
  - intros x Hx. apply (uw_frame _ _ _ _ _ _ Hw). intros v pa Hv Hpa%Hup; [|done].
    destruct (owns_page _ _ _ _ (ut_as _ _ _ _ _ Hut) Hpa) as [[_ [? _]] _]. unfold in_page. lia.
Qed.
End Pages.

Lemma ld64_st64 a v m : ld64 (st64 a v m) a = u64 v.
Proof.
  unfold ld64, st64. replace 8%nat with (length (le_split 8 v)) at 1 by apply length_le_split.
  rewrite ldbytes_stbytes_same. by rewrite le_combine_split.
Qed.

Lemma ld8_st64_in a v m m' x : a ≤ x < a + 8 → ld8 (st64 a v m) x = ld8 (st64 a v m') x.
Proof.
  intros Hx. destruct (lookup_lt_is_Some_2 (le_split 8 v) (Z.to_nat (x - a))) as [b Hb]; [rewrite length_le_split; lia|].
  unfold st64. by rewrite !(ld8_stbytes_in _ _ _ x _ b Hb) by lia.
Qed.

(** ** The trapframe of a thread and its backup *)

Section Thread.
Context {F : Type} `{KernelSymbols}.
Context (m : machine) (ps : list proc) (np : Z) (free : list Z) (i tj : nat) (p : proc) (t : thread).
Context (Hinv : table_inv m ps np free) (Hp : ps !! i = Some p) (Ht : p_threads p !! tj = Some t) (Hst : t_state t ≠ UNUSED).

Lemma thread_proc_used : p_state p ≠ UNUSED.
Proof.
  intros Hu. apply Hst. destruct (so_unused _ _ _ _ (ti_slot _ _ _ _ Hinv i p Hp) Hu) as (_ & _ & _ & _ & Hall). by apply (Hall tj).
Qed.

Lemma thread_frame : t_trapframe t = p_trapframe p + TF_SIZE * Z.of_nat tj ∧ (tj < NTHREAD)%nat ∧
  ∀ off len, 0 ≤ off → off + len ≤ TF_SIZE → ∀ x, t_trapframe t + off ≤ x < t_trapframe t + off + len → in_page (p_trapframe p) x.
Proof.
  assert (Hs := ti_slot _ _ _ _ Hinv i p Hp).
  destruct (so_used _ _ _ _ Hs thread_proc_used) as (_ & _ & _ & _ & _ & Htf).
  assert (Hlt := lookup_lt_Some _ _ _ Ht). rewrite (so_len _ _ _ _ Hs) in Hlt.
  split_and!; [by apply Htf|done|]. intros off len H0 H1 x Hx. rewrite (Htf tj t Ht) in Hx.
  unfold in_page, TF_SIZE, PGSIZE, NTHREAD in *. lia.
Qed.

Lemma thread_backup : kernel_page p (t_backup t) ∧ valid_page (t_backup t) ∧ t_backup t ≠ p_trapframe p ∧ valid_page (p_trapframe p).
Proof.
  assert (Hs := ti_slot _ _ _ _ Hinv i p Hp). destruct (so_used _ _ _ _ Hs thread_proc_used) as (_ & Hv & _ & _ & _ & _).
  assert (Hb := so_thread _ _ _ _ Hs tj t Ht). rewrite decide_False in Hb by done. destruct Hb as (Hbv & _ & Hne & _).
  split_and!; try done. right. exists tj, t. split_and!; try done. unfold valid_page in Hbv. lia.
Qed.

Lemma frame_changed off v : 0 ≤ off → off + 8 ≤ TF_SIZE →
  page_changed (p_trapframe p) (ram m) (st64 (t_trapframe t + off) v (ram m)).
Proof.
  intros H0 H1 x Hx. apply ld8_st64_out. intros Hin. apply Hx.
  destruct thread_frame as (_ & _ & Hf). apply (Hf off 8); lia.
Qed.

(** a register of the trapframe is set *)
Lemma frame_set off v : 0 ≤ off → off + 8 ≤ TF_SIZE →
  table_inv (m <| ram ::= st64 (t_trapframe t + off) v |>) ps np free ∧
  (∀ x, in_page (t_backup t) x → ld8 (st64 (t_trapframe t + off) v (ram m)) x = ld8 (ram m) x) ∧
  (∀ x, x < sym_end → ld8 (st64 (t_trapframe t + off) v (ram m)) x = ld8 (ram m) x) ∧
  ∀ va, ubyte (st64 (t_trapframe t + off) v (ram m)) (p_pagetable p) va = ubyte (ram m) (p_pagetable p) va.
Proof.
  intros H0 H1. assert (Hc := frame_changed off v H0 H1). destruct thread_backup as (_ & Hbv & Hne & Hv).
  destruct (table_kernel_write m ps np free i p (p_trapframe p) _ Hinv Hp thread_proc_used ltac:(by left) Hc) as [Hi Hub].
  split_and!; [exact Hi| | |done].
  - intros x Hx. apply Hc. by apply (in_page_disjoint (t_backup t)).
  - intros x Hx. apply Hc. unfold in_page. destruct Hv as (_ & ? & _). lia.
Qed.

(** a copy to user memory *)
Record user_copied (va : Z) (data : list byte) (m' : machine) : Prop := {
  uc_kernel q x : kernel_page p q → in_page q x → ld8 (ram m') x = ld8 (ram m) x;
  uc_low x : x < sym_end → ld8 (ram m') x = ld8 (ram m) x;
  uc_other v : ¬ (va ≤ v < va + Z.of_nat (length data)) → ubyte (ram m') (p_pagetable p) v = ubyte (ram m) (p_pagetable p) v;
  uc_mapped v : ubyte (ram m') (p_pagetable p) v = None ↔ ubyte (ram m) (p_pagetable p) v = None;
  uc_bytes : (∀ k, 0 ≤ k < Z.of_nat (length data) → ubyte (ram m) (p_pagetable p) (va + k) ≠ None) →
    user_bytes (ram m') (p_pagetable p) va data
}.

Lemma frame_copyout va data : 0 ≤ va →
  ∃ r m', (∀ A (k : Z → K F A) ip nt bs h tk fi fs,
      bind (mach (copyout (p_pagetable p) va data)) k (mkKstate m ps ip np nt bs h tk fi fs) = k r (mkKstate m' ps ip np nt bs h tk fi fs)) ∧
    table_inv m' ps np free ∧ user_copied va data m'.
Proof.
  intros Hva. assert (Hu := thread_proc_used).
  destruct (so_used _ _ _ _ (ti_slot _ _ _ _ Hinv i p Hp) Hu) as (_ & _ & _ & Hut & _).
  destruct (copyout_ok (E := Empty_set) (p_pagetable p) va data m free) as (k & r & m' & Hr & Hw & Hcase);
    [apply Hinv|apply aspace_uvm, Hut|done|].
  destruct (table_user_write m ps np free i p va (take k data) m' Hinv Hp Hu Hw) as (Hi & Hk & Hlow).
  exists r, m'. split_and!; [intros; apply bind_Ok; by apply mach_Ok|done|split; [done|done|..]].
  - intros v Hv. rewrite (uw_byte _ _ _ _ _ _ Hw), decide_False; [done|]. rewrite length_take. lia.
  - intros v. unfold ubyte, upage. rewrite (uw_pte _ _ _ _ _ _ Hw). repeat case_match; done.
  - intros Hmap j Hj. rewrite (uw_byte _ _ _ _ _ _ Hw).
    destruct Hcase as [[-> ->]|(_ & Hlt & Hn)]; [|by destruct (Hmap (Z.of_nat k) ltac:(lia))].
    rewrite firstn_all, decide_True by lia. f_equal. lia.
Qed.
End Thread.

Lemma bind_mach_gets {F A B} (f : machine → A) (k : A → K F B) m ps ip np nt bs h tk fi (fs : F) :
  bind (mach (gets f)) k (mkKstate m ps ip np nt bs h tk fi fs) = k (f m) (mkKstate m ps ip np nt bs h tk fi fs).
Proof. done. Qed.

(** ** userhandler *)

(** the process while a handler runs *)
Definition handling (n : nat) (p : proc) : proc :=
  p <| p_signal_mask_backup := p_signal_mask p |> <| p_signal_mask := p_signal_handlers_mask p !!! n |>
    <| p_signal_handling_flag := 1 |>.

Section Userhandler.
Context {F : Type} `{KernelSymbols}.
Context (m : machine) (ps : list proc) (ip : option nat) (np nt : Z) (bs : list bsem) (h : hart) (tk : Z) (fi : bool) (fs : F).
Context (free : list Z) (i tj : nat) (p : proc) (t : thread).
Context (Hinv : table_inv m ps np free) (Hr : running_on h i i tj)
  (Hp : ps !! i = Some p) (Ht : p_threads p !! tj = Some t) (Hst : t_state t ≠ UNUSED).

Abbreviation st m ps h := (mkKstate m ps ip np nt bs h tk fi fs).
Abbreviation tf := (t_trapframe t).
Abbreviation bk := (t_backup t).
Abbreviation pt := (p_pagetable p).

(** the code of [sigret] that is put on the user stack *)
Definition sigret_size : Z := i32 (sym_endFunc - sym_startCalcSize).
Definition sigret_code (mem : gmap Z byte) : list byte := ldbytes (Z.to_nat sigret_size) mem sym_startCalcSize.
(** the stack pointer that the handler starts with *)
Definition handler_sp : Z := u64 (u64 (ld64 (ram m) (tf + TF_SP) - TF_SIZE) - sigret_size).

(** what [userhandler] leaves in memory *)
Record handler_frame (n : nat) (m' : machine) : Prop := {
  hf_backup x : in_page bk x → ld8 (ram m') x = ld8 (ram m) x;
  hf_epc : ld64 (ram m') (tf + TF_EPC) = u64 (p_signal_handlers p !!! n);
  hf_a0 : ld64 (ram m') (tf + TF_A0) = u64 (Z.of_nat n);
  hf_sp : ld64 (ram m') (tf + TF_SP) = handler_sp;
  hf_ra : ld64 (ram m') (tf + TF_RA) = handler_sp;
  hf_other off : 0 ≤ off < TF_SIZE → ¬ (TF_EPC ≤ off < TF_EPC + 8) → ¬ (TF_A0 ≤ off < TF_A0 + 8) →
    ¬ (TF_RA ≤ off < TF_RA + 16) → ld8 (ram m') (tf + off) = ld8 (ram m) (tf + off);
  hf_mapped v : ubyte (ram m') pt v = None ↔ ubyte (ram m) pt v = None;
  hf_code : sym_startCalcSize + sigret_size ≤ sym_end →
    (∀ k, 0 ≤ k < sigret_size → ubyte (ram m) pt (handler_sp + k) ≠ None) →
    user_bytes (ram m') pt handler_sp (sigret_code (ram m));
  (* the trapframe, with its lowered stack pointer, goes to the saved stack pointer *)
  hf_stack :
    let bsp := ld64 (ram m) (bk + TF_SP) in
    bsp + TF_SIZE ≤ handler_sp ∨ handler_sp + sigret_size ≤ bsp →
    (∀ k, 0 ≤ k < TF_SIZE → ubyte (ram m) pt (bsp + k) ≠ None) →
    user_bytes (ram m') pt bsp (ldbytes (Z.to_nat TF_SIZE)
      (st64 (tf + TF_SP) (u64 (ld64 (ram m) (tf + TF_SP) - TF_SIZE)) (ram m)) tf)
}.

(** the memory after each group of steps; [m2] and [m5] are the results of the
    two copies to user memory *)
Definition uh_sp1 : Z := u64 (ld64 (ram m) (tf + TF_SP) - TF_SIZE).
Definition uh_m1 : machine := m <| ram ::= st64 (tf + TF_SP) uh_sp1 |>.
Definition uh_m4 (n : nat) (m2 : machine) : machine :=
  let m3 := m2 <| ram ::= st64 (tf + TF_EPC) (p_signal_handlers p !!! n) |> in
  m3 <| ram ::= st64 (tf + TF_SP) (u64 (ld64 (ram m3) (tf + TF_SP) - sigret_size)) |>.
Definition uh_m7 (n : nat) (m5 : machine) : machine :=
  let m6 := m5 <| ram ::= st64 (tf + TF_A0) (Z.of_nat n) |> in
  m6 <| ram ::= st64 (tf + TF_RA) (ld64 (ram m6) (tf + TF_SP)) |>.

Record uh_trace (n : nat) (m2 m5 : machine) : Prop := {
  ut_copy2 : user_copied uh_m1 p (ld64 (ram uh_m1) (bk + TF_SP)) (ldbytes (Z.to_nat TF_SIZE) (ram uh_m1) tf) m2;
  ut_copy5 : user_copied (uh_m4 n m2) p (ld64 (ram (uh_m4 n m2)) (tf + TF_SP)) (sigret_code (ram (uh_m4 n m2))) m5;
  ut_user1 v : ubyte (ram uh_m1) pt v = ubyte (ram m) pt v;
  ut_user4 v : ubyte (ram (uh_m4 n m2)) pt v = ubyte (ram m2) pt v;
  ut_user7 v : ubyte (ram (uh_m7 n m5)) pt v = ubyte (ram m5) pt v;
  ut_low4 x : x < sym_end → ld8 (ram (uh_m4 n m2)) x = ld8 (ram m) x
}.

Lemma userhandler_run n :
  let p' := (handling n p) <| p_pendding_signals ::= sig_clear (Z.of_nat n) |> in
  ∃ m2 m5, userhandler n (st m ps h) = Ok tt (st (uh_m7 n m5) (<[i := p']> ps) (settle h)) ∧
    table_inv (uh_m7 n m5) (<[i := p']> ps) np free ∧ uh_trace n m2 m5.
Proof.
  intros p'. destruct Hr as [Hh Hheld Hproc Hthr].
  set (p1 := handling n p). set (ps1 := <[i := p1]> ps).
  assert (Hlt := lookup_lt_Some _ _ _ Hp).
  assert (Hp1 : ps1 !! i = Some p1) by (by apply list_lookup_insert_eq).
  assert (Ht1 : p_threads p1 !! tj = Some t) by done.
  assert (Hinv1 : table_inv m ps1 np free) by (eapply table_inv_touch; done).
  assert (Hset := λ ma Hi off v, frame_set ma ps1 np free i tj p1 t Hi Hp1 Ht1 Hst off v).
  assert (Hcopy := λ ma Hi va data, frame_copyout (F := F) ma ps1 np free i tj p1 t Hi Hp1 Ht1 Hst va data).
  unfold userhandler. rewrite (bind_myproc' _ _ _ _ _ _ _ _ _ _ Hh _ i Hproc).
  rewrite (bind_mythread' _ _ _ _ _ _ _ _ _ _ (settle_ok h Hh) _ (i, tj)) by (by rewrite settle_thread).
  rewrite settle_settle, bind_acquire by hart. rewrite locked_settle. krun.
  assert (Eps : alter (λ p, p <| p_signal_mask := p_signal_handlers_mask p !!! n |> <| p_signal_handling_flag := 1 |>) i
    (alter (λ p, p <| p_signal_mask_backup := p_signal_mask p |>) i ps) = ps1).
  { rewrite alter_alter_same. rewrite (insert_alter _ _ _ _ Hp). done. }
  rewrite Eps. rewrite (list_lookup_total_correct _ _ _ Hp1). rewrite (list_lookup_total_correct _ _ _ Ht1).
  destruct (Hset m Hinv1 TF_SP uh_sp1 ltac:(done) ltac:(done)) as (Hi1 & _ & Hl1 & Hu1).
  rewrite bind_mach_gets. destruct (Hcopy uh_m1 Hi1 (ld64 (ram uh_m1) (bk + TF_SP)) (ldbytes (Z.to_nat TF_SIZE) (ram uh_m1) tf))
    as (r2 & m2 & Hrun2 & Hi2 & Hc2); [apply ld64_range|].
  rewrite Hrun2. clear Hrun2. krun.
  destruct (Hset m2 Hi2 TF_EPC (p_signal_handlers p !!! n) ltac:(done) ltac:(done)) as (Hi3 & _ & Hl3 & Hu3).
  destruct (Hset _ Hi3 TF_SP (u64 (ld64 (ram (m2 <| ram ::= st64 (tf + TF_EPC) (p_signal_handlers p !!! n) |>)) (tf + TF_SP) - sigret_size))
    ltac:(done) ltac:(done)) as (Hi4 & _ & Hl4 & Hu4).
  rewrite bind_mach_gets. destruct (Hcopy (uh_m4 n m2) Hi4 (ld64 (ram (uh_m4 n m2)) (tf + TF_SP)) (sigret_code (ram (uh_m4 n m2))))
    as (r5 & m5 & Hrun5 & Hi5 & Hc5); [apply ld64_range|].
  rewrite Hrun5. clear Hrun5. krun.
  destruct (Hset m5 Hi5 TF_A0 (Z.of_nat n) ltac:(done) ltac:(done)) as (Hi6 & _ & Hl6 & Hu6).
  destruct (Hset _ Hi6 TF_RA (ld64 (ram (m5 <| ram ::= st64 (tf + TF_A0) (Z.of_nat n) |>)) (tf + TF_SP)) ltac:(done) ltac:(done)) as (Hi7 & _ & Hl7 & Hu7).
  exists m2, m5. split_and!; [| |split; [by destruct Hc2; split|by destruct Hc5; split|exact Hu1|..]].
  - rewrite release_locked by hart. unfold ps1. by rewrite alter_insert_same.
  - assert (Eins : <[i := p']> ps = <[i := p']> ps1) by (unfold ps1; by rewrite list_insert_insert_eq).
    rewrite Eins. eapply table_inv_touch; done.
  - intros v. etrans; [exact (Hu4 v)|exact (Hu3 v)].
  - intros v. etrans; [exact (Hu7 v)|exact (Hu6 v)].
  - intros x Hx. etrans; [exact (Hl4 x Hx)|]. etrans; [exact (Hl3 x Hx)|].
    etrans; [exact (uc_low _ _ _ _ _ Hc2 x Hx)|exact (Hl1 x Hx)].
Qed.

(** registers and the backup through the two copies *)
Lemma copied_frame ma va data mb x : user_copied ma p va data mb →
  (∃ off, 0 ≤ off < TF_SIZE ∧ x = tf + off) ∨ in_page bk x → ld8 (ram mb) x = ld8 (ram ma) x.
Proof.
  intros Hc [(off & Hoff & ->)|Hx].
  - destruct (thread_frame m ps np free i tj p t Hinv Hp Ht Hst) as (_ & _ & Hf).
    apply (uc_kernel _ _ _ _ _ Hc (p_trapframe p)); [by left|]. apply (Hf off 1); lia.
  - destruct (thread_backup m ps np free i tj p t Hinv Hp Ht Hst) as (Hb & _).
    by apply (uc_kernel _ _ _ _ _ Hc bk).
Qed.
Lemma copied_reg ma va data mb off : user_copied ma p va data mb → 0 ≤ off → off + 8 ≤ TF_SIZE →
  ld64 (ram mb) (tf + off) = ld64 (ram ma) (tf + off).
Proof.
  intros Hc H0 H1. apply ld64_ext. intros k Hk. apply (copied_frame _ _ _ _ _ Hc). left. exists (off + k). lia.
Qed.

(** a byte of the trapframe that is not a register that is set, or a byte of the backup *)
Lemma uh_byte n m2 m5 x : uh_trace n m2 m5 →
  (∃ off, 0 ≤ off < TF_SIZE ∧ x = tf + off) ∨ in_page bk x →
  ¬ (tf + TF_EPC ≤ x < tf + TF_EPC + 8) → ¬ (tf + TF_A0 ≤ x < tf + TF_A0 + 8) → ¬ (tf + TF_RA ≤ x < tf + TF_RA + 16) →
  ld8 (ram (uh_m7 n m5)) x = ld8 (ram m) x.
Proof.
  intros Htr Hx Hepc Ha0 Hra. unfold uh_m7. rproj. change TF_SP with (TF_RA + 8) in *.
  rewrite ld8_st64_out by lia. rproj. rewrite ld8_st64_out by lia.
  rewrite (copied_frame _ _ _ _ _ (ut_copy5 _ _ _ Htr) Hx). unfold uh_m4. rproj. change TF_SP with (TF_RA + 8).
  rewrite ld8_st64_out by lia. rewrite ld8_st64_out by lia.
  rewrite (copied_frame _ _ _ _ _ (ut_copy2 _ _ _ Htr) Hx). unfold uh_m1. rproj. change TF_SP with (TF_RA + 8).
  by rewrite ld8_st64_out by lia.
Qed.

Lemma uh_sp n m2 m5 : uh_trace n m2 m5 →
  ld64 (ram (uh_m4 n m2)) (tf + TF_SP) = handler_sp ∧
  ld64 (st64 (tf + TF_A0) (Z.of_nat n) (ram m5)) (tf + TF_SP) = handler_sp.
Proof.
  intros Htr. assert (Hc2 := ut_copy2 _ _ _ Htr). assert (Hc5 := ut_copy5 _ _ _ Htr).
  set (m3 := m2 <| ram ::= st64 (tf + TF_EPC) (p_signal_handlers p !!! n) |>).
  assert (Hsp3 : ld64 (ram m3) (tf + TF_SP) = uh_sp1).
  { change (ld64 (st64 (tf + TF_EPC) (p_signal_handlers p !!! n) (ram m2)) (tf + TF_SP) = uh_sp1).
    rewrite ld64_st64_out by (unfold TF_EPC, TF_SP; lia). rewrite (copied_reg _ _ _ _ _ Hc2) by done.
    change (ram uh_m1) with (st64 (tf + TF_SP) uh_sp1 (ram m)). rewrite ld64_st64. unfold uh_sp1. apply u64_small, u64_range. }
  assert (Hsp4 : ld64 (ram (uh_m4 n m2)) (tf + TF_SP) = handler_sp).
  { change (ld64 (st64 (tf + TF_SP) (u64 (ld64 (ram m3) (tf + TF_SP) - sigret_size)) (ram m3)) (tf + TF_SP) = handler_sp).
    rewrite ld64_st64, Hsp3. unfold handler_sp. apply u64_small, u64_range. }
  split; [done|]. rewrite ld64_st64_out by (unfold TF_A0, TF_SP; lia). by rewrite (copied_reg _ _ _ _ _ Hc5).
Qed.

Lemma handler_frame_ok n m2 m5 : uh_trace n m2 m5 → handler_frame n (uh_m7 n m5).
Proof.
  intros Htr. assert (Hc2 := ut_copy2 _ _ _ Htr). assert (Hc5 := ut_copy5 _ _ _ Htr).
  destruct (uh_sp n m2 m5 Htr) as [Hsp4 Hsp6].
  destruct (thread_frame m ps np free i tj p t Hinv Hp Ht Hst) as (_ & _ & Hf).
  destruct (thread_backup m ps np free i tj p t Hinv Hp Ht Hst) as (_ & Hbv & Hne & Htv).
  rewrite Hsp4 in Hc5. split.
  - intros x Hx. apply (uh_byte n m2 m5 x Htr); [by right|..].
    all: intros Hin; destruct (in_page_disjoint bk (p_trapframe p) x Hbv Htv Hne Hx).
    + apply (Hf TF_EPC 8); [done..|lia].
    + apply (Hf TF_A0 8); [done..|lia].
    + apply (Hf TF_RA 16); [done..|lia].
  - unfold uh_m7. rproj. rewrite !ld64_st64_out by (unfold TF_EPC, TF_RA, TF_A0; lia).
    rewrite (copied_reg _ _ _ _ _ Hc5) by done. unfold uh_m4. rproj.
    rewrite ld64_st64_out by (unfold TF_EPC, TF_SP; lia). apply ld64_st64.
  - unfold uh_m7. rproj. rewrite ld64_st64_out by (unfold TF_A0, TF_RA; lia). apply ld64_st64.
  - unfold uh_m7. rproj. rewrite ld64_st64_out by (unfold TF_SP, TF_RA; lia). exact Hsp6.
  - unfold uh_m7. rproj. rewrite ld64_st64, Hsp6. apply u64_small, u64_range.
  - intros off Hoff H1 H2 H3. apply (uh_byte n m2 m5 _ Htr); [left; by exists off|lia..].
  - intros v. rewrite (ut_user7 _ _ _ Htr), (uc_mapped _ _ _ _ _ Hc5), (ut_user4 _ _ _ Htr), (uc_mapped _ _ _ _ _ Hc2).
    by rewrite (ut_user1 _ _ _ Htr).
  - intros Hlow Hmap k Hk. rewrite (ut_user7 _ _ _ Htr).
    assert (Ecode : sigret_code (ram (uh_m4 n m2)) = sigret_code (ram m)).
    { apply ldbytes_ext. intros j Hj. apply (ut_low4 _ _ _ Htr). lia. }
    rewrite Ecode in Hc5. apply (uc_bytes _ _ _ _ _ Hc5); [|done]. unfold sigret_code. rewrite length_ldbytes. intros j Hj.
    rewrite (ut_user4 _ _ _ Htr). intros Hn%(uc_mapped _ _ _ _ _ Hc2). rewrite (ut_user1 _ _ _ Htr) in Hn.
    apply (Hmap j); [lia|done].
  - intros bsp Hdisj Hmap k Hk. assert (Hl : length (sigret_code (ram (uh_m4 n m2))) = Z.to_nat sigret_size) by apply length_ldbytes.
    rewrite length_ldbytes in Hk. change (Z.to_nat TF_SIZE) with 288%nat in Hk.
    rewrite (ut_user7 _ _ _ Htr), (uc_other _ _ _ _ _ Hc5), (ut_user4 _ _ _ Htr) by (unfold TF_SIZE in *; lia).
    assert (Ebsp : ld64 (ram uh_m1) (bk + TF_SP) = bsp).
    { apply ld64_ext. intros j Hj. unfold uh_m1. rproj. apply ld8_st64_out. intros Hin.
      destruct (in_page_disjoint bk (p_trapframe p) (bk + TF_SP + j) Hbv Htv Hne); [unfold in_page, TF_SP, PGSIZE; lia|].
      apply (Hf TF_SP 8); [done..|lia]. }
    rewrite Ebsp in Hc2. apply (uc_bytes _ _ _ _ _ Hc2); [|by rewrite length_ldbytes].
    rewrite length_ldbytes. intros j Hj. change (Z.of_nat (Z.to_nat TF_SIZE)) with TF_SIZE in Hj.
    rewrite (ut_user1 _ _ _ Htr). by apply Hmap.
Qed.

Lemma userhandler_ok n :
  let p' := (handling n p) <| p_pendding_signals ::= sig_clear (Z.of_nat n) |> in
  ∃ m', userhandler n (st m ps h) = Ok tt (st m' (<[i := p']> ps) (settle h)) ∧
    table_inv m' (<[i := p']> ps) np free ∧ handler_frame n m'.
Proof.
  destruct (userhandler_run n) as (m2 & m5 & Hrun & Hi & Htr). eexists. split_and!; [exact Hrun|exact Hi|].
  by apply (handler_frame_ok n m2).
Qed.
End Userhandler.

(** ** The life of a handler *)

Section Roundtrip.
Context {F : Type} `{KernelSymbols}.

(** [sigret] puts the saved registers back *)
Lemma sigret_ok (s : kstate F) i tj p t :
  thread_runs s i i tj → k_proc s !! i = Some p → p_threads p !! tj = Some t →
  ∃ s', sigret s = Ok tt s' ∧
    k_proc s' = <[i := p <| p_signal_mask := p_signal_mask_backup p |> <| p_signal_handling_flag := 0 |>]> (k_proc s) ∧
    ldbytes (Z.to_nat TF_SIZE) (ram (k_mach s')) (t_trapframe t) = ldbytes (Z.to_nat TF_SIZE) (ram (k_mach s)) (t_backup t).
Proof.
  intros [[Hh Hheld Hproc Hthr] Hsh Hsl Htp] Hp Ht. destruct s as [m ps ip np nt bs h tk fi fs]. simpl in *.
  eexists. split; [|split].
  - unfold sigret. rewrite (bind_myproc' _ _ _ _ _ _ _ _ _ _ Hh _ i Hproc).
    rewrite (bind_mythread' _ _ _ _ _ _ _ _ _ _ (settle_ok h Hh) _ (i, tj)) by (by rewrite settle_thread).
    rewrite settle_settle, bind_acquire by hart. rewrite locked_settle. krun.
    rewrite (list_lookup_total_correct _ _ _ Hp), (list_lookup_total_correct _ _ _ Ht).
    rewrite (bind_Ok _ _ _ _ _ (mach_Ok (mem_move (t_trapframe t) (t_backup t) TF_SIZE) _ _ _ eq_refl)). krun.
    rewrite release_locked by hart. done.
  - kred. by rewrite (insert_alter _ _ _ _ Hp).
  - kred. change (ldbytes (Z.to_nat TF_SIZE) (memmove (t_trapframe t) (t_backup t) TF_SIZE (ram m)) (t_trapframe t) =
      ldbytes (Z.to_nat TF_SIZE) (ram m) (t_backup t)).
    rewrite memmove_stbytes by done.
    rewrite <- (length_ldbytes (Z.to_nat TF_SIZE) (ram m) (t_backup t)) at 1. apply ldbytes_stbytes_same.
Qed.

(** the trapframe is saved before the signals are looked at *)
Lemma save_frame m ps np free i tj p t :
  table_inv m ps np free → ps !! i = Some p → p_threads p !! tj = Some t → t_state t ≠ UNUSED →
  let m1 := m <| ram ::= memmove (t_backup t) (t_trapframe t) TF_SIZE |> in
  table_inv m1 ps np free ∧
  ldbytes (Z.to_nat TF_SIZE) (ram m1) (t_backup t) = ldbytes (Z.to_nat TF_SIZE) (ram m) (t_trapframe t) ∧
  (∀ v, ubyte (ram m1) (p_pagetable p) v = ubyte (ram m) (p_pagetable p) v) ∧
  (∀ x, in_page (p_trapframe p) x → ld8 (ram m1) x = ld8 (ram m) x).
Proof.
  intros Hi Hp Ht Hst m1. destruct (thread_backup m ps np free i tj p t Hi Hp Ht Hst) as (Hk & Hbv & Hne & Htv).
  assert (Hc : page_changed (t_backup t) (ram m) (memmove (t_backup t) (t_trapframe t) TF_SIZE (ram m))).
  { intros x Hx. rewrite ld8_memmove by done. rewrite decide_False; [done|]. intros Hin. apply Hx.
    unfold in_page, TF_SIZE, PGSIZE in *. lia. }
  destruct (table_kernel_write m ps np free i p (t_backup t) _ Hi Hp (thread_proc_used _ _ _ _ _ _ _ _ Hi Hp Ht Hst) Hk Hc) as [Hi1 Hu].
  split_and!; [exact Hi1| |exact Hu|].
  - change (ram m1) with (memmove (t_backup t) (t_trapframe t) TF_SIZE (ram m)). rewrite memmove_stbytes by done.
    rewrite <- (length_ldbytes (Z.to_nat TF_SIZE) (ram m) (t_trapframe t)) at 1. apply ldbytes_stbytes_same.
  - intros x Hx. apply Hc. by apply (in_page_disjoint (p_trapframe p)).
Qed.

(** a signal with a handler in user space, up to the start of the handler *)
Lemma handler_starts fuel (s : kstate F) free i tj p t n :
  table_inv (k_mach s) (k_proc s) (k_nextpid s) free → thread_runs s i i tj →
  k_proc s !! i = Some p → p_threads p !! tj = Some t → t_state t ≠ UNUSED →
  p_frozen p ≠ 1 → next_signal p = Some n → action_of p n = Some DoUser →
  ∃ s1 s2, handle_pendding_sinals (S (S fuel)) s = Ok (Z.of_nat n) s1 ∧ userhandler n s1 = Ok tt s2 ∧
    k_mach s1 = (k_mach s) <| ram ::= memmove (t_backup t) (t_trapframe t) TF_SIZE |> ∧
    table_inv (k_mach s2) (k_proc s2) (k_nextpid s2) free ∧
    k_proc s2 = <[i := (handling n p) <| p_pendding_signals ::= sig_clear (Z.of_nat n) |>]> (k_proc s) ∧
    handler_frame (k_mach s1) p t n (k_mach s2).
Proof.
  intros Hi Hr Hp Ht Hst Hf Hn Ha. destruct (tr_slot _ _ _ _ Hr) as [Hlt _].
  assert (Hd := handle_ok fuel s i i tj Hr Hlt). cbv zeta in Hd.
  rewrite (list_lookup_total_correct _ _ _ Hp) in Hd.
  assert (Eth : thaw p = p) by (unfold thaw; by rewrite (proj2 (Z.eqb_neq _ _) Hf)).
  rewrite Eth, (proj2 (Z.eqb_neq _ _) Hf), Hn, Ha in Hd. simpl in Hd.
  destruct s as [m ps ip np nt bs h tk fi fs]. simpl in *.
  assert (Hr' : running_on (settle h) i i tj).
  { destruct Hr as [[Hh Hheld Hproc Hthr] _ _ _]. simpl in *.
    split; [hart|by rewrite settle_held|by rewrite settle_proc|by rewrite settle_thread]. }
  destruct (save_frame m ps np free i tj p t Hi Hp Ht Hst) as (Hi1 & _).
  destruct (userhandler_ok (m <| ram ::= memmove (t_backup t) (t_trapframe t) TF_SIZE |>) ps ip np nt bs (settle h) tk fi fs
    free i tj p t Hi1 Hr' Hp Ht Hst n) as (m2 & Hu & Hi2 & Hfr).
  eexists _, _. split_and!; [|exact Hu|done|exact Hi2|done|exact Hfr].
  rewrite Hd. f_equal. unfold saved_frame. kred.
  rewrite (list_lookup_total_correct _ _ _ Hp), (list_lookup_total_correct _ _ _ Ht). f_equal.
  apply (alter_fix _ _ _ _ Hp). by rewrite Eth.
Qed.

(** C34: running a handler in user space.  When the next signal has a user
    handler, [handle_pendding_sinals] and [userhandler] start the handler: the
    process runs with the handler's mask, the signal is not pending any more,
    the thread's program counter is the handler, its first argument the signal,
    its return address and stack pointer the address of a copy of the [sigret]
    call on the user stack, and its other registers are unchanged.  When the
    handler returns by way of [sigret], whatever it did to its registers and
    to user memory, the thread has all the registers and the process the signal
    mask it had when the signal was taken. *)
Theorem signal_frame_roundtrip fuel (s : kstate F) free i tj p t n :
  table_inv (k_mach s) (k_proc s) (k_nextpid s) free → thread_runs s i i tj →
  k_proc s !! i = Some p → p_threads p !! tj = Some t → t_state t ≠ UNUSED →
  p_frozen p ≠ 1 → next_signal p = Some n → action_of p n = Some DoUser →
  ∃ s1 s2, handle_pendding_sinals (S (S fuel)) s = Ok (Z.of_nat n) s1 ∧ userhandler n s1 = Ok tt s2 ∧
    table_inv (k_mach s2) (k_proc s2) (k_nextpid s2) free ∧
    k_proc s2 = <[i := (handling n p) <| p_pendding_signals ::= sig_clear (Z.of_nat n) |>]> (k_proc s) ∧
    handler_frame (k_mach s1) p t n (k_mach s2) ∧
    ∀ (s3 : kstate F) p3 t3, thread_runs s3 i i tj → k_proc s3 !! i = Some p3 → p_threads p3 !! tj = Some t3 →
      t_trapframe t3 = t_trapframe t → t_backup t3 = t_backup t → p_signal_mask_backup p3 = p_signal_mask p →
      (∀ x, in_page (t_backup t) x → ld8 (ram (k_mach s3)) x = ld8 (ram (k_mach s2)) x) →
      ∃ (s4 : kstate F) p4, sigret s3 = Ok tt s4 ∧ k_proc s4 !! i = Some p4 ∧
        p_signal_mask p4 = p_signal_mask p ∧ p_signal_handling_flag p4 = 0 ∧
        ldbytes (Z.to_nat TF_SIZE) (ram (k_mach s4)) (t_trapframe t) =
          ldbytes (Z.to_nat TF_SIZE) (ram (k_mach s)) (t_trapframe t).
Proof.
  intros Hi Hr Hp Ht Hst Hf Hn Ha.
  destruct (handler_starts fuel s free i tj p t n Hi Hr Hp Ht Hst Hf Hn Ha) as (s1 & s2 & H1 & H2 & Em1 & Hi2 & Eps & Hfr).
  exists s1, s2. split_and!; try done. intros s3 p3 t3 Hr3 Hp3 Ht3 Etf Ebk Emask Hbk.
  destruct (sigret_ok s3 i tj p3 t3 Hr3 Hp3 Ht3) as (s4 & Hs4 & Ep4 & Hb4).
  eexists s4, _. split_and!; [done|rewrite Ep4; apply list_lookup_insert_eq; by eapply lookup_lt_Some|done|done|].
  destruct (save_frame _ _ _ _ i tj p t Hi Hp Ht Hst) as (_ & Hsv & _).
  rewrite Etf, Ebk in Hb4. rewrite Hb4, <- Hsv. apply ldbytes_ext. intros k Hk.
  assert (Hin : in_page (t_backup t) (t_backup t + Z.of_nat k)).
  { change (Z.to_nat TF_SIZE) with 288%nat in Hk. unfold in_page, PGSIZE. lia. }
  rewrite Hbk by done. rewrite (hf_backup _ _ _ _ _ Hfr) by done. by rewrite Em1.
Qed.

(** The frame of a handler is written over the interrupted stack.
    [userhandler] lowers the stack pointer but copies the trapframe to the
    saved one, so the 288 bytes at the interrupted stack pointer, which hold
    live data, are overwritten with the trapframe. *)
Theorem userhandler_overwrites_stack fuel (s : kstate F) free i tj p t n :
  table_inv (k_mach s) (k_proc s) (k_nextpid s) free → thread_runs s i i tj →
  k_proc s !! i = Some p → p_threads p !! tj = Some t → t_state t ≠ UNUSED →
  p_frozen p ≠ 1 → next_signal p = Some n → action_of p n = Some DoUser →
  let sp := ld64 (ram (k_mach s)) (t_trapframe t + TF_SP) in
  0 ≤ sigret_size → TF_SIZE + sigret_size ≤ sp →
  (∀ k, 0 ≤ k < TF_SIZE → ubyte (ram (k_mach s)) (p_pagetable p) (sp + k) ≠ None) →
  ∃ s1 s2, handle_pendding_sinals (S (S fuel)) s = Ok (Z.of_nat n) s1 ∧ userhandler n s1 = Ok tt s2 ∧
    user_bytes (ram (k_mach s2)) (p_pagetable p) sp
      (ldbytes (Z.to_nat TF_SIZE) (st64 (t_trapframe t + TF_SP) (sp - TF_SIZE) (ram (k_mach s))) (t_trapframe t)).
Proof.
  intros Hi Hr Hp Ht Hst Hf Hn Ha sp Hsz Hsp Hmap.
  destruct (handler_starts fuel s free i tj p t n Hi Hr Hp Ht Hst Hf Hn Ha) as (s1 & s2 & H1 & H2 & Em1 & Hi2 & Eps & Hfr).
  exists s1, s2. split_and!; [done|done|].
  destruct (save_frame _ _ _ _ i tj p t Hi Hp Ht Hst) as (_ & Hsv & Hub & Htf).
  destruct (thread_frame _ _ _ _ i tj p t Hi Hp Ht Hst) as (_ & _ & Hin).
  assert (Esp : ld64 (ram (k_mach s1)) (t_trapframe t + TF_SP) = sp).
  { rewrite Em1. apply ld64_ext. intros k Hk. apply Htf. apply (Hin TF_SP 8); [done..|lia]. }
  assert (Ebsp : ld64 (ram (k_mach s1)) (t_backup t + TF_SP) = sp).
  { rewrite Em1. apply ld64_ext. intros k Hk. rproj. rewrite ld8_memmove, decide_True by (done || (unfold TF_SP, TF_SIZE; lia)).
    f_equal. lia. }
  assert (Hst4 := hf_stack _ _ _ _ _ Hfr). cbv zeta in Hst4. rewrite Ebsp, Esp in Hst4. unfold handler_sp in Hst4. rewrite Esp in Hst4.
  assert (Hspr := ld64_range (ram (k_mach s)) (t_trapframe t + TF_SP)). fold sp in Hspr.
  rewrite (u64_small (sp - TF_SIZE)), u64_small in Hst4 by (unfold TF_SIZE in *; lia).
  assert (Eb : ldbytes (Z.to_nat TF_SIZE) (st64 (t_trapframe t + TF_SP) (sp - TF_SIZE) (ram (k_mach s1))) (t_trapframe t) =
    ldbytes (Z.to_nat TF_SIZE) (st64 (t_trapframe t + TF_SP) (sp - TF_SIZE) (ram (k_mach s))) (t_trapframe t)).
  { apply ldbytes_ext. intros k Hk. change (Z.to_nat TF_SIZE) with 288%nat in Hk.
    destruct (decide (t_trapframe t + TF_SP ≤ t_trapframe t + Z.of_nat k < t_trapframe t + TF_SP + 8)).
    - by apply ld8_st64_in.
    - rewrite !ld8_st64_out by done. rewrite Em1. apply Htf. apply (Hin 0 288); unfold TF_SIZE; lia. }
  rewrite Eb in Hst4. apply Hst4; [right; unfold TF_SIZE in *; lia|]. intros k Hk. rewrite Em1, Hub. by apply Hmap.
Qed.
End Roundtrip.

(** ** A process with a pending signal and a handler *)
Module Demo.
Import ProcSpec.Demo Growproc.GrowDemo.
#[local] Existing Instance small_image.

Definition with_handler (p : proc) : proc :=
  p <| p_pendding_signals := 2 |> <| p_signal_handlers := <[1%nat := 1000]> (replicate 32 0) |>.

(** signal 1 is pending, its handler is at 1000, the stack pointer is 2048 *)
Lemma pending_handler : ∃ (s : kstate unit) free p t,
  table_inv (k_mach s) (k_proc s) (k_nextpid s) free ∧ thread_runs s 0 0 0 ∧
  k_proc s !! O = Some p ∧ p_threads p !! O = Some t ∧ t_state t = USED ∧ p_frozen p = 0 ∧
  next_signal p = Some 1%nat ∧ action_of p 1 = Some DoUser ∧
  ld64 (ram (k_mach s)) (t_trapframe t + TF_SP) = 2048 ∧
  (∀ k, 0 ≤ k < 4096 → ubyte (ram (k_mach s)) (p_pagetable p) k = Some x00) ∧
  length (p_signal_handlers p) = 32%nat ∧ length (p_signal_handlers_mask p) = 32%nat.
Proof.
  destruct proc_with_page as (m & np & free & tf & pt & pa & Hinv & Ept & Hmap).
  set (p0 := (new_proc 0 1 1 tf pt pa proc0) <| p_sz := 4096 |>) in *.
  set (ps0 := <[O := p0]> (replicate NPROC proc0)) in *.
  assert (Hlen : (0 < length (replicate NPROC proc0))%nat) by (rewrite length_replicate; unfold NPROC; lia).
  assert (Hp0 : ps0 !! O = Some p0) by (by apply list_lookup_insert_eq).
  set (ps := <[O := with_handler p0]> ps0).
  assert (Hp : ps !! O = Some (with_handler p0)) by (apply list_lookup_insert_eq; unfold ps0; by rewrite length_insert).
  assert (Hinv1 : table_inv m ps np free).
  { assert (Hs : p_state (with_handler p0) = UNUSED ↔ p_state p0 = UNUSED) by (split; intros Hx; discriminate Hx).
    exact (table_inv_touch m ps0 np free O p0 (with_handler p0) Hinv Hp0 eq_refl eq_refl eq_refl eq_refl eq_refl Hs). }
  set (t := new_thread 1 0 pa (thread0 <| t_trapframe := tf + TF_SIZE * Z.of_nat 0 |>)).
  assert (Ht : p_threads (with_handler p0) !! O = Some t) by reflexivity.
  assert (Hst : t_state t ≠ UNUSED) by discriminate.
  destruct (frame_set m ps np free 0 0 (with_handler p0) t Hinv1 Hp Ht Hst TF_SP 2048 ltac:(done) ltac:(done)) as (Hinv2 & _ & _ & Hub).
  exists (mkKstate (m <| ram ::= st64 (t_trapframe t + TF_SP) 2048 |>) ps None np 2 [] hart1 0 true tt), free, (with_handler p0), t.
  split; [exact Hinv2|]. split.
  { split; [exact hart1_runs|exact (table_shaped _ _ _ _ Hinv1)|unfold NPROC, NTHREAD; lia|].
    change (t_tproc (p_threads (ps !!! O) !!! O) = Some O).
    rewrite (list_lookup_total_correct _ _ _ Hp), (list_lookup_total_correct _ _ _ Ht). reflexivity. }
  split; [exact Hp|]. split; [exact Ht|]. split; [reflexivity|]. split; [reflexivity|].
  split; [vm_compute; reflexivity|]. split; [vm_compute; reflexivity|]. split_and!; [| |reflexivity|reflexivity].
  - change (ld64 (st64 (t_trapframe t + TF_SP) 2048 (ram m)) (t_trapframe t + TF_SP) = 2048). rewrite ld64_st64. reflexivity.
  - intros k Hk. exact (eq_trans (Hub k) (Hmap k Hk)).
Qed.

Lemma signal_frame_roundtrip_witness : ∃ (s s1 s2 : kstate unit), handle_pendding_sinals 2 s = Ok 1 s1 ∧ userhandler 1 s1 = Ok tt s2.
Proof.
  destruct pending_handler as (s & free & p & t & Hinv & Hr & Hp & Ht & Hst & Hf & Hn & Ha & _ & _).
  destruct (signal_frame_roundtrip 0 s free 0 0 p t 1 Hinv Hr Hp Ht) as (s1 & s2 & H1 & H2 & _);
    [by rewrite Hst|by rewrite Hf|done|done|]. exists s, s1, s2. done.
Defined.

Lemma userhandler_overwrites_stack_witness : ∃ (s s1 s2 : kstate unit) p t, handle_pendding_sinals 2 s = Ok 1 s1 ∧ userhandler 1 s1 = Ok tt s2 ∧
  user_bytes (ram (k_mach s2)) (p_pagetable p) 2048
    (ldbytes (Z.to_nat TF_SIZE) (st64 (t_trapframe t + TF_SP) (2048 - TF_SIZE) (ram (k_mach s))) (t_trapframe t)).
Proof.
  destruct pending_handler as (s & free & p & t & Hinv & Hr & Hp & Ht & Hst & Hf & Hn & Ha & Hsp & Hmap & _).
  assert (Hw := userhandler_overwrites_stack 0 s free 0 0 p t 1 Hinv Hr Hp Ht ltac:(by rewrite Hst) ltac:(by rewrite Hf) Hn Ha).
  cbv zeta in Hw. rewrite Hsp in Hw. destruct Hw as (s1 & s2 & H1 & H2 & H3).
  - by vm_compute.
  - by vm_compute.
  - intros k Hk. rewrite Hmap; [done|]. unfold TF_SIZE in Hk. lia.
  - exists s, s1, s2, p, t. done.
Defined.

End Demo.
