(* ===== verification/Sigaction.v ===== *)
(** * sigaction and sigprocmask (src/kernel/proc.c)

    Installing a handler, asking for it, and what happens with bad arguments. *)

From S2P Require Import Prelude Mem Riscv Kalloc Vm Uvm Pagetable VmSpec Kstate Spinlock Proc Sched.
From S2P Require Import ProcMem ProcAlloc Process Wait ProcSpec Growproc Signal SignalSpec SignalFrame.

(** a signal whose handler may be changed *)
Definition settable (signum : Z) : Prop := 0 ≤ signum ≤ 31 ∧ signum ≠ SIGKILL ∧ signum ≠ SIGSTOP.

Lemma sigaction_bad {F} (s : kstate F) i tj kact0 signum act oldact : thread_runs s i i tj → ¬ settable signum →
  sigaction kact0 signum act oldact s = Ok (-1) (s <| k_hart ::= settle |>).
Proof.
  intros Hr Hb. destruct Hr as [[Hh Hheld Hproc Hthr] _ _ _]. destruct s as [m ps ip np nt bs h tk fi fs]. simpl in *.
  unfold sigaction. rewrite (bind_myproc' _ _ _ _ _ _ _ _ _ _ Hh _ i Hproc).
  rewrite bind_acquire by hart. rewrite locked_settle.
  assert (Eb : (signum <? 0) || (31 <? signum) || (signum =? SIGKILL) || (signum =? SIGSTOP) = true).
  { unfold settable in Hb. lia. }
  rewrite Eb, bind_release by hart. done.
Qed.

Lemma user_bytes_inj m pt va a b : user_bytes m pt va a → user_bytes m pt va b → length a = length b → a = b.
Proof.
  intros Ha Hb Hl. apply list_eq. intros k. destruct (decide (k < length a)%nat) as [Hk|Hk].
  - rewrite <- (Ha k Hk), <- (Hb k) by lia. done.
  - by rewrite !lookup_ge_None_2 by lia.
Qed.

Section Sigaction.
Context {F : Type} `{KernelSymbols}.
Context (s : kstate F) (free : list Z) (i tj : nat) (p : proc) (t : thread).
Context (Hinv : table_inv (k_mach s) (k_proc s) (k_nextpid s) free) (Hr : thread_runs s i i tj)
  (Hp : k_proc s !! i = Some p) (Ht : p_threads p !! tj = Some t) (Hst : t_state t ≠ UNUSED).

Definition install (signum h mask : Z) (p : proc) : proc :=
  p <| p_signal_handlers ::= <[Z.to_nat signum := h]> |> <| p_signal_handlers_mask ::= <[Z.to_nat signum := mask]> |>.

(** [copyin] by a running process: the bytes it gets *)
Lemma copyin_ok va : 0 ≤ va → ∃ r data, copyin (E := Empty_set) (p_pagetable p) va 16 (k_mach s) = Ok (r, data) (k_mach s) ∧
  user_bytes (ram (k_mach s)) (p_pagetable p) va data ∧ (length data ≤ 16)%nat ∧
  ((∀ k, 0 ≤ k < 16 → ubyte (ram (k_mach s)) (p_pagetable p) (va + k) ≠ None) → length data = 16%nat) ∧
  (ubyte (ram (k_mach s)) (p_pagetable p) va = None → data = []).
Proof.
  intros Hva. assert (Hu := thread_proc_used _ _ _ _ _ _ _ _ Hinv Hp Ht Hst).
  destruct (so_used _ _ _ _ (ti_slot _ _ _ _ Hinv i p Hp) Hu) as (_ & _ & _ & Hut & _).
  destruct (copyin_loop_ok (E := Empty_set) 16 (p_pagetable p) va 16 [] (k_mach s) free)
    as (r & data & Hrun & Hb & Hcase); [lia|lia|apply aspace_uvm, Hut|done|].
  exists r, data. split_and!; [exact Hrun|done|lia| |].
  - intros Hmap. destruct Hcase as [[_ ?]|(_ & Hlt & Hn)]; [lia|]. destruct (Hmap (Z.of_nat (length data))); [lia|done].
  - intros Hn. destruct data as [|b data]; [done|]. specialize (Hb O ltac:(simpl; lia)). simpl in Hb.
    rewrite Z.add_0_r in Hb. congruence.
Qed.

(** the call with an action and without a place for the old one *)
Lemma sigaction_install kact0 signum act : settable signum → 0 < act →
  ∃ data, user_bytes (ram (k_mach s)) (p_pagetable p) act data ∧
    ((∀ k, 0 ≤ k < 16 → ubyte (ram (k_mach s)) (p_pagetable p) (act + k) ≠ None) → length data = 16%nat) ∧
    (ubyte (ram (k_mach s)) (p_pagetable p) act = None → data = []) ∧
    let kact := data ++ drop (length data) kact0 in
    sigaction kact0 signum act 0 s = Ok 0 (s <| k_proc := <[i := install signum (sa_handler kact) (sa_mask kact) p]> (k_proc s) |>
      <| k_hart ::= settle |>).
Proof.
  intros [Hs [H9 H17]] Hact. destruct (copyin_ok act ltac:(lia)) as (r & data & Hci & Hub & _ & Hlen & Hnil). exists data. split_and!; [done..|]. cbv zeta.
  destruct Hr as [[Hh Hheld Hproc Hthr] _ _ _]. destruct s as [m ps ip np nt bs h tk fi fs]. simpl in *.
  unfold sigaction. rewrite (bind_myproc' _ _ _ _ _ _ _ _ _ _ Hh _ i Hproc).
  rewrite bind_acquire by hart. rewrite locked_settle.
  assert (Eb : (signum <? 0) || (31 <? signum) || (signum =? SIGKILL) || (signum =? SIGSTOP) = false) by lia.
  rewrite Eb. krun. rewrite (list_lookup_total_correct _ _ _ Hp). cbn [Z.eqb negb]. krun.
  rewrite (proj2 (Z.eqb_neq act 0)) by lia. cbn [negb].
  rewrite (bind_Ok _ _ _ _ _ (mach_Ok _ (mkKstate m ps ip np nt bs (locked (LkProc i) h) tk fi fs) _ _ Hci)). kred. cbv iota.
  assert (Em : (sa_mask (data ++ drop (length data) kact0) <? 0) = false).
  { apply Z.ltb_ge. unfold sa_mask. pose proof (le_combine_bound (take 4 (drop 8 (data ++ drop (length data) kact0)))). lia. }
  rewrite Em. krun. rewrite bind_release by hart. by rewrite (insert_alter _ _ _ _ Hp).
Qed.

(** the call that asks for the action *)
Lemma sigaction_query kact0 signum oldact : settable signum → 0 < oldact →
  ∃ m', sigaction kact0 signum 0 oldact s = Ok 0 (s <| k_mach := m' |> <| k_hart ::= settle |>) ∧
    table_inv m' (k_proc s) (k_nextpid s) free ∧
    let sig := Z.to_nat signum in
    user_copied (k_mach s) p oldact (sigaction_bytes (p_signal_handlers p !!! sig) (p_signal_handlers_mask p !!! sig) kact0) m'.
Proof.
  intros [Hs [H9 H17]] Hold. cbv zeta.
  destruct (frame_copyout (F := F) (k_mach s) (k_proc s) (k_nextpid s) free i tj p t Hinv Hp Ht Hst oldact
    (sigaction_bytes (p_signal_handlers p !!! Z.to_nat signum) (p_signal_handlers_mask p !!! Z.to_nat signum) kact0) ltac:(lia))
    as (r & m' & Hrun & Hinv' & Hc).
  exists m'. split_and!; [|done|done].
  destruct Hr as [[Hh Hheld Hproc Hthr] _ _ _]. destruct s as [m ps ip np nt bs h tk fi fs]. simpl in *.
  unfold sigaction. rewrite (bind_myproc' _ _ _ _ _ _ _ _ _ _ Hh _ i Hproc).
  rewrite bind_acquire by hart. rewrite locked_settle.
  assert (Eb : (signum <? 0) || (31 <? signum) || (signum =? SIGKILL) || (signum =? SIGSTOP) = false) by lia.
  rewrite Eb. krun. rewrite (list_lookup_total_correct _ _ _ Hp).
  rewrite (proj2 (Z.eqb_neq oldact 0)) by lia. cbn [negb Z.eqb]. unfold bind at 1. rewrite Hrun. unfold ret at 1. cbn [run_bind].
  rewrite bind_release by hart. done.
Qed.
End Sigaction.

(** the handler and the mask in 16 bytes *)
Lemma sa_fields h mask rest : 0 ≤ h < 2 ^ 64 → 0 ≤ mask < 2 ^ 32 →
  sa_handler (le_split 8 h ++ le_split 4 mask ++ rest) = h ∧ sa_mask (le_split 8 h ++ le_split 4 mask ++ rest) = mask.
Proof.
  intros Hh Hm. unfold sa_handler, sa_mask. split.
  - rewrite take_app_length' by (by rewrite length_le_split). rewrite le_combine_split. by apply Z.mod_small.
  - rewrite drop_app_length' by (by rewrite length_le_split). rewrite take_app_length' by (by rewrite length_le_split).
    rewrite le_combine_split. by apply Z.mod_small.
Qed.

Section Spec.
Context {F : Type} `{KernelSymbols}.

(** C37: [sigaction] installs and reports handlers.  The handler and mask that
    the user structure at [act] holds become those of the signal, and asking
    for them afterwards stores the same 12 bytes at [oldact].  [SIGKILL],
    [SIGSTOP] and numbers that are not signals are refused, and nothing changes. *)
Theorem sigaction_roundtrip (s : kstate F) free i tj p t kact0 kact1 signum act oldact hd mask pad :
  table_inv (k_mach s) (k_proc s) (k_nextpid s) free → thread_runs s i i tj →
  k_proc s !! i = Some p → p_threads p !! tj = Some t → t_state t ≠ UNUSED →
  length (p_signal_handlers p) = 32%nat → length (p_signal_handlers_mask p) = 32%nat →
  0 ≤ hd < 2 ^ 64 → 0 ≤ mask < 2 ^ 32 → length pad = 4%nat → length kact0 = 16%nat → length kact1 = 16%nat →
  0 < act → 0 < oldact → user_bytes (ram (k_mach s)) (p_pagetable p) act (le_split 8 hd ++ le_split 4 mask ++ pad) →
  (∀ k, 0 ≤ k < 16 → ubyte (ram (k_mach s)) (p_pagetable p) (oldact + k) ≠ None) →
  (¬ settable signum → sigaction kact0 signum act oldact s = Ok (-1) (s <| k_hart ::= settle |>)) ∧
  (settable signum → ∃ s1 s2, sigaction kact0 signum act 0 s = Ok 0 s1 ∧
    k_proc s1 = <[i := install signum hd mask p]> (k_proc s) ∧ k_mach s1 = k_mach s ∧
    sigaction kact1 signum 0 oldact s1 = Ok 0 s2 ∧ k_proc s2 = k_proc s1 ∧
    table_inv (k_mach s2) (k_proc s2) (k_nextpid s2) free ∧
    user_bytes (ram (k_mach s2)) (p_pagetable p) oldact (le_split 8 hd ++ le_split 4 mask ++ drop 12 kact1)).
Proof.
  intros Hinv Hr Hp Ht Hst Hl1 Hl2 Hh Hm Hpad Hk0 Hk1 Hact Hold Hub Hmap.
  split; [intros Hb; by eapply (sigaction_bad s i tj)|]. intros Hs.
  destruct (sigaction_install s free i tj p t Hinv Hr Hp Ht Hst kact0 signum act Hs Hact) as (data & Hd & Hlen & _ & Hrun1).
  assert (Hl : length (le_split 8 hd ++ le_split 4 mask ++ pad) = 16%nat) by (by rewrite !length_app, !length_le_split, Hpad).
  assert (Hdata : data = le_split 8 hd ++ le_split 4 mask ++ pad).
  { eapply user_bytes_inj; [done..|]. rewrite Hl. apply Hlen. intros k Hk. rewrite <- (Z2Nat.id k) by lia.
    rewrite Hub by lia.
    destruct (lookup_lt_is_Some_2 (le_split 8 hd ++ le_split 4 mask ++ pad) (Z.to_nat k)) as [b ->]; [lia|done]. }
  cbv zeta in Hrun1. rewrite (drop_ge kact0), app_nil_r, Hdata in Hrun1 by (rewrite Hdata, Hl; lia).
  rewrite (proj1 (sa_fields hd mask pad Hh Hm)), (proj2 (sa_fields hd mask pad Hh Hm)) in Hrun1.
  set (p1 := install signum hd mask p) in *.
  set (s1 := s <| k_proc := <[i := p1]> (k_proc s) |> <| k_hart ::= settle |>) in *.
  assert (Hlt := lookup_lt_Some _ _ _ Hp).
  assert (Hp1 : k_proc s1 !! i = Some p1) by (by apply list_lookup_insert_eq).
  assert (Hinv1 : table_inv (k_mach s1) (k_proc s1) (k_nextpid s1) free) by (eapply (table_inv_touch _ _ _ _ i p p1); done).
  assert (Hr1 : thread_runs s1 i i tj).
  { apply (thread_runs_settle s); [done|done|exact (table_shaped _ _ _ _ Hinv1)|].
    by rewrite (list_lookup_total_correct _ _ _ Hp1), (list_lookup_total_correct _ _ _ Hp). }
  destruct (sigaction_query s1 free i tj p1 t Hinv1 Hr1 Hp1 Ht Hst kact1 signum oldact Hs Hold) as (m' & Hrun2 & Hinv2 & Hc).
  exists s1. eexists. split_and!; [exact Hrun1|done|done|exact Hrun2|done|exact Hinv2|].
  assert (Hsig : (Z.to_nat signum < 32)%nat) by (destruct Hs; lia).
  assert (E1 : p_signal_handlers p1 !!! Z.to_nat signum = hd).
  { change (p_signal_handlers p1) with (<[Z.to_nat signum := hd]> (p_signal_handlers p)). apply list_lookup_total_insert_eq. lia. }
  assert (E2 : p_signal_handlers_mask p1 !!! Z.to_nat signum = mask).
  { change (p_signal_handlers_mask p1) with (<[Z.to_nat signum := mask]> (p_signal_handlers_mask p)).
    apply list_lookup_total_insert_eq. lia. }
  cbv zeta in Hc. rewrite E1, E2 in Hc. apply (uc_bytes _ _ _ _ _ Hc). unfold sigaction_bytes.
  rewrite !length_app, !length_le_split, length_drop, Hk1. intros k Hk. by apply Hmap.
Qed.

(** A bad address is accepted.  [sigaction] ignores the result of [copyin]:
    when the user structure is not mapped it returns 0 and installs whatever
    the local variable held. *)
Theorem sigaction_ignores_bad_address (s : kstate F) free i tj p t kact0 signum act :
  table_inv (k_mach s) (k_proc s) (k_nextpid s) free → thread_runs s i i tj →
  k_proc s !! i = Some p → p_threads p !! tj = Some t → t_state t ≠ UNUSED →
  settable signum → 0 < act → ubyte (ram (k_mach s)) (p_pagetable p) act = None →
  ∃ s1, sigaction kact0 signum act 0 s = Ok 0 s1 ∧
    k_proc s1 = <[i := install signum (sa_handler kact0) (sa_mask kact0) p]> (k_proc s).
Proof.
  intros Hinv Hr Hp Ht Hst Hs Hact Hn.
  destruct (sigaction_install s free i tj p t Hinv Hr Hp Ht Hst kact0 signum act Hs Hact) as (data & _ & _ & Hnil & Hrun).
  rewrite (Hnil Hn) in Hrun. eexists. split; [exact Hrun|done].
Qed.
End Spec.

Module Demo.
Import SignalFrame.Demo.
#[local] Existing Instance small_image.

Lemma sigaction_ignores_bad_address_witness : ∃ (s s1 : kstate unit), sigaction (replicate 16 x00) 2 MAXVA 0 s = Ok 0 s1.
Proof.
  destruct pending_handler as (s & free & p & t & Hinv & Hr & Hp & Ht & Hst & _).
  destruct (sigaction_ignores_bad_address s free 0 0 p t (replicate 16 x00) 2 MAXVA Hinv Hr Hp Ht) as (s1 & Hs1 & _).
  - by rewrite Hst.
  - unfold settable, SIGKILL, SIGSTOP. lia.
  - reflexivity.
  - reflexivity.
  - exists s, s1. exact Hs1.
Defined.

(** the memory of the process is zero: the structure at 16 is the default action *)
Lemma sigaction_roundtrip_witness : ∃ (s s1 s2 : kstate unit),
  sigaction (replicate 16 x01) 2 16 0 s = Ok 0 s1 ∧ sigaction (replicate 16 x01) 2 0 64 s1 = Ok 0 s2.
Proof.
  destruct pending_handler as (s & free & p & t & Hinv & Hr & Hp & Ht & Hst & _ & _ & _ & _ & Hz & Hl1 & Hl2).
  destruct (sigaction_roundtrip s free 0 0 p t (replicate 16 x01) (replicate 16 x01) 2 16 64 0 0 (replicate 4 x00)
    Hinv Hr Hp Ht) as [_ Hgo]; try reflexivity; try done.
  - by rewrite Hst.
  - intros k Hk. change (length _) with 16%nat in Hk. rewrite Hz by lia. symmetry.
    change (le_split 8 0 ++ le_split 4 0 ++ replicate 4 x00) with (replicate 16 x00). by apply lookup_replicate_2.
  - intros k Hk. rewrite Hz by lia. done.
  - destruct Hgo as (s1 & s2 & H1 & _ & _ & H2 & _); [unfold settable, SIGKILL, SIGSTOP; lia|]. exists s, s1, s2. done.
Defined.
End Demo.
