(* ===== verification/Kthread.v ===== *)
(** * Kernel threads (src/kernel/proc.c: the kthread functions)

    Threads of one process: creation, identity, exit and join. *)

From S2P Require Import Prelude Mem Riscv Kalloc Vm Uvm Pagetable Kstate Spinlock Proc Process.

Section Kthread.
Context {F : Type} `{KernelSymbols} `{FileSys F}.

Definition kthread_create (start_func stack : Z) : K F Z :=
  let* i := myproc' in
  let* '(ti, tj) := mythread' in
  acquire (LkProc i) ;;;
  let* nt := allocthread i in
  match nt with
  | None => ret 0
  | Some nj =>
      let* t := gett ti tj in
      let* nt := gett i nj in
      mach (mem_move (t_trapframe nt) (t_trapframe t) TF_SIZE) ;;;
      tf_set (t_trapframe nt) TF_EPC start_func ;;;
      tf_set (t_trapframe nt) TF_SP (u64 (stack + MAX_STACK_SIZE - 16)) ;;;
      sett i nj (λ t, t <| t_state := RUNNABLE |>) ;;;
      release (LkProc i) ;;;
      let* nt := gett i nj in
      ret (t_id nt)
  end.

Definition kthread_id : K F Z :=
  let* '(ti, tj) := mythread' in
  let* t := gett ti tj in
  ret (t_id t).

(** a thread that [kthread_exit] counts as still running *)
Definition live_thread (t : thread) : bool :=
  bool_decide (t_state t ≠ UNUSED) && bool_decide (t_state t ≠ ZOMBIE).

Definition kthread_exit {A} (status : Z) : K F A :=
  let* '(ti, tj) := mythread' in
  let* myt := gett ti tj in
  match t_tproc myt with
  | None => null_deref
  | Some i =>
      acquire (LkProc i) ;;;
      sett ti tj (λ t, t <| t_state := ZOMBIE |> <| t_xstate := status |>) ;;;
      let* p := getp i in
      let running_threads := length (filter live_thread (p_threads p)) in
      (if (running_threads =? 0)%nat then
         release (LkProc i) ;;;
         exit status
       else ret tt) ;;;
      release (LkProc i) ;;;
      acquire LkWait ;;;
      wakeup (Some (ChThread ti tj)) ;;;
      release LkWait ;;;
      acquire (LkProc i) ;;;
      sched ;;;
      panic "thread zombie exit"
  end.

(** one scan over the threads: [inl] is the result of [kthread_join], [inr] the
    last thread found with the identifier *)
Fixpoint join_scan (i : nat) (thread_id addr : Z) (js : list nat) (found_t : option nat) :
    K F (Z + option nat) :=
  match js with
  | [] => ret (inr found_t)
  | j :: js' =>
      let* nt := gett i j in
      if t_id nt =? thread_id then
        acquire (LkProc i) ;;;
        let* nt := gett i j in
        if bool_decide (t_state nt = ZOMBIE) then
          let* p := getp i in
          let* r := if negb (addr =? 0)
                    then mach (copyout (p_pagetable p) addr (le_split 4 (t_xstate nt)))
                    else ret 0 in
          if r <? 0 then
            release (LkProc i) ;;;
            release LkWait ;;;
            ret (inl (-1))
          else
            freethread i j ;;;
            release (LkProc i) ;;;
            release LkWait ;;;
            ret (inl 0)
        else
          release (LkProc i) ;;;
          join_scan i thread_id addr js' (Some j)
      else join_scan i thread_id addr js' found_t
  end.

Definition join_body (i : nat) (thread_id addr : Z) : K F (unit + Z) :=
  let* r := join_scan i thread_id addr (seq 0 NTHREAD) None in
  match r with
  | inl result => ret (inr result)
  | inr None =>
      release LkWait ;;;
      ret (inr (-1))
  | inr (Some j) =>
      let* '(ti, tj) := mythread' in
      let* t := gett ti tj in
      if negb (t_killed t =? 0) then
        release LkWait ;;;
        ret (inr (-1))
      else
        sleep (ChThread i j) LkWait ;;;
        ret (inl tt)
  end.

Definition kthread_join (fuel : nat) (thread_id addr : Z) : K F Z :=
  let* '(ti, tj) := mythread' in
  let* t := gett ti tj in
  match t_tproc t with
  | None => null_deref
  | Some i =>
      let* '(ti, tj) := mythread' in
      let* t := gett ti tj in
      if (thread_id =? 0) || (thread_id =? t_id t) then ret (-1)
      else
        acquire LkWait ;;;
        iterate fuel (λ _, join_body i thread_id addr) tt
  end.
End Kthread.
