(* ===== verification/Bsem.v ===== *)
(** * Binary semaphores (src/kernel/proc.c: the bsem functions)

    The table of binary semaphores, guarded by [bsem_lock].  The system calls
    do not check the descriptor: outside of the table the model stops. *)

From S2P Require Import Prelude Mem Riscv Kalloc Vm Uvm Pagetable Kstate Spinlock Proc Sched.

Section Bsem.
Context {F : Type}.

(** [&bsems[bid]], as an index *)
Definition bsem_at (bid : Z) : K F nat :=
  if (0 <=? bid) && (bid <? Z.of_nat MAX_BSEM) then ret (Z.to_nat bid) else out_of_bounds.

Definition bsem_alloc : K F Z :=
  acquire LkBsem ;;;
  let* bsems := gets k_bsems in
  match find_index (λ b, b_state b =? 0) bsems with
  | Some i =>
      modify (λ s, s <| k_bsems ::= <[i := mkBsem 1 (Z.of_nat i) 1]> |>) ;;;
      release LkBsem ;;;
      let* b := gets (λ s, k_bsems s !!! i) in
      ret (b_bid b)
  | None =>
      release LkBsem ;;;
      ret (-1)
  end.

Definition bsem_free (bid : Z) : K F unit :=
  acquire LkBsem ;;;
  let* i := bsem_at bid in
  modify (λ s, s <| k_bsems ::= alter (λ b, b <| b_state := 0 |>) i |>) ;;;
  release LkBsem.

(** one test of the loop [while(!b->unlocked)] *)
Definition bsem_wait (bid : Z) (i : nat) : K F (unit + unit) :=
  let* b := gets (λ s, k_bsems s !!! i) in
  if b_unlocked b =? 0 then
    sleep (ChBsem bid) LkBsem ;;;
    ret (inl tt)
  else ret (inr tt).

Definition bsem_down (fuel : nat) (bid : Z) : K F unit :=
  acquire LkBsem ;;;
  let* i := bsem_at bid in
  iterate fuel (λ _, bsem_wait bid i) tt ;;;
  modify (λ s, s <| k_bsems ::= alter (λ b, b <| b_unlocked := 0 |>) i |>) ;;;
  release LkBsem.

Definition bsem_up (bid : Z) : K F unit :=
  acquire LkBsem ;;;
  let* i := bsem_at bid in
  modify (λ s, s <| k_bsems ::= alter (λ b, b <| b_unlocked := 1 |>) i |>) ;;;
  wakeup (Some (ChBsem bid)) ;;;
  release LkBsem.
End Bsem.

(** ** What they do

    On the table of semaphores each operation is one atomic step. *)

Definition bsem_unlocked (bid : Z) (bs : list bsem) : bool := negb (b_unlocked (bs !!! Z.to_nat bid) =? 0).
Definition down_step (bid : Z) : list bsem → list bsem := alter (λ b, b <| b_unlocked := 0 |>) (Z.to_nat bid).
Definition up_step (bid : Z) : list bsem → list bsem := alter (λ b, b <| b_unlocked := 1 |>) (Z.to_nat bid).
Definition free_step (bid : Z) : list bsem → list bsem := alter (λ b, b <| b_state := 0 |>) (Z.to_nat bid).
Definition alloc_step (bs : list bsem) : Z * list bsem :=
  match find_index (λ b, b_state b =? 0) bs with
  | Some i => (Z.of_nat i, <[i := mkBsem 1 (Z.of_nat i) 1]> bs)
  | None => (-1, bs)
  end.

Section Spec.
Context {F : Type}.

Lemma bsem_at_ok {A} bid (k : nat → K F A) s :
  0 ≤ bid < Z.of_nat MAX_BSEM → bind (bsem_at bid) k s = k (Z.to_nat bid) s.
Proof.
  intros Hb. unfold bsem_at. rewrite (proj2 (Z.leb_le _ _)), (proj2 (Z.ltb_lt _ _)) by lia. done.
Qed.

(** The thread has done the operation in one step from state [s], or it sleeps
    on the semaphore, which is locked; [n] bounds how often it is resumed. *)
Fixpoint down_or_sleep (bid : Z) (i ti tj n : nat) (s : kstate F) (r : run kevent (kstate F) unit) : Prop :=
  match r with
  | Ok _ s' =>
      bsem_unlocked bid (k_bsems s) = true ∧ k_bsems s' = down_step bid (k_bsems s) ∧
      k_mach s' = k_mach s ∧ thread_runs s' i ti tj
  | Event e s1 k =>
      bsem_unlocked bid (k_bsems s) = false ∧ e = EvSched ∧ k_bsems s1 = k_bsems s ∧
      h_held (k_hart s1) = [LkProc i] ∧
      t_state (p_threads (k_proc s1 !!! ti) !!! tj) = SLEEPING ∧
      t_chan (p_threads (k_proc s1 !!! ti) !!! tj) = Some (ChBsem bid) ∧
      match n with
      | O => True
      | S n' => ∀ s2, resumed i ti tj s2 → down_or_sleep bid i ti tj n' s2 (k s2)
      end
  | _ => False
  end.

Lemma down_done bid i ti tj n (s0 s : kstate F) :
  thread_runs s i ti tj → k_bsems s = k_bsems s0 → k_mach s = k_mach s0 → bsem_unlocked bid (k_bsems s0) = true →
  down_or_sleep bid i ti tj n s0
    ((modify (λ s, s <| k_bsems ::= down_step bid |>) ;;; release LkBsem) (s <| k_hart ::= locked LkBsem |>)).
Proof.
  intros [[Hh Hheld Hp Ht] Hsh Hsl Htp] Ebs Em Hu. destruct s as [m ps ip np nt bs h tk fi fs]. simpl in *. krun.
  rewrite release_locked by (done || rewrite Hheld; set_solver).
  assert (Hr : thread_runs (mkKstate m ps ip np nt (down_step bid bs) (settle h) tk fi fs) i ti tj).
  { split; [split|done|done|done]; kred; [hart|by rewrite settle_held|by rewrite settle_proc|by rewrite settle_thread]. }
  destruct n; simpl; (split_and!; [done|by rewrite Ebs|done|done]).
Qed.

Lemma down_loop bid i ti tj : 0 ≤ bid < Z.of_nat MAX_BSEM → ∀ n (s0 s : kstate F),
  thread_runs s i ti tj → k_bsems s = k_bsems s0 → k_mach s = k_mach s0 →
  down_or_sleep bid i ti tj n s0
    ((iterate (S n) (λ _, bsem_wait bid (Z.to_nat bid)) tt ;;;
      modify (λ s, s <| k_bsems ::= down_step bid |>) ;;;
      release LkBsem) (s <| k_hart ::= locked LkBsem |>)).
Proof.
  intros Hb. induction n as [|n IH]; intros s0 s Hs Ebs Em.
  all: assert (Hheld := ro_held _ _ _ _ (tr_run _ _ _ _ Hs)); assert (Hh := ro_ok _ _ _ _ (tr_run _ _ _ _ Hs)).
  all: unfold bind at 1; cbn [iterate]; unfold bind at 1, bsem_wait at 1; rewrite bind_gets.
  all: change (k_bsems (s <| k_hart ::= locked LkBsem |>)) with (k_bsems s).
  all: destruct (b_unlocked (k_bsems s !!! Z.to_nat bid) =? 0) eqn:Eu.
  all: assert (Eu0 : bsem_unlocked bid (k_bsems s0) = negb (b_unlocked (k_bsems s !!! Z.to_nat bid) =? 0)) by (by rewrite <- Ebs).
  1, 3: rewrite (bind_Event _ _ _ _ _ _ (sleep_sleeps (ChBsem bid) LkBsem i ti tj s Hs ltac:(done))); simpl;
    rewrite Eu0, Eu; destruct (tr_slot _ _ _ _ Hs), (tr_shaped _ _ _ _ Hs);
    (split_and!; [done|done|done|by destruct s; simpl in *; rewrite Hheld
      |rproj; by rewrite set_thread_lookup|rproj; by rewrite set_thread_lookup|]).
  - done.
  - intros s2 Hr. destruct (sleep_resume_ok i ti tj (h_intr (k_hart s)) LkBsem s2 Hr) as (h & Hrun & ->). cbn [run_bind].
    exact (IH s2 (s2 <| k_proc ::= set_thread ti tj (λ t, t <| t_chan := None |>) |> <| k_hart := h |>) Hrun eq_refl eq_refl).
  - apply (down_done bid i ti tj 0 s0 s); [done..|]. by rewrite Eu0, Eu.
  - apply (down_done bid i ti tj (S n) s0 s); [done..|]. by rewrite Eu0, Eu.
Qed.

(** C32: [bsem_down] takes the semaphore in one step when it finds it unlocked;
    when it finds it locked it goes to sleep on the semaphore, with the table
    unchanged and [bsem_lock] released, and tries again each time it is resumed,
    in whatever state that is.  It holds no lock when it returns. *)
Theorem bsem_down_spec bid i ti tj n (s : kstate F) :
  0 ≤ bid < Z.of_nat MAX_BSEM → thread_runs s i ti tj →
  down_or_sleep bid i ti tj n s (bsem_down (S n) bid s).
Proof.
  intros Hb Hs. unfold bsem_down. destruct (tr_run _ _ _ _ Hs) as [Hh Hheld _ _].
  rewrite (bind_Ok _ _ _ _ _ (acquire_ok LkBsem s ltac:(rewrite Hheld; set_solver))), bsem_at_ok by done.
  by apply down_loop.
Qed.

(** [bsem_up] unlocks the semaphore and makes every other thread that
    sleeps on it runnable, so that none of them misses the change. *)
Theorem bsem_up_spec bid i ti tj (s : kstate F) :
  0 ≤ bid < Z.of_nat MAX_BSEM → length (k_bsems s) = MAX_BSEM → thread_runs s i ti tj →
  ∃ s', bsem_up bid s = Ok tt s' ∧ thread_runs s' i ti tj ∧ k_mach s' = k_mach s ∧
    k_bsems s' = up_step bid (k_bsems s) ∧ bsem_unlocked bid (k_bsems s') = true ∧
    ∀ i' j', (i' < NPROC)%nat → (j' < NTHREAD)%nat →
      let t := p_threads (k_proc s !!! i') !!! j' in
      p_threads (k_proc s' !!! i') !!! j' =
        if decide (t_state t = SLEEPING ∧ t_chan t = Some (ChBsem bid) ∧ (i', j') ≠ (ti, tj))
        then t <| t_state := RUNNABLE |> else t.
Proof.
  intros Hb Hl Hr. assert (Hr' := Hr). destruct Hr' as [[Hh Hheld Hp Ht] Hsh Hsl Htp].
  assert (Hth : ∀ i' j', (i' < NPROC)%nat → (j' < NTHREAD)%nat →
    p_threads (imap (wake_proc (h_thread (k_hart s)) (Some (ChBsem bid))) (k_proc s) !!! i') !!! j' =
    wake_thread (h_thread (k_hart s)) (Some (ChBsem bid)) i' j' (p_threads (k_proc s !!! i') !!! j')).
  { intros i' j' Hi' Hj'. by apply wake_lookup. }
  destruct s as [m ps ip np nt bs h tk fi fs]. simpl in *.
  exists (mkKstate m (imap (wake_proc (h_thread h) (Some (ChBsem bid))) ps) ip np nt (up_step bid bs) (settle h) tk fi fs).
  split_and!.
  - unfold bsem_up. rewrite bind_acquire by (rewrite Hheld; set_solver). rewrite bsem_at_ok by done. krun.
    erewrite bind_Ok; [|apply wakeup_ok; kred; [hart|intros k; hart|done]]. kred. rewrite settle_locked by done.
    by rewrite release_locked by hart.
  - apply (thread_runs_settle _ _ i ti tj Hr); kred; [done| |].
    + apply shaped_imap; [|done]. intros. apply wake_proc_threads.
    + rewrite Hth by apply Hsl. unfold wake_thread. by case_match.
  - done.
  - done.
  - kred. unfold bsem_unlocked, up_step. rewrite lookup_total_alter, decide_True by lia. done.
  - intros i' j' Hi' Hj'. kred. rewrite Hth by done. unfold wake_thread. rewrite Ht.
    repeat case_bool_decide; simpl; case_decide; naive_solver congruence.
Qed.

(** C33: [bsem_alloc] gives out the first semaphore that is not in use, unlocked,
    and -1 exactly when all of them are in use; a semaphore that is freed again
    is the next one given out. *)
Theorem bsem_alloc_free i ti tj (s : kstate F) :
  length (k_bsems s) = MAX_BSEM → thread_runs s i ti tj →
  match find_index (λ b, b_state b =? 0) (k_bsems s) with
  | None => (∀ b, b ∈ k_bsems s → b_state b ≠ 0) ∧ bsem_alloc s = Ok (-1) (s <| k_hart ::= settle |>)
  | Some n => (n < MAX_BSEM)%nat ∧ ∃ s1 s2, bsem_alloc s = Ok (Z.of_nat n) s1 ∧
      k_bsems s1 = <[n := mkBsem 1 (Z.of_nat n) 1]> (k_bsems s) ∧ bsem_unlocked (Z.of_nat n) (k_bsems s1) = true ∧
      bsem_free (Z.of_nat n) s1 = Ok tt s2 ∧ thread_runs s2 i ti tj ∧ bsem_alloc s2 = Ok (Z.of_nat n) s1
  end.
Proof.
  intros Hl Hr. assert (Hr' := Hr). destruct Hr' as [[Hh Hheld Hp Ht] Hsh Hsl Htp].
  assert (Halloc : ∀ bs h', h_held h' = [] → hart_ok h' → length bs = MAX_BSEM →
    bsem_alloc (s <| k_bsems := bs |> <| k_hart := h' |>) =
      Ok (alloc_step bs).1 (s <| k_bsems := (alloc_step bs).2 |> <| k_hart := settle h' |>)).
  { intros bs h' Hh' Hok Hbs. destruct s as [m ps ip np nt bs0 h tk fi fs]. kred. unfold bsem_alloc.
    rewrite bind_acquire by (rewrite Hh'; set_solver). krun. unfold alloc_step.
    destruct (find_index _ bs) as [n|] eqn:Ef; krun; rewrite bind_release by (done || (rewrite Hh'; set_solver)); [|done].
    krun. apply find_index_lt in Ef. by rewrite list_lookup_total_insert_eq by done. }
  assert (Hs : s = s <| k_bsems := k_bsems s |> <| k_hart := k_hart s |>) by (by destruct s).
  destruct (find_index _ (k_bsems s)) as [n|] eqn:Hf.
  - assert (Hn := find_index_lt _ _ _ Hf). split; [lia|].
    set (bs1 := <[n := mkBsem 1 (Z.of_nat n) 1]> (k_bsems s)).
    exists (s <| k_bsems := bs1 |> <| k_hart := settle (k_hart s) |>),
      (s <| k_bsems := free_step (Z.of_nat n) bs1 |> <| k_hart := settle (k_hart s) |>).
    split_and!.
    + rewrite Hs at 1. rewrite Halloc by done. unfold alloc_step. by rewrite Hf.
    + done.
    + rproj. unfold bsem_unlocked, bs1. rewrite Nat2Z.id, list_lookup_total_insert_eq by done. done.
    + destruct s as [m ps ip np nt bs h tk fi fs]. simpl in *. kred. unfold bsem_free.
      rewrite bind_acquire by (rewrite settle_held, Hheld; set_solver). rewrite bsem_at_ok by lia. krun.
      rewrite release_locked by hart. by rewrite settle_settle.
    + apply (thread_runs_settle s _ i ti tj Hr); done.
    + rewrite Halloc; [|by rewrite settle_held|hart|unfold free_step, bs1; by rewrite length_alter, length_insert].
      assert (Hf1 : find_index (λ b, b_state b =? 0) (free_step (Z.of_nat n) bs1) = Some n).
      { unfold free_step, bs1. rewrite Nat2Z.id, alter_insert_same.
        apply find_index_Some in Hf as [_ Hlt]. apply find_index_Some. split.
        - eexists. split; [by apply list_lookup_insert_eq|done].
        - intros k b Hk. rewrite list_lookup_insert_ne by lia. by apply Hlt. }
      unfold alloc_step. rewrite Hf1. simpl. rewrite settle_settle. unfold free_step, bs1.
      by rewrite Nat2Z.id, alter_insert_same, list_insert_insert_eq.
  - split.
    + intros b [k Hk]%list_elem_of_lookup. rewrite find_index_None in Hf. specialize (Hf k b Hk). lia.
    + rewrite Hs at 1. rewrite Halloc by done. unfold alloc_step. rewrite Hf. by destruct s.
Qed.
End Spec.

(** ** The specifications on concrete tables *)
Module Demo.
Import Sched.Running.

Definition bsems0 : list bsem := replicate MAX_BSEM (mkBsem 0 0 0).

Lemma bsem_down_spec_witness : down_or_sleep 3 0 0 0 5 (the_state ChTicks bsems0) (bsem_down 6 3 (the_state ChTicks bsems0)).
Proof. apply bsem_down_spec; [done|apply the_state_runs]. Defined.

(** thread 1 sleeps on semaphore 3 and is woken *)
Lemma bsem_up_spec_witness : ∃ s', bsem_up 3 (the_state (ChBsem 3) bsems0) = Ok tt s' ∧
  t_state (p_threads (k_proc s' !!! O) !!! 1%nat) = RUNNABLE.
Proof.
  destruct (bsem_up_spec 3 0 0 0 (the_state (ChBsem 3) bsems0)) as (s' & Hs & _ & _ & _ & _ & Ht); [done|done|apply the_state_runs|].
  exists s'. split; [exact Hs|]. rewrite Ht by (unfold NPROC, NTHREAD; lia). reflexivity.
Defined.

Lemma bsem_alloc_free_witness : ∃ s1, bsem_alloc (the_state ChTicks bsems0) = Ok 0 s1.
Proof.
  destruct (bsem_alloc_free 0 0 0 (the_state ChTicks bsems0)) as (_ & s1 & s2 & Hs & _); [done|apply the_state_runs|].
  exists s1. exact Hs.
Defined.
End Demo.
