(* ===== verification/Csem.v ===== *)
(** * Counting semaphores (src/user/Csemaphore.c)

    The user library that builds a counting semaphore from two binary
    semaphores of the kernel.  The threads of a program share the structure
    [counting_semaphore] and run interleaved: every access to the structure and
    every system call is a step of its own.  The system calls act on the table
    of binary semaphores as the kernel's functions do ([Bsem]). *)

From S2P Require Import Prelude Mem Riscv Kalloc Vm Uvm Pagetable Kstate Spinlock Proc Sched Bsem.

(** ** User code *)

(** Csemaphore.h *)
Record counting_semaphore := mkCsem {
  value : Z;
  s1 : Z;
  s2 : Z
}.
Inductive field := Value | S1 | S2.
Definition get_field (x : field) (c : counting_semaphore) : Z :=
  match x with Value => value c | S1 => s1 c | S2 => s2 c end.
Definition put_field (x : field) (v : Z) (c : counting_semaphore) : counting_semaphore :=
  match x with
  | Value => mkCsem v (s1 c) (s2 c)
  | S1 => mkCsem (value c) v (s2 c)
  | S2 => mkCsem (value c) (s1 c) v
  end.

(** what a thread does next: an access to the shared structure or a system call *)
Inductive prog (A : Type) : Type :=
| Ret (a : A)
| Load (x : field) (k : Z → prog A)
| Store (x : field) (v : Z) (k : prog A)
| BsemAlloc (k : Z → prog A)
| BsemFree (bid : Z) (k : prog A)
| BsemDown (bid : Z) (k : prog A)
| BsemUp (bid : Z) (k : prog A).
Arguments Ret {A} a.
Arguments Load {A} x k.
Arguments Store {A} x v k.
Arguments BsemAlloc {A} k.
Arguments BsemFree {A} bid k.
Arguments BsemDown {A} bid k.
Arguments BsemUp {A} bid k.

Notation "'load' x 'as' v 'in' k" := (Load x (λ v, k)) (at level 10, v name, k at level 200).

Definition csem_alloc (initial_value : Z) : prog Z :=
  BsemAlloc (λ b1, BsemAlloc (λ b2,
  let rest :=
    if (b1 <? 0) || (b2 <? 0) then Ret (-1)
    else Store S1 b1 (Store S2 b2 (Store Value initial_value (Ret 0))) in
  if initial_value =? 0 then BsemDown b2 rest else rest)).

Definition csem_free : prog unit :=
  Store Value 0 (load S1 as b1 in BsemFree b1 (load S2 as b2 in BsemFree b2 (Ret tt))).

Definition csem_down : prog unit :=
  load S2 as b2 in BsemDown b2 (
  load S1 as b1 in BsemDown b1 (
  load Value as v in Store Value (i32 (v - 1)) (
  let leave := load S1 as b1 in BsemUp b1 (Ret tt) in
  load Value as v in
  if 0 <? v then load S2 as b2 in BsemUp b2 leave else leave))).

Definition csem_up : prog unit :=
  load S1 as b1 in BsemDown b1 (
  load Value as v in Store Value (i32 (v + 1)) (
  let leave := load S1 as b1 in BsemUp b1 (Ret tt) in
  load Value as v in
  if v =? 1 then load S2 as b2 in BsemUp b2 leave else leave)).

(** ** Steps *)

(** what the threads share *)
Record shared := mkShared {
  sem : counting_semaphore;
  bsems : list bsem
}.

Definition valid_bid (bid : Z) : bool := (0 <=? bid) && (bid <? Z.of_nat MAX_BSEM).

(** one step of a program; [None] when it is finished or blocked, or passes a
    number to the kernel that is outside of its table *)
Definition prog_step {A} (sh : shared) (p : prog A) : option (shared * prog A) :=
  match p with
  | Ret _ => None
  | Load x k => Some (sh, k (get_field x (sem sh)))
  | Store x v k => Some (mkShared (put_field x v (sem sh)) (bsems sh), k)
  | BsemAlloc k => let '(bid, bs) := alloc_step (bsems sh) in Some (mkShared (sem sh) bs, k bid)
  | BsemFree bid k => if valid_bid bid then Some (mkShared (sem sh) (free_step bid (bsems sh)), k) else None
  | BsemDown bid k =>
      if valid_bid bid && bsem_unlocked bid (bsems sh)
      then Some (mkShared (sem sh) (down_step bid (bsems sh)), k) else None
  | BsemUp bid k => if valid_bid bid then Some (mkShared (sem sh) (up_step bid (bsems sh)), k) else None
  end.

(** a program that runs without other threads *)
Fixpoint run_alone {A} (sh : shared) (p : prog A) : option (shared * A) :=
  match p with
  | Ret a => Some (sh, a)
  | Load x k => run_alone sh (k (get_field x (sem sh)))
  | Store x v k => run_alone (mkShared (put_field x v (sem sh)) (bsems sh)) k
  | BsemAlloc k => run_alone (mkShared (sem sh) (alloc_step (bsems sh)).2) (k (alloc_step (bsems sh)).1)
  | BsemFree bid k => if valid_bid bid then run_alone (mkShared (sem sh) (free_step bid (bsems sh))) k else None
  | BsemDown bid k =>
      if valid_bid bid && bsem_unlocked bid (bsems sh)
      then run_alone (mkShared (sem sh) (down_step bid (bsems sh))) k else None
  | BsemUp bid k => if valid_bid bid then run_alone (mkShared (sem sh) (up_step bid (bsems sh))) k else None
  end.

(** A thread calls [csem_up] and [csem_down] in some order: the calls it still
    has to make, the one it is in, and those that have returned. *)
Inductive call := Up | Down.
#[export] Instance call_eq_dec : EqDecision call.
Proof. solve_decision. Defined.
Definition body (c : call) : prog unit := match c with Up => csem_up | Down => csem_down end.
Record uthread := mkUthread {
  todo : list call;
  current : option (call * prog unit);
  returned : list call
}.

Definition thread_step (sh : shared) (t : uthread) : option (shared * uthread) :=
  match current t with
  | None =>
      match todo t with
      | [] => None
      | c :: cs => Some (sh, mkUthread cs (Some (c, body c)) (returned t))
      end
  | Some (c, Ret _) => Some (sh, mkUthread (todo t) None (c :: returned t))
  | Some (c, p) =>
      match prog_step sh p with
      | Some (sh', p') => Some (sh', mkUthread (todo t) (Some (c, p')) (returned t))
      | None => None
      end
  end.

Record usys := mkUsys {
  u_shared : shared;
  u_threads : list uthread
}.

(** some thread makes a step *)
Inductive step : usys → usys → Prop :=
| step_thread sh ts n t sh' t' :
    ts !! n = Some t → thread_step sh t = Some (sh', t') →
    step (mkUsys sh ts) (mkUsys sh' (<[n := t']> ts)).

(** threads that start with the calls [work] *)
Definition start (sh : shared) (work : list (list call)) : usys :=
  mkUsys sh ((λ cs, mkUthread cs None []) <$> work).

(** ** Where a thread is in a call *)

(** the steps of [csem_down] and [csem_up]; [P_store] carries the value loaded *)
Inductive phase :=
| P_load2 | P_down2                         (* only in csem_down *)
| P_load1 | P_down1 | P_load | P_store (v : Z) | P_test
| P_load2' | P_up2 | P_leave | P_up1 | P_end.

#[export] Instance phase_eq_dec : EqDecision phase.
Proof. solve_decision. Defined.

Section Phases.
Context (b1 b2 : Z).

Definition prog_of (c : call) (ph : phase) : prog unit :=
  let leave := load S1 as b1 in BsemUp b1 (Ret tt) in
  let test := load Value as v in
    if (match c with Down => 0 <? v | Up => v =? 1 end) then load S2 as b2 in BsemUp b2 leave else leave in
  let delta := match c with Down => -1 | Up => 1 end in
  let critical := load Value as v in Store Value (i32 (v + delta)) test in
  match ph with
  | P_load2 => load S2 as b2 in BsemDown b2 (load S1 as b1 in BsemDown b1 critical)
  | P_down2 => BsemDown b2 (load S1 as b1 in BsemDown b1 critical)
  | P_load1 => load S1 as b1 in BsemDown b1 critical
  | P_down1 => BsemDown b1 critical
  | P_load => critical
  | P_store v => Store Value (i32 (v + delta)) test
  | P_test => test
  | P_load2' => load S2 as b2 in BsemUp b2 leave
  | P_up2 => BsemUp b2 leave
  | P_leave => leave
  | P_up1 => BsemUp b1 (Ret tt)
  | P_end => Ret tt
  end.

Definition first_phase (c : call) : phase := match c with Down => P_load2 | Up => P_load1 end.
Lemma body_phase c : body c = prog_of c (first_phase c).
Proof. by destruct c. Qed.

(** the phase after a step, for the value [v] of the semaphore *)
Definition next_phase (c : call) (v : Z) (ph : phase) : phase :=
  match ph with
  | P_load2 => P_down2 | P_down2 => P_load1 | P_load1 => P_down1 | P_down1 => P_load
  | P_load => P_store v | P_store _ => P_test
  | P_test => if (match c with Down => 0 <? v | Up => v =? 1 end) then P_load2' else P_leave
  | P_load2' => P_up2 | P_up2 => P_leave | P_leave => P_up1 | P_up1 => P_end | P_end => P_end
  end.

(** [csem_up] does not wait for the second semaphore *)
Definition phase_ok (c : call) (ph : phase) : Prop :=
  match c, ph with Up, (P_load2 | P_down2) => False | _, _ => True end.

(** the thread is between [bsem_down(s1)] and [bsem_up(s1)] *)
Definition inside (ph : phase) : Z :=
  match ph with
  | P_load | P_store _ | P_test | P_load2' | P_up2 | P_leave | P_up1 => 1
  | _ => 0
  end.
(** the thread has taken the second semaphore and not passed it on, or is about
    to release it *)
Definition token (c : call) (v : Z) (ph : phase) : Z :=
  match ph with
  | P_load1 | P_down1 | P_load | P_store _ => match c with Down => 1 | Up => 0 end
  | P_test => if (match c with Down => 0 <? v | Up => v =? 1 end) then 1 else 0
  | P_load2' | P_up2 => 1
  | _ => 0
  end.
(** what the thread's call has added to the value so far *)
Definition added (c : call) (ph : phase) : Z :=
  match ph with
  | P_load2 | P_down2 | P_load1 | P_down1 | P_load | P_store _ => 0
  | _ => match c with Down => -1 | Up => 1 end
  end.
End Phases.

(** ** Sums over the threads *)

Section Total.
Context {T : Type}.
Implicit Types (f g : T → Z) (ts : list T).

Definition total f ts : Z := foldr (λ t n, f t + n) 0 ts.

Lemma total_insert f ts n t t' : ts !! n = Some t → total f (<[n := t']> ts) = total f ts - f t + f t'.
Proof.
  revert n. induction ts as [|x ts IH]; intros [|n] Hn; simpl in *; simplify_eq; [lia|].
  rewrite (IH n Hn). lia.
Qed.
Lemma total_nonneg f ts : (∀ t, 0 ≤ f t) → 0 ≤ total f ts.
Proof. intros Hf. induction ts as [|x ts IH]; simpl; [lia|]. specialize (Hf x). lia. Qed.
Lemma total_ext f g ts : (∀ t, t ∈ ts → f t = g t) → total f ts = total g ts.
Proof.
  induction ts as [|x ts IH]; intros Hf; simpl; [done|]. f_equal; [apply Hf; set_solver|apply IH; set_solver].
Qed.
Lemma total_le f g ts : (∀ t, t ∈ ts → f t ≤ g t) → total f ts ≤ total g ts.
Proof.
  induction ts as [|x ts IH]; intros Hf; simpl; [lia|].
  assert (f x ≤ g x) by (apply Hf; set_solver). assert (total f ts ≤ total g ts) by (apply IH; set_solver). lia.
Qed.
Lemma total_minus f g ts : total (λ t, f t - g t) ts = total f ts - total g ts.
Proof. induction ts as [|x ts IH]; simpl; lia. Qed.
Lemma total_lookup f ts n t : (∀ t, t ∈ ts → 0 ≤ f t) → ts !! n = Some t → f t ≤ total f ts.
Proof.
  revert n. induction ts as [|x ts IH]; intros [|n] Hf Hn; simpl in *; simplify_eq.
  - assert (H0 : total (λ _, 0) ts ≤ total f ts) by (apply total_le; set_solver).
    assert (H1 : 0 ≤ total (λ _, 0) ts) by (by apply total_nonneg). lia.
  - assert (f t ≤ total f ts) by (apply (IH n); [set_solver|done]). assert (0 ≤ f x) by (apply Hf; set_solver). lia.
Qed.
(** two threads that count do not both fit in a total of 1 *)
Lemma total_two f ts n m t t' :
  (∀ t, 0 ≤ f t) → total f ts ≤ 1 → ts !! n = Some t → ts !! m = Some t' → 0 < f t → 0 < f t' → n = m.
Proof.
  intros Hf Hle Hn Hm Ht Ht'. destruct (decide (n = m)) as [|Hne]; [done|]. exfalso.
  revert n m Hn Hm Hne. induction ts as [|x ts IH]; intros [|n] [|m] Hn Hm Hne; simpl in *; simplify_eq.
  - pose proof (total_lookup f ts m t' (λ t _, Hf t) Hm). lia.
  - pose proof (total_lookup f ts n t (λ t _, Hf t) Hn). lia.
  - specialize (Hf x) as Hx. eapply IH; eauto. lia.
Qed.
Lemma total_pos f ts : (∀ t, 0 ≤ f t) → 0 < total f ts → ∃ n t, ts !! n = Some t ∧ 0 < f t.
Proof.
  intros Hf. induction ts as [|x ts IH]; simpl; intros Hp; [lia|].
  destruct (decide (0 < f x)) as [Hx|Hx]; [by exists O, x|].
  destruct IH as (n & t & Hn & Ht); [lia|]. by exists (S n), t.
Qed.
End Total.
Lemma total_fmap {T T'} (h : T → T') (f : T' → Z) ts : total f (h <$> ts) = total (λ t, f (h t)) ts.
Proof. induction ts as [|x ts IH]; simpl; [done|]. by f_equal. Qed.

(** ** The invariant *)

(** a thread with its place in the call it is in *)
Abbreviation ghost := (uthread * option (call * phase))%type.
Definition in_phase (f : call → phase → Z) (g : ghost) : Z :=
  match g.2 with Some (c, ph) => f c ph | None => 0 end.
Definition count (c : call) (t : uthread) : Z := Z.of_nat (length (filter (c =.) (returned t))).
(** calls that have returned, and calls that have been made *)
Definition calls_returned (c : call) (ts : list uthread) : Z := total (count c) ts.
Definition calls_made (c : call) (ts : list uthread) : Z :=
  total (λ t, count c t + if bool_decide (fst <$> current t = Some c) then 1 else 0) ts.

(** what the thread has added to the value *)
Definition net (g : ghost) : Z := count Up g.1 - count Down g.1 + in_phase added g.
(** an upper bound on the steps the thread still has to make *)
Definition phase_left (ph : phase) : Z :=
  match ph with
  | P_load2 => 12 | P_down2 => 11 | P_load1 => 10 | P_down1 => 9 | P_load => 8 | P_store _ => 7
  | P_test => 6 | P_load2' => 5 | P_up2 => 4 | P_leave => 3 | P_up1 => 2 | P_end => 1
  end.
Definition left (g : ghost) : Z :=
  13 * Z.of_nat (length (todo g.1)) + in_phase (λ _, phase_left) g.
Lemma left_nonneg g : 0 ≤ left g.
Proof. destruct g as [t [[c ph]|]]; unfold left, in_phase; simpl; [destruct ph; simpl|]; lia. Qed.

(** all calls of [csem_up], past and future *)
Definition ups (t : uthread) : Z :=
  count Up t + (if bool_decide (fst <$> current t = Some Up) then 1 else 0) + Z.of_nat (length (filter (Up =.) (todo t))).

Section Invariant.
Context (b1 b2 init : Z).

Definition ghost_ok (v : Z) (g : ghost) : Prop :=
  match g.2 with
  | None => current g.1 = None
  | Some (c, ph) =>
      current g.1 = Some (c, prog_of b1 b2 c ph) ∧ phase_ok c ph ∧
      match ph with P_store v' => v' = v | _ => True end
  end.

Definition unl (bs : list bsem) (b : Z) : Z := b_unlocked (bs !!! Z.to_nat b).

Record inv (sh : shared) (gs : list ghost) : Prop := {
  inv_s1 : s1 (sem sh) = b1;
  inv_s2 : s2 (sem sh) = b2;
  inv_value : value (sem sh) = init + total net gs;
  inv_len : length (bsems sh) = MAX_BSEM;
  inv_in : unl (bsems sh) b1 + total (in_phase (λ _, inside)) gs = 1;
  inv_tok : unl (bsems sh) b2 + total (in_phase (λ c, token c (value (sem sh)))) gs =
    if 0 <? value (sem sh) then 1 else 0;
  inv_u1 : 0 ≤ unl (bsems sh) b1;
  inv_u2 : 0 ≤ unl (bsems sh) b2;
  inv_pos : 0 ≤ value (sem sh);
  inv_gs : ∀ g, g ∈ gs → ghost_ok (value (sem sh)) g;
  inv_bound : init + total ups gs.*1 < 2 ^ 31
}.

(** the effect of a step on what is shared, and when it is possible *)
Definition effect (c : call) (ph : phase) (sh : shared) : shared :=
  match ph with
  | P_down2 => mkShared (sem sh) (down_step b2 (bsems sh))
  | P_down1 => mkShared (sem sh) (down_step b1 (bsems sh))
  | P_store v => mkShared (put_field Value (i32 (v + match c with Down => -1 | Up => 1 end)) (sem sh)) (bsems sh)
  | P_up2 => mkShared (sem sh) (up_step b2 (bsems sh))
  | P_up1 => mkShared (sem sh) (up_step b1 (bsems sh))
  | _ => sh
  end.
Definition enabled (ph : phase) (bs : list bsem) : Prop :=
  match ph with
  | P_down2 => unl bs b2 ≠ 0
  | P_down1 => unl bs b1 ≠ 0
  | P_end => False
  | _ => True
  end.

#[local] Instance enabled_dec ph bs : Decision (enabled ph bs).
Proof. destruct ph; simpl; apply _. Defined.

Context (Hv1 : valid_bid b1 = true) (Hv2 : valid_bid b2 = true) (Hne : b1 ≠ b2).

Lemma phase_step c ph sh :
  s1 (sem sh) = b1 → s2 (sem sh) = b2 →
  (enabled ph (bsems sh) →
    prog_step sh (prog_of b1 b2 c ph) = Some (effect c ph sh, prog_of b1 b2 c (next_phase c (value (sem sh)) ph))) ∧
  (¬ enabled ph (bsems sh) → prog_step sh (prog_of b1 b2 c ph) = None).
Proof.
  intros H1 H2. destruct ph; simpl; rewrite ?H1, ?H2, ?Hv1, ?Hv2; simpl; split; try done.
  - unfold bsem_unlocked, unl. intros Hu. by rewrite (proj2 (Z.eqb_neq _ _) Hu).
  - unfold bsem_unlocked, unl. intros Hu. destruct (Z.eqb_spec (b_unlocked (bsems sh !!! Z.to_nat b2)) 0); [done|tauto].
  - unfold bsem_unlocked, unl. intros Hu. by rewrite (proj2 (Z.eqb_neq _ _) Hu).
  - unfold bsem_unlocked, unl. intros Hu. destruct (Z.eqb_spec (b_unlocked (bsems sh !!! Z.to_nat b1)) 0); [done|tauto].
  - intros _. by repeat case_match.
Qed.

Lemma valid_range b : valid_bid b = true → 0 ≤ b < Z.of_nat MAX_BSEM.
Proof. unfold valid_bid. lia. Qed.

Lemma unl_alter bs (f : bsem → bsem) b b' : length bs = MAX_BSEM → valid_bid b = true → valid_bid b' = true →
  unl (alter f (Z.to_nat b) bs) b' = if decide (b = b') then b_unlocked (f (bs !!! Z.to_nat b)) else unl bs b'.
Proof.
  intros Hl Hb%valid_range Hb'%valid_range. unfold unl. rewrite lookup_total_alter by lia.
  repeat case_decide; try done; try lia. by subst.
Qed.

Lemma token_stable c v v' ph : ph ≠ P_test → token c v ph = token c v' ph.
Proof. by destruct ph. Qed.
Lemma inside_nonneg (g : ghost) : 0 ≤ in_phase (λ _, inside) g.
Proof. destruct g as [t [[c ph]|]]; [|done]. by destruct ph. Qed.
Lemma token_nonneg v (g : ghost) : 0 ≤ in_phase (λ c, token c v) g.
Proof.
  destruct g as [t [[c ph]|]]; [|done]. unfold in_phase. simpl.
  destruct ph; simpl; try lia; repeat case_match; lia.
Qed.

(** no other thread is inside when one is *)
Lemma alone_inside sh gs n m g g' :
  inv sh gs → gs !! n = Some g → gs !! m = Some g' → in_phase (λ _, inside) g = 1 → in_phase (λ _, inside) g' = 1 → n = m.
Proof.
  intros Hi Hn Hm H1 H2. destruct (inv_in _ _ Hi), Hi.
  eapply (total_two (in_phase (λ _, inside))); eauto using inside_nonneg; lia.
Qed.

(** a store by the thread inside leaves the other threads as they are *)
Lemma store_others sh gs n t c v v' :
  inv sh gs → gs !! n = Some (t, Some (c, P_store v)) →
  total (in_phase (λ c, token c v')) gs = total (in_phase (λ c, token c (value (sem sh)))) gs ∧
  ∀ m g, m ≠ n → gs !! m = Some g → ghost_ok (value (sem sh)) g → ghost_ok v' g.
Proof.
  intros Hi Hn.
  assert (Hout : ∀ m g, m ≠ n → gs !! m = Some g → in_phase (λ _, inside) g = 0).
  { intros m [t' [[c' ph]|]] Hm Hg; [|done]. destruct (decide (inside ph = 1)) as [H1|H1]; [|by destruct ph].
    destruct Hm. by apply (alone_inside sh gs m n _ _ Hi Hg Hn). }
  split.
  - apply total_ext. intros g [m Hm]%list_elem_of_lookup. destruct (decide (m = n)) as [->|Hmn].
    + rewrite Hn in Hm. by simplify_eq.
    + specialize (Hout m g Hmn Hm). destruct g as [t' [[c' ph]|]]; [|done]. apply token_stable. by intros ->.
  - intros m [t' [[c' ph]|]] Hmn Hg; [|done]. specialize (Hout m _ Hmn Hg). unfold ghost_ok. simpl.
    by destruct ph.
Qed.
Abbreviation moved t c ph := (mkUthread (todo t) (Some (c, prog_of b1 b2 c ph)) (returned t), Some (c, ph)).
Abbreviation pos v := (if 0 <? v then 1 else 0).

Lemma inv_update sh gs n t c ph sh' ph' :
  inv sh gs → gs !! n = Some (t, Some (c, ph)) →
  s1 (sem sh') = b1 → s2 (sem sh') = b2 → length (bsems sh') = MAX_BSEM →
  value (sem sh') = value (sem sh) + added c ph' - added c ph →
  (value (sem sh') = value (sem sh) ∨ ∃ v, ph = P_store v) →
  unl (bsems sh') b1 = unl (bsems sh) b1 + inside ph - inside ph' →
  unl (bsems sh') b2 + token c (value (sem sh')) ph' - token c (value (sem sh)) ph =
    unl (bsems sh) b2 + pos (value (sem sh')) - pos (value (sem sh)) →
  0 ≤ unl (bsems sh') b1 → 0 ≤ unl (bsems sh') b2 → 0 ≤ value (sem sh') → phase_ok c ph' →
  (∀ v, ph' = P_store v → v = value (sem sh')) →
  inv sh' (<[n := moved t c ph']> gs).
Proof.
  intros Hi Hn H1 H2 Hl Hv Hst Hu1 Hu2 Hp1 Hp2 Hpv Hok Hs.
  assert (Hcur : current t = Some (c, prog_of b1 b2 c ph)).
  { apply (inv_gs _ _ Hi (t, Some (c, ph))). by eapply list_elem_of_lookup_2. }
  assert (Hoth : total (in_phase (λ c, token c (value (sem sh')))) gs = total (in_phase (λ c, token c (value (sem sh)))) gs +
      token c (value (sem sh')) ph - token c (value (sem sh)) ph ∧
    ∀ m g, m ≠ n → gs !! m = Some g → ghost_ok (value (sem sh)) g → ghost_ok (value (sem sh')) g).
  { destruct Hst as [->|[v ->]]; [split; [lia|done]|].
    destruct (store_others sh gs n t c v (value (sem sh')) Hi Hn) as [-> ?]. split; [simpl; lia|done]. }
  destruct Hoth as [Htok Hg]. pose proof (inv_value _ _ Hi). pose proof (inv_in _ _ Hi). pose proof (inv_tok _ _ Hi).
  split; try done.
  - rewrite (total_insert _ _ _ _ _ Hn). unfold net at 2 3, count, in_phase. simpl. lia.
  - rewrite (total_insert _ _ _ _ _ Hn). unfold in_phase at 2 3. simpl. lia.
  - rewrite (total_insert _ _ _ _ _ Hn), Htok. unfold in_phase at 2 3. simpl. lia.
  - intros g [m Hm]%list_elem_of_lookup. apply list_lookup_insert_Some in Hm as [(-> & <- & _)|[Hmn Hm]].
    + unfold ghost_ok. simpl. split_and!; [done|done|]. destruct ph'; try done. by apply Hs.
    + eapply Hg; [done|done|]. apply (inv_gs _ _ Hi). by eapply list_elem_of_lookup_2.
  - rewrite list_fmap_insert, (total_insert _ _ _ t) by (by rewrite list_lookup_fmap, Hn).
    assert (Hu : ups (moved t c ph').1 = ups t) by (unfold ups, count; simpl; by rewrite Hcur).
    rewrite Hu. pose proof (inv_bound _ _ Hi). lia.
Qed.

(** the value of the semaphore does not reach the limit of an [int] *)
Lemma value_bound sh gs n t c v :
  inv sh gs → gs !! n = Some (t, Some (c, P_store v)) →
  value (sem sh) + (match c with Up => 1 | Down => 0 end) < 2 ^ 31.
Proof.
  intros Hi Hn. pose proof (inv_value _ _ Hi). pose proof (inv_bound _ _ Hi) as Hb. rewrite total_fmap in Hb.
  assert (Hc : ∀ c t', 0 ≤ count c t') by (intros; unfold count; lia).
  assert (Hle : ups t - net (t, Some (c, P_store v)) ≤ total (λ g : ghost, ups g.1 - net g) gs).
  { refine (total_lookup (λ g : ghost, ups g.1 - net g) gs n _ _ Hn). intros [t' o] Hg.
    specialize (inv_gs _ _ Hi _ Hg) as Hok.
    specialize (Hc Down t'). unfold ups, net, in_phase. destruct o as [[c' ph]|]; unfold ghost_ok in Hok; simpl in *.
    - destruct Hok as [-> _]. destruct c', ph; simpl; lia.
    - rewrite Hok. simpl. lia. }
  rewrite total_minus in Hle. specialize (Hc Down t).
  assert (Hcur : current t = Some (c, prog_of b1 b2 c (P_store v))).
  { apply (inv_gs _ _ Hi (t, Some (c, P_store v))). by eapply list_elem_of_lookup_2. }
  unfold ups at 1, net at 1, in_phase in Hle. simpl in Hle. rewrite Hcur in Hle. destruct c; simpl in Hle; lia.
Qed.

(** the value that the thread inside stores *)
Lemma store_value sh gs n t c v :
  inv sh gs → gs !! n = Some (t, Some (c, P_store v)) → v = value (sem sh) →
  let d := match c with Down => -1 | Up => 1 end in i32 (v + d) = value (sem sh) + d ∧ 0 ≤ value (sem sh) + d.
Proof.
  intros Hi Hn -> d. pose proof (value_bound sh gs n t c _ Hi Hn) as Hb.
  pose proof (total_lookup _ _ _ _ (λ g _, token_nonneg (value (sem sh)) g) Hn) as Htok.
  unfold in_phase at 1 in Htok. simpl in Htok. destruct Hi as [_ _ _ _ _ Hct _ Hu2 Hp _ _].
  unfold d. destruct c.
  - rewrite i32_small; lia.
  - assert (0 < value (sem sh)) by (destruct (Z.ltb_spec 0 (value (sem sh))); lia). rewrite i32_small; lia.
Qed.

Lemma unl_down sh b b' : length (bsems sh) = MAX_BSEM → valid_bid b = true → valid_bid b' = true →
  unl (down_step b (bsems sh)) b' = if decide (b = b') then 0 else unl (bsems sh) b'.
Proof. intros. unfold down_step. rewrite unl_alter by done. by case_decide. Qed.
Lemma unl_up sh b b' : length (bsems sh) = MAX_BSEM → valid_bid b = true → valid_bid b' = true →
  unl (up_step b (bsems sh)) b' = if decide (b = b') then 1 else unl (bsems sh) b'.
Proof. intros. unfold up_step. rewrite unl_alter by done. by case_decide. Qed.

Lemma inv_exec sh gs n t c ph :
  inv sh gs → gs !! n = Some (t, Some (c, ph)) → enabled ph (bsems sh) →
  inv (effect c ph sh) (<[n := moved t c (next_phase c (value (sem sh)) ph)]> gs).
Proof.
  intros Hi Hn Hen.
  assert (Hg : ghost_ok (value (sem sh)) (t, Some (c, ph))) by (apply (inv_gs _ _ Hi); by eapply list_elem_of_lookup_2).
  destruct Hg as (Hcur & Hok & Hst). simpl in Hcur, Hok, Hst. clear Hcur.
  pose proof (total_lookup _ _ _ _ (λ g _, inside_nonneg g) Hn) as Hin.
  pose proof (total_lookup _ _ _ _ (λ g _, token_nonneg (value (sem sh)) g) Hn) as Htok.
  unfold in_phase at 1 in Hin. unfold in_phase at 1 in Htok.
  assert (Hsv := λ v, store_value sh gs n t c v Hi).
  assert (Hi' := Hi). destruct Hi' as [H1 H2 Hv Hl Hci Hct Hu1 Hu2 Hp _ _].
  destruct ph as [| | | | |v| | | | | |]; try done; try (destruct (Hsv v Hn Hst) as [Hi32 Hge]); clear Hsv;
    (apply (inv_update sh gs n t c _ _ _ Hi Hn); simpl in *).
  all: try done; try (unfold down_step, up_step; by rewrite length_alter).
  all: rewrite ?unl_down, ?unl_up by done; rewrite ?(decide_True (P := b1 = b1)), ?(decide_True (P := b2 = b2)),
    ?(decide_False (P := b1 = b2)), ?(decide_False (P := b2 = b1)) by congruence.
  all: try (rewrite ?Hi32; destruct c; simpl in *; repeat case_match; zbool; simpl in *; try done; lia).
  all: try (by right; eexists).
  all: try (intros ? ?; simplify_eq; done).
  all: by destruct c; repeat case_match.
Qed.

(** ** Steps of the system *)

Lemma count_cons c c' t cs o : count c (mkUthread cs o (c' :: returned t)) = count c t + if decide (c = c') then 1 else 0.
Proof.
  unfold count. simpl. case_decide.
  - rewrite filter_cons_True by done. simpl. lia.
  - rewrite filter_cons_False by done. lia.
Qed.

(** a thread starts a call or returns from one *)
Lemma inv_call sh gs n t o t' o' :
  inv sh gs → gs !! n = Some (t, o) → net (t', o') = net (t, o) → ups t' = ups t →
  (∀ f : call → phase → Z, (∀ c, f c (first_phase c) = 0) → (∀ c, f c P_end = 0) → in_phase f (t, o) = 0 ∧ in_phase f (t', o') = 0) →
  ghost_ok (value (sem sh)) (t', o') → inv sh (<[n := (t', o')]> gs).
Proof.
  intros Hi Hn Hnet Hups Hf Hok. assert (Hi' := Hi). destruct Hi' as [H1 H2 Hv Hl Hci Hct Hu1 Hu2 Hp Hgs Hbd].
  split; try done.
  - rewrite (total_insert _ _ _ _ _ Hn), Hnet. lia.
  - rewrite (total_insert _ _ _ _ _ Hn). destruct (Hf (λ _, inside)) as [-> ->]; [by intros []|done|]. lia.
  - rewrite (total_insert _ _ _ _ _ Hn).
    destruct (Hf (λ c, token c (value (sem sh)))) as [-> ->]; [by intros []|done|]. lia.
  - intros g [m Hm]%list_elem_of_lookup. apply list_lookup_insert_Some in Hm as [(-> & <- & _)|[Hmn Hm]]; [done|].
    apply Hgs. by eapply list_elem_of_lookup_2.
  - rewrite list_fmap_insert, (total_insert _ _ _ t) by (by rewrite list_lookup_fmap, Hn). simpl. lia.
Qed.

Lemma inv_step sh gs n t sh' t' :
  inv sh gs → gs.*1 !! n = Some t → thread_step sh t = Some (sh', t') →
  ∃ g o', gs !! n = Some g ∧ inv sh' (<[n := (t', o')]> gs) ∧ left (t', o') < left g.
Proof.
  intros Hi Hn Hst. rewrite list_lookup_fmap in Hn. apply fmap_Some in Hn as ([t0 o] & Hn & ->). simpl in *.
  assert (Hg : ghost_ok (value (sem sh)) (t0, o)) by (apply (inv_gs _ _ Hi); by eapply list_elem_of_lookup_2).
  unfold thread_step in Hst. destruct o as [[c ph]|]; simpl in Hg.
  - destruct Hg as (Hcur & Hok & Hsv). simpl in Hcur. rewrite Hcur in Hst.
    destruct (decide (ph = P_end)) as [->|Hend].
    + simpl in Hst. simplify_eq. exists (t0, Some (c, P_end)), None.
      split_and!; [done| |unfold left, in_phase; simpl; lia]. apply (inv_call sh' gs n t0 (Some (c, P_end))); try done.
      * unfold net, in_phase. simpl. rewrite !count_cons. destruct c; simpl; lia.
      * unfold ups. rewrite count_cons, Hcur. by destruct c; simpl; lia.
      * intros f _ Hf. split; [apply Hf|done].
    + destruct (phase_step c ph sh (inv_s1 _ _ Hi) (inv_s2 _ _ Hi)) as [Hen Hdis].
      assert (Hstep : match prog_step sh (prog_of b1 b2 c ph) with
        | Some (sh', p') => Some (sh', mkUthread (todo t0) (Some (c, p')) (returned t0)) | None => None end = Some (sh', t')).
      { rewrite <- Hst. by destruct ph. }
      destruct (decide (enabled ph (bsems sh))) as [He|He].
      * rewrite Hen in Hstep by done. simplify_eq. exists (t0, Some (c, ph)), (Some (c, next_phase c (value (sem sh)) ph)).
        split_and!; [done|by apply inv_exec|].
        unfold left, in_phase. simpl. destruct c, ph; simpl; repeat case_match; simpl; lia || done.
      * by rewrite Hdis in Hstep.
  - unfold ghost_ok in Hg. simpl in Hg. rewrite Hg in Hst. destruct (todo t0) as [|c cs] eqn:Etd; [done|]. simplify_eq.
    exists (t0, None), (Some (c, first_phase c)).
    split_and!; [done| |unfold left, in_phase; simpl; rewrite Etd; destruct c; simpl; lia]. apply (inv_call sh' gs n t0 None); try done.
    + unfold net, in_phase, count. simpl. by destruct c; simpl; lia.
    + unfold ups, count. simpl. rewrite Hg, Etd. destruct c.
      * rewrite filter_cons_True by done. simpl. lia.
      * rewrite filter_cons_False by done. simpl. lia.
    + intros f Hf _. split; [done|apply Hf].
    + unfold ghost_ok. simpl. rewrite body_phase with (b1 := b1) (b2 := b2). by destruct c.
Qed.

Lemma inv_steps k sh gs σ :
  inv sh gs → nsteps step k (mkUsys sh gs.*1) σ →
  ∃ gs', u_threads σ = gs'.*1 ∧ inv (u_shared σ) gs' ∧ Z.of_nat k ≤ total left gs - total left gs'.
Proof.
  intros Hi Hs. revert sh gs Hi Hs. induction k as [|k IH]; intros sh gs Hi Hs.
  - inversion Hs; simplify_eq. exists gs. simpl. split_and!; [done|done|lia].
  - inversion Hs as [|? ? σ1 ? H1 Hs']; simplify_eq. inversion H1 as [? ? n t sh' t' Hn Ht]; simplify_eq.
    destruct (inv_step sh gs n t sh' t' Hi Hn Ht) as (g & o' & Hg & Hi' & Hl).
    destruct (IH sh' (<[n := (t', o')]> gs) Hi') as (gs' & Hth & Hi2 & Hk).
    { by rewrite list_fmap_insert. }
    exists gs'. split_and!; [done|done|]. rewrite (total_insert _ _ _ _ _ Hg) in Hk. lia.
Qed.

(** when no thread can move, the threads in a call wait for the second semaphore *)
Lemma stuck_phases sh gs :
  inv sh gs → (∀ t, t ∈ gs.*1 → thread_step sh t = None) →
  ∀ n t c ph, gs !! n = Some (t, Some (c, ph)) → c = Down ∧ ph = P_down2 ∧ unl (bsems sh) b2 = 0.
Proof.
  intros Hi Hst.
  assert (Hph : ∀ n t c ph, gs !! n = Some (t, Some (c, ph)) → ph ≠ P_end ∧ ¬ enabled ph (bsems sh)).
  { intros n t c ph Hn.
    assert (Hg : ghost_ok (value (sem sh)) (t, Some (c, ph))) by (apply (inv_gs _ _ Hi); by eapply list_elem_of_lookup_2).
    destruct Hg as (Hcur & _). simpl in Hcur.
    assert (Hnone : thread_step sh t = None) by (apply Hst, list_elem_of_fmap; eexists; split; [|by eapply list_elem_of_lookup_2]; done).
    unfold thread_step in Hnone. rewrite Hcur in Hnone. split; [by intros ->|]. intros He.
    rewrite (proj1 (phase_step c ph sh (inv_s1 _ _ Hi) (inv_s2 _ _ Hi)) He) in Hnone. by destruct ph. }
  assert (Hin0 : total (in_phase (λ _, inside)) gs = 0).
  { destruct (decide (0 < total (in_phase (λ _, inside)) gs)) as [Hpos|Hpos].
    - apply total_pos in Hpos as (n & [t [[c ph]|]] & Hn & Hx); [|done|apply inside_nonneg].
      destruct (Hph n t c ph Hn) as [_ He]. unfold in_phase in Hx. simpl in Hx. destruct ph; simpl in *; try lia; tauto.
    - pose proof (total_nonneg _ gs inside_nonneg). lia. }
  assert (Hu1 : unl (bsems sh) b1 = 1) by (pose proof (inv_in _ _ Hi); lia).
  intros n t c ph Hn. destruct (Hph n t c ph Hn) as [Hend He].
  assert (Hg : ghost_ok (value (sem sh)) (t, Some (c, ph))) by (apply (inv_gs _ _ Hi); by eapply list_elem_of_lookup_2).
  destruct Hg as (_ & Hok & _). simpl in Hok.
  destruct ph; simpl in He; try tauto; [|rewrite Hu1 in He; lia].
  destruct c; [done|]. split_and!; [done|done|]. destruct (decide (unl (bsems sh) b2 = 0)); tauto.
Qed.

(** a state in which no thread can move *)
Lemma inv_stuck sh gs :
  inv sh gs → (∀ t, t ∈ gs.*1 → thread_step sh t = None) →
  (∀ t, t ∈ gs.*1 → (current t = None ∧ todo t = []) ∨ ∃ p, current t = Some (Down, p)) ∧
  ((∃ t, t ∈ gs.*1 ∧ current t ≠ None) → value (sem sh) = 0) ∧
  total net gs = total (λ t, count Up t - count Down t) gs.*1.
Proof.
  intros Hi Hst.
  assert (Hd := stuck_phases sh gs Hi Hst).
  split_and!.
  - intros t ([t0 o] & -> & Hin)%list_elem_of_fmap. assert (Hg := inv_gs _ _ Hi _ Hin). apply list_elem_of_lookup in Hin as [n Hn].
    unfold ghost_ok in Hg. simpl in *. destruct o as [[c ph]|].
    + right. destruct (Hd n t0 c ph Hn) as (-> & -> & _). destruct Hg as [-> _]. eauto.
    + left. split; [done|]. assert (Hnone : thread_step sh t0 = None).
      { apply Hst, list_elem_of_fmap. eexists (_, _). split; [|by eapply list_elem_of_lookup_2]. done. }
      unfold thread_step in Hnone. rewrite Hg in Hnone. by destruct (todo t0).
  - intros (t & ([t0 o] & -> & Hin)%list_elem_of_fmap & Hc). assert (Hg := inv_gs _ _ Hi _ Hin).
    apply list_elem_of_lookup in Hin as [n Hn]. unfold ghost_ok in Hg. simpl in *. destruct o as [[c ph]|]; [|done].
    destruct (Hd n t0 c ph Hn) as (_ & _ & H2).
    assert (Htok : total (in_phase (λ c, token c (value (sem sh)))) gs = total (λ _, 0) gs).
    { apply total_ext. intros [t1 [[c1 ph1]|]] [m Hm]%list_elem_of_lookup; [|done].
      destruct (Hd m t1 c1 ph1 Hm) as (-> & -> & _). done. }
    assert (Hz : total (λ _ : ghost, 0) gs = 0) by (clear; induction gs; simpl in *; lia).
    pose proof (inv_tok _ _ Hi). pose proof (inv_pos _ _ Hi). destruct (Z.ltb_spec 0 (value (sem sh))); lia.
  - rewrite total_fmap. apply total_ext. intros [t1 [[c1 ph1]|]] [m Hm]%list_elem_of_lookup; unfold net, in_phase; simpl; [|lia].
    destruct (Hd m t1 c1 ph1 Hm) as (-> & -> & _). simpl. lia.
Qed.
End Invariant.

(** ** The theorems *)

Lemma bsem_alloc_first bs : length bs = MAX_BSEM →
  let '(b, bs') := alloc_step bs in
  length bs' = MAX_BSEM ∧
  (0 ≤ b → valid_bid b = true ∧ unl bs' b = 1 ∧ b_state (bs' !!! Z.to_nat b) = 1 ∧ b_state (bs !!! Z.to_nat b) = 0 ∧
    ∀ b', valid_bid b' = true → b' ≠ b → bs' !!! Z.to_nat b' = bs !!! Z.to_nat b').
Proof.
  intros Hl. unfold alloc_step. destruct (find_index _ bs) as [i|] eqn:Ef; [|split; [done|lia]].
  apply find_index_Some in Ef as [(b & Hb & Hu) _]. assert (Hi := lookup_lt_Some _ _ _ Hb).
  split; [by rewrite length_insert|]. intros _. unfold unl. rewrite Nat2Z.id, list_lookup_total_insert_eq by done.
  split_and!; [unfold valid_bid; lia|done|done|rewrite (list_lookup_total_correct _ _ _ Hb); lia|].
  intros b' Hb'%valid_range Hne. rewrite list_lookup_total_insert_ne by lia. done.
Qed.

(** after [csem_alloc] the invariant holds for threads that have not started *)
Lemma alloc_inv c0 bs init sh work :
  length bs = MAX_BSEM → 0 ≤ init →
  run_alone (mkShared c0 bs) (csem_alloc init) = Some (sh, 0) →
  init + total (λ cs, Z.of_nat (length (filter (Up =.) cs))) work < 2 ^ 31 →
  ∃ b1 b2, valid_bid b1 = true ∧ valid_bid b2 = true ∧ b1 ≠ b2 ∧
    inv b1 b2 init sh ((λ cs, (mkUthread cs None [], None)) <$> work).
Proof.
  intros Hl H0 Hrun Hb. unfold csem_alloc in Hrun. cbn [run_alone sem bsems fst snd] in Hrun.
  pose proof (bsem_alloc_first bs Hl) as H1. destruct (alloc_step bs) as [b1 bs1]. destruct H1 as [Hl1 H1].
  cbn [run_alone sem bsems fst snd] in Hrun.
  pose proof (bsem_alloc_first bs1 Hl1) as H2. destruct (alloc_step bs1) as [b2 bs2]. destruct H2 as [Hl2 H2].
  cbn [fst snd] in Hrun.
  assert (Hsh : 0 ≤ b1 ∧ 0 ≤ b2 ∧ sh = mkShared (mkCsem init b1 b2) (if init =? 0 then down_step b2 bs2 else bs2)).
  { destruct (Z.ltb_spec b1 0), (Z.ltb_spec b2 0), (init =? 0); simpl in Hrun; repeat case_match; simplify_eq; done. }
  destruct Hsh as (Hb1 & Hb2 & ->). clear Hrun.
  destruct (H1 Hb1) as (Hv1 & Hu1 & Hs1 & _ & _), (H2 Hb2) as (Hv2 & Hu2 & _ & Hs2 & Hsame). clear H1 H2.
  assert (Hne : b1 ≠ b2) by (intros ->; lia). exists b1, b2. split_and!; [done..|].
  assert (Hu1' : unl bs2 b1 = 1) by (unfold unl; by rewrite Hsame).
  assert (Hz : ∀ f : ghost → Z, (∀ cs, f (mkUthread cs None [], None) = 0) →
    total f ((λ cs, (mkUthread cs None [], None)) <$> work) = 0).
  { intros f Hf. rewrite total_fmap. rewrite (total_ext _ (λ _, 0)) by done. clear. induction work; simpl in *; lia. }
  assert (Hd1 : unl (down_step b2 bs2) b1 = 1) by (rewrite (unl_down (mkShared c0 bs2)), decide_False by done; done).
  assert (Hd2 : unl (down_step b2 bs2) b2 = 0) by (rewrite (unl_down (mkShared c0 bs2)), decide_True by done; done).
  split; simpl; rewrite ?Hz by done.
  - done.
  - done.
  - lia.
  - case_match; unfold down_step; rewrite ?length_alter; done.
  - case_match; lia.
  - destruct (Z.eqb_spec init 0) as [->|]; [simpl; lia|].
    destruct (Z.ltb_spec 0 init); lia.
  - case_match; lia.
  - destruct (Z.eqb_spec init 0) as [->|]; [simpl; lia|lia].
  - done.
  - intros g (cs & -> & _)%list_elem_of_fmap. done.
  - rewrite !total_fmap. erewrite total_ext; [exact Hb|]. intros cs _. unfold ups, count. simpl. lia.
Qed.

Section Theorems.
Context (c0 : counting_semaphore) (bs : list bsem) (init : Z) (sh : shared) (work : list (list call)).
Context (Hlen : length bs = MAX_BSEM) (Hinit : 0 ≤ init)
  (Halloc : run_alone (mkShared c0 bs) (csem_alloc init) = Some (sh, 0))
  (Hups : init + total (λ cs, Z.of_nat (length (filter (Up =.) cs))) work < 2 ^ 31).

Lemma start_inv : ∃ b1 b2 gs, valid_bid b1 = true ∧ valid_bid b2 = true ∧ b1 ≠ b2 ∧ inv b1 b2 init sh gs ∧
  start sh work = mkUsys sh gs.*1 ∧ total left gs = 13 * total (λ cs, Z.of_nat (length cs)) work.
Proof.
  destruct (alloc_inv c0 bs init sh work Hlen Hinit Halloc Hups) as (b1 & b2 & Hv1 & Hv2 & Hne & Hi).
  eexists b1, b2, _. split_and!; [done|done|done|exact Hi| |].
  - unfold start. f_equal. rewrite <- list_fmap_compose. done.
  - rewrite total_fmap. unfold left, in_phase. clear. induction work; simpl in *; lia.
Qed.

(** C30: the counting semaphore counts.  Threads that call [csem_up] and
    [csem_down] any number of times, interleaved at every access and system
    call, never return from more calls of [csem_down] than the initial value and
    the calls of [csem_up] allow; and when no thread is inside a call, the value
    of the semaphore is the initial value, plus the ups, minus the downs. *)
Theorem csem_counts σ :
  rtc step (start sh work) σ →
  calls_returned Down (u_threads σ) ≤ init + calls_made Up (u_threads σ) ∧
  0 ≤ value (sem (u_shared σ)) ∧
  ((∀ t, t ∈ u_threads σ → current t = None) →
   value (sem (u_shared σ)) = init + calls_returned Up (u_threads σ) - calls_returned Down (u_threads σ)).
Proof.
  intros [k Hk]%rtc_nsteps. destruct start_inv as (b1 & b2 & gs & Hv1 & Hv2 & Hne & Hi & Est & _).
  rewrite Est in Hk. destruct (inv_steps b1 b2 init Hv1 Hv2 Hne k sh gs σ Hi Hk) as (gs' & -> & Hi' & _).
  pose proof (inv_value _ _ _ _ _ Hi') as Hv. pose proof (inv_pos _ _ _ _ _ Hi').
  unfold calls_returned, calls_made. rewrite !total_fmap. split_and!; [|done|].
  - assert (Hle : total net gs' ≤ total (λ g : ghost, (count Up g.1 + if bool_decide (fst <$> current g.1 = Some Up) then 1 else 0) - count Down g.1) gs').
    { apply total_le. intros [t o] Hg. assert (Hok := inv_gs _ _ _ _ _ Hi' _ Hg). unfold net, in_phase, ghost_ok in *. simpl in *.
      destruct o as [[c ph]|]; [destruct Hok as [-> _]|rewrite Hok]; simpl; [|lia].
      destruct c; simpl; destruct ph; simpl; lia. }
    rewrite (total_minus (λ g : ghost, count Up g.1 + if bool_decide (fst <$> current g.1 = Some Up) then 1 else 0)) in Hle. lia.
  - intros Hq. rewrite Hv, <- Z.add_sub_assoc, <- total_minus. f_equal. apply total_ext. intros [t o] Hg.
    assert (Hok := inv_gs _ _ _ _ _ Hi' _ Hg). assert (Hc : current t = None) by (apply Hq, list_elem_of_fmap; by exists (t, o)).
    unfold net, in_phase, ghost_ok in *. simpl in *. destruct o as [[c ph]|]; [|lia]. destruct Hok as [? _]. congruence.
Qed.

(** C31: no deadlock.  Every execution of the threads ends within a number of
    steps given by their work, and when it has ended each thread has returned
    from all of its calls, or it waits in [csem_down] and the value of the
    semaphore is 0, every up having been used by a down. *)
Theorem csem_live k σ :
  nsteps step k (start sh work) σ →
  Z.of_nat k ≤ 13 * total (λ cs, Z.of_nat (length cs)) work ∧
  ((∀ σ', ¬ step σ σ') →
   (∀ t, t ∈ u_threads σ → (current t = None ∧ todo t = []) ∨ ∃ p, current t = Some (Down, p)) ∧
   ((∃ t, t ∈ u_threads σ ∧ current t ≠ None) →
    value (sem (u_shared σ)) = 0 ∧ calls_returned Down (u_threads σ) = init + calls_returned Up (u_threads σ))).
Proof.
  intros Hk. destruct start_inv as (b1 & b2 & gs & Hv1 & Hv2 & Hne & Hi & Est & Hleft).
  rewrite Est in Hk. destruct (inv_steps b1 b2 init Hv1 Hv2 Hne k sh gs σ Hi Hk) as (gs' & Eth & Hi' & Hk').
  pose proof (total_nonneg _ gs' left_nonneg). split; [lia|]. intros Hno. destruct σ as [sh' ts]. simpl in *. subst ts.
  assert (Hst : ∀ t, t ∈ gs'.*1 → thread_step sh' t = None).
  { intros t [n Hn]%list_elem_of_lookup. destruct (thread_step sh' t) as [[sh2 t2]|] eqn:E; [|done].
    destruct (Hno _ (step_thread sh' _ n t sh2 t2 Hn E)). }
  destruct (inv_stuck b1 b2 init Hv1 Hv2 sh' gs' Hi' Hst) as (Ht & H0 & Hnet).
  split; [done|]. intros Hex. specialize (H0 Hex). split; [done|].
  pose proof (inv_value _ _ _ _ _ Hi'). rewrite total_minus in Hnet. unfold calls_returned. lia.
Qed.
End Theorems.

(** ** Executions *)

(** the execution in which the threads move in the given order *)
Fixpoint run_schedule (order : list nat) (σ : usys) : option usys :=
  match order with
  | [] => Some σ
  | n :: order' =>
      match u_threads σ !! n with
      | Some t =>
          match thread_step (u_shared σ) t with
          | Some (sh', t') => run_schedule order' (mkUsys sh' (<[n := t']> (u_threads σ)))
          | None => None
          end
      | None => None
      end
  end.

Lemma run_schedule_steps order : ∀ σ σ', run_schedule order σ = Some σ' → nsteps step (length order) σ σ'.
Proof.
  induction order as [|n order IH]; intros [sh ts] σ' Hr; simpl in *; simplify_eq; [constructor|].
  repeat case_match; simplify_eq. econstructor; [by econstructor|]. by apply IH.
Qed.

Module Demo.
Definition bsems0 : list bsem := replicate MAX_BSEM (mkBsem 0 0 0).
Definition alloced (init : Z) : shared :=
  match run_alone (mkShared (mkCsem 0 0 0) bsems0) (csem_alloc init) with Some (sh, _) => sh | None => mkShared (mkCsem 0 0 0) [] end.

(** two downs and an up, on a semaphore that starts at 1: the second down waits
    for the up *)
Definition work : list (list call) := [[Down]; [Down]; [Up]].
Definition order : list nat :=
  [0;1;0;1;0;0;0;0;0;0;0;0;0; 2;2;2;2;2;2;2;2;2;2;2; 1;1;1;1;1;1;1;1;1]%nat.

Lemma csem_counts_witness : ∃ σ, run_schedule order (start (alloced 1) work) = Some σ ∧
  calls_returned Down (u_threads σ) = 2 ∧ value (sem (u_shared σ)) = 0.
Proof.
  destruct (run_schedule order (start (alloced 1) work)) as [σ|] eqn:E.
  2: { exfalso. vm_compute in E. discriminate E. }
  exists σ. split; [reflexivity|].
  destruct (csem_counts (mkCsem 0 0 0) bsems0 1 (alloced 1) work) with (σ := σ) as (Hle & Hv & Hq).
  - reflexivity.
  - lia.
  - vm_compute. reflexivity.
  - vm_compute. reflexivity.
  - eapply rtc_nsteps_2. by apply run_schedule_steps.
  - assert (Hσ := E). vm_compute in Hσ. injection Hσ as <-. split; [reflexivity|].
    rewrite Hq; [reflexivity|]. intros t Ht. repeat (apply elem_of_cons in Ht as [->|Ht]; [reflexivity|]). apply elem_of_nil in Ht. destruct Ht.
Defined.

(** a down on a semaphore that starts at 0 waits *)
Definition waiting : usys := mkUsys (alloced 0) [mkUthread [] (Some (Down, prog_of 0 1 Down P_down2)) []].

Lemma csem_live_witness : run_schedule [0; 0]%nat (start (alloced 0) [[Down]]) = Some waiting ∧ value (sem (u_shared waiting)) = 0.
Proof.
  assert (E : run_schedule [0; 0]%nat (start (alloced 0) [[Down]]) = Some waiting) by reflexivity.
  split; [exact E|].
  destruct (csem_live (mkCsem 0 0 0) bsems0 0 (alloced 0) [[Down]]) with (k := 2%nat) (σ := waiting) as (_ & Hs).
  - reflexivity.
  - lia.
  - vm_compute. reflexivity.
  - vm_compute. reflexivity.
  - exact (run_schedule_steps [0; 0]%nat _ _ E).
  - destruct Hs as [_ Hs].
    + intros σ' Hst. inversion Hst as [? ? n t sh' t' Hn Ht E1 E2]. subst sh ts. destruct n as [|n]; [|discriminate Hn].
      injection Hn as <-. discriminate Ht.
    + apply Hs. eexists. split; [apply list_elem_of_here|discriminate].
Defined.
End Demo.
