(* ===== verification/Syscall.v ===== *)
(** * System calls (src/kernel/syscall.c, src/kernel/sysproc.c)

    The arguments of a system call, fetched from the trapframe of the running
    thread, the system calls on processes, and the dispatch.  The file-system
    calls of sysfile.c are the interface [SysFile].  A system call takes as
    fuel the number of times it may be woken from [sleep]. *)

From S2P Require Import Prelude Mem Riscv Kalloc Vm Uvm Pagetable Kstate Spinlock.
From S2P Require Import Proc Process Signal Kthread Bsem.

Class SysFile (F : Type) := {
  sys_pipe : K F Z;
  sys_read : K F Z;
  sys_exec : K F Z;
  sys_fstat : K F Z;
  sys_chdir : K F Z;
  sys_dup : K F Z;
  sys_open : K F Z;
  sys_write : K F Z;
  sys_mknod : K F Z;
  sys_unlink : K F Z;
  sys_link : K F Z;
  sys_mkdir : K F Z;
  sys_close : K F Z
}.

Section Syscall.
Context {F : Type} `{KernelSymbols} `{FileSys F} `{SysFile F}.

(** ** Arguments *)

(** the result, and the word stored through [ip] *)
Definition fetchaddr (addr : Z) : K F (Z * Z) :=
  let* i := myproc' in
  let* p := getp i in
  if (p_sz p <=? addr) || (p_sz p <? u64 (addr + 8)) then ret (-1, 0)
  else
    let* '(r, bs) := mach (copyin (p_pagetable p) addr 8) in
    if negb (r =? 0) then ret (-1, le_combine bs) else ret (0, le_combine bs).

(** the result, and the bytes stored at [buf] *)
Definition fetchstr (addr max : Z) : K F (Z * list byte) :=
  let* i := myproc' in
  let* p := getp i in
  let* '(err, bs) := mach (copyinstr (p_pagetable p) addr max) in
  if err <? 0 then ret (err, bs)
  else
    match strlen (Z.to_nat max) 0 (stbytes 0 bs ∅) with
    | Some n => ret (n, bs)
    | None => out_of_bounds
    end.

Definition argraw (n : Z) : K F Z :=
  let* '(ti, tj) := mythread' in
  let* t := gett ti tj in
  match n with
  | 0 => tf_get (t_trapframe t) TF_A0
  | 1 => tf_get (t_trapframe t) TF_A1
  | 2 => tf_get (t_trapframe t) TF_A2
  | 3 => tf_get (t_trapframe t) TF_A3
  | 4 => tf_get (t_trapframe t) TF_A4
  | 5 => tf_get (t_trapframe t) TF_A5
  | _ => panic "argraw"
  end.
(** both always return 0: the result is the value stored through [ip] *)
Definition argint (n : Z) : K F Z := let* v := argraw n in ret (i32 v).
Definition argaddr (n : Z) : K F Z := argraw n.
Definition argstr (n max : Z) : K F (Z * list byte) :=
  let* addr := argaddr n in
  fetchstr addr max.

(** ** sysproc.c *)

Definition sys_exit : K F Z :=
  let* n := argint 0 in
  exit n.
Definition sys_sigprocmask : K F Z :=
  let* newmask := argint 0 in
  sigprocmask (u32 newmask).
Definition sys_sigaction (kact0 : list byte) : K F Z :=
  let* signum := argint 0 in
  let* act := argaddr 1 in
  let* oldact := argaddr 2 in
  let* r := sigaction kact0 signum act oldact in
  ret (u64 r).
Definition sys_sigret : K F Z := sigret ;;; ret 0.
Definition sys_getpid : K F Z :=
  let* i := myproc' in
  let* p := getp i in
  ret (u64 (p_pid p)).
Definition sys_fork : K F Z := let* r := fork in ret (u64 r).
Definition sys_wait (fuel : nat) : K F Z :=
  let* p := argaddr 0 in
  let* r := wait fuel p in
  ret (u64 r).
Definition sys_sbrk : K F Z :=
  let* n := argint 0 in
  let* i := myproc' in
  let* p := getp i in
  let addr := i32 (p_sz p) in
  let* r := growproc n in
  if r <? 0 then ret (u64 (-1)) else ret (u64 addr).

(** one test of the loop [while(ticks - ticks0 < n)], on unsigned integers *)
Definition sys_sleep_body (n ticks0 : Z) : K F (unit + Z) :=
  let* ticks := gets k_ticks in
  if u32 (ticks - ticks0) <? u32 n then
    let* i := myproc' in
    let* p := getp i in
    if negb (p_killed p =? 0) then
      release LkTicks ;;;
      ret (inr (u64 (-1)))
    else
      sleep ChTicks LkTicks ;;;
      ret (inl tt)
  else
    release LkTicks ;;;
    ret (inr 0).
Definition sys_sleep (fuel : nat) : K F Z :=
  let* n := argint 0 in
  acquire LkTicks ;;;
  let* ticks0 := gets k_ticks in
  iterate fuel (λ _, sys_sleep_body n ticks0) tt.

Definition sys_kill : K F Z :=
  let* pid := argint 0 in
  let* signum := argint 1 in
  let* r := kill pid signum in
  ret (u64 r).
Definition sys_uptime : K F Z :=
  acquire LkTicks ;;;
  let* xticks := gets k_ticks in
  release LkTicks ;;;
  ret xticks.
Definition sys_kthread_create : K F Z :=
  let* start_func := argaddr 0 in
  let* stack := argaddr 1 in
  let* r := kthread_create start_func stack in
  ret (u64 r).
Definition sys_kthread_id : K F Z := let* r := kthread_id in ret (u64 r).
Definition sys_kthread_exit : K F Z :=
  let* status := argint 0 in
  kthread_exit status.
Definition sys_kthread_join (fuel : nat) : K F Z :=
  let* id := argint 0 in
  let* status := argaddr 1 in
  let* r := kthread_join fuel id status in
  ret (u64 r).
Definition sys_bsem_alloc : K F Z := let* r := bsem_alloc in ret (u64 r).
Definition sys_bsem_free : K F Z :=
  let* bid := argint 0 in
  bsem_free bid ;;;
  ret 0.
Definition sys_bsem_down (fuel : nat) : K F Z :=
  let* bid := argint 0 in
  bsem_down fuel bid ;;;
  ret 0.
Definition sys_bsem_up : K F Z :=
  let* bid := argint 0 in
  bsem_up bid ;;;
  ret 0.

(** ** Dispatch *)

Definition syscalls (fuel : nat) (kact0 : list byte) : list (option (K F Z)) :=
  [None;
   Some sys_fork; Some sys_exit; Some (sys_wait fuel); Some sys_pipe; Some sys_read; Some sys_kill;
   Some sys_exec; Some sys_fstat; Some sys_chdir; Some sys_dup; Some sys_getpid; Some sys_sbrk;
   Some (sys_sleep fuel); Some sys_uptime; Some sys_open; Some sys_write; Some sys_mknod;
   Some sys_unlink; Some sys_link; Some sys_mkdir; Some sys_close; Some sys_sigprocmask;
   Some (sys_sigaction kact0); Some sys_sigret; Some sys_kthread_create; Some sys_kthread_id;
   Some sys_kthread_exit; Some (sys_kthread_join fuel); Some sys_bsem_alloc; Some sys_bsem_free;
   Some (sys_bsem_down fuel); Some sys_bsem_up].

Definition syscall (fuel : nat) (kact0 : list byte) : K F unit :=
  let* '(ti, tj) := mythread' in
  let* t := gett ti tj in
  let* a7 := tf_get (t_trapframe t) TF_A7 in
  let num := i32 a7 in
  match (if 0 <? num then mjoin (syscalls fuel kact0 !! Z.to_nat num) else None) with
  | Some call =>
      let* a0 := call in
      let* t := gett ti tj in
      tf_set (t_trapframe t) TF_A0 a0
  | None => tf_set (t_trapframe t) TF_A0 (u64 (-1))
  end.
End Syscall.
