(* ===== verification/Trap.v ===== *)
(** * Traps (src/kernel/trap.c, forkret of src/kernel/proc.c)

    What the kernel does on a trap from user space and on the way back.  The
    control registers that the hardware sets on a trap are arguments.  The
    device interrupt handlers are the interface [Devices].  [usertrapret] ends
    with the arguments of the trampoline's [userret]. *)

From S2P Require Import Prelude Mem Riscv Kalloc Vm Uvm Pagetable Kstate Spinlock.
From S2P Require Import Proc Process Signal Kthread Bsem Syscall.

(** Registers of the hart that the code only reads, and [usertrap] as a code
    address. *)
Class Csr := {
  r_satp : Z;
  r_tp : Z;
  sym_usertrap : Z
}.

Class Devices (F : Type) := {
  plic_claim : K F Z;
  plic_complete : Z → K F unit;
  uartintr : K F unit;
  virtio_disk_intr : K F unit
}.

Definition UART0_IRQ : Z := 10.
Definition VIRTIO0_IRQ : Z := 1.
Definition MAKE_SATP (pagetable : Z) : Z := Z.lor (Z.shiftl 8 60) (Z.shiftr pagetable 12).

(** what [sret] in the trampoline goes to: the arguments of [userret], and sepc *)
Record userret := mkUserret {
  ur_trapframe : Z;
  ur_satp : Z;
  ur_sepc : Z
}.

Section Trap.
Context {F : Type} `{KernelSymbols} `{FileSys F} `{SysFile F} `{Csr} `{Devices F}.

Definition clockintr : K F unit :=
  acquire LkTicks ;;;
  modify (λ s, s <| k_ticks ::= λ t, u32 (t + 1) |>) ;;;
  wakeup (Some ChTicks) ;;;
  release LkTicks.

Definition devintr (scause : Z) : K F Z :=
  if negb (Z.land scause 0x8000000000000000 =? 0) && (Z.land scause 0xff =? 9) then
    let* irq := plic_claim in
    (if irq =? UART0_IRQ then uartintr
     else when (irq =? VIRTIO0_IRQ) virtio_disk_intr) ;;;
    when (negb (irq =? 0)) (plic_complete irq) ;;;
    ret 1
  else if scause =? 0x8000000000000001 then
    when (r_tp =? 0) clockintr ;;;
    ret 2
  else ret 0.

Definition usertrapret (fuel : nat) : K F userret :=
  let* i := myproc' in
  let* '(ti, tj) := mythread' in
  let* p := getp i in
  when (p_signal_handling_flag p =? 0)
    (let* sig := handle_pendding_sinals fuel in
     when (negb (sig =? -1)) (userhandler (Z.to_nat sig))) ;;;
  intr_off ;;;
  let* t := gett ti tj in
  let tf := t_trapframe t in
  tf_set tf TF_KERNEL_SATP r_satp ;;;
  tf_set tf TF_KERNEL_SP (u64 (t_kstack t + PGSIZE)) ;;;
  tf_set tf TF_KERNEL_TRAP sym_usertrap ;;;
  tf_set tf TF_KERNEL_HARTID r_tp ;;;
  let* epc := tf_get tf TF_EPC in
  let* p := getp i in
  ret (mkUserret (TRAPFRAME + TF_SIZE * Z.of_nat tj) (MAKE_SATP (p_pagetable p)) epc).

(** [exit] when the process is killed, [kthread_exit] when the thread is *)
Definition die_if_killed (i ti tj : nat) : K F unit :=
  let* p := getp i in
  when (negb (p_killed p =? 0)) (exit (-1)) ;;;
  let* t := gett ti tj in
  when (negb (t_killed t =? 0)) (kthread_exit (-1)).

Definition usertrap (fuel : nat) (kact0 : list byte) (spp : bool) (scause sepc : Z) : K F userret :=
  if spp then panic "usertrap: not from user mode"
  else
    let* i := myproc' in
    let* '(ti, tj) := mythread' in
    let* t := gett ti tj in
    tf_set (t_trapframe t) TF_EPC sepc ;;;
    let* which_dev :=
      if scause =? 8 then
        die_if_killed i ti tj ;;;
        let* t := gett ti tj in
        let* epc := tf_get (t_trapframe t) TF_EPC in
        tf_set (t_trapframe t) TF_EPC (u64 (epc + 4)) ;;;
        intr_on ;;;
        syscall fuel kact0 ;;;
        ret 0
      else
        let* which_dev := devintr scause in
        when (which_dev =? 0)
          (setp i (λ p, p <| p_killed := 1 |>) ;;;
           sett ti tj (λ t, t <| t_killed := 1 |>)) ;;;
        ret which_dev in
    die_if_killed i ti tj ;;;
    when (which_dev =? 2) yield ;;;
    usertrapret fuel.

Definition kerneltrap (spp : bool) (scause : Z) : K F unit :=
  if negb spp then panic "kerneltrap: not from supervisor mode"
  else
    let* intr := intr_get in
    if intr then panic "kerneltrap: interrupts enabled"
    else
      let* which_dev := devintr scause in
      if which_dev =? 0 then panic "kerneltrap"
      else
        when (which_dev =? 2)
          (let* me := mythread in
           match me with
           | None => ret tt
           | Some _ =>
               let* '(ti, tj) := mythread' in
               let* t := gett ti tj in
               when (bool_decide (t_state t = RUNNING)) yield
           end).

Definition forkret (fuel : nat) : K F userret :=
  let* i := myproc' in
  release (LkProc i) ;;;
  let* first := gets k_first in
  when first
    (modify (λ s, s <| k_first := false |>) ;;;
     fsinit ROOTDEV) ;;;
  usertrapret fuel.
End Trap.
