(* ===== verification/FsState.v ===== *)
(** * The state of the file system

    The data of src/kernel/{buf,fs,file,stat}.h and of the globals of bio.c,
    log.c, fs.c, file.c, pipe.c and console.c, and the monad in which the file
    system runs.  Its state is the file system together with RAM and the page
    allocator.  The critical sections of the spinlocks bcache.lock, log.lock,
    itable.lock and ftable.lock do not sleep except where the code calls
    [sleep], so each is one atomic step.  The code hands over control when it
    sleeps, wakes up others, or has written a block to the disk. *)

From S2P Require Import Prelude Mem Riscv Kalloc Vm Kstate.

(** ** Parameters (param.h, fs.h) *)

Definition NFILE : nat := 100.
Definition NINODE : nat := 50.
Definition NDEV : Z := 10.
Definition MAXARG : nat := 32.
Definition MAXOPBLOCKS : Z := 10.
Definition LOGSIZE : Z := MAXOPBLOCKS * 3.
Definition NBUF : nat := 30.
Definition MAXPATH : Z := 128.
Definition ROOTINO : Z := 1.
Definition BSIZE : Z := 1024.
Definition FSMAGIC : Z := 0x10203040.
Definition NDIRECT : Z := 12.
Definition NINDIRECT : Z := BSIZE / 4.
Definition MAXFILE : Z := NDIRECT + NINDIRECT.
Definition PIPESIZE : Z := 512.
Definition INPUT_BUF : Z := 128.

(** ** Blocks as byte arrays *)

(** [n] bytes at offset [off] *)
Definition subbytes (off n : nat) (bs : list byte) : list byte := take n (drop off bs).
(** the array [bs] with [new] stored at offset [off] *)
Definition splice (off : nat) (new bs : list byte) : list byte :=
  take off bs ++ new ++ drop (off + length new) bs.
Definition rd8 (off : nat) (bs : list byte) : Z := le_combine (subbytes off 1 bs).
Definition rd16 (off : nat) (bs : list byte) : Z := le_combine (subbytes off 2 bs).
Definition rd32 (off : nat) (bs : list byte) : Z := le_combine (subbytes off 4 bs).
Definition rd64 (off : nat) (bs : list byte) : Z := le_combine (subbytes off 8 bs).
Definition wr8 (off : nat) (v : Z) (bs : list byte) : list byte := splice off (le_split 1 v) bs.
Definition wr16 (off : nat) (v : Z) (bs : list byte) : list byte := splice off (le_split 2 v) bs.
Definition wr32 (off : nat) (v : Z) (bs : list byte) : list byte := splice off (le_split 4 v) bs.
(** *** Stores do not overlap *)

Lemma length_splice off new bs : (off + length new ≤ length bs)%nat → length (splice off new bs) = length bs.
Proof. intros. unfold splice. rewrite !length_app, length_take, length_drop. lia. Qed.

Lemma lookup_splice off new bs i : (off + length new ≤ length bs)%nat →
  splice off new bs !! i = if decide (off ≤ i < off + length new)%nat then new !! (i - off)%nat else bs !! i.
Proof.
  intros Hle. unfold splice. assert (Ht : length (take off bs) = off) by (rewrite length_take; lia). case_decide.
  - rewrite lookup_app_r by lia. rewrite Ht, lookup_app_l by lia. done.
  - destruct (decide (i < off)%nat).
    + rewrite lookup_app_l by lia. by rewrite lookup_take_lt.
    + rewrite lookup_app_r by lia. rewrite Ht, lookup_app_r by lia. rewrite lookup_drop. f_equal. lia.
Qed.

Lemma lookup_subbytes off n bs i : subbytes off n bs !! i = if decide (i < n)%nat then bs !! (off + i)%nat else None.
Proof.
  unfold subbytes. case_decide.
  - by rewrite lookup_take_lt, lookup_drop by done.
  - by rewrite lookup_take_ge by lia.
Qed.

Lemma subbytes_splice_same off new bs : (off + length new ≤ length bs)%nat → subbytes off (length new) (splice off new bs) = new.
Proof.
  intros Hle. apply list_eq. intros i. rewrite lookup_subbytes. case_decide.
  - rewrite lookup_splice by done. rewrite decide_True by lia. f_equal. lia.
  - symmetry. apply lookup_ge_None. lia.
Qed.

Lemma subbytes_splice_ne off off' n new bs :
  (off + length new ≤ length bs)%nat → (off' + n ≤ off ∨ off + length new ≤ off')%nat →
  subbytes off' n (splice off new bs) = subbytes off' n bs.
Proof.
  intros Hle Hd. apply list_eq. intros i. rewrite !lookup_subbytes. case_decide; [|done].
  rewrite lookup_splice by done. by rewrite decide_False by lia.
Qed.

Lemma length_wr32 off v bs : (off + 4 ≤ length bs)%nat → length (wr32 off v bs) = length bs.
Proof. intros. apply length_splice. by rewrite length_le_split. Qed.
Lemma rd32_wr32_same off v bs : (off + 4 ≤ length bs)%nat → rd32 off (wr32 off v bs) = u32 v.
Proof.
  intros Hle. unfold rd32, wr32. rewrite <- (length_le_split 4 v) at 1.
  rewrite subbytes_splice_same by (by rewrite length_le_split). by rewrite le_combine_split.
Qed.
Lemma rd32_wr32_ne off off' v bs :
  (off + 4 ≤ length bs)%nat → (off' + 4 ≤ off ∨ off + 4 ≤ off')%nat → rd32 off' (wr32 off v bs) = rd32 off' bs.
Proof. intros. unfold rd32, wr32. by rewrite subbytes_splice_ne by (by rewrite length_le_split). Qed.

(** conversion to [short] *)
Definition i16 (z : Z) : Z := (z + 2 ^ 15) mod 2 ^ 16 - 2 ^ 15.

(** ** Records *)

Record sleeplock := mkSleeplock {
  sl_locked : bool;
  sl_pid : Z  (* thread that holds it *)
}.
#[export] Instance set_sl_locked : Setter sl_locked := λ f r,
  mkSleeplock (f (sl_locked r)) (sl_pid r).
#[export] Instance set_sl_pid : Setter sl_pid := λ f r,
  mkSleeplock (sl_locked r) (f (sl_pid r)).

Record buf := mkBuf {
  b_valid : bool;
  b_dev : Z;
  b_blockno : Z;
  b_lock : sleeplock;
  b_refcnt : Z;
  b_data : list byte
}.
#[export] Instance set_b_valid : Setter b_valid := λ f r,
  mkBuf (f (b_valid r)) (b_dev r) (b_blockno r) (b_lock r) (b_refcnt r) (b_data r).
#[export] Instance set_b_dev : Setter b_dev := λ f r,
  mkBuf (b_valid r) (f (b_dev r)) (b_blockno r) (b_lock r) (b_refcnt r) (b_data r).
#[export] Instance set_b_blockno : Setter b_blockno := λ f r,
  mkBuf (b_valid r) (b_dev r) (f (b_blockno r)) (b_lock r) (b_refcnt r) (b_data r).
#[export] Instance set_b_lock : Setter b_lock := λ f r,
  mkBuf (b_valid r) (b_dev r) (b_blockno r) (f (b_lock r)) (b_refcnt r) (b_data r).
#[export] Instance set_b_refcnt : Setter b_refcnt := λ f r,
  mkBuf (b_valid r) (b_dev r) (b_blockno r) (b_lock r) (f (b_refcnt r)) (b_data r).
#[export] Instance set_b_data : Setter b_data := λ f r,
  mkBuf (b_valid r) (b_dev r) (b_blockno r) (b_lock r) (b_refcnt r) (f (b_data r)).

(** struct log, with its logheader *)
Record logstate := mkLog {
  l_start : Z;
  l_size : Z;
  l_outstanding : Z;
  l_committing : bool;
  l_dev : Z;
  l_block : list Z  (* lh.block[0 .. lh.n-1] *)
}.
#[export] Instance set_l_start : Setter l_start := λ f r,
  mkLog (f (l_start r)) (l_size r) (l_outstanding r) (l_committing r) (l_dev r) (l_block r).
#[export] Instance set_l_size : Setter l_size := λ f r,
  mkLog (l_start r) (f (l_size r)) (l_outstanding r) (l_committing r) (l_dev r) (l_block r).
#[export] Instance set_l_outstanding : Setter l_outstanding := λ f r,
  mkLog (l_start r) (l_size r) (f (l_outstanding r)) (l_committing r) (l_dev r) (l_block r).
#[export] Instance set_l_committing : Setter l_committing := λ f r,
  mkLog (l_start r) (l_size r) (l_outstanding r) (f (l_committing r)) (l_dev r) (l_block r).
#[export] Instance set_l_dev : Setter l_dev := λ f r,
  mkLog (l_start r) (l_size r) (l_outstanding r) (l_committing r) (f (l_dev r)) (l_block r).
#[export] Instance set_l_block : Setter l_block := λ f r,
  mkLog (l_start r) (l_size r) (l_outstanding r) (l_committing r) (l_dev r) (f (l_block r)).

Record superblock := mkSuper {
  sb_magic : Z;
  sb_size : Z;
  sb_nblocks : Z;
  sb_ninodes : Z;
  sb_nlog : Z;
  sb_logstart : Z;
  sb_inodestart : Z;
  sb_bmapstart : Z
}.
#[export] Instance set_sb_magic : Setter sb_magic := λ f r,
  mkSuper (f (sb_magic r)) (sb_size r) (sb_nblocks r) (sb_ninodes r) (sb_nlog r) (sb_logstart r)
    (sb_inodestart r) (sb_bmapstart r).
#[export] Instance set_sb_size : Setter sb_size := λ f r,
  mkSuper (sb_magic r) (f (sb_size r)) (sb_nblocks r) (sb_ninodes r) (sb_nlog r) (sb_logstart r)
    (sb_inodestart r) (sb_bmapstart r).
#[export] Instance set_sb_nblocks : Setter sb_nblocks := λ f r,
  mkSuper (sb_magic r) (sb_size r) (f (sb_nblocks r)) (sb_ninodes r) (sb_nlog r) (sb_logstart r)
    (sb_inodestart r) (sb_bmapstart r).
#[export] Instance set_sb_ninodes : Setter sb_ninodes := λ f r,
  mkSuper (sb_magic r) (sb_size r) (sb_nblocks r) (f (sb_ninodes r)) (sb_nlog r) (sb_logstart r)
    (sb_inodestart r) (sb_bmapstart r).
#[export] Instance set_sb_nlog : Setter sb_nlog := λ f r,
  mkSuper (sb_magic r) (sb_size r) (sb_nblocks r) (sb_ninodes r) (f (sb_nlog r)) (sb_logstart r)
    (sb_inodestart r) (sb_bmapstart r).
#[export] Instance set_sb_logstart : Setter sb_logstart := λ f r,
  mkSuper (sb_magic r) (sb_size r) (sb_nblocks r) (sb_ninodes r) (sb_nlog r) (f (sb_logstart r))
    (sb_inodestart r) (sb_bmapstart r).
#[export] Instance set_sb_inodestart : Setter sb_inodestart := λ f r,
  mkSuper (sb_magic r) (sb_size r) (sb_nblocks r) (sb_ninodes r) (sb_nlog r) (sb_logstart r) (f
    (sb_inodestart r)) (sb_bmapstart r).
#[export] Instance set_sb_bmapstart : Setter sb_bmapstart := λ f r,
  mkSuper (sb_magic r) (sb_size r) (sb_nblocks r) (sb_ninodes r) (sb_nlog r) (sb_logstart r)
    (sb_inodestart r) (f (sb_bmapstart r)).

Record inode := mkInode {
  i_dev : Z;
  i_inum : Z;
  i_ref : Z;
  i_lock : sleeplock;
  i_valid : bool;
  i_type : Z;
  i_major : Z;
  i_minor : Z;
  i_nlink : Z;
  i_size : Z;
  i_addrs : list Z  (* NDIRECT+1 block numbers *)
}.
#[export] Instance set_i_dev : Setter i_dev := λ f r,
  mkInode (f (i_dev r)) (i_inum r) (i_ref r) (i_lock r) (i_valid r) (i_type r) (i_major r)
    (i_minor r) (i_nlink r) (i_size r) (i_addrs r).
#[export] Instance set_i_inum : Setter i_inum := λ f r,
  mkInode (i_dev r) (f (i_inum r)) (i_ref r) (i_lock r) (i_valid r) (i_type r) (i_major r)
    (i_minor r) (i_nlink r) (i_size r) (i_addrs r).
#[export] Instance set_i_ref : Setter i_ref := λ f r,
  mkInode (i_dev r) (i_inum r) (f (i_ref r)) (i_lock r) (i_valid r) (i_type r) (i_major r)
    (i_minor r) (i_nlink r) (i_size r) (i_addrs r).
#[export] Instance set_i_lock : Setter i_lock := λ f r,
  mkInode (i_dev r) (i_inum r) (i_ref r) (f (i_lock r)) (i_valid r) (i_type r) (i_major r)
    (i_minor r) (i_nlink r) (i_size r) (i_addrs r).
#[export] Instance set_i_valid : Setter i_valid := λ f r,
  mkInode (i_dev r) (i_inum r) (i_ref r) (i_lock r) (f (i_valid r)) (i_type r) (i_major r)
    (i_minor r) (i_nlink r) (i_size r) (i_addrs r).
#[export] Instance set_i_type : Setter i_type := λ f r,
  mkInode (i_dev r) (i_inum r) (i_ref r) (i_lock r) (i_valid r) (f (i_type r)) (i_major r)
    (i_minor r) (i_nlink r) (i_size r) (i_addrs r).
#[export] Instance set_i_major : Setter i_major := λ f r,
  mkInode (i_dev r) (i_inum r) (i_ref r) (i_lock r) (i_valid r) (i_type r) (f (i_major r))
    (i_minor r) (i_nlink r) (i_size r) (i_addrs r).
#[export] Instance set_i_minor : Setter i_minor := λ f r,
  mkInode (i_dev r) (i_inum r) (i_ref r) (i_lock r) (i_valid r) (i_type r) (i_major r) (f
    (i_minor r)) (i_nlink r) (i_size r) (i_addrs r).
#[export] Instance set_i_nlink : Setter i_nlink := λ f r,
  mkInode (i_dev r) (i_inum r) (i_ref r) (i_lock r) (i_valid r) (i_type r) (i_major r) (i_minor
    r) (f (i_nlink r)) (i_size r) (i_addrs r).
#[export] Instance set_i_size : Setter i_size := λ f r,
  mkInode (i_dev r) (i_inum r) (i_ref r) (i_lock r) (i_valid r) (i_type r) (i_major r) (i_minor
    r) (i_nlink r) (f (i_size r)) (i_addrs r).
#[export] Instance set_i_addrs : Setter i_addrs := λ f r,
  mkInode (i_dev r) (i_inum r) (i_ref r) (i_lock r) (i_valid r) (i_type r) (i_major r) (i_minor
    r) (i_nlink r) (i_size r) (f (i_addrs r)).

Inductive ftype := FD_NONE | FD_PIPE | FD_INODE | FD_DEVICE.
#[export] Instance ftype_eq_dec : EqDecision ftype.
Proof. solve_decision. Defined.

Record file := mkFile {
  f_type : ftype;
  f_ref : Z;
  f_readable : bool;
  f_writable : bool;
  f_pipe : Z;  (* address of the struct pipe *)
  f_ip : nat;  (* index in the inode table *)
  f_off : Z;
  f_major : Z
}.
#[export] Instance set_f_type : Setter f_type := λ f r,
  mkFile (f (f_type r)) (f_ref r) (f_readable r) (f_writable r) (f_pipe r) (f_ip r) (f_off r)
    (f_major r).
#[export] Instance set_f_ref : Setter f_ref := λ f r,
  mkFile (f_type r) (f (f_ref r)) (f_readable r) (f_writable r) (f_pipe r) (f_ip r) (f_off r)
    (f_major r).
#[export] Instance set_f_readable : Setter f_readable := λ f r,
  mkFile (f_type r) (f_ref r) (f (f_readable r)) (f_writable r) (f_pipe r) (f_ip r) (f_off r)
    (f_major r).
#[export] Instance set_f_writable : Setter f_writable := λ f r,
  mkFile (f_type r) (f_ref r) (f_readable r) (f (f_writable r)) (f_pipe r) (f_ip r) (f_off r)
    (f_major r).
#[export] Instance set_f_pipe : Setter f_pipe := λ f r,
  mkFile (f_type r) (f_ref r) (f_readable r) (f_writable r) (f (f_pipe r)) (f_ip r) (f_off r)
    (f_major r).
#[export] Instance set_f_ip : Setter f_ip := λ f r,
  mkFile (f_type r) (f_ref r) (f_readable r) (f_writable r) (f_pipe r) (f (f_ip r)) (f_off r)
    (f_major r).
#[export] Instance set_f_off : Setter f_off := λ f r,
  mkFile (f_type r) (f_ref r) (f_readable r) (f_writable r) (f_pipe r) (f_ip r) (f (f_off r))
    (f_major r).
#[export] Instance set_f_major : Setter f_major := λ f r,
  mkFile (f_type r) (f_ref r) (f_readable r) (f_writable r) (f_pipe r) (f_ip r) (f_off r) (f
    (f_major r)).

Record pipe := mkPipe {
  pi_data : list byte;
  pi_nread : Z;
  pi_nwrite : Z;
  pi_readopen : Z;
  pi_writeopen : Z
}.
#[export] Instance set_pi_data : Setter pi_data := λ f r,
  mkPipe (f (pi_data r)) (pi_nread r) (pi_nwrite r) (pi_readopen r) (pi_writeopen r).
#[export] Instance set_pi_nread : Setter pi_nread := λ f r,
  mkPipe (pi_data r) (f (pi_nread r)) (pi_nwrite r) (pi_readopen r) (pi_writeopen r).
#[export] Instance set_pi_nwrite : Setter pi_nwrite := λ f r,
  mkPipe (pi_data r) (pi_nread r) (f (pi_nwrite r)) (pi_readopen r) (pi_writeopen r).
#[export] Instance set_pi_readopen : Setter pi_readopen := λ f r,
  mkPipe (pi_data r) (pi_nread r) (pi_nwrite r) (f (pi_readopen r)) (pi_writeopen r).
#[export] Instance set_pi_writeopen : Setter pi_writeopen := λ f r,
  mkPipe (pi_data r) (pi_nread r) (pi_nwrite r) (pi_readopen r) (f (pi_writeopen r)).

Record console := mkConsole {
  c_buf : list byte;
  c_r : Z;
  c_w : Z;
  c_e : Z
}.
#[export] Instance set_c_buf : Setter c_buf := λ f r,
  mkConsole (f (c_buf r)) (c_r r) (c_w r) (c_e r).
#[export] Instance set_c_r : Setter c_r := λ f r,
  mkConsole (c_buf r) (f (c_r r)) (c_w r) (c_e r).
#[export] Instance set_c_w : Setter c_w := λ f r,
  mkConsole (c_buf r) (c_r r) (f (c_w r)) (c_e r).
#[export] Instance set_c_e : Setter c_e := λ f r,
  mkConsole (c_buf r) (c_r r) (c_w r) (f (c_e r)).

(** The transmit buffer of uart.c and the device: the values that the next
    reads of LSR and RHR deliver, and what was written to THR, last first. *)
Record uart := mkUart {
  u_buf : list byte;
  u_w : Z;
  u_r : Z;
  u_lsr : list Z;
  u_rhr : list Z;
  u_thr : list Z
}.
#[export] Instance set_u_buf : Setter u_buf := λ f r,
  mkUart (f (u_buf r)) (u_w r) (u_r r) (u_lsr r) (u_rhr r) (u_thr r).
#[export] Instance set_u_w : Setter u_w := λ f r,
  mkUart (u_buf r) (f (u_w r)) (u_r r) (u_lsr r) (u_rhr r) (u_thr r).
#[export] Instance set_u_r : Setter u_r := λ f r,
  mkUart (u_buf r) (u_w r) (f (u_r r)) (u_lsr r) (u_rhr r) (u_thr r).
#[export] Instance set_u_lsr : Setter u_lsr := λ f r,
  mkUart (u_buf r) (u_w r) (u_r r) (f (u_lsr r)) (u_rhr r) (u_thr r).
#[export] Instance set_u_rhr : Setter u_rhr := λ f r,
  mkUart (u_buf r) (u_w r) (u_r r) (u_lsr r) (f (u_rhr r)) (u_thr r).
#[export] Instance set_u_thr : Setter u_thr := λ f r,
  mkUart (u_buf r) (u_w r) (u_r r) (u_lsr r) (u_rhr r) (f (u_thr r)).

(** the functions that devsw[] can point to *)
Inductive device := DevConsole.

(** the file system: a disk, the buffer cache with its list from the most to
    the least recently used buffer, and the tables *)
Record fsys := mkFsys {
  f_disk : gmap Z (list byte);  (* blocks of the disk *)
  f_bufs : list buf;
  f_lru : list nat;
  f_log : logstate;
  f_sb : superblock;
  f_itable : list inode;
  f_ftable : list file;
  f_pipes : gmap Z pipe;  (* by address *)
  f_devsw : gmap Z device;
  f_cons : console;
  f_uart : uart;
  f_pr_locking : bool  (* pr.locking *)
}.
#[export] Instance set_f_disk : Setter f_disk := λ f r,
  mkFsys (f (f_disk r)) (f_bufs r) (f_lru r) (f_log r) (f_sb r) (f_itable r) (f_ftable r)
    (f_pipes r) (f_devsw r) (f_cons r) (f_uart r) (f_pr_locking r).
#[export] Instance set_f_bufs : Setter f_bufs := λ f r,
  mkFsys (f_disk r) (f (f_bufs r)) (f_lru r) (f_log r) (f_sb r) (f_itable r) (f_ftable r)
    (f_pipes r) (f_devsw r) (f_cons r) (f_uart r) (f_pr_locking r).
#[export] Instance set_f_lru : Setter f_lru := λ f r,
  mkFsys (f_disk r) (f_bufs r) (f (f_lru r)) (f_log r) (f_sb r) (f_itable r) (f_ftable r)
    (f_pipes r) (f_devsw r) (f_cons r) (f_uart r) (f_pr_locking r).
#[export] Instance set_f_log : Setter f_log := λ f r,
  mkFsys (f_disk r) (f_bufs r) (f_lru r) (f (f_log r)) (f_sb r) (f_itable r) (f_ftable r)
    (f_pipes r) (f_devsw r) (f_cons r) (f_uart r) (f_pr_locking r).
#[export] Instance set_f_sb : Setter f_sb := λ f r,
  mkFsys (f_disk r) (f_bufs r) (f_lru r) (f_log r) (f (f_sb r)) (f_itable r) (f_ftable r)
    (f_pipes r) (f_devsw r) (f_cons r) (f_uart r) (f_pr_locking r).
#[export] Instance set_f_itable : Setter f_itable := λ f r,
  mkFsys (f_disk r) (f_bufs r) (f_lru r) (f_log r) (f_sb r) (f (f_itable r)) (f_ftable r)
    (f_pipes r) (f_devsw r) (f_cons r) (f_uart r) (f_pr_locking r).
#[export] Instance set_f_ftable : Setter f_ftable := λ f r,
  mkFsys (f_disk r) (f_bufs r) (f_lru r) (f_log r) (f_sb r) (f_itable r) (f (f_ftable r))
    (f_pipes r) (f_devsw r) (f_cons r) (f_uart r) (f_pr_locking r).
#[export] Instance set_f_pipes : Setter f_pipes := λ f r,
  mkFsys (f_disk r) (f_bufs r) (f_lru r) (f_log r) (f_sb r) (f_itable r) (f_ftable r) (f
    (f_pipes r)) (f_devsw r) (f_cons r) (f_uart r) (f_pr_locking r).
#[export] Instance set_f_devsw : Setter f_devsw := λ f r,
  mkFsys (f_disk r) (f_bufs r) (f_lru r) (f_log r) (f_sb r) (f_itable r) (f_ftable r) (f_pipes
    r) (f (f_devsw r)) (f_cons r) (f_uart r) (f_pr_locking r).
#[export] Instance set_f_cons : Setter f_cons := λ f r,
  mkFsys (f_disk r) (f_bufs r) (f_lru r) (f_log r) (f_sb r) (f_itable r) (f_ftable r) (f_pipes
    r) (f_devsw r) (f (f_cons r)) (f_uart r) (f_pr_locking r).
#[export] Instance set_f_uart : Setter f_uart := λ f r,
  mkFsys (f_disk r) (f_bufs r) (f_lru r) (f_log r) (f_sb r) (f_itable r) (f_ftable r) (f_pipes
    r) (f_devsw r) (f_cons r) (f (f_uart r)) (f_pr_locking r).
#[export] Instance set_f_pr_locking : Setter f_pr_locking := λ f r,
  mkFsys (f_disk r) (f_bufs r) (f_lru r) (f_log r) (f_sb r) (f_itable r) (f_ftable r) (f_pipes
    r) (f_devsw r) (f_cons r) (f_uart r) (f (f_pr_locking r)).

(** the state of a file-system run *)
Record world := mkWorld {
  w_mach : machine;
  w_fs : fsys
}.
#[export] Instance set_w_mach : Setter w_mach := λ f r,
  mkWorld (f (w_mach r)) (w_fs r).
#[export] Instance set_w_fs : Setter w_fs := λ f r,
  mkWorld (w_mach r) (f (w_fs r)).

#[export] Instance sleeplock_inhabited : Inhabited sleeplock := populate (mkSleeplock false 0).
#[export] Instance buf_inhabited : Inhabited buf := populate (mkBuf false 0 0 inhabitant 0 []).
#[export] Instance inode_inhabited : Inhabited inode :=
  populate (mkInode 0 0 0 inhabitant false 0 0 0 0 0 []).
#[export] Instance file_inhabited : Inhabited file := populate (mkFile FD_NONE 0 false false 0 0 0 0).
#[export] Instance pipe_inhabited : Inhabited pipe := populate (mkPipe [] 0 0 0 0).

(** ** Runs *)

(** [sleep(ch, lk)], [wakeup(ch)], and a block has been written to the disk *)
Inductive fsevent := EvSleep (ch : chan) (lk : lockid) | EvWakeup (ch : chan) | EvDisk (b : Z).

Abbreviation FM := (M fsevent world).

(** the kernel with this file system *)
Abbreviation FK := (K fsys).

(** The thread that runs: its identifier, the page table and the current
    directory (in the inode table) of its process, and how often a loop that
    waits for another thread may be woken. *)
Class Caller := {
  my_tid : Z;
  my_pagetable : Z;
  my_cwd : nat;
  patience : nat
}.

Definition getf {A} (f : fsys → A) : FM A := gets (λ w, f (w_fs w)).
Definition setf (f : fsys → fsys) : FM unit := modify (λ w, w <| w_fs ::= f |>).
Definition getbuf (i : nat) : FM buf := getf (λ s, f_bufs s !!! i).
Definition setbuf (i : nat) (f : buf → buf) : FM unit := setf (λ s, s <| f_bufs ::= alter f i |>).
Definition getlog {A} (f : logstate → A) : FM A := getf (λ s, f (f_log s)).
Definition setlog (f : logstate → logstate) : FM unit := setf (λ s, s <| f_log ::= f |>).
Definition geti (k : nat) : FM inode := getf (λ s, f_itable s !!! k).
Definition seti (k : nat) (f : inode → inode) : FM unit := setf (λ s, s <| f_itable ::= alter f k |>).
Definition wmach {A} (m : M Empty_set machine A) : FM A :=
  zoom w_mach (λ x w, w <| w_mach := x |>) (λ e : Empty_set, match e with end) m.

Definition oob {A} : FM A := panic "out of bounds".

(** ** Runs of a thread that is alone

    The run when every wake-up and every disk write is followed at once by the
    rest of the code; it is undefined when the code sleeps or panics. *)
Fixpoint alone {A} (r : run fsevent world A) : option (A * world) :=
  match r with
  | Ok a s => Some (a, s)
  | Panic _ => None
  | Event (EvSleep _ _) _ _ => None
  | Event _ s k => alone (k s)
  | NoFuel => None
  end.

Lemma alone_bind {A B} (m : FM A) (f : A → FM B) s :
  alone (bind m f s) = '(a, s') ← alone (m s); alone (f a s').
Proof.
  unfold bind. induction (m s) as [a s'|msg|e s' k IH|]; try done. simpl. destruct e; [done|apply IH|apply IH].
Qed.

Lemma alone_step {A B} (m : FM A) (f : A → FM B) s a s' :
  alone (m s) = Some (a, s') → alone (bind m f s) = alone (f a s').
Proof. intros Hm. by rewrite alone_bind, Hm. Qed.
