(* ===== verification/Bio.v ===== *)
(** * Sleep locks and the buffer cache (src/kernel/sleeplock.c, bio.c)

    A buffer is an index into [f_bufs]; the list through [prev] and [next] is
    [f_lru], from [head.next] to [head.prev].  [disk_transfer] stands for the
    transfer that virtio_disk.c performs: it copies one block between the
    buffer and the disk, and a request outside of the disk ends in the panic
    of [virtio_disk_intr]. *)

From S2P Require Import Prelude Mem Riscv Kalloc Vm Kstate FsState.

Section Bio.
Context `{Caller}.

(** ** Sleep locks *)

Inductive sleeplock_id := SlBuf (i : nat) | SlInode (k : nat).

Definition sl_get (l : sleeplock_id) : FM sleeplock :=
  match l with
  | SlBuf i => let* b := getbuf i in ret (b_lock b)
  | SlInode k => let* ip := geti k in ret (i_lock ip)
  end.
Definition sl_set (l : sleeplock_id) (v : sleeplock) : FM unit :=
  match l with
  | SlBuf i => setbuf i (λ b, b <| b_lock := v |>)
  | SlInode k => seti k (λ ip, ip <| i_lock := v |>)
  end.
Definition sl_chan (l : sleeplock_id) : chan :=
  match l with SlBuf i => ChBuf i | SlInode k => ChInode k end.
Definition sl_lk (l : sleeplock_id) : lockid :=
  match l with SlBuf i => LkBuf i | SlInode k => LkInode k end.

Definition initsleeplock (l : sleeplock_id) : FM unit := sl_set l (mkSleeplock false 0).

Definition acquiresleep (l : sleeplock_id) : FM unit :=
  iterate patience (λ _,
    let* v := sl_get l in
    if sl_locked v then emit (EvSleep (sl_chan l) (sl_lk l)) ;;; ret (inl tt)
    else ret (inr tt)) tt ;;;
  sl_set l (mkSleeplock true my_tid).

Definition releasesleep (l : sleeplock_id) : FM unit :=
  sl_set l (mkSleeplock false 0) ;;;
  emit (EvWakeup (sl_chan l)).

Definition holdingsleep (l : sleeplock_id) : FM bool :=
  let* v := sl_get l in ret (sl_locked v && (sl_pid v =? my_tid)).

(** ** The buffer cache *)

Definition disk_transfer (i : nat) (write : bool) : FM unit :=
  let* b := getbuf i in
  let* d := getf (λ s, f_disk s !! b_blockno b) in
  match d with
  | None => panic "virtio_disk_intr status"
  | Some blk =>
      if write then
        setf (λ s, s <| f_disk ::= <[b_blockno b := b_data b]> |>) ;;;
        emit (EvDisk (b_blockno b))
      else setbuf i (λ b, b <| b_data := blk |>)
  end.

Definition binit : FM unit :=
  setf (λ s, s <| f_lru := [] |>) ;;;
  for_each (seq 0 NBUF) (λ i,
    initsleeplock (SlBuf i) ;;;
    setf (λ s, s <| f_lru ::= cons i |>)).

Definition bget (dev blockno : Z) : FM nat :=
  let* order := getf f_lru in
  (* is the block already cached? *)
  let* hit := for_until order (λ i,
    let* b := getbuf i in
    if (b_dev b =? dev) && (b_blockno b =? blockno) then
      setbuf i (λ b, b <| b_refcnt ::= λ r, u32 (r + 1) |>) ;;;
      ret (Some i)
    else ret None) in
  match hit with
  | Some i => acquiresleep (SlBuf i) ;;; ret i
  | None =>
      (* recycle the least recently used unused buffer *)
      let* victim := for_until (reverse order) (λ i,
        let* b := getbuf i in
        if b_refcnt b =? 0 then
          setbuf i (λ b, b <| b_dev := dev |> <| b_blockno := blockno |>
                           <| b_valid := false |> <| b_refcnt := 1 |>) ;;;
          ret (Some i)
        else ret None) in
      match victim with
      | Some i => acquiresleep (SlBuf i) ;;; ret i
      | None => panic "bget: no buffers"
      end
  end.

Definition bread (dev blockno : Z) : FM nat :=
  let* i := bget dev blockno in
  let* b := getbuf i in
  (if b_valid b then ret tt
   else disk_transfer i false ;;; setbuf i (λ b, b <| b_valid := true |>)) ;;;
  ret i.

Definition bwrite (i : nat) : FM unit :=
  let* h := holdingsleep (SlBuf i) in
  if h then disk_transfer i true else panic "bwrite".

Definition brelse (i : nat) : FM unit :=
  let* h := holdingsleep (SlBuf i) in
  if negb h then panic "brelse" else
  releasesleep (SlBuf i) ;;;
  setbuf i (λ b, b <| b_refcnt ::= λ r, u32 (r - 1) |>) ;;;
  let* b := getbuf i in
  when (b_refcnt b =? 0)
    (setf (λ s, s <| f_lru ::= λ l, i :: filter (λ j, j ≠ i) l |>)).

Definition bpin (i : nat) : FM unit := setbuf i (λ b, b <| b_refcnt ::= λ r, u32 (r + 1) |>).
Definition bunpin (i : nat) : FM unit := setbuf i (λ b, b <| b_refcnt ::= λ r, u32 (r - 1) |>).

(** the data of a buffer *)
Definition bdata (i : nat) : FM (list byte) := let* b := getbuf i in ret (b_data b).
Definition set_bdata (i : nat) (f : list byte → list byte) : FM unit := setbuf i (λ b, b <| b_data ::= f |>).
End Bio.
