(* ===== verification/Virtio.v ===== *)
(** * The disk driver (src/kernel/virtio_disk.c, virtio.h)

    The driver and the device share the descriptors and the two rings of
    [vdisk].  An address in a descriptor is a symbolic pointer.  The code runs
    with vdisk_lock held except while it sleeps; the device runs all the time,
    and is given its turn at each memory barrier, before the code reads what
    the device writes, and while the code sleeps.  Writes to
    the device registers are a list; what a register read gives is an argument
    of the functions that read it. *)

From S2P Require Import Prelude Ring Mem Riscv FsState.

(** ** virtio.h *)

Definition VIRTIO_MMIO_MAGIC_VALUE : Z := 0x000.
Definition VIRTIO_MMIO_VERSION : Z := 0x004.
Definition VIRTIO_MMIO_DEVICE_ID : Z := 0x008.
Definition VIRTIO_MMIO_VENDOR_ID : Z := 0x00c.
Definition VIRTIO_MMIO_DEVICE_FEATURES : Z := 0x010.
Definition VIRTIO_MMIO_DRIVER_FEATURES : Z := 0x020.
Definition VIRTIO_MMIO_GUEST_PAGE_SIZE : Z := 0x028.
Definition VIRTIO_MMIO_QUEUE_SEL : Z := 0x030.
Definition VIRTIO_MMIO_QUEUE_NUM_MAX : Z := 0x034.
Definition VIRTIO_MMIO_QUEUE_NUM : Z := 0x038.
Definition VIRTIO_MMIO_QUEUE_PFN : Z := 0x040.
Definition VIRTIO_MMIO_QUEUE_NOTIFY : Z := 0x050.
Definition VIRTIO_MMIO_INTERRUPT_STATUS : Z := 0x060.
Definition VIRTIO_MMIO_INTERRUPT_ACK : Z := 0x064.
Definition VIRTIO_MMIO_STATUS : Z := 0x070.

Definition VIRTIO_CONFIG_S_ACKNOWLEDGE : Z := 1.
Definition VIRTIO_CONFIG_S_DRIVER : Z := 2.
Definition VIRTIO_CONFIG_S_DRIVER_OK : Z := 4.
Definition VIRTIO_CONFIG_S_FEATURES_OK : Z := 8.

Definition VIRTIO_BLK_F_RO : Z := 5.
Definition VIRTIO_BLK_F_SCSI : Z := 7.
Definition VIRTIO_BLK_F_CONFIG_WCE : Z := 11.
Definition VIRTIO_BLK_F_MQ : Z := 12.
Definition VIRTIO_F_ANY_LAYOUT : Z := 27.
Definition VIRTIO_RING_F_INDIRECT_DESC : Z := 28.
Definition VIRTIO_RING_F_EVENT_IDX : Z := 29.

Definition NUM : nat := 8.

Inductive daddr := ANull | AOps (i : nat) | AData (b : nat) | AStatus (i : nat).
Record virtq_desc := mkDesc { de_addr : daddr; de_len : Z; de_flags : Z; de_next : Z }.
Definition VRING_DESC_F_NEXT : Z := 1.
Definition VRING_DESC_F_WRITE : Z := 2.
Definition VIRTIO_BLK_T_IN : Z := 0.
Definition VIRTIO_BLK_T_OUT : Z := 1.
Record virtio_blk_req := mkReq { rq_type : Z; rq_reserved : Z; rq_sector : Z }.

(** ** The shared state *)

Record vdisk := mkVdisk {
  (* written by the driver *)
  v_desc : list virtq_desc;
  v_avail_idx : Z;           (* avail->idx *)
  v_avail_ring : list Z;     (* avail->ring *)
  v_free : list bool;
  v_used_idx : Z;            (* the driver's used_idx *)
  v_info_b : list (option nat);
  v_ops : list virtio_blk_req;
  v_regs : list (Z * Z);     (* the register writes *)
  (* of the buffers: disk, blockno, data *)
  v_bdisk : list bool;
  v_blockno : list Z;
  v_data : list (list byte);
  (* written by the device *)
  v_status : list Z;         (* info[].status *)
  v_uidx : Z;                (* used->idx *)
  v_uring : list Z;          (* used->ring[].id *)
  (* in the device: how far it has read the avail ring, the requests it works
     on, and the sectors of 512 bytes *)
  v_seen : Z;
  v_taken : list nat;
  v_sectors : gmap Z (list byte)
}.
#[export] Instance set_v_desc : Setter v_desc := λ f r, mkVdisk (f (v_desc r)) (v_avail_idx r) (v_avail_ring r) (v_free r) (v_used_idx r) (v_info_b r) (v_ops r) (v_regs r) (v_bdisk r) (v_blockno r) (v_data r) (v_status r) (v_uidx r) (v_uring r) (v_seen r) (v_taken r) (v_sectors r).
#[export] Instance set_v_avail_idx : Setter v_avail_idx := λ f r, mkVdisk (v_desc r) (f (v_avail_idx r)) (v_avail_ring r) (v_free r) (v_used_idx r) (v_info_b r) (v_ops r) (v_regs r) (v_bdisk r) (v_blockno r) (v_data r) (v_status r) (v_uidx r) (v_uring r) (v_seen r) (v_taken r) (v_sectors r).
#[export] Instance set_v_avail_ring : Setter v_avail_ring := λ f r, mkVdisk (v_desc r) (v_avail_idx r) (f (v_avail_ring r)) (v_free r) (v_used_idx r) (v_info_b r) (v_ops r) (v_regs r) (v_bdisk r) (v_blockno r) (v_data r) (v_status r) (v_uidx r) (v_uring r) (v_seen r) (v_taken r) (v_sectors r).
#[export] Instance set_v_free : Setter v_free := λ f r, mkVdisk (v_desc r) (v_avail_idx r) (v_avail_ring r) (f (v_free r)) (v_used_idx r) (v_info_b r) (v_ops r) (v_regs r) (v_bdisk r) (v_blockno r) (v_data r) (v_status r) (v_uidx r) (v_uring r) (v_seen r) (v_taken r) (v_sectors r).
#[export] Instance set_v_used_idx : Setter v_used_idx := λ f r, mkVdisk (v_desc r) (v_avail_idx r) (v_avail_ring r) (v_free r) (f (v_used_idx r)) (v_info_b r) (v_ops r) (v_regs r) (v_bdisk r) (v_blockno r) (v_data r) (v_status r) (v_uidx r) (v_uring r) (v_seen r) (v_taken r) (v_sectors r).
#[export] Instance set_v_info_b : Setter v_info_b := λ f r, mkVdisk (v_desc r) (v_avail_idx r) (v_avail_ring r) (v_free r) (v_used_idx r) (f (v_info_b r)) (v_ops r) (v_regs r) (v_bdisk r) (v_blockno r) (v_data r) (v_status r) (v_uidx r) (v_uring r) (v_seen r) (v_taken r) (v_sectors r).
#[export] Instance set_v_ops : Setter v_ops := λ f r, mkVdisk (v_desc r) (v_avail_idx r) (v_avail_ring r) (v_free r) (v_used_idx r) (v_info_b r) (f (v_ops r)) (v_regs r) (v_bdisk r) (v_blockno r) (v_data r) (v_status r) (v_uidx r) (v_uring r) (v_seen r) (v_taken r) (v_sectors r).
#[export] Instance set_v_regs : Setter v_regs := λ f r, mkVdisk (v_desc r) (v_avail_idx r) (v_avail_ring r) (v_free r) (v_used_idx r) (v_info_b r) (v_ops r) (f (v_regs r)) (v_bdisk r) (v_blockno r) (v_data r) (v_status r) (v_uidx r) (v_uring r) (v_seen r) (v_taken r) (v_sectors r).
#[export] Instance set_v_bdisk : Setter v_bdisk := λ f r, mkVdisk (v_desc r) (v_avail_idx r) (v_avail_ring r) (v_free r) (v_used_idx r) (v_info_b r) (v_ops r) (v_regs r) (f (v_bdisk r)) (v_blockno r) (v_data r) (v_status r) (v_uidx r) (v_uring r) (v_seen r) (v_taken r) (v_sectors r).
#[export] Instance set_v_blockno : Setter v_blockno := λ f r, mkVdisk (v_desc r) (v_avail_idx r) (v_avail_ring r) (v_free r) (v_used_idx r) (v_info_b r) (v_ops r) (v_regs r) (v_bdisk r) (f (v_blockno r)) (v_data r) (v_status r) (v_uidx r) (v_uring r) (v_seen r) (v_taken r) (v_sectors r).
#[export] Instance set_v_data : Setter v_data := λ f r, mkVdisk (v_desc r) (v_avail_idx r) (v_avail_ring r) (v_free r) (v_used_idx r) (v_info_b r) (v_ops r) (v_regs r) (v_bdisk r) (v_blockno r) (f (v_data r)) (v_status r) (v_uidx r) (v_uring r) (v_seen r) (v_taken r) (v_sectors r).
#[export] Instance set_v_status : Setter v_status := λ f r, mkVdisk (v_desc r) (v_avail_idx r) (v_avail_ring r) (v_free r) (v_used_idx r) (v_info_b r) (v_ops r) (v_regs r) (v_bdisk r) (v_blockno r) (v_data r) (f (v_status r)) (v_uidx r) (v_uring r) (v_seen r) (v_taken r) (v_sectors r).
#[export] Instance set_v_uidx : Setter v_uidx := λ f r, mkVdisk (v_desc r) (v_avail_idx r) (v_avail_ring r) (v_free r) (v_used_idx r) (v_info_b r) (v_ops r) (v_regs r) (v_bdisk r) (v_blockno r) (v_data r) (v_status r) (f (v_uidx r)) (v_uring r) (v_seen r) (v_taken r) (v_sectors r).
#[export] Instance set_v_uring : Setter v_uring := λ f r, mkVdisk (v_desc r) (v_avail_idx r) (v_avail_ring r) (v_free r) (v_used_idx r) (v_info_b r) (v_ops r) (v_regs r) (v_bdisk r) (v_blockno r) (v_data r) (v_status r) (v_uidx r) (f (v_uring r)) (v_seen r) (v_taken r) (v_sectors r).
#[export] Instance set_v_seen : Setter v_seen := λ f r, mkVdisk (v_desc r) (v_avail_idx r) (v_avail_ring r) (v_free r) (v_used_idx r) (v_info_b r) (v_ops r) (v_regs r) (v_bdisk r) (v_blockno r) (v_data r) (v_status r) (v_uidx r) (v_uring r) (f (v_seen r)) (v_taken r) (v_sectors r).
#[export] Instance set_v_taken : Setter v_taken := λ f r, mkVdisk (v_desc r) (v_avail_idx r) (v_avail_ring r) (v_free r) (v_used_idx r) (v_info_b r) (v_ops r) (v_regs r) (v_bdisk r) (v_blockno r) (v_data r) (v_status r) (v_uidx r) (v_uring r) (v_seen r) (f (v_taken r)) (v_sectors r).
#[export] Instance set_v_sectors : Setter v_sectors := λ f r, mkVdisk (v_desc r) (v_avail_idx r) (v_avail_ring r) (v_free r) (v_used_idx r) (v_info_b r) (v_ops r) (v_regs r) (v_bdisk r) (v_blockno r) (v_data r) (v_status r) (v_uidx r) (v_uring r) (v_seen r) (v_taken r) (f (v_sectors r)).

#[export] Instance virtq_desc_inhabited : Inhabited virtq_desc := populate (mkDesc ANull 0 0 0).
#[export] Instance virtio_blk_req_inhabited : Inhabited virtio_blk_req := populate (mkReq 0 0 0).

Inductive vchan := ChFree | ChDone (b : nat).
Inductive vevent := VSleep (ch : vchan) | VWakeup (ch : vchan) | VDevice.
Abbreviation V A := (M vevent vdisk A).

Definition set_reg (r v : Z) : V unit := modify (λ s, s <| v_regs ::= λ l, l ++ [(r, v)] |>).

(** ** Initialisation *)

(** the bits the driver does not want *)
Definition refused : list Z :=
  [VIRTIO_BLK_F_RO; VIRTIO_BLK_F_SCSI; VIRTIO_BLK_F_CONFIG_WCE; VIRTIO_BLK_F_MQ; VIRTIO_F_ANY_LAYOUT;
   VIRTIO_RING_F_EVENT_IDX; VIRTIO_RING_F_INDIRECT_DESC].
(** [mmio r] is what the register [r] holds, [pages] the address of disk.pages *)
Definition virtio_disk_init (mmio : Z → Z) (pages : Z) : V unit :=
  if negb (mmio VIRTIO_MMIO_MAGIC_VALUE =? 0x74726976) || negb (mmio VIRTIO_MMIO_VERSION =? 1) ||
     negb (mmio VIRTIO_MMIO_DEVICE_ID =? 2) || negb (mmio VIRTIO_MMIO_VENDOR_ID =? 0x554d4551)
  then panic "could not find virtio disk" else
  let status := VIRTIO_CONFIG_S_ACKNOWLEDGE in
  set_reg VIRTIO_MMIO_STATUS status ;;;
  let status := Z.lor status VIRTIO_CONFIG_S_DRIVER in
  set_reg VIRTIO_MMIO_STATUS status ;;;
  let features := foldl (λ f bit, Z.land f (Z.lnot (Z.shiftl 1 bit))) (mmio VIRTIO_MMIO_DEVICE_FEATURES) refused in
  set_reg VIRTIO_MMIO_DRIVER_FEATURES features ;;;
  let status := Z.lor status VIRTIO_CONFIG_S_FEATURES_OK in
  set_reg VIRTIO_MMIO_STATUS status ;;;
  let status := Z.lor status VIRTIO_CONFIG_S_DRIVER_OK in
  set_reg VIRTIO_MMIO_STATUS status ;;;
  set_reg VIRTIO_MMIO_GUEST_PAGE_SIZE PGSIZE ;;;
  set_reg VIRTIO_MMIO_QUEUE_SEL 0 ;;;
  let max := mmio VIRTIO_MMIO_QUEUE_NUM_MAX in
  if max =? 0 then panic "virtio disk has no queue 0" else
  if max <? Z.of_nat NUM then panic "virtio disk max queue too short" else
  set_reg VIRTIO_MMIO_QUEUE_NUM (Z.of_nat NUM) ;;;
  (* memset(disk.pages, 0, sizeof(disk.pages)) *)
  modify (λ s, s <| v_desc := replicate NUM (mkDesc ANull 0 0 0) |> <| v_avail_idx := 0 |> <| v_avail_ring := replicate NUM 0 |>
                 <| v_uidx := 0 |> <| v_uring := replicate NUM 0 |>) ;;;
  set_reg VIRTIO_MMIO_QUEUE_PFN (Z.shiftr pages PGSHIFT) ;;;
  for_each (seq 0 NUM) (λ i, modify (λ s, s <| v_free ::= <[i := true]> |>)).

(** ** Descriptors *)

Definition alloc_desc : V Z :=
  let* r := for_until (seq 0 NUM) (λ i,
    let* free := gets (λ s, v_free s !!! i) in
    if (free : bool) then modify (λ s, s <| v_free ::= <[i := false]> |>) ;;; ret (Some (Z.of_nat i)) else ret None) in
  ret (default (-1) r).

Definition free_desc (i : Z) : V unit :=
  if Z.of_nat NUM <=? i then panic "free_desc 1" else
  let* free := gets (λ s, v_free s !!! Z.to_nat i) in
  if (free : bool) then panic "free_desc 2" else
  modify (λ s, s <| v_desc ::= <[Z.to_nat i := mkDesc ANull 0 0 0]> |> <| v_free ::= <[Z.to_nat i := true]> |>) ;;;
  emit (VWakeup ChFree).

Definition free_chain (i : Z) : V unit :=
  iterate NUM (λ i,
    let* d := gets (λ s, v_desc s !!! Z.to_nat i) in
    free_desc i ;;;
    if negb (Z.land (de_flags d) VRING_DESC_F_NEXT =? 0) then ret (inl (de_next d)) else ret (inr tt)) i.

(** [for(int i = 0; i < 3; i++)]; [idx] are the descriptors so far *)
Fixpoint alloc3_loop (n : nat) (idx : list Z) : V (option (list Z)) :=
  match n with
  | O => ret (Some idx)
  | S n' =>
      let* i := alloc_desc in
      if i <? 0 then for_each idx free_desc ;;; ret None else alloc3_loop n' (idx ++ [i])
  end.
Definition alloc3_desc : V (option (list Z)) := alloc3_loop 3 [].

(** ** A request *)

Definition set_desc (i : Z) (d : virtq_desc) : V unit := modify (λ s, s <| v_desc ::= <[Z.to_nat i := d]> |>).

(** the three descriptors of a request, up to the entry in the avail ring *)
Definition format_request (b : nat) (write : bool) (sector : Z) (i0 i1 i2 : Z) : V unit :=
  let h := Z.to_nat i0 in
  modify (λ s, s <| v_ops ::= <[h := mkReq (if write then VIRTIO_BLK_T_OUT else VIRTIO_BLK_T_IN) 0 sector]> |>) ;;;
  set_desc i0 (mkDesc (AOps h) 16 VRING_DESC_F_NEXT i1) ;;;
  set_desc i1 (mkDesc (AData b) BSIZE (Z.lor (if write then 0 else VRING_DESC_F_WRITE) VRING_DESC_F_NEXT) i2) ;;;
  modify (λ s, s <| v_status ::= <[h := 0xff]> |>) ;;;
  set_desc i2 (mkDesc (AStatus h) 1 VRING_DESC_F_WRITE 0) ;;;
  modify (λ s, s <| v_bdisk ::= <[b := true]> |> <| v_info_b ::= <[h := Some b]> |>) ;;;
  modify (λ s, s <| v_avail_ring ::= <[Z.to_nat (v_avail_idx s mod Z.of_nat NUM) := i0]> |>).

(** [fuel] bounds how often the loops are woken *)
Definition virtio_disk_rw (fuel b : nat) (write : bool) : V unit :=
  let* blockno := gets (λ s, v_blockno s !!! b) in
  let sector := u32 (blockno * (BSIZE / 512)) in
  let* idx := iterate fuel (λ _ : unit,
    let* r := alloc3_desc in
    match r with
    | Some idx => ret (inr idx)
    | None => emit (VSleep ChFree) ;;; ret (inl tt)
    end) tt in
  let i0 := idx !!! 0%nat in
  format_request b write sector i0 (idx !!! 1%nat) (idx !!! 2%nat) ;;;
  emit VDevice ;;;
  modify (λ s, s <| v_avail_idx ::= λ i, u16 (i + 1) |>) ;;;
  emit VDevice ;;;
  set_reg VIRTIO_MMIO_QUEUE_NOTIFY 0 ;;;
  iterate fuel (λ _ : unit,
    let* d := gets (λ s, v_bdisk s !!! b) in
    if (d : bool) then emit (VSleep (ChDone b)) ;;; ret (inl tt) else ret (inr tt)) tt ;;;
  modify (λ s, s <| v_info_b ::= <[Z.to_nat i0 := None]> |>) ;;;
  free_chain i0.

(** [istatus] is what the interrupt status register holds; the loop ends when
    the device adds no more entries *)
Definition virtio_disk_intr (fuel : nat) (istatus : Z) : V unit :=
  set_reg VIRTIO_MMIO_INTERRUPT_ACK (Z.land istatus 3) ;;;
  emit VDevice ;;;
  iterate fuel (λ _ : unit,
    emit VDevice ;;;
    let* more := gets (λ s, negb (v_used_idx s =? v_uidx s)) in
    if negb more then ret (inr tt) else
    emit VDevice ;;;
    let* id := gets (λ s, v_uring s !!! Z.to_nat (v_used_idx s mod Z.of_nat NUM)) in
    let* status := gets (λ s, v_status s !!! Z.to_nat id) in
    if negb (status =? 0) then panic "virtio_disk_intr status" else
    let* b := gets (λ s, v_info_b s !!! Z.to_nat id) in
    match b with
    | Some b =>
        modify (λ s, s <| v_bdisk ::= <[b := false]> |>) ;;;
        emit (VWakeup (ChDone b)) ;;;
        modify (λ s, s <| v_used_idx ::= λ i, u16 (i + 1) |>) ;;;
        ret (inl tt)
    | None => panic "null pointer"
    end) tt.
