(* ===== verification/VirtioSpec.v ===== *)
(** * The disk driver moves blocks (src/kernel/virtio_disk.c)

    [dev_spec] is what the virtio specification says of the device; the
    device itself is any relation that it allows.  The requests in flight are
    a ghost map, and [inv] relates them to the descriptors, the rings and the
    free list.  A request returns when its block has been moved, whatever other
    threads, the interrupt handler and the device do in between. *)

From S2P Require Import Prelude Ring Mem Riscv Kstate FsState Virtio.

(** ** The device *)

(** the request whose first descriptor is [id]: whether it writes, the first
    sector, the buffer and the place of the status *)
Definition chain_at (s : vdisk) (id : nat) : option (bool * Z * nat * nat) :=
  d0 ← v_desc s !! id;
  d1 ← v_desc s !! Z.to_nat (de_next d0);
  d2 ← v_desc s !! Z.to_nat (de_next d1);
  match de_addr d0, de_addr d1, de_addr d2 with
  | AOps o, AData b, AStatus t =>
      r ← v_ops s !! o;
      let write := rq_type r =? VIRTIO_BLK_T_OUT in
      if negb (Z.land (de_flags d0) VRING_DESC_F_NEXT =? 0) && negb (Z.land (de_flags d1) VRING_DESC_F_NEXT =? 0)
         && negb (Z.land (de_flags d2) VRING_DESC_F_WRITE =? 0)
         && (de_len d0 =? 16) && (de_len d1 =? BSIZE) && (de_len d2 =? 1)
         && (if write then Z.land (de_flags d1) VRING_DESC_F_WRITE =? 0
             else (rq_type r =? VIRTIO_BLK_T_IN) && negb (Z.land (de_flags d1) VRING_DESC_F_WRITE =? 0))
      then Some (write, rq_sector r, b, t) else None
  | _, _, _ => None
  end.

Definition block_at (s : vdisk) (sector : Z) : option (list byte) :=
  lo ← v_sectors s !! sector; hi ← v_sectors s !! (sector + 1); Some (lo ++ hi).

(** the block is moved, the status set and the chain put in the used ring *)
Definition move (rq : bool * Z * nat * nat) (s : vdisk) : option vdisk :=
  let '(write, sector, b, t) := rq in
  blk ← block_at s sector;
  data ← v_data s !! b;
  Some (if write then s <| v_sectors ::= λ m, <[sector := take 512 data]> (<[sector + 1 := drop 512 data]> m) |>
        else s <| v_data ::= <[b := blk]> |>).
Definition finish (id t : nat) (s : vdisk) : vdisk :=
  s <| v_status ::= <[t := 0]> |> <| v_uring ::= <[Z.to_nat (v_uidx s mod Z.of_nat NUM) := Z.of_nat id]> |>
    <| v_uidx ::= λ i, u16 (i + 1) |>.

(** A step of the device: it takes an entry of the avail ring, or it finishes a
    request that it has taken, in any order. *)
Inductive dev_spec (s : vdisk) : vdisk → Prop :=
| dev_take : v_seen s ≠ v_avail_idx s →
    dev_spec s (s <| v_taken ::= cons (Z.to_nat (v_avail_ring s !!! Z.to_nat (v_seen s mod Z.of_nat NUM))) |>
                  <| v_seen ::= λ i, u16 (i + 1) |>)
| dev_finish id l1 l2 s' : v_taken s = l1 ++ id :: l2 →
    (∀ rq s1, chain_at s id = Some rq → move rq s = Some s1 → s' = finish id rq.2 (s1 <| v_taken := l1 ++ l2 |>)) →
    dev_spec s s'.

(** ** The requests in flight *)

Inductive phase := Submitted | Completed | Seen.
#[export] Instance phase_eq_dec : EqDecision phase.
Proof. solve_decision. Defined.
(** [c_val] is what the buffer and the block will both hold *)
Record chain := mkChain {
  c_mid : nat;
  c_last : nat;
  c_buf : nat;
  c_write : bool;
  c_val : list byte;
  c_phase : phase
}.
Definition set_phase (ph : phase) (c : chain) : chain := mkChain (c_mid c) (c_last c) (c_buf c) (c_write c) (c_val c) ph.
Definition descs (h : nat) (c : chain) : list nat := [h; c_mid c; c_last c].
Definition bno (s : vdisk) (b : nat) : Z := v_blockno s !!! b.

Record formatted (s : vdisk) (h : nat) (c : chain) : Prop := {
  fm_0 : v_desc s !! h = Some (mkDesc (AOps h) 16 1 (Z.of_nat (c_mid c)));
  fm_1 : v_desc s !! c_mid c = Some (mkDesc (AData (c_buf c)) BSIZE (if c_write c then 1 else 3) (Z.of_nat (c_last c)));
  fm_2 : v_desc s !! c_last c = Some (mkDesc (AStatus h) 1 2 0);
  fm_ops : v_ops s !! h = Some (mkReq (if c_write c then 1 else 0) 0 (2 * bno s (c_buf c)));
  fm_b : v_info_b s !! h = Some (Some (c_buf c));
  fm_bno : 0 ≤ bno s (c_buf c) < 2 ^ 31;
  fm_buf : (c_buf c < length (v_bdisk s))%nat
}.
(** where the data is *)
Record placed (s : vdisk) (h : nat) (c : chain) : Prop := {
  pl_val : length (c_val c) = 1024%nat;
  pl_status : v_status s !! h = Some (if decide (c_phase c = Submitted) then 0xff else 0);
  pl_disk : v_bdisk s !! c_buf c = Some (negb (bool_decide (c_phase c = Seen)));
  pl_data : c_write c = true ∨ c_phase c ≠ Submitted → v_data s !! c_buf c = Some (c_val c);
  pl_block : c_write c = false ∨ c_phase c ≠ Submitted → block_at s (2 * bno s (c_buf c)) = Some (c_val c);
  pl_there : is_Some (v_data s !! c_buf c) ∧ is_Some (block_at s (2 * bno s (c_buf c)))
}.

Definition in_phase (R : gmap nat chain) (ph : phase) (h : nat) : Prop := ∃ c, R !! h = Some c ∧ c_phase c = ph.

(** [P] are the descriptors that the thread that runs has allocated, [A] and
    [U] the entries in the two rings *)
Record inv (s : vdisk) (R : gmap nat chain) (P A U : list nat) : Prop := {
  iv_desc : length (v_desc s) = NUM;
  iv_free_len : length (v_free s) = NUM;
  iv_info : length (v_info_b s) = NUM;
  iv_ops : length (v_ops s) = NUM;
  iv_status : length (v_status s) = NUM;
  iv_aring : length (v_avail_ring s) = NUM;
  iv_uring : length (v_uring s) = NUM;
  iv_sector k bs : v_sectors s !! k = Some bs → length bs = 512%nat;
  iv_lt h c i : R !! h = Some c → i ∈ descs h c → (i < NUM)%nat;
  iv_nodup h c : R !! h = Some c → NoDup (descs h c);
  iv_apart h c h' c' i : R !! h = Some c → R !! h' = Some c' → i ∈ descs h c → i ∈ descs h' c' → h = h';
  iv_priv : NoDup P ∧ ∀ i, i ∈ P → (i < NUM)%nat ∧ ∀ h c, R !! h = Some c → i ∉ descs h c;
  iv_free i : (i < NUM)%nat → v_free s !! i = Some true ↔ i ∉ P ∧ ∀ h c, R !! h = Some c → i ∉ descs h c;
  iv_chain h c : R !! h = Some c → formatted s h c ∧ placed s h c;
  iv_blocks h c h' c' : R !! h = Some c → R !! h' = Some c' → bno s (c_buf c) = bno s (c_buf c') → h = h';
  iv_seen : 0 ≤ v_seen s < 2 ^ 16;
  iv_avail : ring_seg (Z.of_nat NUM) (v_avail_ring s) (v_seen s) (length A) = Z.of_nat <$> A;
  iv_avail_idx : v_avail_idx s = u16 (v_seen s + Z.of_nat (length A));
  iv_sub : NoDup (A ++ v_taken s) ∧ ∀ h, h ∈ A ++ v_taken s ↔ in_phase R Submitted h;
  iv_used_idx : 0 ≤ v_used_idx s < 2 ^ 16;
  iv_used : ring_seg (Z.of_nat NUM) (v_uring s) (v_used_idx s) (length U) = Z.of_nat <$> U;
  iv_uidx : v_uidx s = u16 (v_used_idx s + Z.of_nat (length U));
  iv_com : NoDup U ∧ ∀ h, h ∈ U ↔ in_phase R Completed h
}.

(** ** The counters of 16 bits *)

Lemma u16_range z : 0 ≤ u16 z < 2 ^ 16.
Proof. unfold u16. apply Z.mod_pos_bound. lia. Qed.
Lemma u16_index z : u16 z mod Z.of_nat NUM = z mod Z.of_nat NUM.
Proof. unfold u16. apply Z.mod_mod_divide. by exists (2 ^ 13). Qed.
Lemma u16_add z k : u16 (u16 z + k) = u16 (z + k).
Proof. unfold u16. by rewrite Zplus_mod_idemp_l. Qed.
Lemma u16_same z k : 0 ≤ z < 2 ^ 16 → 0 ≤ k < 2 ^ 16 → u16 (z + k) = z → k = 0.
Proof. unfold u16. intros Hz Hk H. destruct (Z.le_gt_cases (2 ^ 16) (z + k)) as [Hle|Hlt].
  - rewrite <- (Z.mod_unique (z + k) (2 ^ 16) 1 (z + k - 2 ^ 16)) in H; [lia|left; lia|lia].
  - rewrite Z.mod_small in H; lia.
Qed.
Lemma seg_u16 {A} `{!Inhabited A} (ring : list A) a n : ring_seg (Z.of_nat NUM) ring (u16 a) n = ring_seg (Z.of_nat NUM) ring a n.
Proof.
  apply list_fmap_ext. intros i k _. cbn beta. do 2 f_equal. rewrite <- (u16_index (a + _)), <- u16_add. by rewrite u16_index.
Qed.
(** distinct descriptor numbers are at most [NUM] *)
Lemma few (l : list nat) : NoDup l → (∀ i, i ∈ l → (i < NUM)%nat) → (length l ≤ NUM)%nat.
Proof.
  intros Hn Hl. rewrite <- (length_seq NUM 0). apply submseteq_length, NoDup_submseteq; [done|].
  intros i Hi%Hl. apply elem_of_seq. lia.
Qed.

(** ** Blocks of two sectors *)

Definition write_block (b : Z) (bs : list byte) (m : gmap Z (list byte)) : gmap Z (list byte) :=
  <[2 * b := take 512 bs]> (<[2 * b + 1 := drop 512 bs]> m).
Definition block_of (m : gmap Z (list byte)) (b : Z) : option (list byte) :=
  lo ← m !! (2 * b); hi ← m !! (2 * b + 1); Some (lo ++ hi).
Lemma block_write_same b bs m : block_of (write_block b bs m) b = Some bs.
Proof.
  unfold block_of, write_block. rewrite lookup_insert_eq, lookup_insert_ne, lookup_insert_eq by lia. simpl. by rewrite take_drop.
Qed.
Lemma block_write_other b b' bs m : b ≠ b' → block_of (write_block b bs m) b' = block_of m b'.
Proof. intros Hne. unfold block_of, write_block. rewrite !lookup_insert_ne by lia. done. Qed.

Section Steps.
Context (s : vdisk) (R : gmap nat chain) (P A U : list nat) (Hinv : inv s R P A U).

Lemma inv_alloc i : v_free s !! i = Some true → inv (s <| v_free ::= <[i := false]> |>) R (i :: P) A U.
Proof.
  intros Hi. assert (Hi0 := Hinv). destruct Hi0. assert (Hlt : (i < NUM)%nat) by (apply lookup_lt_Some in Hi; lia).
  destruct (proj1 (iv_free0 i Hlt) Hi) as [HiP HiR]. split; rproj; try done.
  - by rewrite length_insert.
  - destruct iv_priv0 as [Hn Hp]. split; [by apply NoDup_cons|]. intros j [->|Hj]%elem_of_cons; [done|by apply Hp].
  - intros j Hj. destruct (decide (i = j)) as [<-|Hne].
    + rewrite list_lookup_insert_eq by lia. split; [done|set_solver].
    + rewrite list_lookup_insert_ne by done. rewrite iv_free0 by done. set_solver.
  - intros h c Hc. destruct (iv_chain0 h c Hc) as [[] []]. split; by split; rproj.
Qed.
Lemma inv_unalloc i l1 l2 : P = l1 ++ i :: l2 →
  inv (s <| v_desc ::= <[i := mkDesc ANull 0 0 0]> |> <| v_free ::= <[i := true]> |>) R (l1 ++ l2) A U ∧ v_free s !!! i = false.
Proof.
  intros ->. assert (Hi0 := Hinv). destruct Hi0. destruct iv_priv0 as [Hn Hp]. destruct (Hp i ltac:(set_solver)) as [Hlt HiR].
  assert (Hni : i ∉ l1 ++ l2 ∧ NoDup (l1 ++ l2)) by (rewrite <- Permutation_middle in Hn; by apply NoDup_cons in Hn).
  destruct Hni as [Hni Hn']. split.
  - split; rproj; try done; rewrite ?length_insert; try done.
    + split; [done|]. intros j Hj. apply Hp. set_solver.
    + intros j Hj. destruct (decide (i = j)) as [<-|Hne].
      * rewrite list_lookup_insert_eq by lia. split; [done|]. done.
      * rewrite list_lookup_insert_ne by done. rewrite iv_free0 by done. set_solver.
    + intros h c Hc. specialize (HiR h c Hc). destruct (iv_chain0 h c Hc) as [[] []]. unfold descs in HiR.
      split; split; rproj; try done; rewrite list_lookup_insert_ne by set_solver; done.
  - destruct (lookup_lt_is_Some_2 (v_free s) i ltac:(lia)) as [b Hb]. rewrite (list_lookup_total_correct _ _ _ Hb). destruct b; [|done].
    apply iv_free0 in Hb as [Hb _]; [|done]. destruct Hb. apply elem_of_app. right. apply list_elem_of_here.
Qed.

(** writes to descriptors that the thread has allocated *)
Lemma inv_private d o st bd ib b :
  length d = NUM → length o = NUM → length st = NUM → length ib = NUM → length bd = length (v_bdisk s) →
  (∀ i, i ∉ P → d !! i = v_desc s !! i ∧ o !! i = v_ops s !! i ∧ st !! i = v_status s !! i ∧ ib !! i = v_info_b s !! i) →
  (∀ b', b' ≠ b → bd !! b' = v_bdisk s !! b') → (∀ h c, R !! h = Some c → c_buf c ≠ b) →
  inv (s <| v_desc := d |> <| v_ops := o |> <| v_status := st |> <| v_bdisk := bd |> <| v_info_b := ib |>) R P A U.
Proof.
  intros Ld Lo Ls Li Lb Hsame Hbd Hb. assert (Hi0 := Hinv). destruct Hi0. split; rproj; try done.
  intros h c Hc. specialize (Hb h c Hc). destruct (iv_chain0 h c Hc) as [[] []].
  assert (Hn : ∀ i, i ∈ descs h c → i ∉ P) by (intros i Hi Hp; by apply (proj2 iv_priv0 i Hp) in Hi).
  destruct (Hsame h (Hn h ltac:(set_solver))) as (E1 & E2 & E3 & E4).
  destruct (Hsame (c_mid c) (Hn (c_mid c) ltac:(set_solver))) as (E5 & _).
  destruct (Hsame (c_last c) (Hn (c_last c) ltac:(set_solver))) as (E6 & _).
  split; split; rproj; rewrite ?E1, ?E2, ?E3, ?E4, ?E5, ?E6; try done; [by rewrite Lb|by rewrite Hbd].
Qed.

Lemma heads_few i : i ∈ P → (length A < NUM)%nat.
Proof.
  intros Hi. assert (Hi0 := Hinv). destruct Hi0. destruct iv_sub0 as [Hn Hs]. destruct iv_priv0 as [_ Hp].
  assert (HA : ∀ h, h ∈ A → (h < NUM)%nat ∧ h ≠ i).
  { intros h Hh. destruct (proj1 (Hs h) ltac:(set_solver)) as (c & Hc & _). split; [eapply iv_lt0; [done|set_solver]|].
    intros ->. by apply (proj2 (Hp i Hi) i c Hc), list_elem_of_here. }
  apply NoDup_app in Hn as (Hn & _ & _).
  assert (length (i :: A) ≤ NUM)%nat; [|done]. apply few; [apply NoDup_cons; split; [|done]|].
  - intros Hin. by destruct (HA i Hin).
  - intros h [->|Hh]%elem_of_cons; [by apply Hp|by apply HA].
Qed.
Lemma avail_slot : Z.to_nat (v_avail_idx s mod Z.of_nat NUM) = Z.to_nat ((v_seen s + Z.of_nat (length A)) mod Z.of_nat NUM).
Proof. rewrite (iv_avail_idx _ _ _ _ _ Hinv), u16_index. done. Qed.
Lemma inv_ring i x : i ∈ P →
  inv (s <| v_avail_ring ::= <[Z.to_nat (v_avail_idx s mod Z.of_nat NUM) := x]> |>) R P A U.
Proof.
  intros Hi. assert (Hlen := heads_few i Hi). rewrite avail_slot. assert (Hi0 := Hinv). destruct Hi0. split; rproj; try done.
  - by rewrite length_insert.
  - intros h c Hc. destruct (iv_chain0 h c Hc) as [[] []]. split; by split; rproj.
  - rewrite seg_insert by lia. done.
Qed.

Lemma inv_submit h c :
  P = descs h c → v_avail_ring s !!! Z.to_nat (v_avail_idx s mod Z.of_nat NUM) = Z.of_nat h →
  formatted s h c → placed s h c → c_phase c = Submitted →
  (∀ h' c', R !! h' = Some c' → bno s (c_buf c') ≠ bno s (c_buf c)) →
  inv (s <| v_avail_idx ::= λ i, u16 (i + 1) |>) (<[h := c]> R) [] (A ++ [h]) U.
Proof.
  intros EP Hring Hf Hpl Hph Hbno. rewrite avail_slot in Hring. assert (Hi0 := Hinv). destruct Hi0.
  destruct iv_priv0 as [HnP HP]. rewrite EP in HnP, HP. destruct (HP h ltac:(set_solver)) as [_ HhR].
  assert (Hnone : R !! h = None).
  { destruct (R !! h) as [c'|] eqn:E; [|done]. exfalso. by apply (HhR h c' E), list_elem_of_here. }
  split; rproj; try done.
  - intros h' c' i [[<- <-]|[_ Hc']]%lookup_insert_Some Hi; [by apply HP|by eapply iv_lt0].
  - intros h' c' [[<- <-]|[_ Hc']]%lookup_insert_Some; [done|by apply (iv_nodup0 h')].
  - intros h1 c1 h2 c2 i [[<- <-]|[_ H1]]%lookup_insert_Some [[<- <-]|[_ H2]]%lookup_insert_Some I1 I2; [done| | |by eapply iv_apart0].
    + by destruct (proj2 (HP i I1) h2 c2 H2).
    + by destruct (proj2 (HP i I2) h1 c1 H1).
  - split; [constructor|set_solver].
  - intros i Hi. rewrite iv_free0 by done. rewrite EP. split.
    + intros [Hn Hr]. split; [set_solver|]. intros h' c' [[<- <-]|[_ Hc']]%lookup_insert_Some; [done|by apply (Hr h')].
    + intros [_ Hr]. split; [apply (Hr h c), lookup_insert_eq|]. intros h' c' Hc'. apply (Hr h'). rewrite lookup_insert_ne; [done|].
      intros ->. congruence.
  - intros h' c' [[<- <-]|[_ Hc']]%lookup_insert_Some.
    + destruct Hf, Hpl. split; by split; rproj.
    + destruct (iv_chain0 h' c' Hc') as [[] []]. split; by split; rproj.
  - change (bno (s <| v_avail_idx ::= λ i, u16 (i + 1) |>)) with (bno s).
    intros h1 c1 h2 c2 [[<- <-]|[_ H1]]%lookup_insert_Some [[<- <-]|[_ H2]]%lookup_insert_Some E; [done| | |by eapply iv_blocks0].
    + by destruct (Hbno h2 c2 H2).
    + by destruct (Hbno h1 c1 H1).
  - rewrite length_app, Nat.add_1_r, seg_snoc by done. by rewrite iv_avail0, fmap_app, Hring.
  - rewrite iv_avail_idx0, u16_add, length_app. f_equal. simpl. lia.
  - destruct iv_sub0 as [Hn Hs].
    assert (HhA : h ∉ A ++ v_taken s) by (rewrite Hs; intros (c' & Hc' & _); congruence).
    rewrite <- app_assoc. cbn [app]. split; [rewrite <- Permutation_middle; by apply NoDup_cons|].
    intros h'. unfold in_phase. destruct (decide (h' = h)) as [->|Hne].
    + rewrite lookup_insert_eq. split; [eauto|set_solver].
    + rewrite lookup_insert_ne by done. fold (in_phase R Submitted h'). rewrite <- Hs. set_solver.
  - destruct iv_com0 as [Hn Hs]. split; [done|]. intros h'. rewrite Hs. unfold in_phase. destruct (decide (h' = h)) as [->|Hne].
    + rewrite lookup_insert_eq, Hnone. split; [by intros (? & ? & _)|intros (? & [= <-] & ?); congruence].
    + by rewrite lookup_insert_ne by done.
Qed.

(** ** Requests change their phase *)

(** the same requests, in whatever phase *)
Definition same (R R' : gmap nat chain) : Prop := ∀ h, set_phase Submitted <$> R !! h = set_phase Submitted <$> R' !! h.
Lemma same_lookup R' h c' : same R R' → R' !! h = Some c' → ∃ c, R !! h = Some c ∧ c' = set_phase (c_phase c') c.
Proof.
  intros Hs Hc. specialize (Hs h). rewrite Hc in Hs. destruct (R !! h) as [c|]; [|done]. injection Hs as ? ? ? ? ?. exists c. split; [done|].
  destruct c, c'. simpl in *. unfold set_phase. simpl. congruence.
Qed.

Lemma inv_phase s' R' A' U' : same R R' →
  v_desc s' = v_desc s → v_free s' = v_free s → v_info_b s' = v_info_b s → v_ops s' = v_ops s → v_blockno s' = v_blockno s →
  length (v_bdisk s') = length (v_bdisk s) → length (v_status s') = NUM → v_avail_ring s' = v_avail_ring s → length (v_uring s') = NUM →
  (∀ k bs, v_sectors s' !! k = Some bs → length bs = 512%nat) →
  (∀ h c, R' !! h = Some c → placed s' h c) →
  0 ≤ v_seen s' < 2 ^ 16 → ring_seg (Z.of_nat NUM) (v_avail_ring s') (v_seen s') (length A') = Z.of_nat <$> A' →
  v_avail_idx s' = u16 (v_seen s' + Z.of_nat (length A')) →
  NoDup (A' ++ v_taken s') → (∀ h, h ∈ A' ++ v_taken s' ↔ in_phase R' Submitted h) →
  0 ≤ v_used_idx s' < 2 ^ 16 → ring_seg (Z.of_nat NUM) (v_uring s') (v_used_idx s') (length U') = Z.of_nat <$> U' →
  v_uidx s' = u16 (v_used_idx s' + Z.of_nat (length U')) →
  NoDup U' → (∀ h, h ∈ U' ↔ in_phase R' Completed h) →
  inv s' R' P A' U'.
Proof.
  intros Hs E1 E2 E3 E4 E5 Lb Ls Ea Lu Hsec Hpl. intros. assert (Hi0 := Hinv). destruct Hi0.
  assert (Hlk := λ h c', same_lookup R' h c' Hs).
  assert (Hlk' : ∀ h c, R !! h = Some c → ∃ ph, R' !! h = Some (set_phase ph c)).
  { intros h c Hc. specialize (Hs h). rewrite Hc in Hs. destruct (R' !! h) as [c'|] eqn:E; [|done].
    destruct (Hlk h c' E) as (c1 & Hc1 & ->). rewrite Hc in Hc1. injection Hc1 as <-. eauto. }
  split; rewrite ?E1, ?E2, ?E3, ?E4; try done.
  - by rewrite Ea.
  - intros h c i (c1 & Hc1 & ->)%Hlk. by apply (iv_lt0 h c1).
  - intros h c (c1 & Hc1 & ->)%Hlk. by apply (iv_nodup0 h c1).
  - intros h c h' c' i (c1 & Hc1 & ->)%Hlk (c2 & Hc2 & ->)%Hlk. by apply (iv_apart0 h c1 h' c2 i).
  - split; [apply iv_priv0|]. intros i Hi. destruct (proj2 iv_priv0 i Hi) as [? Hn]. split; [done|].
    intros h c (c1 & Hc1 & ->)%Hlk. by apply (Hn h c1).
  - intros i Hi. rewrite iv_free0 by done. apply and_iff_compat_l. split.
    + intros Hn h c (c1 & Hc1 & ->)%Hlk. by apply (Hn h c1).
    + intros Hn h c (ph & Hc)%Hlk'. by apply (Hn h _ Hc).
  - intros h c Hc. split; [|by apply Hpl]. destruct (Hlk h c Hc) as (c1 & Hc1 & ->). destruct (iv_chain0 h c1 Hc1) as [[] _].
    split; unfold bno; rewrite ?E1, ?E3, ?E4, ?E5, ?Lb; done.
  - unfold bno. rewrite E5. intros h c h' c' (c1 & Hc1 & ->)%Hlk (c2 & Hc2 & ->)%Hlk. by apply (iv_blocks0 h c1 h' c2).
Qed.

(** ** Steps of the device *)

Definition idle (b : nat) : Prop := ∀ h c, R !! h = Some c → bno s (c_buf c) ≠ bno s b.
(** the device leaves what the driver writes alone *)
Record dev_frame (s' : vdisk) : Prop := {
  df_desc : v_desc s' = v_desc s;
  df_free : v_free s' = v_free s;
  df_info : v_info_b s' = v_info_b s;
  df_ops : v_ops s' = v_ops s;
  df_blockno : v_blockno s' = v_blockno s;
  df_bdisk : v_bdisk s' = v_bdisk s;
  df_idx : v_avail_idx s' = v_avail_idx s;
  df_ring : v_avail_ring s' = v_avail_ring s;
  df_used : v_used_idx s' = v_used_idx s;
  df_status i : i ∈ P → v_status s' !! i = v_status s !! i;
  df_idle b : idle b → v_data s' !! b = v_data s !! b ∧ block_at s' (2 * bno s b) = block_at s (2 * bno s b)
}.

Lemma inv_take : v_seen s ≠ v_avail_idx s → ∃ h A', A = h :: A' ∧
  v_avail_ring s !!! Z.to_nat (v_seen s mod Z.of_nat NUM) = Z.of_nat h ∧
  inv (s <| v_taken ::= cons h |> <| v_seen ::= λ i, u16 (i + 1) |>) R P A' U.
Proof.
  intros Hne. assert (Hi0 := Hinv). destruct Hi0.
  assert (HA : A = [] ∨ ∃ h A', A = h :: A') by (clear; destruct A; eauto). destruct HA as [EA|(h & A' & EA)];
    rewrite EA in iv_avail0, iv_avail_idx0, iv_sub0.
  { exfalso. apply Hne. rewrite iv_avail_idx0. simpl. rewrite Z.add_0_r. unfold u16. by rewrite Z.mod_small. }
  exists h, A'. cbn [length] in *. rewrite seg_S in iv_avail0 by done. rewrite fmap_cons in iv_avail0. injection iv_avail0 as Hh Hseg.
  split_and!; [done|done|]. apply inv_phase; rproj; try done.
  - intros h' c' Hc'. destruct (iv_chain0 h' c' Hc') as [_ []]. by split; rproj.
  - apply u16_range.
  - by rewrite seg_u16.
  - rewrite iv_avail_idx0, u16_add. f_equal. lia.
  - destruct iv_sub0 as [Hn _]. rewrite <- Permutation_middle. exact Hn.
  - intros h'. rewrite <- (proj2 iv_sub0 h'). set_solver.
  - apply iv_com0.
  - apply iv_com0.
Qed.

Lemma chain_at_formatted h c : formatted s h c → chain_at s h = Some (c_write c, 2 * bno s (c_buf c), c_buf c, h).
Proof.
  intros []. unfold chain_at. rewrite fm_3. simpl. rewrite Nat2Z.id, fm_4. simpl. rewrite Nat2Z.id, fm_5. simpl. rewrite fm_ops0. simpl.
  by destruct (c_write c).
Qed.

(** what the device stores: the sectors and the data after the move *)
Definition moved (c : chain) : gmap Z (list byte) * list (list byte) :=
  if c_write c then (write_block (bno s (c_buf c)) (c_val c) (v_sectors s), v_data s)
  else (v_sectors s, <[c_buf c := c_val c]> (v_data s)).
Lemma move_chain h c : R !! h = Some c → c_phase c = Submitted →
  move (c_write c, 2 * bno s (c_buf c), c_buf c, h) s = Some (s <| v_sectors := (moved c).1 |> <| v_data := (moved c).2 |>).
Proof.
  intros Hc Hph. destruct (iv_chain _ _ _ _ _ Hinv h c Hc) as [_ [_ _ _ Hd Hb [[d Hd'] [blk Hb']]]].
  unfold move. rewrite Hb', Hd'. simpl. unfold moved. destruct (c_write c) eqn:Ew.
  - assert (d = c_val c) as -> by (specialize (Hd ltac:(by left)); congruence). by destruct s.
  - assert (blk = c_val c) as -> by (specialize (Hb ltac:(by left)); congruence). by destruct s.
Qed.

Lemma moved_other h c b : R !! h = Some c → bno s (c_buf c) ≠ bno s b →
  (moved c).2 !! b = v_data s !! b ∧ block_of (moved c).1 (bno s b) = block_of (v_sectors s) (bno s b).
Proof.
  intros Hc Hne. unfold moved. destruct (c_write c); simpl; split; try done.
  - by apply block_write_other.
  - apply list_lookup_insert_ne. congruence.
Qed.
Lemma moved_self h c : R !! h = Some c → c_phase c = Submitted →
  (moved c).2 !! c_buf c = Some (c_val c) ∧ block_of (moved c).1 (bno s (c_buf c)) = Some (c_val c).
Proof.
  intros Hc Hph. destruct (iv_chain _ _ _ _ _ Hinv h c Hc) as [_ [_ _ _ Hd Hb [[d Hd'] _]]]. unfold moved. destruct (c_write c); simpl.
  - split; [apply Hd; by left|apply block_write_same].
  - split; [apply list_lookup_insert_eq; by apply lookup_lt_Some in Hd'|apply Hb; by left].
Qed.
Lemma moved_sector h c k bs : R !! h = Some c → (moved c).1 !! k = Some bs → length bs = 512%nat.
Proof.
  intros Hc. unfold moved. destruct (c_write c); simpl; [|apply Hinv]. pose proof (pl_val _ _ _ (proj2 (iv_chain _ _ _ _ _ Hinv h c Hc))) as Hl.
  unfold write_block. intros [[_ <-]|[_ [[_ <-]|[_ H]]%lookup_insert_Some]]%lookup_insert_Some.
  - rewrite length_take. lia.
  - rewrite length_drop. lia.
  - by apply (iv_sector _ _ _ _ _ Hinv k).
Qed.

(** the state after the device has finished the request [id] *)
Definition after (id : nat) (c : chain) (rest : list nat) : vdisk :=
  finish id id (s <| v_sectors := (moved c).1 |> <| v_data := (moved c).2 |> <| v_taken := rest |>).
Lemma placed_after id c rest h c' : R !! id = Some c → c_phase c = Submitted → R !! h = Some c' → h ≠ id → placed (after id c rest) h c'.
Proof.
  intros Hc Hph Hc' Hne. destruct (iv_chain _ _ _ _ _ Hinv h c' Hc') as [_ [Hv Hst Hdk Hd Hb [Hd' Hb']]].
  assert (Hbn : bno s (c_buf c) ≠ bno s (c_buf c')) by (intros E; by apply Hne; apply (iv_blocks _ _ _ _ _ Hinv h c' id c)).
  destruct (moved_other id c (c_buf c') Hc Hbn) as [Ed Eb]. unfold after, finish.
  split; rproj; rewrite ?Ed; try done.
  - by rewrite list_lookup_insert_ne.
  - unfold block_at. rproj. fold (block_of (moved c).1 (bno s (c_buf c'))). by rewrite Eb.
  - unfold block_at. rproj. fold (block_of (moved c).1 (bno s (c_buf c'))). by rewrite Eb.
Qed.
Lemma placed_finished id c rest : R !! id = Some c → c_phase c = Submitted → placed (after id c rest) id (set_phase Completed c).
Proof.
  intros Hc Hph. destruct (iv_chain _ _ _ _ _ Hinv id c Hc) as [_ [Hv Hst Hdk Hd Hb _]]. destruct (moved_self id c Hc Hph) as [Ed Eb].
  unfold after, finish. split; simpl; rproj; rewrite ?Ed; try done.
  - apply list_lookup_insert_eq. by apply lookup_lt_Some in Hst.
  - rewrite Hdk, Hph. done.
Qed.

Lemma used_few id c : R !! id = Some c → c_phase c = Submitted → (length U < NUM)%nat ∧ id ∉ U.
Proof.
  intros Hc Hph. assert (Hi0 := Hinv). destruct Hi0. destruct iv_com0 as [Hn Hs].
  assert (HU : id ∉ U) by (rewrite Hs; intros (c' & Hc' & Hp'); congruence). split; [|done].
  assert (length (id :: U) ≤ NUM)%nat; [|done]. apply few; [by apply NoDup_cons|].
  intros h [->|Hh]%elem_of_cons; [by apply (iv_lt0 id c id Hc), list_elem_of_here|].
  apply Hs in Hh as (c' & Hc' & _). by apply (iv_lt0 h c' h Hc'), list_elem_of_here.
Qed.
Lemma same_insert h c ph : R !! h = Some c → same R (<[h := set_phase ph c]> R).
Proof.
  intros Hc h'. destruct (decide (h' = h)) as [->|Hne]; [by rewrite lookup_insert_eq, Hc|by rewrite lookup_insert_ne].
Qed.
Lemma in_phase_insert h c ph ph' h' : R !! h = Some c →
  in_phase (<[h := set_phase ph c]> R) ph' h' ↔ (h' = h ∧ ph = ph') ∨ (h' ≠ h ∧ in_phase R ph' h').
Proof.
  intros Hc. unfold in_phase. destruct (decide (h' = h)) as [->|Hne].
  - rewrite lookup_insert_eq. split; [intros (? & [= <-] & <-); auto|intros [[_ <-]|[? _]]; [|done]; eauto].
  - rewrite lookup_insert_ne by done. naive_solver.
Qed.

Lemma inv_after id c l1 l2 : v_taken s = l1 ++ id :: l2 → R !! id = Some c → c_phase c = Submitted →
  inv (after id c (l1 ++ l2)) (<[id := set_phase Completed c]> R) P A (U ++ [id]).
Proof.
  intros Ht Hc Hph. destruct (used_few id c Hc Hph) as [Hlen HU].
  assert (Hslot : Z.to_nat (v_uidx s mod Z.of_nat NUM) = Z.to_nat ((v_used_idx s + Z.of_nat (length U)) mod Z.of_nat NUM))
    by (rewrite (iv_uidx _ _ _ _ _ Hinv), u16_index; done).
  apply inv_phase; unfold after, finish; rproj; try apply Hinv; try done.
  - by apply same_insert.
  - rewrite length_insert. apply Hinv.
  - rewrite length_insert. apply Hinv.
  - intros k bs. by apply (moved_sector id).
  - intros h c' [[<- <-]|[Hne Hc']]%lookup_insert_Some; [by apply placed_finished|by apply placed_after].
  - destruct (iv_sub _ _ _ _ _ Hinv) as [Hn _]. rewrite Ht in Hn. rewrite app_assoc in Hn |- *. rewrite <- Permutation_middle in Hn.
    by apply NoDup_cons in Hn as [_ Hn].
  - destruct (iv_sub _ _ _ _ _ Hinv) as [Hn Hs]. intros h. rewrite in_phase_insert by done. rewrite <- Hs, Ht.
    assert (Hid : id ∉ A ++ l1 ++ l2).
    { rewrite Ht, app_assoc, <- Permutation_middle, <- app_assoc in Hn. by apply NoDup_cons in Hn as [Hn _]. }
    split; [|set_solver]. intros Hh. right. split; [set_solver|]. set_solver.
  - rewrite length_app, Nat.add_1_r, seg_snoc, Hslot by done. rewrite seg_insert by lia.
    rewrite (iv_used _ _ _ _ _ Hinv), fmap_app. f_equal. cbn. f_equal. apply list_lookup_total_insert_eq.
    rewrite (iv_uring _ _ _ _ _ Hinv). apply Nat2Z.inj_lt. rewrite Z2Nat.id; apply Z.mod_pos_bound; unfold NUM; lia.
  - rewrite (iv_uidx _ _ _ _ _ Hinv), u16_add, length_app. f_equal. simpl. lia.
  - apply NoDup_app. split_and!; [apply Hinv|set_solver|by apply NoDup_singleton].
  - intros h. rewrite in_phase_insert by done. rewrite <- (proj2 (iv_com _ _ _ _ _ Hinv) h). set_solver.
Qed.

(** a request is submitted once *)
Definition onward (R R' : gmap nat chain) : Prop := same R R' ∧ ∀ h, in_phase R' Submitted h → in_phase R Submitted h.
Lemma inv_dev s' : dev_spec s s' → ∃ R' A' U', inv s' R' P A' U' ∧ onward R R' ∧ dev_frame s'.
Proof.
  intros [Hne|id l1 l2 s2 Ht Hs2].
  - destruct (inv_take Hne) as (h & A' & _ & Eh & Hi). rewrite Eh, Nat2Z.id. exists R, A', U. split_and!; [done|done|]. by split; rproj.
  - destruct (proj1 (proj2 (iv_sub _ _ _ _ _ Hinv) id)) as (c & Hc & Hph); [rewrite Ht; set_solver|].
    destruct (iv_chain _ _ _ _ _ Hinv id c Hc) as [Hf _].
    assert (s2 = after id c (l1 ++ l2)) as ->.
    { rewrite (Hs2 _ _ (chain_at_formatted id c Hf) (move_chain id c Hc Hph)). done. }
    exists (<[id := set_phase Completed c]> R), A, (U ++ [id]). split_and!; [by apply inv_after| |].
    { split; [by apply same_insert|]. intros h. rewrite in_phase_insert by done. naive_solver. }
    unfold after, finish. split; rproj; try done.
    + intros i Hi. apply list_lookup_insert_ne. intros <-. destruct (proj2 (iv_priv _ _ _ _ _ Hinv) id Hi) as [_ Hn].
      by apply (Hn id c Hc), list_elem_of_here.
    + intros b Hb. destruct (moved_other id c b Hc (Hb id c Hc)) as [Ed Eb]. split; [done|]. exact Eb.
Qed.

(** ** Steps of the interrupt handler and of the thread *)

Lemma inv_seen_step h U' : U = h :: U' → ∃ c, R !! h = Some c ∧ c_phase c = Completed ∧
  v_uring s !!! Z.to_nat (v_used_idx s mod Z.of_nat NUM) = Z.of_nat h ∧ v_status s !!! h = 0 ∧ v_info_b s !!! h = Some (c_buf c) ∧
  inv (s <| v_bdisk ::= <[c_buf c := false]> |> <| v_used_idx ::= λ i, u16 (i + 1) |>) (<[h := set_phase Seen c]> R) P A U'.
Proof.
  intros EU. assert (Hi0 := Hinv). destruct Hi0. rewrite EU in iv_used0, iv_uidx0, iv_com0. destruct iv_com0 as [Hn Hs].
  destruct (proj1 (Hs h) ltac:(set_solver)) as (c & Hc & Hph). exists c. destruct (iv_chain0 h c Hc) as [[] [Hv Hst Hdk Hd Hb Hth]].
  cbn [length] in iv_used0, iv_uidx0. rewrite seg_S in iv_used0 by done. rewrite fmap_cons in iv_used0. injection iv_used0 as Hh Hseg.
  apply NoDup_cons in Hn as [HhU Hn]. rewrite Hph in *.
  split_and!; [done|done|done|by apply list_lookup_total_correct|by apply list_lookup_total_correct|].
  apply inv_phase; rproj; try done.
  - by apply same_insert.
  - by rewrite length_insert.
  - intros h' c' [[<- <-]|[Hne Hc']]%lookup_insert_Some.
    + split; rproj; simpl; try done; [|by intros _; apply Hd; right|by intros _; apply Hb; right].
      apply list_lookup_insert_eq. by apply lookup_lt_Some in Hdk.
    + destruct (iv_chain0 h' c' Hc') as [_ []]. split; rproj; try done. rewrite list_lookup_insert_ne; [done|].
      intros E. apply Hne. apply (iv_blocks0 h c h' c'); [done|done|]. by rewrite E.
  - apply iv_sub0.
  - intros h'. rewrite in_phase_insert by done. rewrite <- (proj2 iv_sub0 h'). split; [|set_solver].
    intros Hh'. right. split; [|done]. intros ->. apply (proj2 iv_sub0) in Hh' as (c' & Hc' & Hp'). congruence.
  - apply u16_range.
  - by rewrite seg_u16.
  - rewrite iv_uidx0, u16_add. f_equal. lia.
  - intros h'. rewrite in_phase_insert by done. rewrite <- Hs, elem_of_cons. split.
    + intros Hin. right. split; [by intros ->|by right].
    + by intros [[_ ?]|[? [?|?]]].
Qed.

Lemma inv_done h c : R !! h = Some c → c_phase c = Seen → P = [] →
  inv (s <| v_info_b ::= <[h := None]> |>) (delete h R) (descs h c) A U.
Proof.
  intros Hc Hph EP. assert (Hi0 := Hinv). destruct Hi0.
  assert (Hother : ∀ h' c', delete h R !! h' = Some c' → R !! h' = Some c' ∧ h' ≠ h) by (intros h' c' [? ?]%lookup_delete_Some; done).
  assert (Hph' : ∀ ph h', ph ≠ Seen → in_phase (delete h R) ph h' ↔ in_phase R ph h').
  { intros ph h' Hne. unfold in_phase. destruct (decide (h' = h)) as [->|Hn]; [|by rewrite lookup_delete_ne].
    rewrite lookup_delete_eq. split; [by intros (? & ? & _)|]. intros (c' & Hc' & Hp'). congruence. }
  split; rproj; try done.
  - by rewrite length_insert.
  - intros h' c' i [Hc' _]%Hother. by apply (iv_lt0 h').
  - intros h' c' [Hc' _]%Hother. by apply (iv_nodup0 h').
  - intros h1 c1 h2 c2 i [H1 _]%Hother [H2 _]%Hother. by apply (iv_apart0 h1 c1 h2 c2 i).
  - split; [by apply (iv_nodup0 h)|]. intros i Hi. split; [by apply (iv_lt0 h c)|]. intros h' c' [Hc' Hne]%Hother Hi'. apply Hne.
    by apply (iv_apart0 h' c' h c i).
  - intros i Hi. rewrite iv_free0, EP by done. split.
    + intros [_ Hr]. split; [by apply (Hr h)|]. intros h' c' [Hc' _]%Hother. by apply (Hr h').
    + intros [Hn Hr]. split; [set_solver|]. intros h' c' Hc'. destruct (decide (h' = h)) as [->|Hne]; [congruence|].
      apply (Hr h'). by rewrite lookup_delete_ne.
  - intros h' c' [Hc' Hne]%Hother. destruct (iv_chain0 h' c' Hc') as [[] []]. split; split; rproj; try done. by rewrite list_lookup_insert_ne.
  - intros h1 c1 h2 c2 [H1 _]%Hother [H2 _]%Hother. by apply (iv_blocks0 h1 c1 h2 c2).
  - split; [apply iv_sub0|]. intros h'. rewrite Hph' by done. apply iv_sub0.
  - split; [apply iv_com0|]. intros h'. rewrite Hph' by done. apply iv_com0.
Qed.
End Steps.

Lemma inv_perm s R P P' A U : P ≡ₚ P' → inv s R P A U → inv s R P' A U.
Proof.
  intros HP []. split; try done; [|intros i Hi; rewrite <- HP; by apply iv_free0]. rewrite <- HP.
  split; [apply iv_priv0|]. intros i Hi. apply iv_priv0. by rewrite HP.
Qed.
Lemma inv_regs s R P A U l : inv s R P A U → inv (s <| v_regs := l |>) R P A U.
Proof.
  intros []. split; rproj; try done. intros h c Hc. destruct (iv_chain0 h c Hc) as [[] []]. split; by split; rproj.
Qed.

(** ** The device between two points of the code *)

Section Device.
Context (dev : vdisk → vdisk → Prop) (Hdev : ∀ s s', dev s s' → dev_spec s s').

Lemma dev_frame_refl s R P : dev_frame s R P s.
Proof. by split. Qed.
Lemma dev_frame_trans s R P s1 R1 s2 : same R R1 → dev_frame s R P s1 → dev_frame s1 R1 P s2 → dev_frame s R P s2.
Proof.
  intros Hs [] []. split; try congruence.
  - intros i Hi. by rewrite df_status1, df_status0.
  - intros b Hb. assert (Eb : ∀ b, bno s1 b = bno s b) by (intros b'; unfold bno; by rewrite df_blockno0).
    assert (Hb1 : idle s1 R1 b).
    { intros h c1 (c & Hc & ->)%(same_lookup R _ h c1 Hs). rewrite !Eb. apply (Hb h c Hc). }
    destruct (df_idle0 b Hb) as [<- <-]. destruct (df_idle1 b Hb1) as [-> E]. by rewrite Eb in E.
Qed.
Lemma same_trans R R1 R2 : same R R1 → same R1 R2 → same R R2.
Proof. intros H1 H2 h. by rewrite H1. Qed.
Lemma onward_trans R R1 R2 : onward R R1 → onward R1 R2 → onward R R2.
Proof. intros [H1 H1'] [H2 H2']. split; [by eapply same_trans|auto]. Qed.

Lemma inv_devs s s' : rtc dev s s' → ∀ R P A U, inv s R P A U →
  ∃ R' A' U', inv s' R' P A' U' ∧ onward R R' ∧ dev_frame s R P s'.
Proof.
  induction 1 as [s|s s1 s2 Hd _ IH]; intros R P A U Hi.
  { exists R, A, U. split_and!; [done|done|apply dev_frame_refl]. }
  destruct (inv_dev s R P A U Hi s1 (Hdev _ _ Hd)) as (R1 & A1 & U1 & Hi1 & Hs1 & Hf1).
  destruct (IH R1 P A1 U1 Hi1) as (R2 & A2 & U2 & Hi2 & Hs2 & Hf2). exists R2, A2, U2.
  split_and!; [done|by eapply onward_trans|by eapply dev_frame_trans; [apply Hs1| |]].
Qed.

(** ** Rely and guarantee *)

(** What the other threads, the handler and the device may do while the thread
    that owns the buffer [b] sleeps: its request, if it has one, stays, and
    otherwise its buffer and its block are not touched. *)
Definition others (b : nat) (s s' : vdisk) : Prop := ∀ R A U, inv s R [] A U →
  ∃ R' A' U', inv s' R' [] A' U' ∧ bno s' b = bno s b ∧ length (v_bdisk s') = length (v_bdisk s) ∧
    (∀ h c, R !! h = Some c → c_buf c = b → ∃ ph, R' !! h = Some (set_phase ph c)) ∧
    (idle s R b → idle s' R' b ∧ v_data s' !! b = v_data s !! b ∧
      block_at s' (2 * bno s b) = block_at s (2 * bno s b)).
Definition rely_of (b : nat) (e : vevent) (s s' : vdisk) : Prop :=
  match e with VSleep _ => others b s s' | VWakeup _ => s' = s | VDevice => rtc dev s s' end.
Definition guar_of (e : vevent) (s : vdisk) : Prop :=
  match e with VSleep _ => ∃ R A U, inv s R [] A U | _ => True end.
(** no panic; a waiting loop may run out of its fuel *)
Definition patient (o : option string) : Prop := o = None.
Abbreviation vwp b := (wp patient guar_of (rely_of b)).

(** *** Descriptors *)

Lemma alloc_desc_ok s R P A U : inv s R P A U →
  alloc_desc s = Ok (-1) s ∨
  ∃ i, (i < NUM)%nat ∧ v_free s !! i = Some true ∧ alloc_desc s = Ok (Z.of_nat i) (s <| v_free ::= <[i := false]> |>).
Proof.
  intros Hi. unfold alloc_desc. set (f := λ i : nat, _).
  assert (Hloop : ∀ n k, (k + n ≤ NUM)%nat → for_until (seq k n) f s = Ok None s ∨
    ∃ i, (i < NUM)%nat ∧ v_free s !! i = Some true ∧ for_until (seq k n) f s = Ok (Some (Z.of_nat i)) (s <| v_free ::= <[i := false]> |>)).
  { induction n as [|n IH]; intros k Hk; [by left|]. cbn [seq for_until].
    destruct (lookup_lt_is_Some_2 (v_free s) k) as [x Hx]; [rewrite (iv_free_len _ _ _ _ _ Hi); lia|].
    assert (Ef : f k s = if x then Ok (Some (Z.of_nat k)) (s <| v_free ::= <[k := false]> |>) else Ok None s).
    { unfold f, bind, gets. simpl. rewrite (list_lookup_total_correct _ _ _ Hx). by destruct x. }
    destruct x; rewrite (bind_Ok _ _ _ _ _ Ef).
    - right. exists k. split_and!; [lia|done|done].
    - apply IH. lia. }
  destruct (Hloop NUM 0%nat ltac:(lia)) as [E|(i & Hlt & Hf & E)].
  - left. by rewrite (bind_Ok _ _ _ _ _ E).
  - right. exists i. split_and!; [done|done|]. by rewrite (bind_Ok _ _ _ _ _ E).
Qed.

Definition freed (i : nat) (s : vdisk) : vdisk := s <| v_desc ::= <[i := mkDesc ANull 0 0 0]> |> <| v_free ::= <[i := true]> |>.
Lemma wp_free_desc b s R l1 l2 A U i (Q : unit → vdisk → Prop) : inv s R (l1 ++ i :: l2) A U → Q tt (freed i s) →
  vwp b (free_desc (Z.of_nat i) s) Q.
Proof.
  intros Hi HQ. destruct (inv_unalloc s R _ A U Hi i l1 l2 eq_refl) as [_ Hf].
  assert (Hlt : (i < NUM)%nat) by (apply (iv_priv _ _ _ _ _ Hi); set_solver).
  unfold free_desc. rewrite (proj2 (Z.leb_gt (Z.of_nat NUM) (Z.of_nat i))) by lia. unfold bind at 1, gets. cbn [run_bind]. rewrite Nat2Z.id, Hf.
  cbv iota. simpl. split; [done|]. by intros s' ->.
Qed.

(** only descriptors change *)
Definition calm (s s' : vdisk) : Prop :=
  v_data s' = v_data s ∧ v_sectors s' = v_sectors s ∧ v_blockno s' = v_blockno s ∧ v_bdisk s' = v_bdisk s.
Lemma calm_trans s s1 s2 : calm s s1 → calm s1 s2 → calm s s2.
Proof. unfold calm. intros (? & ? & ? & ?) (? & ? & ? & ?). split_and!; congruence. Qed.
Lemma calm_alloc i s : calm s (s <| v_free ::= <[i := false]> |>).
Proof. done. Qed.
Lemma calm_freed i s : calm s (freed i s).
Proof. done. Qed.

Lemma wp_alloc3 b s R A U (Q : option (list Z) → vdisk → Prop) : inv s R [] A U →
  (∀ i0 i1 i2 s', inv s' R [i0; i1; i2] A U → calm s s' → Q (Some [Z.of_nat i0; Z.of_nat i1; Z.of_nat i2]) s') →
  (∀ s', inv s' R [] A U → calm s s' → Q None s') →
  vwp b (alloc3_desc s) Q.
Proof.
  intros Hi HS HN. unfold alloc3_desc. cbn [alloc3_loop].
  destruct (alloc_desc_ok s R [] A U Hi) as [E|(i0 & H0 & F0 & E)]; rewrite (bind_Ok _ _ _ _ _ E); [by apply HN|].
  rewrite (proj2 (Z.ltb_ge (Z.of_nat i0) 0)) by lia. assert (Hi1 := inv_alloc s R [] A U Hi i0 F0).
  set (s1 := s <| v_free ::= <[i0 := false]> |>) in *. assert (C1 : calm s s1) by done. clearbody s1.
  destruct (alloc_desc_ok s1 R _ A U Hi1) as [E1|(i1 & H1 & F1 & E1)]; rewrite (bind_Ok _ _ _ _ _ E1).
  { cbn [app for_each]. change (-1 <? 0) with true. cbv iota. do 2 apply wp_bind. apply (wp_free_desc b s1 R [] [] A U i0 _ Hi1). cbn [ret run_bind wp].
    apply HN; [apply (inv_unalloc s1 R [i0] A U Hi1 i0 [] [] eq_refl)|by eapply calm_trans]. }
  rewrite (proj2 (Z.ltb_ge (Z.of_nat i1) 0)) by lia. assert (Hi2 := inv_alloc s1 R _ A U Hi1 i1 F1).
  set (s2 := s1 <| v_free ::= <[i1 := false]> |>) in *. assert (C2 : calm s s2) by (by eapply calm_trans). clearbody s2.
  destruct (alloc_desc_ok s2 R _ A U Hi2) as [E2|(i2 & H2 & F2 & E2)]; rewrite (bind_Ok _ _ _ _ _ E2).
  { cbn [app for_each]. change (-1 <? 0) with true. cbv iota. do 2 apply wp_bind. apply (wp_free_desc b s2 R [i1] [] A U i0 _ Hi2).
    assert (Hf0 := proj1 (inv_unalloc s2 R [i1; i0] A U Hi2 i0 [i1] [] eq_refl)). cbn [app] in Hf0. fold (freed i0 s2) in Hf0.
    apply wp_bind. apply (wp_free_desc b _ R [] [] A U i1 _ Hf0). cbn [ret run_bind wp].
    apply HN; [apply (inv_unalloc _ R [i1] A U Hf0 i1 [] [] eq_refl)|]. eapply calm_trans; [exact C2|done]. }
  rewrite (proj2 (Z.ltb_ge (Z.of_nat i2) 0)) by lia. assert (Hi3 := inv_alloc s2 R _ A U Hi2 i2 F2).
  cbn [app ret wp]. apply HS; [|by eapply calm_trans]. revert Hi3. apply inv_perm. solve_Permutation.
Qed.

(** *** The request of a thread *)

(** what the thread knows of its buffer [b]: its block and its data *)
Record mine (b : nat) (bn : Z) (d blk : list byte) (s : vdisk) : Prop := {
  mn_bno : bno s b = bn;
  mn_range : 0 ≤ bn < 2 ^ 31;
  mn_buf : (b < length (v_bdisk s))%nat;
  mn_data : v_data s !! b = Some d;
  mn_block : block_at s (2 * bn) = Some blk
}.
Lemma mine_calm b bn d blk s s' : calm s s' → mine b bn d blk s → mine b bn d blk s'.
Proof. intros (E1 & E2 & E3 & E4) []. split; unfold bno, block_at; rewrite ?E1, ?E2, ?E3, ?E4; done. Qed.
Lemma idle_calm b s s' R : calm s s' → idle s R b → idle s' R b.
Proof. intros (_ & _ & E & _) Hb h c Hc. unfold bno. rewrite E. by apply (Hb h c). Qed.
Lemma block_length s R P A U k blk : inv s R P A U → block_at s k = Some blk → length blk = 1024%nat.
Proof.
  intros Hi (lo & Hlo & (hi & Hhi & [= <-])%bind_Some)%bind_Some. rewrite length_app.
  by rewrite (iv_sector _ _ _ _ _ Hi _ _ Hlo), (iv_sector _ _ _ _ _ Hi _ _ Hhi).
Qed.

Definition requested (b : nat) (write : bool) (sector : Z) (i0 i1 i2 : nat) (s : vdisk) : vdisk :=
  s <| v_desc := <[i2 := mkDesc (AStatus i0) 1 2 0]> (<[i1 := mkDesc (AData b) BSIZE (if write then 1 else 3) (Z.of_nat i2)]>
                   (<[i0 := mkDesc (AOps i0) 16 1 (Z.of_nat i1)]> (v_desc s))) |>
    <| v_ops := <[i0 := mkReq (if write then 1 else 0) 0 sector]> (v_ops s) |>
    <| v_status := <[i0 := 0xff]> (v_status s) |> <| v_bdisk := <[b := true]> (v_bdisk s) |>
    <| v_info_b := <[i0 := Some b]> (v_info_b s) |>.
Definition in_ring (i0 : nat) (s : vdisk) : vdisk :=
  s <| v_avail_ring ::= <[Z.to_nat (v_avail_idx s mod Z.of_nat NUM) := Z.of_nat i0]> |>.
Lemma format_ok b write sector i0 i1 i2 s :
  format_request b write sector (Z.of_nat i0) (Z.of_nat i1) (Z.of_nat i2) s = Ok tt (in_ring i0 (requested b write sector i0 i1 i2 s)).
Proof. destruct s. unfold format_request, set_desc. rewrite !Nat2Z.id. by destruct write. Qed.

Section Request.
Context (b : nat) (bn : Z) (write : bool) (i0 i1 i2 : nat).
Definition the_chain (val : list byte) : chain := mkChain i1 i2 b write val Submitted.
Context (s : vdisk) (R : gmap nat chain) (A U : list nat) (Hinv : inv s R [i0; i1; i2] A U) (Hidle : idle s R b).

Lemma private_distinct : i0 ≠ i1 ∧ i0 ≠ i2 ∧ i1 ≠ i2 ∧ (i0 < NUM)%nat ∧ (i1 < NUM)%nat ∧ (i2 < NUM)%nat.
Proof.
  destruct (iv_priv _ _ _ _ _ Hinv) as [Hn Hp]. apply NoDup_cons in Hn as [H0 Hn]. apply NoDup_cons in Hn as [H1 _].
  split_and!; [set_solver..|apply Hp; set_solver|apply Hp; set_solver|apply Hp; set_solver].
Qed.
Lemma inv_requested sector : inv (in_ring i0 (requested b write sector i0 i1 i2 s)) R [i0; i1; i2] A U.
Proof.
  apply (inv_ring _ _ [i0; i1; i2] _ _) with (i := i0); [|set_solver]. apply (inv_private s R _ A U Hinv _ _ _ _ _ b); rewrite ?length_insert; try apply Hinv; try done.
  - intros i Hi. rewrite !list_lookup_insert_ne by set_solver. done.
  - intros b' Hb'. by rewrite list_lookup_insert_ne.
  - intros h c Hc E. apply (Hidle h c Hc). by rewrite E.
Qed.
Lemma formatted_requested val : 0 ≤ bno s b < 2 ^ 31 → (b < length (v_bdisk s))%nat →
  formatted (in_ring i0 (requested b write (2 * bno s b) i0 i1 i2 s)) i0 (the_chain val).
Proof.
  intros Hbn Hb. destruct private_distinct as (H01 & H02 & H12 & L0 & L1 & L2). assert (Hi0 := Hinv). destruct Hi0.
  unfold in_ring, requested. split; rproj; simpl; try done; rewrite ?length_insert; try done.
  - rewrite !list_lookup_insert_ne by done. apply list_lookup_insert_eq. lia.
  - rewrite list_lookup_insert_ne by done. apply list_lookup_insert_eq. rewrite length_insert. lia.
  - apply list_lookup_insert_eq. rewrite !length_insert. lia.
  - apply list_lookup_insert_eq. lia.
  - apply list_lookup_insert_eq. lia.
Qed.
Lemma placed_requested sector d blk : mine b bn d blk s → length d = 1024%nat →
  placed (in_ring i0 (requested b write sector i0 i1 i2 s)) i0 (the_chain (if write then d else blk)).
Proof.
  intros [] Hd. destruct private_distinct as (_ & _ & _ & L0 & _).
  assert (Eb : ∀ b', bno (in_ring i0 (requested b write sector i0 i1 i2 s)) b' = bno s b') by done.
  assert (Ek : ∀ k, block_at (in_ring i0 (requested b write sector i0 i1 i2 s)) k = block_at s k) by done.
  split; rewrite ?Eb, ?Ek; cbn [the_chain c_val c_phase c_buf c_write]; unfold in_ring, requested; rproj; rewrite ?mn_bno0; try done.
  - destruct write; [done|]. by apply (block_length s R [i0; i1; i2] A U (2 * bn)).
  - apply list_lookup_insert_eq. rewrite (iv_status _ _ _ _ _ Hinv). done.
  - by apply list_lookup_insert_eq.
  - by intros [->|?].
  - by intros [->|?].
Qed.
Lemma ring_requested sector : let s' := in_ring i0 (requested b write sector i0 i1 i2 s) in
  v_avail_ring s' !!! Z.to_nat (v_avail_idx s' mod Z.of_nat NUM) = Z.of_nat i0.
Proof.
  apply list_lookup_total_insert_eq. change (v_avail_ring (requested _ _ _ _ _ _ _)) with (v_avail_ring s). rewrite (iv_aring _ _ _ _ _ Hinv).
  apply Nat2Z.inj_lt. rewrite Z2Nat.id; apply Z.mod_pos_bound; unfold NUM; lia.
Qed.
End Request.

Lemma request_dev s R P s' h c : dev_frame s R P s' → h ∈ P → idle s R (c_buf c) → c_phase c = Submitted →
  formatted s h c → placed s h c → formatted s' h c ∧ placed s' h c.
Proof.
  intros [] Hh Hb Hph [] []. destruct (df_idle0 _ Hb) as [Ed Ek].
  assert (Eb : bno s' (c_buf c) = bno s (c_buf c)) by (unfold bno; by rewrite df_blockno0).
  split; split; rewrite ?Eb, ?df_desc0, ?df_ops0, ?df_info0, ?df_bdisk0, ?df_status0, ?Ed, ?Ek; done.
Qed.

(** the loop that waits for the device *)
Lemma wp_wait fuel b s R A U h c : inv s R [] A U → R !! h = Some c → c_buf c = b →
  vwp b (iterate fuel (λ _ : unit,
    let* d := gets (λ s, v_bdisk s !!! b) in
    if (d : bool) then emit (VSleep (ChDone b)) ;;; ret (inl tt) else ret (inr tt)) tt s)
  (λ _ s', bno s' b = bno s b ∧ ∃ R' A' U', inv s' R' [] A' U' ∧ R' !! h = Some (set_phase Seen c)).
Proof.
  intros Hi Hc Hb.
  apply (wp_iterate _ _ _ _ (λ _ s', bno s' b = bno s b ∧ ∃ R' A' U' ph, inv s' R' [] A' U' ∧ R' !! h = Some (set_phase ph c))); [done| |].
  { split; [done|]. exists R, A, U, (c_phase c). split; [done|]. rewrite Hc. by destruct c. }
  intros _ s1 (Eb & R1 & A1 & U1 & ph & Hi1 & Hc1). unfold bind at 1, gets. cbn [run_bind].
  destruct (iv_chain _ _ _ _ _ Hi1 _ _ Hc1) as [_ Hpl]. pose proof (pl_disk _ _ _ Hpl) as Hdk. cbn [set_phase c_buf c_phase] in Hdk.
  rewrite Hb in Hdk. rewrite (list_lookup_total_correct _ _ _ Hdk). destruct (decide (ph = Seen)) as [->|Hne].
  { rewrite bool_decide_eq_true_2 by done. cbn. split; [done|]. eauto. }
  rewrite bool_decide_eq_false_2 by done. cbn. split; [eauto|]. intros s2 Ho.
  destruct (Ho R1 A1 U1 Hi1) as (R2 & A2 & U2 & Hi2 & Eb2 & _ & Hk & _). split; [congruence|].
  destruct (Hk h _ Hc1 Hb) as [ph2 Hc2]. exists R2, A2, U2, ph2. split; [done|]. exact Hc2.
Qed.

Lemma wp_free_chain b s R A U h c (Q : unit → vdisk → Prop) : inv s R (descs h c) A U → formatted (s <| v_info_b ::= <[h := Some (c_buf c)]> |>) h c →
  (∀ s', inv s' R [] A U → calm s s' → Q tt s') → vwp b (free_chain (Z.of_nat h) s) Q.
Proof.
  intros Hi [F0 F1 F2 _ _ _ _] HQ. rproj. destruct (iv_priv _ _ _ _ _ Hi) as [Hn _]. unfold descs in Hn.
  apply NoDup_cons in Hn as [Hn0 Hn]. apply NoDup_cons in Hn as [Hn1 _].
  unfold free_chain. change NUM with (S (S (S 5))). generalize 5%nat as k. intros k. cbn [iterate].
  apply wp_bind. unfold bind at 1, gets. cbn [run_bind]. rewrite Nat2Z.id, (list_lookup_total_correct _ _ _ F0).
  apply wp_bind. apply (wp_free_desc b s R [] _ A U h _ Hi). cbn [de_flags de_next ret wp]. change (negb (Z.land 1 VRING_DESC_F_NEXT =? 0)) with true. cbn [ret wp].
  assert (Hi1 := proj1 (inv_unalloc s R _ A U Hi h [] _ eq_refl)). cbn [app] in Hi1. fold (freed h s) in Hi1.
  apply wp_bind. unfold bind at 1, gets. cbn [run_bind]. rewrite Nat2Z.id.
  assert (G1 : v_desc (freed h s) !! c_mid c = v_desc s !! c_mid c) by (apply list_lookup_insert_ne; set_solver).
  rewrite (list_lookup_total_correct _ _ _ (eq_trans G1 F1)).
  apply wp_bind. apply (wp_free_desc b _ R [] _ A U (c_mid c) _ Hi1). cbn [de_flags de_next ret wp].
  assert (Ef : negb (Z.land (if c_write c then 1 else 3) VRING_DESC_F_NEXT =? 0) = true) by (by destruct (c_write c)). rewrite Ef. cbn [ret wp].
  assert (Hi2 := proj1 (inv_unalloc _ R _ A U Hi1 (c_mid c) [] _ eq_refl)). cbn [app] in Hi2. fold (freed (c_mid c) (freed h s)) in Hi2.
  apply wp_bind. unfold bind at 1, gets. cbn [run_bind]. rewrite Nat2Z.id.
  assert (G2 : v_desc (freed (c_mid c) (freed h s)) !! c_last c = v_desc s !! c_last c).
  { unfold freed. rproj. rewrite !list_lookup_insert_ne by set_solver. done. }
  rewrite (list_lookup_total_correct _ _ _ (eq_trans G2 F2)).
  apply wp_bind. apply (wp_free_desc b _ R [] _ A U (c_last c) _ Hi2). cbn [de_flags de_next ret wp].
  change (negb (Z.land 2 VRING_DESC_F_NEXT =? 0)) with false. cbn [ret wp]. apply HQ; [|done].
  exact (proj1 (inv_unalloc _ R _ A U Hi2 (c_last c) [] _ eq_refl)).
Qed.

(** the loop that waits for three free descriptors *)
Lemma wp_alloc fuel b bn d blk s R A U : inv s R [] A U → idle s R b → mine b bn d blk s →
  vwp b (iterate fuel (λ _ : unit,
    let* r := alloc3_desc in
    match r with
    | Some idx => ret (inr idx)
    | None => emit (VSleep ChFree) ;;; ret (inl tt)
    end) tt s)
  (λ idx s', ∃ i0 i1 i2 R' A' U', idx = [Z.of_nat i0; Z.of_nat i1; Z.of_nat i2] ∧
     inv s' R' [i0; i1; i2] A' U' ∧ idle s' R' b ∧ mine b bn d blk s').
Proof.
  intros Hi Hb Hm.
  apply (wp_iterate _ _ _ _ (λ _ s', ∃ R' A' U', inv s' R' [] A' U' ∧ idle s' R' b ∧ mine b bn d blk s')); [done|eauto 10|].
  clear s R A U Hi Hb Hm. intros _ s (R & A & U & Hi & Hb & Hm). apply wp_bind. apply (wp_alloc3 b s R A U); [done| |].
  - intros i0 i1 i2 s' Hi' Hc. cbn [ret wp]. exists i0, i1, i2, R, A, U.
    split_and!; [done|done|by eapply idle_calm|by eapply mine_calm].
  - intros s' Hi' Hc. cbn. split; [eauto|]. intros s2 Ho. apply (idle_calm b _ _ _ Hc) in Hb. apply (mine_calm _ _ _ _ _ _ Hc) in Hm.
    destruct (Ho R A U Hi') as (R2 & A2 & U2 & Hi2 & Eb & El & _ & Hid). destruct (Hid Hb) as (Hb2 & Ed & Ek).
    exists R2, A2, U2. split_and!; [done|done|]. destruct Hm. rewrite mn_bno0 in *. split; congruence.
Qed.

(** the request is with the device; [c] is what the thread put in the ring *)
Definition submitted (b : nat) (bn : Z) (h : nat) (c : chain) (s : vdisk) : Prop :=
  bno s b = bn ∧ ∃ R A U ph, inv s R [] A U ∧ R !! h = Some (set_phase ph c).
Lemma wp_submit b bn write d blk i0 i1 i2 s R A U (m : V unit) (Q : unit → vdisk → Prop) :
  inv s R [i0; i1; i2] A U → idle s R b → mine b bn d blk s → length d = 1024%nat →
  (∀ s', submitted b bn i0 (the_chain b write i1 i2 (if write then d else blk)) s' → vwp b (m s') Q) →
  vwp b ((format_request b write (2 * bn) (Z.of_nat i0) (Z.of_nat i1) (Z.of_nat i2) ;;; emit VDevice ;;;
          modify (λ s, s <| v_avail_idx ::= λ i, u16 (i + 1) |>) ;;; emit VDevice ;;; set_reg VIRTIO_MMIO_QUEUE_NOTIFY 0 ;;; m) s) Q.
Proof.
  intros Hi Hb Hm Hd HQ. rewrite (bind_Ok _ _ _ _ _ (format_ok b write (2 * bn) i0 i1 i2 s)).
  set (c := the_chain b write i1 i2 (if write then d else blk)) in *.
  assert (Hi1 := inv_requested b write i0 i1 i2 s R A U Hi Hb (2 * bn)).
  assert (Hf1 : formatted (in_ring i0 (requested b write (2 * bn) i0 i1 i2 s)) i0 c).
  { destruct Hm. rewrite <- mn_bno0 in *. by eapply formatted_requested. }
  assert (Hp1 := placed_requested b bn write i0 i1 i2 s R A U Hi Hb (2 * bn) d blk Hm Hd). fold c in Hp1.
  assert (Hr1 := ring_requested b write i0 i1 i2 s R A U Hi (2 * bn)).
  assert (Hb1 : idle (in_ring i0 (requested b write (2 * bn) i0 i1 i2 s)) R b) by exact Hb.
  assert (En1 : bno (in_ring i0 (requested b write (2 * bn) i0 i1 i2 s)) b = bn) by apply Hm.
  revert Hi1 Hf1 Hp1 Hr1 Hb1 En1. generalize (in_ring i0 (requested b write (2 * bn) i0 i1 i2 s)). clear s Hi Hb Hm.
  intros s Hi Hf Hp Hr Hb En. cbn. split; [done|]. intros s1 Hs1.
  destruct (inv_devs _ _ Hs1 R _ A U Hi) as (R1 & A1 & U1 & Hi1 & [Hsame _] & Hfr).
  destruct (request_dev s R _ s1 i0 c Hfr ltac:(set_solver) Hb eq_refl Hf Hp) as [Hf1 Hp1].
  assert (Eb : ∀ b', bno s1 b' = bno s b') by (intros b'; unfold bno; by rewrite (df_blockno _ _ _ _ Hfr)).
  assert (Hne : ∀ h' c', R1 !! h' = Some c' → bno s1 (c_buf c') ≠ bno s1 (c_buf c)).
  { intros h' c' (c0 & Hc0 & Ec)%(same_lookup R _ _ _ Hsame). rewrite !Eb, Ec. apply (Hb h' c0 Hc0). }
  assert (Hi2 := inv_submit s1 R1 _ A1 U1 Hi1 i0 c eq_refl ltac:(by rewrite (df_ring _ _ _ _ Hfr), (df_idx _ _ _ _ Hfr)) Hf1 Hp1 eq_refl Hne).
  cbn. split; [done|]. intros s2 Hs2.
  destruct (inv_devs _ _ Hs2 _ _ _ _ Hi2) as (R3 & A3 & U3 & Hi3 & [Hsame3 _] & Hfr3). apply HQ.
  split; [unfold bno; rproj; rewrite (df_blockno _ _ _ _ Hfr3); rproj; fold (bno s1 b); by rewrite Eb|].
  exists R3, A3, U3. specialize (Hsame3 i0). rewrite lookup_insert_eq in Hsame3. destruct (R3 !! i0) as [c'|] eqn:E; [|done].
  exists (c_phase c'). split; [by apply inv_regs|]. injection Hsame3 as ? ? ? ? ?. destruct c'. unfold set_phase. simpl in *. congruence.
Qed.

(** the wait, and the descriptors go back *)
Lemma wp_finish fuel b bn h c s (Q : unit → vdisk → Prop) : submitted b bn h c s → c_buf c = b →
  (∀ s' R A U, inv s' R [] A U → idle s' R b → mine b bn (c_val c) (c_val c) s' → v_bdisk s' !! b = Some false → Q tt s') →
  vwp b ((iterate fuel (λ _ : unit,
      let* d := gets (λ s, v_bdisk s !!! b) in
      if (d : bool) then emit (VSleep (ChDone b)) ;;; ret (inl tt) else ret (inr tt)) tt ;;;
    modify (λ s, s <| v_info_b ::= <[Z.to_nat (Z.of_nat h) := None]> |>) ;;; free_chain (Z.of_nat h)) s) Q.
Proof.
  intros (En & R0 & A0 & U0 & ph & Hi0 & Hc0) Hcb HQ.
  eapply wp_bind'; [by apply (wp_wait fuel b s R0 A0 U0 h _ Hi0 Hc0)|]. intros [] s1 (En1 & R & A & U & Hi & Hc). rewrite En in En1.
  change (set_phase Seen (set_phase ph c)) with (set_phase Seen c) in Hc.
  rewrite Nat2Z.id. unfold bind at 1, modify. cbn [run_bind].
  destruct (iv_chain _ _ _ _ _ Hi h _ Hc) as [Hf Hp].
  apply (wp_free_chain b _ (delete h R) A U h (set_phase Seen c)).
  - by apply (inv_done s1 R [] A U Hi).
  - destruct Hf. split; rproj; try done. apply list_lookup_insert_eq. rewrite length_insert. by apply lookup_lt_Some in fm_b0.
  - intros s' Hi' Hcalm. destruct Hcalm as (E1 & E2 & E3 & E4). rproj. destruct Hf, Hp. cbn [set_phase c_buf c_val c_phase c_write] in *.
    rewrite Hcb in *. assert (Eb : ∀ b', bno s' b' = bno s1 b') by (intros b'; unfold bno; by rewrite E3).
    apply (HQ s' (delete h R) A U Hi').
    + intros h' c' [Hne Hc']%lookup_delete_Some. rewrite !Eb. intros E. apply Hne.
      apply (iv_blocks _ _ _ _ _ Hi h _ h' c' Hc Hc'). cbn [set_phase c_buf]. by rewrite Hcb.
    + rewrite En1 in *. split; [by rewrite Eb|done|by rewrite E4|rewrite E1; apply pl_data0; by right|].
      unfold block_at. rewrite E2. apply pl_block0. by right.
    + by rewrite E4.
Qed.
End Device.


(** ** The interrupt handler *)

Section Handler.
Context (dev : vdisk → vdisk → Prop) (Hdev : ∀ s s', dev s s' → dev_spec s s').

(** the requests that the handler has not seen *)
Definition waiting (s : vdisk) (i : nat) : bool :=
  match v_info_b s !!! i with Some b => v_bdisk s !!! b | None => false end.
Definition unseen (s : vdisk) : nat := length (filter (λ i, waiting s i = true) (seq 0 NUM)).
Lemma unseen_le s : (unseen s ≤ NUM)%nat.
Proof. unfold unseen. etrans; [apply length_filter|]. by rewrite length_seq. Qed.
Lemma unseen_lt s s' h : (h < NUM)%nat → waiting s h = true → waiting s' h = false →
  (∀ i, waiting s' i = true → waiting s i = true) → (unseen s' < unseen s)%nat.
Proof.
  intros Hh H1 H2 Hall. unfold unseen.
  assert (Hin : h ∈ filter (λ i, waiting s i = true) (seq 0 NUM)) by (apply list_elem_of_filter; split; [done|]; apply elem_of_seq; lia).
  apply list_elem_of_split in Hin as (l1 & l2 & E). rewrite E, length_app. cbn [length].
  assert (Hsub : filter (λ i, waiting s' i = true) (seq 0 NUM) ⊆+ l1 ++ l2).
  { apply NoDup_submseteq; [apply NoDup_filter, NoDup_seq|]. intros i [Hi Hs]%list_elem_of_filter.
    assert (Hi' : i ∈ l1 ++ h :: l2) by (rewrite <- E; apply list_elem_of_filter; auto).
    assert (i ≠ h) by congruence. set_solver. }
  apply submseteq_length in Hsub. rewrite length_app in Hsub. lia.
Qed.

(** what a step of the handler or of the device keeps of the requests *)
Definition handled (s s' : vdisk) (R R' : gmap nat chain) : Prop :=
  onward R R' ∧ v_blockno s' = v_blockno s ∧ length (v_bdisk s') = length (v_bdisk s) ∧
  ∀ b, idle s R b → v_data s' !! b = v_data s !! b ∧ block_at s' (2 * bno s b) = block_at s (2 * bno s b).
Lemma handled_idle s s' R R' b : handled s s' R R' → idle s R b → idle s' R' b.
Proof.
  intros ([Hs _] & E & _) Hb h c' (c & Hc & Ec)%(same_lookup R _ _ _ Hs). unfold bno. rewrite E, Ec. apply (Hb h c Hc).
Qed.
Lemma handled_trans s s1 s2 R R1 R2 : handled s s1 R R1 → handled s1 s2 R1 R2 → handled s s2 R R2.
Proof.
  intros H1 H2. assert (Hid := λ b, handled_idle s s1 R R1 b H1). destruct H1 as (O1 & E1 & L1 & D1), H2 as (O2 & E2 & L2 & D2).
  split_and!; [by eapply onward_trans|congruence|congruence|]. intros b Hb.
  destruct (D1 b Hb) as [<- <-], (D2 b (Hid b Hb)) as [-> D]. split; [done|]. unfold bno in *. by rewrite E1 in D.
Qed.
Lemma handled_dev s s' R : dev_frame s R [] s' → ∀ R', onward R R' → handled s s' R R'.
Proof. intros [] R' Ho. split_and!; [done|done|by rewrite df_bdisk0|done]. Qed.
Lemma handled_others s s' R R' A' U' : handled s s' R R' → inv s' R' [] A' U' → ∀ b,
  bno s' b = bno s b ∧ length (v_bdisk s') = length (v_bdisk s) ∧
    (∀ h c, R !! h = Some c → c_buf c = b → ∃ ph, R' !! h = Some (set_phase ph c)) ∧
    (idle s R b → idle s' R' b ∧ v_data s' !! b = v_data s !! b ∧ block_at s' (2 * bno s b) = block_at s (2 * bno s b)).
Proof.
  intros H Hi b. assert (Hid := handled_idle s s' R R' b H). destruct H as ([Hs _] & E & L & D).
  split_and!; [unfold bno; by rewrite E|done| |auto]. intros h c Hc _. specialize (Hs h). rewrite Hc in Hs.
  destruct (R' !! h) as [c'|]; [|done]. exists (c_phase c'). injection Hs as ? ? ? ? ?. destruct c'. unfold set_phase. simpl in *. congruence.
Qed.

(** from [s] with the requests [R], the handler is at [s'] *)
Definition handling (s : vdisk) (R : gmap nat chain) (s' : vdisk) : Prop :=
  ∃ R' A' U', inv s' R' [] A' U' ∧ handled s s' R R'.
Lemma handling_dev s R s1 s2 : handling s R s1 → rtc dev s1 s2 → handling s R s2 ∧ unseen s2 = unseen s1 ∧ v_used_idx s2 = v_used_idx s1.
Proof.
  intros (R1 & A1 & U1 & Hi1 & Hh1) Hs. destruct (inv_devs dev Hdev _ _ Hs _ _ _ _ Hi1) as (R2 & A2 & U2 & Hi2 & Ho & Hf). split.
  - exists R2, A2, U2. split; [done|]. eapply handled_trans; [done|]. by apply handled_dev.
  - unfold unseen, waiting. by rewrite (df_info _ _ _ _ Hf), (df_bdisk _ _ _ _ Hf), (df_used _ _ _ _ Hf).
Qed.

(** the device adds to the used ring *)
Lemma used_kept s R A U s' R' A' U' : inv s R [] A U → inv s' R' [] A' U' → onward R R' → v_bdisk s' = v_bdisk s →
  U ≠ [] → ∃ h U1, U' = h :: U1.
Proof.
  intros Hi Hi' [Hs Ho] Eb HU. destruct U as [|h U1]; [done|]. clear HU.
  destruct (proj1 (proj2 (iv_com _ _ _ _ _ Hi) h) ltac:(set_solver)) as (c & Hc & Hph).
  assert (Hc' : ∃ c', R' !! h = Some c' ∧ c_buf c' = c_buf c).
  { specialize (Hs h). rewrite Hc in Hs. destruct (R' !! h) as [c'|]; [|done]. exists c'. by injection Hs as ? ? ? ? ?. }
  destruct Hc' as (c' & Hc' & Ec). assert (Hd := pl_disk _ _ _ (proj2 (iv_chain _ _ _ _ _ Hi h c Hc))).
  assert (Hd' := pl_disk _ _ _ (proj2 (iv_chain _ _ _ _ _ Hi' h c' Hc'))). rewrite Ec, Eb, Hd, Hph in Hd'.
  assert (Hin : h ∈ U').
  { apply (proj2 (iv_com _ _ _ _ _ Hi')). exists c'. split; [done|]. destruct (c_phase c') eqn:E; [|done|done].
    destruct (Ho h) as (c1 & Hc1 & Hp1); [by exists c'|]. congruence. }
  destruct U'; [set_solver|eauto].
Qed.

(** one entry of the used ring *)
Lemma handling_step s R s1 R1 A1 h U1 : inv s1 R1 [] A1 (h :: U1) → handled s s1 R R1 → ∃ b,
  v_uring s1 !!! Z.to_nat (v_used_idx s1 mod Z.of_nat NUM) = Z.of_nat h ∧ v_status s1 !!! h = 0 ∧ v_info_b s1 !!! h = Some b ∧
  (let s2 := s1 <| v_bdisk ::= <[b := false]> |> <| v_used_idx ::= λ i, u16 (i + 1) |> in
   handling s R s2 ∧ (unseen s2 < unseen s1)%nat).
Proof.
  intros Hi Hh. destruct (inv_seen_step s1 R1 [] A1 _ Hi h U1 eq_refl) as (c & Hc & Hph & Er & Est & Eb & Hi2).
  exists (c_buf c). split_and!; [done..|]. cbv zeta. split.
  - eexists _, _, _. split; [exact Hi2|]. eapply handled_trans; [exact Hh|]. split_and!; [|done|by rproj; rewrite length_insert|done].
    split; [by apply same_insert|]. intros h'. rewrite in_phase_insert by done. naive_solver.
  - destruct (iv_chain _ _ _ _ _ Hi h c Hc) as [_ Hp]. pose proof (pl_disk _ _ _ Hp) as Hdk. rewrite Hph in Hdk.
    apply (unseen_lt s1 _ h).
    + by apply (iv_lt _ _ _ _ _ Hi h c h Hc), list_elem_of_here.
    + unfold waiting. rewrite Eb. by apply list_lookup_total_correct.
    + unfold waiting. rproj. rewrite Eb. apply list_lookup_total_insert_eq. by apply lookup_lt_Some in Hdk.
    + intros i. unfold waiting. rproj. destruct (v_info_b s1 !!! i) as [b|]; [|done].
      destruct (decide (b = c_buf c)) as [->|Hne]; [|by rewrite list_lookup_total_insert_ne].
      rewrite list_lookup_total_insert_eq by (by apply lookup_lt_Some in Hdk). done.
Qed.

Definition all_seen (s : vdisk) (R : gmap nat chain) (s' : vdisk) : Prop :=
  ∃ R' A', inv s' R' [] A' [] ∧ handled s s' R R'.
Lemma wp_intr istatus b s R A U : inv s R [] A U →
  wp (λ _, False) guar_of (rely_of dev b) (virtio_disk_intr (S NUM) istatus s) (λ _, all_seen s R).
Proof.
  intros Hi. unfold virtio_disk_intr, set_reg. unfold bind at 1, modify. cbn [run_bind].
  assert (H0 : handling s R (s <| v_regs ::= λ l, l ++ [(VIRTIO_MMIO_INTERRUPT_ACK, Z.land istatus 3)] |>)).
  { exists R, A, U. split; [by apply inv_regs|done]. }
  apply wp_emit; [done|]. intros s1 Hs1. destruct (handling_dev s R _ s1 H0 Hs1) as [H1 _].
  apply (wp_iterate_lt _ _ _ _ (λ _, handling s R) _ unseen); [pose proof (unseen_le s1); unfold NUM in *; lia|done|].
  clear s1 Hs1 H1 H0 Hi. intros _ s1 H1. apply wp_emit; [done|]. intros s2 Hs2.
  destruct (handling_dev s R s1 s2 H1 Hs2) as (H2 & En2 & _). destruct H2 as (R2 & A2 & U2 & Hi2 & Hh2).
  unfold bind at 1, gets at 1. cbn [run_bind]. destruct (v_used_idx s2 =? v_uidx s2) eqn:Eq; cbn [negb].
  { apply Z.eqb_eq in Eq. exists R2, A2. split; [|done]. destruct U2 as [|h U2]; [done|]. exfalso.
    assert (Hl : (length (h :: U2) ≤ NUM)%nat).
    { apply few; [apply Hi2|]. intros i (c & Hc & _)%(proj2 (iv_com _ _ _ _ _ Hi2)). by apply (iv_lt _ _ _ _ _ Hi2 i c i Hc), list_elem_of_here. }
    pose proof (u16_same _ (Z.of_nat (length (h :: U2))) (iv_used_idx _ _ _ _ _ Hi2) ltac:(unfold NUM in Hl; lia)
      (eq_trans (eq_sym (iv_uidx _ _ _ _ _ Hi2)) (eq_sym Eq))) as Hu. simpl in Hu. lia. }
  apply wp_emit; [done|]. intros s3 Hs3. destruct (inv_devs dev Hdev _ _ Hs3 _ _ _ _ Hi2) as (R3 & A3 & U3 & Hi3 & Ho3 & Hf3).
  destruct (used_kept s2 R2 A2 U2 s3 R3 A3 U3 Hi2 Hi3 Ho3) as (h & U4 & ->); [apply Hf3| |].
  { intros ->. apply Z.eqb_neq in Eq. apply Eq. rewrite (iv_uidx _ _ _ _ _ Hi2). simpl. rewrite Z.add_0_r. unfold u16. rewrite Z.mod_small; [done|apply Hi2]. }
  destruct (handling_step s R s3 R3 A3 h U4 Hi3) as (b' & Er & Est & Eb & H4 & Hlt); [eapply handled_trans; [done|by apply handled_dev]|].
  do 2 (unfold bind at 1, gets at 1; cbn [run_bind]; rewrite ?Er, ?Nat2Z.id). rewrite Est. cbn [Z.eqb negb].
  unfold bind at 1, gets at 1. cbn [run_bind]. rewrite Eb. split; [done|]. intros s4 ->. split; [exact H4|].
  refine (eq_ind _ (λ n, (_ < n)%nat) Hlt _ _). unfold unseen, waiting in *. by rewrite (df_info _ _ _ _ Hf3), (df_bdisk _ _ _ _ Hf3), <- En2.
Qed.
End Handler.


(** ** Initialisation *)

(** the state before: memory that is zero, and a device that has done nothing *)
Record fresh (s : vdisk) : Prop := {
  fr_free : length (v_free s) = NUM;
  fr_info : length (v_info_b s) = NUM;
  fr_ops : length (v_ops s) = NUM;
  fr_status : length (v_status s) = NUM;
  fr_used : v_used_idx s = 0;
  fr_seen : v_seen s = 0 ∧ v_taken s = [];
  fr_sector k bs : v_sectors s !! k = Some bs → length bs = 512%nat
}.
Lemma free_all xs : ∀ l i, (i < length l)%nat → length (foldl (λ l i, <[i := true]> l) l xs) = length l ∧
  (i ∈ xs ∨ l !! i = Some true → foldl (λ l i, <[i := true]> l) l xs !! i = Some true).
Proof.
  induction xs as [|x xs IH]; intros l i Hi; simpl; [set_solver|].
  destruct (IH (<[x := true]> l) i ltac:(by rewrite length_insert)) as [-> H]. rewrite length_insert. split; [done|].
  intros Hx. apply H. destruct (decide (x = i)) as [<-|Hne]; [right; by apply list_lookup_insert_eq|].
  rewrite list_lookup_insert_ne by done. set_solver.
Qed.
Lemma free_loop xs : ∀ s : vdisk, for_each xs (λ i, modify (λ s, s <| v_free ::= <[i := true]> |>)) s =
  Ok (E := vevent) tt (s <| v_free := foldl (λ l i, <[i := true]> l) (v_free s) xs |>).
Proof. induction xs as [|x xs IH]; intros s; [by destruct s|]. cbn [for_each]. unfold bind, modify at 1. cbn [run_bind]. by rewrite IH. Qed.
Lemma inv_fresh s : fresh s → v_desc s = replicate NUM (mkDesc ANull 0 0 0) → v_avail_idx s = 0 → v_avail_ring s = replicate NUM 0 →
  v_uidx s = 0 → v_uring s = replicate NUM 0 → (∀ i, (i < NUM)%nat → v_free s !! i = Some true) → inv s ∅ [] [] [].
Proof.
  intros [] Ed Ea Er Eu Eur Hf. destruct fr_seen0 as [Es Et].
  assert (Hno : ∀ ph h, h ∈ [] ↔ in_phase ∅ ph h) by (intros ph h; split; [set_solver|intros (c & Hc & _); by rewrite lookup_empty in Hc]).
  split; rewrite ?Ed, ?Ea, ?Er, ?Eu, ?Eur, ?Es, ?Et, ?fr_used0; try done; try (intros h c; intros; by rewrite lookup_empty in *).
  - split; [constructor|set_solver].
  - intros i Hi. split; [|by intros _; apply Hf]. intros _. split; [set_solver|]. intros h c Hc. by rewrite lookup_empty in Hc.
  - split; [constructor|apply Hno].
  - split; [constructor|apply Hno].
Qed.
Lemma virtio_disk_init_inv mmio pages s : fresh s →
  mmio VIRTIO_MMIO_MAGIC_VALUE = 0x74726976 → mmio VIRTIO_MMIO_VERSION = 1 → mmio VIRTIO_MMIO_DEVICE_ID = 2 →
  mmio VIRTIO_MMIO_VENDOR_ID = 0x554d4551 → Z.of_nat NUM ≤ mmio VIRTIO_MMIO_QUEUE_NUM_MAX →
  ∃ s', virtio_disk_init mmio pages s = Ok tt s' ∧ inv s' ∅ [] [] [] ∧ calm s s'.
Proof.
  intros [] E1 E2 E3 E4 E5. unfold virtio_disk_init. rewrite E1, E2, E3, E4. cbn [Z.eqb negb orb Pos.eqb].
  rewrite (proj2 (Z.eqb_neq _ 0)) by (unfold NUM in *; lia). rewrite (proj2 (Z.ltb_ge _ _)) by done.
  unfold set_reg, bind, modify at 1 2 3 4 5 6 7 8 9 10. cbn [run_bind]. rewrite free_loop. eexists. split; [reflexivity|]. split; [|done].
  pose proof (λ i, free_all (seq 0 NUM) (v_free s) i) as Hfree. rewrite fr_free0 in Hfree.
  apply inv_fresh; try done; [|intros i Hi; apply (Hfree i Hi); left; apply elem_of_seq; lia].
  constructor; [apply (Hfree 0%nat); unfold NUM; lia|exact fr_info0|exact fr_ops0|exact fr_status0|exact fr_used0|exact fr_seen0|exact fr_sector0].
Qed.

(** ** A device *)

(** it takes a request when there is one, and else finishes the last it took *)
Definition simple_device (s : vdisk) : option vdisk :=
  if negb (v_seen s =? v_avail_idx s)
  then Some (s <| v_taken ::= cons (Z.to_nat (v_avail_ring s !!! Z.to_nat (v_seen s mod Z.of_nat NUM))) |>
               <| v_seen ::= λ i, u16 (i + 1) |>)
  else match v_taken s with
       | id :: rest =>
           rq ← chain_at s id;
           s1 ← move rq s;
           Some (finish id rq.2 (s1 <| v_taken := rest |>))
       | [] => None
       end.
Lemma simple_device_spec s s' : simple_device s = Some s' → dev_spec s s'.
Proof.
  unfold simple_device. destruct (v_seen s =? v_avail_idx s) eqn:E; cbn [negb].
  - destruct (v_taken s) as [|id rest] eqn:Et; [done|]. intros (rq & Hrq & (s1 & Hs1 & [= <-])%bind_Some)%bind_Some.
    apply (dev_finish s id [] rest); [done|]. intros rq' s2 Hrq' Hs2.
    rewrite Hrq in Hrq'. injection Hrq' as <-. rewrite Hs1 in Hs2. by injection Hs2 as <-.
  - intros [= <-]. apply dev_take. by apply Z.eqb_neq.
Qed.

(** the code with this device and this handler: the device runs whenever it may,
    and a thread that sleeps is woken by the handler *)
Fixpoint settle (n : nat) (s : vdisk) : vdisk :=
  match n with O => s | S n' => match simple_device s with Some s' => settle n' s' | None => s end end.
Fixpoint play {A} (handler : vdisk → vdisk) (r : run vevent vdisk A) : option (A * vdisk) :=
  match r with
  | Ok a s => Some (a, s)
  | Event VDevice s k => play handler (k (settle 10 s))
  | Event (VWakeup _) s k => play handler (k s)
  | Event (VSleep _) s k => play handler (k (handler s))
  | _ => None
  end.
Definition interrupt (s : vdisk) : vdisk :=
  match play id (virtio_disk_intr (S NUM) 1 s) with Some (_, s') => s' | None => s end.

(** a device with two blocks, and a buffer for the second *)
Definition booted (r : Z) : Z :=
  if r =? VIRTIO_MMIO_MAGIC_VALUE then 0x74726976 else if r =? VIRTIO_MMIO_VERSION then 1 else
  if r =? VIRTIO_MMIO_DEVICE_ID then 2 else if r =? VIRTIO_MMIO_VENDOR_ID then 0x554d4551 else
  if r =? VIRTIO_MMIO_QUEUE_NUM_MAX then 1024 else 0.
Definition zero_state (sectors : gmap Z (list byte)) (d : list byte) : vdisk :=
  mkVdisk [] 0 [] (replicate NUM false) 0 (replicate NUM None) (replicate NUM (mkReq 0 0 0)) [] [false] [1] [d]
          (replicate NUM 0) 0 [] 0 [] sectors.
Definition sectors4 : gmap Z (list byte) :=
  list_to_map ((λ k, (k, replicate 512 (byte.of_Z k))) <$> [0; 1; 2; 3]).

Lemma fresh_zero d : fresh (zero_state sectors4 d).
Proof.
  split; try done. intros k bs H%elem_of_list_to_map_2. cbn [fmap list_fmap] in H.
  repeat (apply elem_of_cons in H as [[_ ->]%pair_eq|H]; [by rewrite length_replicate|]). by apply not_elem_of_nil in H.
Qed.
Definition ready (d : list byte) : vdisk :=
  match virtio_disk_init booted 0x87fff000 (zero_state sectors4 d) with Ok _ s => s | _ => zero_state sectors4 d end.
Lemma ready_inv d : inv (ready d) ∅ [] [] [] ∧ calm (zero_state sectors4 d) (ready d).
Proof.
  destruct (virtio_disk_init_inv booted 0x87fff000 _ (fresh_zero d)) as (s' & E & Hi & Hc); [done..|]. unfold ready. rewrite E. done.
Qed.
Lemma ready_mine d : mine 0 1 d (replicate 512 (byte.of_Z 2) ++ replicate 512 (byte.of_Z 3)) (ready d).
Proof. apply (mine_calm 0 1 d _ _ _ (proj2 (ready_inv d))). split; [done|lia|simpl; lia|done|by vm_compute]. Qed.
Lemma ready_idle d : idle (ready d) ∅ 0.
Proof. intros h c Hc. by rewrite lookup_empty in Hc. Qed.

Lemma ready_free d : v_free (ready d) = replicate 8 true.
Proof. by vm_compute. Qed.
Lemma allocated d blk s0 : inv s0 ∅ [] [] [] → v_free s0 = replicate 8 true → mine 0 1 d blk s0 →
  ∃ s3, inv s3 ∅ [0%nat; 1%nat; 2%nat] [] [] ∧ mine 0 1 d blk s3.
Proof.
  intros Hi0 Hfree Hm.
  assert (Hi1 := inv_alloc s0 ∅ _ _ _ Hi0 2%nat ltac:(by rewrite Hfree)).
  assert (Hi2 := inv_alloc _ ∅ _ _ _ Hi1 1%nat ltac:(rproj; by rewrite Hfree)).
  assert (Hi3 := inv_alloc _ ∅ _ _ _ Hi2 0%nat ltac:(rproj; by rewrite Hfree)). eexists. split; [exact Hi3|].
  by apply (mine_calm _ _ _ _ s0).
Qed.
(** a read of the block that the device has finished *)
Lemma completed_read d blk s3 : inv s3 ∅ [0%nat; 1%nat; 2%nat] [] [] → mine 0 1 d blk s3 → length d = 1024%nat →
  ∃ s h c A U, inv s {[h := c]} [] A U ∧ c_phase c = Completed.
Proof.
  intros Hi3 Hm3 Hd.
  assert (Hb3 : idle s3 ∅ 0) by (intros h c Hc; by rewrite lookup_empty in Hc).
  assert (Hi4 := inv_requested _ simple_device_spec 0 false 0 1 2 s3 ∅ [] [] Hi3 Hb3 (2 * bno s3 0)).
  assert (Hf4 := formatted_requested _ simple_device_spec 0 false 0 1 2 s3 ∅ [] [] Hi3 Hb3 blk).
  assert (Hp4 := placed_requested _ simple_device_spec 0 1 false 0 1 2 s3 ∅ [] [] Hi3 Hb3 (2 * bno s3 0) d blk Hm3 Hd).
  assert (Hr4 := ring_requested 0 false 0 1 2 s3 ∅ [] [] Hi3 (2 * bno s3 0)).
  assert (Hf4' : 0 ≤ bno s3 0 < 2 ^ 31) by (rewrite (mn_bno _ _ _ _ _ Hm3); lia). specialize (Hf4 Hf4' (mn_buf _ _ _ _ _ Hm3)).
  assert (Hi5 := inv_submit _ ∅ _ [] [] Hi4 0 (the_chain 0 false 1 2 blk) eq_refl Hr4 Hf4 Hp4 eq_refl ltac:(intros h c Hc; by rewrite lookup_empty in Hc)).
  destruct (inv_take _ _ _ _ _ Hi5) as (h & A' & [= <- <-] & _ & Hi6).
  { unfold in_ring, requested. rproj. rewrite (iv_avail_idx _ _ _ _ _ Hi3), u16_add. intros E. symmetry in E.
    cbn [length] in E. rewrite <- Z.add_assoc in E. apply u16_same in E; [lia|apply Hi3|lia]. }
  assert (Ht : v_taken s3 = []).
  { destruct (v_taken s3) as [|h l] eqn:E; [done|]. destruct (proj1 (proj2 (iv_sub _ _ _ _ _ Hi3) h)) as (c & Hc & _); [rewrite E; set_solver|].
    by rewrite lookup_empty in Hc. }
  assert (Hi7 := inv_after _ _ _ _ _ Hi6 0 _ [] [] ltac:(unfold in_ring, requested; rproj; by rewrite Ht) (lookup_insert_eq _ _ _) eq_refl).
  rewrite insert_insert_eq in Hi7. eexists _, _, _, _, _. split; [exact Hi7|done].
Qed.
Lemma completed_request : ∃ s h c A U, inv s {[h := c]} [] A U ∧ c_phase c = Completed.
Proof.
  destruct (allocated _ _ _ (proj1 (ready_inv _)) (ready_free _) (ready_mine (replicate 1024 "000"%byte))) as (s3 & Hi & Hm).
  apply (completed_read _ _ s3 Hi Hm). by rewrite length_replicate.
Qed.
