(* ===== verification/Log.v ===== *)
(** * The log (src/kernel/log.c)

    The in-memory header is [l_block], whose length is [lh.n]; on the disk the
    header block holds [n] and then the block numbers, four bytes each. *)

From S2P Require Import Prelude Mem Riscv Kalloc Vm Kstate FsState Bio.

Section Log.
Context `{Caller}.

(** struct logheader in a block *)
Definition LH_N : nat := 0.
Definition LH_BLOCK (k : nat) : nat := 4 + 4 * k.
Definition sizeof_logheader : Z := 4 + 4 * LOGSIZE.

Definition install_trans (recovering : bool) : FM unit :=
  let* n := getlog (λ l, length (l_block l)) in
  for_each (seq 0 n) (λ tail,
    let* dev := getlog l_dev in
    let* start := getlog l_start in
    let* lbuf := bread dev (start + Z.of_nat tail + 1) in
    let* dst := getlog (λ l, l_block l !!! tail) in
    let* dbuf := bread dev dst in
    let* data := bdata lbuf in
    set_bdata dbuf (λ _, data) ;;;
    bwrite dbuf ;;;
    when (negb recovering) (bunpin dbuf) ;;;
    brelse lbuf ;;;
    brelse dbuf).

Definition read_head : FM unit :=
  let* dev := getlog l_dev in
  let* start := getlog l_start in
  let* buf := bread dev start in
  let* lh := bdata buf in
  let n := i32 (rd32 LH_N lh) in
  (* log.lh.block has LOGSIZE entries *)
  if LOGSIZE <? n then oob else
  setlog (λ l, l <| l_block := (λ i, i32 (rd32 (LH_BLOCK i) lh)) <$> seq 0 (Z.to_nat n) |>) ;;;
  brelse buf.

Definition write_head : FM unit :=
  let* dev := getlog l_dev in
  let* start := getlog l_start in
  let* buf := bread dev start in
  let* bl := getlog l_block in
  set_bdata buf (wr32 LH_N (Z.of_nat (length bl))) ;;;
  for_each (seq 0 (length bl)) (λ i, set_bdata buf (wr32 (LH_BLOCK i) (bl !!! i))) ;;;
  bwrite buf ;;;
  brelse buf.

Definition recover_from_log : FM unit :=
  read_head ;;;
  install_trans true ;;;
  setlog (λ l, l <| l_block := [] |>) ;;;
  write_head.

Definition initlog (dev : Z) (sb : superblock) : FM unit :=
  if BSIZE <=? sizeof_logheader then panic "initlog: too big logheader" else
  setlog (λ l, l <| l_start := sb_logstart sb |> <| l_size := sb_nlog sb |> <| l_dev := dev |>) ;;;
  recover_from_log.

Definition begin_op : FM unit :=
  iterate patience (λ _,
    let* l := getlog (λ l, l) in
    if l_committing l then emit (EvSleep ChLog LkLog) ;;; ret (inl tt)
    else if LOGSIZE <? Z.of_nat (length (l_block l)) + (l_outstanding l + 1) * MAXOPBLOCKS then
      emit (EvSleep ChLog LkLog) ;;; ret (inl tt)
    else
      setlog (λ l, l <| l_outstanding ::= λ o, o + 1 |>) ;;; ret (inr tt)) tt.

Definition write_log : FM unit :=
  let* n := getlog (λ l, length (l_block l)) in
  for_each (seq 0 n) (λ tail,
    let* dev := getlog l_dev in
    let* start := getlog l_start in
    let* to := bread dev (start + Z.of_nat tail + 1) in
    let* src := getlog (λ l, l_block l !!! tail) in
    let* from := bread dev src in
    let* data := bdata from in
    set_bdata to (λ _, data) ;;;
    bwrite to ;;;
    brelse from ;;;
    brelse to).

Definition commit : FM unit :=
  let* n := getlog (λ l, length (l_block l)) in
  when (bool_decide (0 < n)%nat)
    (write_log ;;;
     write_head ;;;
     install_trans false ;;;
     setlog (λ l, l <| l_block := [] |>) ;;;
     write_head).

Definition end_op : FM unit :=
  setlog (λ l, l <| l_outstanding ::= λ o, o - 1 |>) ;;;
  let* l := getlog (λ l, l) in
  if l_committing l then panic "log.committing" else
  if l_outstanding l =? 0 then
    setlog (λ l, l <| l_committing := true |>) ;;;
    commit ;;;
    setlog (λ l, l <| l_committing := false |>) ;;;
    emit (EvWakeup ChLog)
  else emit (EvWakeup ChLog).

Definition log_write (i : nat) : FM unit :=
  let* l := getlog (λ l, l) in
  let n := Z.of_nat (length (l_block l)) in
  if (LOGSIZE <=? n) || (l_size l - 1 <=? n) then panic "too big a transaction" else
  if l_outstanding l <? 1 then panic "log_write outside of trans" else
  let* b := getbuf i in
  (* log absorption *)
  if bool_decide (b_blockno b ∈ l_block l) then ret tt
  else
    bpin i ;;;
    setlog (λ l, l <| l_block ::= λ bl, bl ++ [b_blockno b] |>).
End Log.
