(* ===== verification/BioSpec.v ===== *)
(** * The buffer cache against the disk

    [cache_ok] is the invariant of bio.c for the thread that runs, on one
    device.  [V] is the content of the blocks as the kernel sees them, and
    [dirty] the blocks whose copy on the disk is older.  [held] lists the
    buffers that the thread has locked, with their block; [wait] is a buffer on
    which it has a reference but not the lock.  [pins] are the blocks pinned by
    the log.  The part of a reference count that belongs to other threads is at
    most [share]; a thread that is alone ([solo]) has a share of 0 and never
    sleeps. *)

From S2P Require Import Prelude Mem Riscv Kalloc Vm Kstate FsState Bio Log.

Definition upd {A} (b : Z) (x : A) (V : Z → A) : Z → A := λ c, if decide (c = b) then x else V c.

(** the references of the thread on buffer [i] *)
Definition refs_of (i : nat) (held : list (nat * Z)) (wait : option (nat * Z)) : Z :=
  (if decide (i ∈ held.*1) then 1 else 0) + (if decide (fst <$> wait = Some i) then 1 else 0).

Section BioSpec.
Context `{Caller} (solo : bool) (d : Z).

Definition share : Z := if solo then 0 else 2 ^ 31.

(** buffer [bf] is for block [b] of the device *)
Definition is_block (b : Z) (bf : buf) : Prop := b_dev bf = d ∧ b_blockno bf = b.
#[local] Instance is_block_dec b bf : Decision (is_block b bf).
Proof. unfold is_block. apply _. Defined.

Definition pinned (pins : list Z) (bf : buf) : Z :=
  if decide (b_dev bf = d ∧ b_blockno bf ∈ pins) then 1 else 0.

Record cache_ok (V : Z → list byte) (D : gmap Z (list byte)) (dirty : list Z) (held : list (nat * Z))
    (wait : option (nat * Z)) (pins : list Z) (bufs : list buf) (lru : list nat) : Prop := {
  c_len : length bufs = NBUF;
  c_lru : lru ≡ₚ seq 0 NBUF;
  c_uniq : ∀ i j bi bj b, bufs !! i = Some bi → bufs !! j = Some bj → is_block b bi → is_block b bj → i = j;
  c_view : ∀ i bf b, bufs !! i = Some bf → is_block b bf → b_valid bf = true → b_data bf = V b;
  c_refs : ∀ i bf, bufs !! i = Some bf →
    refs_of i held wait + pinned pins bf ≤ b_refcnt bf ≤ refs_of i held wait + pinned pins bf + share;
  c_held : ∀ i b, (i, b) ∈ held → ∃ bf, bufs !! i = Some bf ∧ is_block b bf ∧
    b_valid bf = true ∧ b_lock bf = mkSleeplock true my_tid;
  c_wait : ∀ i b, wait = Some (i, b) → ∃ bf, bufs !! i = Some bf ∧ is_block b bf;
  c_nodup : NoDup held.*1;
  c_solo : solo = true → ∀ i bf, bufs !! i = Some bf → sl_locked (b_lock bf) = true → i ∈ held.*1;
  c_pins : ∀ b, b ∈ pins → ∃ i bf, bufs !! i = Some bf ∧ is_block b bf ∧ b_valid bf = true;
  c_disk : ∀ b x, D !! b = Some x → x = V b ∨ b ∈ dirty;
  c_dirty : ∀ b, b ∈ dirty → b ∈ pins ∨ ∃ i, (i, b) ∈ held
}.

#[local] Arguments c_len {V D dirty held wait pins bufs lru}.
#[local] Arguments c_lru {V D dirty held wait pins bufs lru}.
#[local] Arguments c_uniq {V D dirty held wait pins bufs lru}.
#[local] Arguments c_view {V D dirty held wait pins bufs lru}.
#[local] Arguments c_refs {V D dirty held wait pins bufs lru}.
#[local] Arguments c_held {V D dirty held wait pins bufs lru}.
#[local] Arguments c_wait {V D dirty held wait pins bufs lru}.
#[local] Arguments c_nodup {V D dirty held wait pins bufs lru}.
#[local] Arguments c_solo {V D dirty held wait pins bufs lru}.
#[local] Arguments c_pins {V D dirty held wait pins bufs lru}.
#[local] Arguments c_disk {V D dirty held wait pins bufs lru}.
#[local] Arguments c_dirty {V D dirty held wait pins bufs lru}.

(** the invariant in a state of the file system *)
Definition cached (V : Z → list byte) (D : gmap Z (list byte)) (L : logstate) (dirty : list Z)
    (held : list (nat * Z)) (wait : option (nat * Z)) (pins : list Z) (w : world) : Prop :=
  f_disk (w_fs w) = D ∧ f_log (w_fs w) = L ∧
  cache_ok V D dirty held wait pins (f_bufs (w_fs w)) (f_lru (w_fs w)).

(** what the other threads may do in between: nothing that changes the content
    of a block or what this thread has locked, and nothing to the log *)
Definition bio_rely (e : fsevent) (w w' : world) : Prop :=
  if solo then w' = w
  else ∀ V D L dirty held wait pins,
    cached V D L dirty held wait pins w → cached V D L dirty held wait pins w'.
(** a thread that is not alone may run out of patience or of buffers *)
Definition bio_out (o : option string) : Prop := solo = false ∧ (o = None ∨ o = Some "bget: no buffers").
Definition bio_guar (G : gmap Z (list byte) → Prop) (e : fsevent) (w : world) : Prop :=
  match e with
  | EvSleep _ _ => solo = false
  | EvWakeup _ => True
  | EvDisk _ => G (f_disk (w_fs w))
  end.

(** ** Steps on the buffers *)

Ltac refs := unfold refs_of; simpl; repeat case_decide; simplify_eq; try lia; exfalso; set_solver.

Lemma refs_of_wait i held b : refs_of i held (Some (i, b)) = refs_of i held None + 1.
Proof. refs. Qed.
Lemma refs_of_other i j held b : i ≠ j → refs_of i held (Some (j, b)) = refs_of i held None.
Proof. intros. refs. Qed.
Lemma refs_of_hold i held b : i ∉ held.*1 → refs_of i ((i, b) :: held) None = refs_of i held (Some (i, b)).
Proof. intros. refs. Qed.
Lemma refs_of_cons i j held b wait : i ≠ j → refs_of i ((j, b) :: held) wait = refs_of i held wait.
Proof. intros. refs. Qed.
Lemma refs_of_range i held wait : 0 ≤ refs_of i held wait ≤ 2.
Proof. unfold refs_of. repeat case_decide; lia. Qed.
Lemma pinned_range p bf : 0 ≤ pinned p bf ≤ 1.
Proof. unfold pinned. case_decide; lia. Qed.
Lemma share_range : 0 ≤ share ≤ 2 ^ 31.
Proof. unfold share. destruct solo; lia. Qed.

Lemma insert_cases {A} (l : list A) i j x y : <[i := x]> l !! j = Some y → (i = j ∧ y = x) ∨ (i ≠ j ∧ l !! j = Some y).
Proof. intros [(-> & <- & _)|[? ?]]%list_lookup_insert_Some; auto. Qed.

(** Replacing buffer [i]: what the other buffers need does not change, and the
    new one satisfies the invariant. *)
Lemma cache_insert V V' D D' dirty dirty' held held' wait wait' pins pins' bufs lru lru' i bf nb :
  cache_ok V D dirty held wait pins bufs lru → bufs !! i = Some bf → lru' ≡ₚ lru →
  (∀ j, j ≠ i → refs_of j held' wait' = refs_of j held wait) →
  (∀ j bj, j ≠ i → bufs !! j = Some bj → pinned pins' bj = pinned pins bj ∧
    (∀ b, is_block b bj → ¬ is_block b nb) ∧
    (∀ b, is_block b bj → b_valid bj = true → V' b = V b)) →
  (∀ b, is_block b nb → b_valid nb = true → b_data nb = V' b) →
  refs_of i held' wait' + pinned pins' nb ≤ b_refcnt nb ≤ refs_of i held' wait' + pinned pins' nb + share →
  (∀ j b, (j, b) ∈ held' → if decide (j = i) then is_block b nb ∧ b_valid nb = true ∧ b_lock nb = mkSleeplock true my_tid
                           else (j, b) ∈ held) →
  (∀ j b, wait' = Some (j, b) → if decide (j = i) then is_block b nb else wait = Some (j, b)) →
  NoDup held'.*1 →
  (solo = true → sl_locked (b_lock nb) = true → i ∈ held'.*1) →
  (∀ j, j ≠ i → j ∈ held.*1 → j ∈ held'.*1) →
  (∀ b, b ∈ pins' → (is_block b nb ∧ b_valid nb = true) ∨ (b ∈ pins ∧ ¬ is_block b bf)) →
  (∀ b x, D' !! b = Some x → x = V' b ∨ b ∈ dirty') →
  (∀ b, b ∈ dirty' → b ∈ pins' ∨ ∃ i, (i, b) ∈ held') →
  cache_ok V' D' dirty' held' wait' pins' (<[i := nb]> bufs) lru'.
Proof.
  intros [Hlen Hlru Huniq Hview Hrefs Hheld Hwait Hnd Hsolo Hpins Hdisk Hdirty] Hi Hlru' Hro Hoth Hv Hr Hh Hw Hnd' Hso Hho Hp HD Hdi.
  assert (Hlt : (i < length bufs)%nat) by (by eapply lookup_lt_Some).
  assert (Hget : ∀ j bj, j ≠ i → bufs !! j = Some bj → <[i:=nb]> bufs !! j = Some bj)
    by (intros; by rewrite list_lookup_insert_ne).
  assert (Hgi : <[i:=nb]> bufs !! i = Some nb) by (by apply list_lookup_insert_eq).
  split; try done.
  - by rewrite length_insert.
  - by rewrite Hlru', Hlru.
  - intros j k bj bk b [[<- ->]|[Hj Hbj]]%insert_cases [[<- ->]|[Hk Hbk]]%insert_cases H1 H2; try done.
    + destruct (Hoth k bk) as (_ & Hn & _); [done|done|]. by destruct (Hn b).
    + destruct (Hoth j bj) as (_ & Hn & _); [done|done|]. by destruct (Hn b).
    + eauto.
  - intros j bj b [[<- ->]|[Hj Hbj]]%insert_cases Hb Hval; [auto|].
    destruct (Hoth j bj) as (_ & _ & Hv2); [done|done|]. rewrite Hv2 by done. eauto.
  - intros j bj [[<- ->]|[Hj Hbj]]%insert_cases; [done|].
    destruct (Hoth j bj) as (Hpe & _); [done|done|]. rewrite Hpe, Hro by done. auto.
  - intros j b Hin. specialize (Hh j b Hin). case_decide as E.
    + subst. eauto.
    + destruct (Hheld j b Hh) as (bj & Hbj & ?). exists bj. auto.
  - intros j b Hin. specialize (Hw j b Hin). case_decide as E.
    + subst. eauto.
    + destruct (Hwait j b Hw) as (bj & Hbj & ?). exists bj. auto.
  - intros Hs j bj [[<- ->]|[Hj Hbj]]%insert_cases Hl; [auto|]. eapply Hho; [done|eauto].
  - intros b Hb. destruct (Hp b Hb) as [[? ?]|[Hbp Hnb]]; [eauto|].
    destruct (Hpins b Hbp) as (j & bj & Hbj & ? & ?). exists j, bj.
    split; [|done]. apply Hget; [|done]. intros ->. rewrite Hi in Hbj. by simplify_eq.
Qed.

Lemma held_fst i b (held : list (nat * Z)) : (i, b) ∈ held → i ∈ held.*1.
Proof. intros Hin. apply list_elem_of_fmap. by exists (i, b). Qed.

(** The same when the buffer stays on its block. *)
Lemma cache_touch {V D dirty held wait pins bufs lru i bf b} V' D' dirty' held' wait' pins' lru' nb :
  cache_ok V D dirty held wait pins bufs lru → bufs !! i = Some bf → is_block b bf →
  is_block b nb → lru' ≡ₚ lru →
  (∀ j, j ≠ i → refs_of j held' wait' = refs_of j held wait) →
  (∀ c, c ≠ b → V' c = V c ∧ (c ∈ pins' ↔ c ∈ pins)) →
  (b_valid nb = true → b_data nb = V' b) →
  refs_of i held' wait' + pinned pins' nb ≤ b_refcnt nb ≤ refs_of i held' wait' + pinned pins' nb + share →
  (∀ j c, (j, c) ∈ held' → (j, c) ∈ held ∨ (j, c) = (i, b)) →
  (i ∈ held'.*1 → b_valid nb = true ∧ b_lock nb = mkSleeplock true my_tid) →
  (wait' = None ∨ wait' = Some (i, b)) →
  NoDup held'.*1 →
  (solo = true → sl_locked (b_lock nb) = true → i ∈ held'.*1) →
  (∀ j, j ≠ i → j ∈ held.*1 → j ∈ held'.*1) →
  (b ∈ pins' → b_valid nb = true) →
  (∀ c x, D' !! c = Some x → x = V' c ∨ c ∈ dirty') →
  (∀ c, c ∈ dirty' → c ∈ pins' ∨ ∃ i, (i, c) ∈ held') →
  cache_ok V' D' dirty' held' wait' pins' (<[i := nb]> bufs) lru'.
Proof.
  intros Hc Hi Hb Hnb Hlru Hro Hout Hdata Hr Hh Hhi Hw Hnd Hso Hho Hp HD Hdi.
  assert (Honly : ∀ c, is_block c nb → c = b) by (intros c [_ <-]; by destruct Hnb as [_ <-]).
  assert (Hoth : ∀ j bj c, j ≠ i → bufs !! j = Some bj → is_block c bj → c ≠ b).
  { intros j bj c Hne Hj Hcj ->. apply Hne. eapply (c_uniq Hc); eauto. }
  eapply (cache_insert _ _ _ _ _ _ _ _ _ _ _ _ _ _ _ _ _ _ Hc Hi); try done.
  - intros j bj Hne Hj. split_and!.
    + unfold pinned. apply decide_ext. split; intros [Hd Hin]; (split; [done|]);
        (apply (Hout (b_blockno bj)); [by eapply Hoth|done]).
    + intros c Hcj Hcn. eapply Hoth; [done|done|done|]. by apply Honly.
    + intros c Hcj _. apply Hout. by eapply Hoth.
  - intros c ->%Honly. done.
  - intros j c Hin. case_decide as E.
    + subst j. split; [|by apply Hhi, (held_fst i c)].
      destruct (Hh i c Hin) as [Hold|[= <-]]; [|done].
      destruct (c_held Hc i c Hold) as (bj & Hbj & Hcb & _). rewrite Hi in Hbj. simplify_eq.
      destruct Hcb as [_ <-]. by destruct Hb as [_ ->].
    + destruct (Hh j c Hin) as [?|[= ? ?]]; done.
  - intros j c Hjc. destruct Hw as [->| ->]; [done|]. simplify_eq. by rewrite decide_True.
  - intros c Hc'. destruct (decide (c = b)) as [->|Hne]; [left; auto|right].
    split; [by apply Hout|]. intros [_ <-]. by destruct Hb as [_ <-].
Qed.

(** a buffer keeps its validity when its block is pinned *)
Lemma pinned_valid {V D dirty held wait pins bufs lru i bf b} :
  cache_ok V D dirty held wait pins bufs lru → bufs !! i = Some bf → is_block b bf → b ∈ pins → b_valid bf = true.
Proof.
  intros Hc Hi Hb Hp. destruct (c_pins Hc b Hp) as (j & bj & Hbj & Hbb & Hval).
  assert (j = i) as -> by (eapply (c_uniq Hc); eauto). rewrite Hi in Hbj. by simplify_eq.
Qed.
Lemma held_buf {V D dirty held wait pins bufs lru i b} :
  cache_ok V D dirty held wait pins bufs lru → (i, b) ∈ held →
  ∃ bf, bufs !! i = Some bf ∧ is_block b bf ∧ b_valid bf = true ∧ b_lock bf = mkSleeplock true my_tid ∧ b_data bf = V b.
Proof.
  intros Hc Hin. destruct (c_held Hc i b Hin) as (bf & Hi & Hb & Hv & Hl). exists bf. split_and!; try done.
  by eapply (c_view Hc).
Qed.
Lemma held_only {V D dirty held wait pins bufs lru i bf b} :
  cache_ok V D dirty held wait pins bufs lru → bufs !! i = Some bf → is_block b bf → i ∈ held.*1 → (i, b) ∈ held.
Proof.
  intros Hc Hi Hb Hin. apply list_elem_of_fmap in Hin as ([i' c] & -> & Hin). simpl in *.
  destruct (c_held Hc _ _ Hin) as (bj & Hbj & Hcb & _). rewrite Hi in Hbj. simplify_eq.
  destruct Hcb as [_ <-]. by destruct Hb as [_ <-].
Qed.
Lemma refcnt_range {V D dirty held wait pins bufs lru i bf} :
  cache_ok V D dirty held wait pins bufs lru → bufs !! i = Some bf → 0 ≤ b_refcnt bf < 2 ^ 32 - 1.
Proof.
  intros Hc Hi. pose proof (c_refs Hc i bf Hi). pose proof share_range.
  pose proof (refs_of_range i held wait). pose proof (pinned_range pins bf). lia.
Qed.

Ltac cdone :=
  try solve [ done | by intros; split | intros; by left | by right
            | by eapply c_nodup | by eapply c_disk | by eapply c_dirty | by eapply c_solo ].

(** [bget] takes a reference on a cached block *)
Lemma step_ref V D dirty held pins bufs lru i bf b :
  cache_ok V D dirty held None pins bufs lru → bufs !! i = Some bf → is_block b bf →
  cache_ok V D dirty held (Some (i, b)) pins (<[i := bf <| b_refcnt ::= λ r, u32 (r + 1) |>]> bufs) lru.
Proof.
  intros Hc Hi Hb. pose proof (refcnt_range Hc Hi). pose proof (c_refs Hc i bf Hi).
  eapply (cache_touch _ _ _ _ _ _ _ _ Hc Hi Hb); cdone.
  - intros j Hj. by apply refs_of_other.
  - by apply (c_view Hc i bf).
  - rewrite refs_of_wait. change (pinned pins (set_field _ _ bf)) with (pinned pins bf).
    change (b_refcnt (set_field _ _ bf)) with (u32 (b_refcnt bf + 1)). rewrite u32_small; lia.
  - intros Hin. destruct (held_buf Hc (held_only Hc Hi Hb Hin)) as (bj & Hbj & _ & ? & ? & _).
    rewrite Hi in Hbj. by simplify_eq.
  - intros Hs Hl. by eapply (c_solo Hc).
  - apply (pinned_valid Hc Hi Hb).
Qed.

(** [bget] recycles an unused buffer *)
Lemma step_recycle V D dirty held pins bufs lru i bf b :
  cache_ok V D dirty held None pins bufs lru → bufs !! i = Some bf → b_refcnt bf = 0 →
  (∀ j bj, bufs !! j = Some bj → ¬ is_block b bj) →
  cache_ok V D dirty held (Some (i, b)) pins
    (<[i := bf <| b_dev := d |> <| b_blockno := b |> <| b_valid := false |> <| b_refcnt := 1 |>]> bufs) lru.
Proof.
  intros Hc Hi Hz Hnew. pose proof (c_refs Hc i bf Hi) as Hr. pose proof (refs_of_range i held None).
  pose proof (pinned_range pins bf). assert (Hrefs : refs_of i held None = 0) by lia.
  assert (Hpin : pinned pins bf = 0) by lia.
  assert (Hnh : i ∉ held.*1) by (intros Hin; unfold refs_of in Hrefs; rewrite decide_True in Hrefs by done; by case_decide).
  assert (Hnp : ∀ c, is_block c bf → c ∉ pins).
  { intros c [Hd <-] Hin. unfold pinned in Hpin. by rewrite decide_True in Hpin. }
  assert (Hbp : b ∉ pins) by (intros Hin; destruct (c_pins Hc b Hin) as (j & bj & Hbj & Hbb & _); by eapply Hnew).
  eapply (cache_insert _ _ _ _ _ _ _ _ _ _ _ _ _ _ _ _ _ _ Hc Hi); cdone.
  - intros j Hj. by apply refs_of_other.
  - intros j bj Hne Hj. split_and!; [done| |done]. intros c Hcj [_ Hcb]. simpl in Hcb. subst. by eapply Hnew.
  - rewrite refs_of_wait, Hrefs. unfold pinned. rewrite decide_False by (simpl; tauto). simpl. pose proof share_range. lia.
  - intros j c Hin. rewrite decide_False; [done|]. intros ->. by apply Hnh, (held_fst i c).
  - intros j c [= <- <-]. by rewrite decide_True.
  - intros Hs Hl. exfalso. by apply Hnh, (c_solo Hc Hs i bf).
  - intros c Hcp. right. split; [done|]. intros Hcb. by eapply Hnp.
Qed.

(** a block that is not valid in the cache is up to date on the disk *)
Lemma invalid_clean {V D dirty held wait pins bufs lru i bf b x} :
  cache_ok V D dirty held wait pins bufs lru → bufs !! i = Some bf → is_block b bf → b_valid bf = false →
  D !! b = Some x → x = V b.
Proof.
  intros Hc Hi Hb Hval Hx. destruct (c_disk Hc b x Hx) as [?|Hd]; [done|]. exfalso.
  destruct (c_dirty Hc b Hd) as [Hp|[j Hin]].
  - by rewrite (pinned_valid Hc Hi Hb Hp) in Hval.
  - destruct (c_held Hc j b Hin) as (bj & Hbj & Hbb & Hvj & _).
    assert (j = i) as -> by (eapply (c_uniq Hc); eauto). rewrite Hi in Hbj. simplify_eq. congruence.
Qed.

(** [acquiresleep] in [bget], and the read of an invalid block in [bread] *)
Lemma step_lock V D dirty held pins bufs lru i bf b nb :
  cache_ok V D dirty held (Some (i, b)) pins bufs lru → bufs !! i = Some bf → is_block b bf →
  sl_locked (b_lock bf) = false →
  is_block b nb → b_refcnt nb = b_refcnt bf → b_valid nb = true → b_data nb = V b →
  b_lock nb = mkSleeplock true my_tid →
  cache_ok V D dirty ((i, b) :: held) None pins (<[i := nb]> bufs) lru.
Proof.
  intros Hc Hi Hb Hul Hnb Hrn Hvn Hdn Hln.
  assert (Hnh : i ∉ held.*1).
  { intros Hin. destruct (held_buf Hc (held_only Hc Hi Hb Hin)) as (bj & Hbj & _ & _ & Hl & _).
    rewrite Hi in Hbj. simplify_eq. by rewrite Hl in Hul. }
  pose proof (c_refs Hc i bf Hi) as Hr. rewrite <- refs_of_hold in Hr by done.
  assert (Hpe : pinned pins nb = pinned pins bf).
  { destruct Hb as [H1 H2], Hnb as [H3 H4]. unfold pinned. by rewrite H1, H2, H3, H4. }
  eapply (cache_touch _ _ _ _ _ _ _ _ Hc Hi Hb); cdone.
  - intros j Hj. by rewrite refs_of_cons, (refs_of_other _ _ _ _ Hj) by done.
  - rewrite Hrn, Hpe. lia.
  - intros j c [Hj|Hj]%elem_of_cons; auto.
  - simpl. apply NoDup_cons. split; [done|apply (c_nodup Hc)].
  - intros c Hcd. destruct (c_dirty Hc c Hcd) as [?|[j Hj]]; [by left|right]. exists j. set_solver.
Qed.

(** a store to the data of a locked buffer *)
Lemma step_modify V D dirty held pins bufs lru i bf b x :
  cache_ok V D dirty held None pins bufs lru → bufs !! i = Some bf → (i, b) ∈ held →
  cache_ok (upd b x V) D (b :: dirty) held None pins (<[i := bf <| b_data := x |>]> bufs) lru.
Proof.
  intros Hc Hi Hin. destruct (held_buf Hc Hin) as (bj & Hbj & Hb & Hval & Hl & Hdata).
  rewrite Hi in Hbj. simplify_eq. eapply (cache_touch _ _ _ _ _ _ _ _ Hc Hi Hb); cdone.
  - intros c Hne. unfold upd. by rewrite decide_False.
  - intros _. unfold upd. by rewrite decide_True.
  - apply (c_refs Hc i bj Hi).
  - intros Hs Hlk. by apply (held_fst i b).
  - intros c y Hy. destruct (decide (c = b)) as [->|Hne]; [right; set_solver|]. unfold upd. rewrite decide_False by done.
    destruct (c_disk Hc c y Hy); [by left|right; set_solver].
  - intros c [->|Hcd]%elem_of_cons; [right; eauto|by apply (c_dirty Hc)].
Qed.

(** [bwrite] *)
Lemma step_write V D dirty held pins bufs lru b :
  cache_ok V D dirty held None pins bufs lru →
  cache_ok V (<[b := V b]> D) (filter (λ c, c ≠ b) dirty) held None pins bufs lru.
Proof.
  intros [Hlen Hlru Huniq Hview Hrefs Hheld Hwait Hnd Hsolo Hpins Hdisk Hdirty]. split; try done.
  - intros c x [[<- <-]|[Hne Hx]]%lookup_insert_Some; [by left|].
    destruct (Hdisk c x Hx) as [?|?]; [by left|right]. by apply list_elem_of_filter.
  - intros c [_ Hin]%list_elem_of_filter. auto.
Qed.

(** [releasesleep] in [brelse] *)
Lemma step_unlock V D dirty held pins bufs lru i bf b :
  cache_ok V D dirty ((i, b) :: held) None pins bufs lru → bufs !! i = Some bf → (b ∈ dirty → b ∈ pins) →
  cache_ok V D dirty held (Some (i, b)) pins (<[i := bf <| b_lock := mkSleeplock false 0 |>]> bufs) lru.
Proof.
  intros Hc Hi Hbd. destruct (held_buf Hc (i := i) (b := b) ltac:(set_solver)) as (bj & Hbj & Hb & Hval & Hl & Hdata).
  rewrite Hi in Hbj. simplify_eq. pose proof (c_nodup Hc) as Hnd. simpl in Hnd. apply NoDup_cons in Hnd as [Hni Hnd].
  pose proof (c_refs Hc i bj Hi) as Hr. rewrite refs_of_hold in Hr by done.
  eapply (cache_touch _ _ _ _ _ _ _ _ Hc Hi Hb); cdone.
  - intros j Hj. by rewrite refs_of_cons, (refs_of_other _ _ _ _ Hj) by done.
  - intros j c Hin. left. set_solver.
  - intros j Hj Hin. simpl in Hin. set_solver.
  - intros c Hcd. destruct (c_dirty Hc c Hcd) as [?|[j Hj]]; [by left|].
    apply elem_of_cons in Hj as [[= -> ->]|Hj]; [left; auto|right; eauto].
Qed.

(** the reference is dropped *)
Lemma step_unref V D dirty held pins bufs lru lru' i bf b :
  cache_ok V D dirty held (Some (i, b)) pins bufs lru → bufs !! i = Some bf → lru' ≡ₚ lru →
  cache_ok V D dirty held None pins (<[i := bf <| b_refcnt ::= λ r, u32 (r - 1) |>]> bufs) lru'.
Proof.
  intros Hc Hi Hlru. destruct (c_wait Hc i b eq_refl) as (bj & Hbj & Hb). rewrite Hi in Hbj. simplify_eq.
  pose proof (refcnt_range Hc Hi) as Hrr. pose proof (c_refs Hc i bj Hi) as Hr. rewrite refs_of_wait in Hr.
  pose proof (refs_of_range i held None). pose proof (pinned_range pins bj).
  eapply (cache_touch _ _ _ _ _ _ _ _ Hc Hi Hb); cdone.
  - intros j Hj. symmetry. by apply refs_of_other.
  - by apply (c_view Hc i bj).
  - change (pinned pins (set_field _ _ bj)) with (pinned pins bj).
    change (b_refcnt (set_field _ _ bj)) with (u32 (b_refcnt bj - 1)). rewrite u32_small; lia.
  - intros Hin. destruct (held_buf Hc (held_only Hc Hi Hb Hin)) as (bk & Hbk & _ & ? & ? & _).
    rewrite Hi in Hbk. by simplify_eq.
  - intros Hs Hl. by eapply (c_solo Hc).
  - apply (pinned_valid Hc Hi Hb).
Qed.

(** [bpin] and [bunpin] on a locked buffer *)
Lemma step_pin V D dirty held pins bufs lru i bf b :
  cache_ok V D dirty held None pins bufs lru → bufs !! i = Some bf → (i, b) ∈ held → b ∉ pins →
  cache_ok V D dirty held None (b :: pins) (<[i := bf <| b_refcnt ::= λ r, u32 (r + 1) |>]> bufs) lru.
Proof.
  intros Hc Hi Hin Hnp. destruct (held_buf Hc Hin) as (bj & Hbj & Hb & Hval & Hl & Hdata).
  rewrite Hi in Hbj. simplify_eq. pose proof (refcnt_range Hc Hi) as Hrr. pose proof (c_refs Hc i bj Hi) as Hr.
  assert (H0 : pinned pins bj = 0) by (unfold pinned; rewrite decide_False; [done|]; intros [_ Hb']; destruct Hb as [_ <-]; done).
  assert (H1 : pinned (b :: pins) bj = 1) by (unfold pinned; rewrite decide_True; [done|]; destruct Hb as [-> <-]; set_solver).
  eapply (cache_touch _ _ _ _ _ _ _ _ Hc Hi Hb); cdone.
  - intros c Hne. split; [done|]. set_solver.
  - change (pinned (b :: pins) (set_field _ _ bj)) with (pinned (b :: pins) bj).
    change (b_refcnt (set_field _ _ bj)) with (u32 (b_refcnt bj + 1)). rewrite u32_small; lia.
  - intros Hs Hlk. by apply (held_fst i b).
  - intros c Hcd. destruct (c_dirty Hc c Hcd); [left; set_solver|by right].
Qed.
Lemma step_unpin V D dirty held pins bufs lru i bf b :
  cache_ok V D dirty held None (b :: pins) bufs lru → bufs !! i = Some bf → (i, b) ∈ held → b ∉ pins →
  cache_ok V D dirty held None pins (<[i := bf <| b_refcnt ::= λ r, u32 (r - 1) |>]> bufs) lru.
Proof.
  intros Hc Hi Hin Hnp. destruct (held_buf Hc Hin) as (bj & Hbj & Hb & Hval & Hl & Hdata).
  rewrite Hi in Hbj. simplify_eq. pose proof (refcnt_range Hc Hi) as Hrr. pose proof (c_refs Hc i bj Hi) as Hr.
  assert (H0 : pinned pins bj = 0) by (unfold pinned; rewrite decide_False; [done|]; intros [_ Hb']; destruct Hb as [_ <-]; done).
  assert (H1 : pinned (b :: pins) bj = 1) by (unfold pinned; rewrite decide_True; [done|]; destruct Hb as [-> <-]; set_solver).
  pose proof (refs_of_range i held None).
  eapply (cache_touch _ _ _ _ _ _ _ _ Hc Hi Hb); cdone.
  - intros c Hne. split; [done|]. set_solver.
  - change (pinned pins (set_field _ _ bj)) with (pinned pins bj).
    change (b_refcnt (set_field _ _ bj)) with (u32 (b_refcnt bj - 1)). rewrite u32_small; lia.
  - intros Hs Hlk. by apply (held_fst i b).
  - intros c Hcd. destruct (c_dirty Hc c Hcd) as [Hp|?]; [|by right].
    apply elem_of_cons in Hp as [->|?]; [right; eauto|by left].
Qed.

(** only the set of locked buffers and of dirty blocks matters *)
Lemma cache_weaken V D dirty dirty' held held' wait pins pins' bufs lru :
  cache_ok V D dirty held wait pins bufs lru → held ≡ₚ held' → pins ≡ₚ pins' →
  (∀ b, b ∈ dirty → b ∈ dirty' ∨ ∃ x, D !! b = Some x ∧ x = V b) →
  (∀ b, b ∈ dirty' → b ∈ pins' ∨ ∃ i, (i, b) ∈ held') →
  cache_ok V D dirty' held' wait pins' bufs lru.
Proof.
  intros [Hlen Hlru Huniq Hview Hrefs Hheld Hwait Hnd Hsolo Hpins Hdisk Hdirty] Hh Hp Hd Hd'.
  assert (Hfst : held.*1 ≡ₚ held'.*1) by (by rewrite Hh).
  assert (Hro : ∀ i, refs_of i held' wait = refs_of i held wait).
  { intros i. unfold refs_of. by rewrite (decide_ext (i ∈ held'.*1) (i ∈ held.*1)) by (by rewrite Hfst). }
  assert (Hpi : ∀ bf, pinned pins' bf = pinned pins bf).
  { intros bf. unfold pinned. apply decide_ext. by rewrite Hp. }
  split; try done.
  - intros i bf Hi. rewrite Hro, Hpi. auto.
  - intros i b Hin. apply Hheld. by rewrite Hh.
  - by rewrite <- Hfst.
  - intros Hs i bf Hi Hl. rewrite <- Hfst. eauto.
  - intros b Hb. apply Hpins. by rewrite Hp.
  - intros b x Hx. destruct (Hdisk b x Hx) as [?|Hb]; [by left|]. destruct (Hd b Hb) as [?|(y & Hy & ->)]; [by right|left].
    congruence.
Qed.
Lemma cache_ext V V' D dirty held wait pins bufs lru :
  cache_ok V D dirty held wait pins bufs lru → (∀ b, V' b = V b) → cache_ok V' D dirty held wait pins bufs lru.
Proof.
  intros [Hlen Hlru Huniq Hview Hrefs Hheld Hwait Hnd Hsolo Hpins Hdisk Hdirty] HV. split; try done.
  - intros. rewrite HV. eauto.
  - intros b x Hx. rewrite HV. auto.
Qed.
End BioSpec.
