(* ===== verification/BioWp.v ===== *)
(** * Specifications of the buffer cache (src/kernel/bio.c)

    [bread], [bwrite] and [brelse] with respect to [cached]: the buffer that
    [bread] returns is locked and holds the current content of its block.  The
    specifications hold for a thread among others, which may wait, and for a
    thread that is alone, which returns. *)

From S2P Require Import Prelude Mem Riscv Kalloc Vm Kstate FsState Bio Log BioSpec.

(** a world with another list of buffers *)
Definition with_bufs (f : list buf → list buf) (w : world) : world := w <| w_fs ::= λ s, s <| f_bufs ::= f |> |>.

Section BioWp.
Context `{Caller} (solo : bool) (d : Z) (G : gmap Z (list byte) → Prop).
Context (Hpat : (0 < patience)%nat).

Abbreviation WP m w Q := (wp (bio_out solo) (bio_guar solo G) (bio_rely solo d) (m w) Q).
Abbreviation cached := (cached solo d).
Abbreviation cache_ok := (cache_ok solo d).

(** ** Single steps *)

Section Run.
Context {A B : Type} (w : world).
Lemma bind_getf (f : fsys → A) (k : A → FM B) : bind (getf f) k w = k (f (w_fs w)) w.
Proof. done. Qed.
Lemma bind_getbuf i (k : buf → FM B) : bind (getbuf i) k w = k (f_bufs (w_fs w) !!! i) w.
Proof. done. Qed.
Lemma bind_setbuf i f (k : unit → FM B) : bind (setbuf i f) k w = k tt (with_bufs (alter f i) w).
Proof. done. Qed.
Lemma bind_bdata i (k : list byte → FM B) : bind (bdata i) k w = k (b_data (f_bufs (w_fs w) !!! i)) w.
Proof. done. Qed.
Lemma bind_getlog (f : logstate → A) (k : A → FM B) : bind (getlog f) k w = k (f (f_log (w_fs w))) w.
Proof. done. Qed.
End Run.

(** the loops over the buffers in [bget] *)
Lemma scan_bufs (P : buf → bool) f order w :
  for_until order (λ i,
    let* b := getbuf i in
    if P b then setbuf i f ;;; ret (Some i) else ret None) w
  = match list_find (λ i, P (f_bufs (w_fs w) !!! i) = true) order with
    | Some (_, i) => Ok (Some i) (with_bufs (alter f i) w)
    | None => Ok None w
    end.
Proof.
  induction order as [|i order IH]; [done|]. cbn [for_until list_find]. unfold bind at 1. rewrite bind_getbuf.
  case_decide as E.
  - rewrite E. reflexivity.
  - destruct (P _); [done|]. cbn [run_bind ret]. rewrite IH. by destruct (list_find _ order) as [[? ?]|].
Qed.

Lemma lookup_buf V D L dirty held wait pins w i bf :
  cached V D L dirty held wait pins w → f_bufs (w_fs w) !! i = Some bf → f_bufs (w_fs w) !!! i = bf.
Proof. intros _ Hi. by apply list_lookup_total_correct. Qed.

Lemma rely_cached V D L dirty held wait pins e w w' :
  bio_rely solo d e w w' → cached V D L dirty held wait pins w → cached V D L dirty held wait pins w'.
Proof. unfold bio_rely. destruct solo; [by intros ->|auto]. Qed.

(** ** Locking *)

Definition lock_buf (i : nat) (v : sleeplock) : world → world := with_bufs (alter (λ b, b <| b_lock := v |>) i).

Lemma wp_acquiresleep V D L dirty held pins w i b :
  cached V D L dirty held (Some (i, b)) pins w → (solo = true → i ∉ held.*1) →
  WP (acquiresleep (SlBuf i)) w (λ _ w', ∃ w0 bf, cached V D L dirty held (Some (i, b)) pins w0 ∧
    f_bufs (w_fs w0) !! i = Some bf ∧ sl_locked (b_lock bf) = false ∧ w' = lock_buf i (mkSleeplock true my_tid) w0).
Proof.
  intros Hc Hs. unfold acquiresleep.
  eapply wp_bind' with (R := λ _ w0, cached V D L dirty held (Some (i, b)) pins w0 ∧
    sl_locked (b_lock (f_bufs (w_fs w0) !!! i)) = false).
  2: { intros [] w0 [Hc0 Hl]. simpl. destruct Hc0 as (HD & HL & Hc0). assert (Hc1 := Hc0).
       destruct (c_wait _ _ _ _ _ _ _ _ _ _ Hc0 i b eq_refl) as (bf & Hi & Hb). exists w0, bf.
       split_and!; [by split_and!|done| |done]. by rewrite (list_lookup_total_correct _ _ _ Hi) in Hl. }
  assert (Hlen : (i < length (f_bufs (w_fs w)))%nat).
  { destruct Hc as (_ & _ & Hc). destruct (c_wait _ _ _ _ _ _ _ _ _ _ Hc i b eq_refl) as (bf & Hi & _). by eapply lookup_lt_Some. }
  destruct (Bool.bool_dec solo true) as [Es|Es%Bool.not_true_is_false].
  - destruct patience as [|n] eqn:Ep; [lia|]. cbn [iterate]. unfold sl_get, bind. simpl.
    destruct (sl_locked _) eqn:El; [|done].
    exfalso. apply (Hs Es). destruct Hc as (_ & _ & Hc).
    destruct (lookup_lt_is_Some_2 _ _ Hlen) as [bf Hi].
    apply (c_solo _ _ _ _ _ _ _ _ _ _ Hc Es i bf Hi). by rewrite (list_lookup_total_correct _ _ _ Hi) in El.
  - eapply wp_iterate with (I := λ _ w0, cached V D L dirty held (Some (i, b)) pins w0); [split; auto|exact Hc|].
    intros [] w0 Hc0. unfold sl_get, bind. simpl. destruct (sl_locked _) eqn:El; simpl; [|done].
    split; [done|]. intros w1 Hr. by eapply rely_cached.
Qed.

(** ** bget *)

(** a thread that is alone and holds less than all buffers finds an unused one *)
Lemma unused_buf V D dirty held pins bufs lru :
  solo = true → cache_ok V D dirty held None pins bufs lru → (length held + length pins < NBUF)%nat →
  ∃ i bf, bufs !! i = Some bf ∧ b_refcnt bf = 0.
Proof.
  intros Hs Hc Hlt. set (g i := if decide (i ∈ held.*1) then inl i else inr (b_blockno (bufs !!! i)) : nat + Z).
  destruct (decide (Exists (λ bf, b_refcnt bf = 0) bufs)) as [(bf & Hin & Hz)%Exists_exists|Hno].
  { apply list_elem_of_lookup in Hin as [i Hi]. eauto. }
  exfalso. rewrite <- Forall_Exists_neg, Forall_lookup in Hno.
  assert (Hbuf : ∀ i, i ∈ seq 0 NBUF → ∃ bf, bufs !! i = Some bf ∧ bufs !!! i = bf ∧
    (i ∈ held.*1 ∨ (b_dev bf = d ∧ b_blockno bf ∈ pins))).
  { intros i Hi%elem_of_seq. destruct (lookup_lt_is_Some_2 bufs i) as [bf Hbf]; [rewrite (c_len _ _ _ _ _ _ _ _ _ _ Hc); lia|].
    exists bf. split_and!; [done|by apply list_lookup_total_correct|].
    pose proof (c_refs _ _ _ _ _ _ _ _ _ _ Hc i bf Hbf) as Hr. pose proof (Hno i bf Hbf) as Hne. unfold share in Hr. rewrite Hs in Hr.
    unfold refs_of, pinned in Hr. repeat case_decide; simplify_eq/=; auto; lia. }
  assert (Hnd : NoDup (g <$> seq 0 NBUF)).
  { apply NoDup_fmap_2_strong; [|apply NoDup_seq]. intros i j Hi Hj Hg. unfold g in Hg.
    destruct (Hbuf i Hi) as (bi & Hbi & Hti & Ci), (Hbuf j Hj) as (bj & Hbj & Htj & Cj).
    repeat case_decide; simplify_eq; [done|]. destruct Ci as [?|[Hdi _]], Cj as [?|[Hdj _]]; try done.
    eapply (c_uniq _ _ _ _ _ _ _ _ _ _ Hc i j _ _ (b_blockno (bufs !!! i))); eauto; by split. }
  assert (Hsub : g <$> seq 0 NBUF ⊆ (inl <$> held.*1) ++ (inr <$> pins)).
  { intros y (i & -> & Hi)%list_elem_of_fmap. destruct (Hbuf i Hi) as (bi & Hbi & Hti & Ci). unfold g.
    apply elem_of_app. case_decide.
    - left. by apply list_elem_of_fmap_2.
    - right. destruct Ci as [?|[_ ?]]; [done|]. apply list_elem_of_fmap_2. by rewrite Hti. }
  apply NoDup_submseteq in Hsub; [|done]. apply submseteq_length in Hsub.
  rewrite length_app, !length_fmap, length_seq in Hsub. lia.
Qed.

Lemma lru_elem V D dirty held wait pins bufs lru i :
  cache_ok V D dirty held wait pins bufs lru → i ∈ lru ↔ (i < length bufs)%nat.
Proof.
  intros Hc. rewrite (c_lru _ _ _ _ _ _ _ _ _ _ Hc), (c_len _ _ _ _ _ _ _ _ _ _ Hc), elem_of_seq. lia.
Qed.

Lemma wp_bget V D L dirty held pins w b :
  cached V D L dirty held None pins w →
  (solo = true → (∀ i, (i, b) ∉ held) ∧ ((length held + length pins < NBUF)%nat ∨ b ∈ pins)) →
  WP (bget d b) w (λ i w', ∃ w0 bf, cached V D L dirty held (Some (i, b)) pins w0 ∧
    f_bufs (w_fs w0) !! i = Some bf ∧ sl_locked (b_lock bf) = false ∧ w' = lock_buf i (mkSleeplock true my_tid) w0).
Proof.
  intros (HD & HL & Hc) Hroom. unfold bget. rewrite bind_getf.
  unfold bind at 1. rewrite (scan_bufs (λ b0, (b_dev b0 =? d) && (b_blockno b0 =? b))).
  destruct (list_find _ _) as [[pos i]|] eqn:Ef.
  - apply list_find_Some in Ef as (Hpos & Hp & _).
    apply list_elem_of_lookup_2, (lru_elem _ _ _ _ _ _ _ _ _ Hc) in Hpos as [bf Hi]%lookup_lt_is_Some_2.
    rewrite (list_lookup_total_correct _ _ _ Hi) in Hp.
    assert (Hb : is_block d b bf) by (split; lia). cbn [run_bind].
    eapply wp_bind'; [apply (wp_acquiresleep V D L dirty held pins _ i b)|intros [] w' HQ; exact HQ].
    + split_and!; [done|done|]. simpl. rewrite (insert_alter _ _ _ _ Hi). by apply step_ref.
    + intros Hs Hin. destruct (Hroom Hs) as [Hno _]. eapply Hno. by eapply (held_only _ _ Hc Hi Hb).
  - apply list_find_None in Ef. rewrite Forall_forall in Ef.
    assert (Hnew : ∀ j bj, f_bufs (w_fs w) !! j = Some bj → ¬ is_block d b bj).
    { intros j bj Hj [Hd Hbn]. apply (Ef j).
      - apply (lru_elem _ _ _ _ _ _ _ _ _ Hc). by eapply lookup_lt_Some.
      - rewrite (list_lookup_total_correct _ _ _ Hj), Hd, Hbn. lia. }
    cbn [run_bind]. unfold bind at 1. rewrite (scan_bufs (λ b0, b_refcnt b0 =? 0)).
    destruct (list_find _ (reverse _)) as [[pos i]|] eqn:Ev.
    + apply list_find_Some in Ev as (Hpos & Hp & _).
      apply list_elem_of_lookup_2, elem_of_reverse, (lru_elem _ _ _ _ _ _ _ _ _ Hc) in Hpos as [bf Hi]%lookup_lt_is_Some_2.
      rewrite (list_lookup_total_correct _ _ _ Hi) in Hp. cbn [run_bind].
      eapply wp_bind'; [apply (wp_acquiresleep V D L dirty held pins _ i b)|intros [] w' HQ; exact HQ].
      * split_and!; [done|done|]. simpl. rewrite (insert_alter _ _ _ _ Hi). apply step_recycle; [done|done|lia|done].
      * intros Hs Hin. pose proof (c_refs _ _ _ _ _ _ _ _ _ _ Hc i bf Hi) as Hr.
        unfold refs_of in Hr. rewrite decide_True in Hr by done. pose proof (pinned_range d pins bf).
        case_decide; simplify_eq/=; lia.
    + cbn [run_bind panic wp]. split; [|by right]. apply Bool.not_true_is_false. intros Hs.
      destruct (Hroom Hs) as [_ [Hlt|Hpin]].
      * destruct (unused_buf _ _ _ _ _ _ _ Hs Hc Hlt) as (i & bf & Hi & Hz).
        apply list_find_None in Ev. rewrite Forall_forall in Ev. apply (Ev i).
        -- apply elem_of_reverse, (lru_elem _ _ _ _ _ _ _ _ _ Hc). by eapply lookup_lt_Some.
        -- rewrite (list_lookup_total_correct _ _ _ Hi). lia.
      * destruct (c_pins _ _ _ _ _ _ _ _ _ _ Hc b Hpin) as (i & bf & Hi & Hb & _). by eapply Hnew.
Qed.

(** ** bread, bwrite, brelse *)

Lemma lookup_total_alter_eq {A} `{Inhabited A} (f : A → A) (l : list A) i x :
  l !! i = Some x → alter f i l !!! i = f x.
Proof. intros Hx. apply list_lookup_total_correct. by rewrite list_lookup_alter_eq, Hx. Qed.

Lemma wp_bread V D L dirty held pins w b :
  cached V D L dirty held None pins w → is_Some (D !! b) →
  (solo = true → (∀ i, (i, b) ∉ held) ∧ ((length held + length pins < NBUF)%nat ∨ b ∈ pins)) →
  WP (bread d b) w (λ i w', cached V D L dirty ((i, b) :: held) None pins w').
Proof.
  intros Hc0 [x Hx] Hroom. unfold bread. eapply wp_bind'; [by apply (wp_bget V D L dirty held pins)|].
  intros i w' (w0 & bf & (HD & HL & Hc) & Hi & Hul & ->). rewrite bind_getbuf.
  destruct (c_wait _ _ _ _ _ _ _ _ _ _ Hc i b eq_refl) as (bf' & Hi' & Hb). rewrite Hi in Hi'. simplify_eq.
  unfold lock_buf. cbn [with_bufs w_fs]. change (f_bufs (w_fs (with_bufs ?f w0))) with (f (f_bufs (w_fs w0))). cbv beta.
  rewrite (lookup_total_alter_eq _ _ _ _ Hi). change (b_valid (set_field _ _ bf')) with (b_valid bf').
  destruct (b_valid bf') eqn:Ev.
  - unfold bind. simpl. split_and!; [done|done|]. simpl. rewrite (insert_alter _ _ _ _ Hi). eapply step_lock; try done.
    exact (c_view _ _ _ _ _ _ _ _ _ _ Hc i bf' b Hi Hb Ev).
  - unfold disk_transfer, bind. simpl. rewrite (lookup_total_alter_eq _ _ _ _ Hi). simpl.
    destruct Hb as [Hbd Hbn] eqn:Eb. rewrite Hbn, Hx. simpl. split_and!; [done|done|]. simpl.
    rewrite (insert_alter _ _ _ _ Hi), !alter_insert_same. eapply step_lock; try done. simpl. by eapply (invalid_clean _ _ Hc).
Qed.

(** a locked buffer holds the content of its block *)
Lemma held_data V D L dirty held pins w i b :
  cached V D L dirty held None pins w → (i, b) ∈ held → b_data (f_bufs (w_fs w) !!! i) = V b.
Proof.
  intros (_ & _ & Hc) Hin. destruct (held_buf _ _ Hc Hin) as (bf & Hi & _ & _ & _ & Hd).
  by rewrite (list_lookup_total_correct _ _ _ Hi).
Qed.

Lemma set_bdata_ok V D L dirty held pins w i b f :
  cached V D L dirty held None pins w → (i, b) ∈ held →
  ∃ w', set_bdata i f w = Ok tt w' ∧ cached (upd b (f (V b)) V) D L (b :: dirty) held None pins w'.
Proof.
  intros Hc0 Hin. assert (Hc := Hc0). destruct Hc as (HD & HL & Hc).
  destruct (held_buf _ _ Hc Hin) as (bf & Hi & Hb & Hv & Hl & Hd).
  eexists. split; [done|]. split_and!; [done|done|]. simpl. rewrite (insert_alter _ _ _ _ Hi).
  replace (bf <| b_data ::= f |>) with (bf <| b_data := f (V b) |>) by (by rewrite <- Hd). by apply step_modify.
Qed.

Lemma bunpin_ok V D L dirty held pins w i b :
  cached V D L dirty held None (b :: pins) w → (i, b) ∈ held → b ∉ pins →
  ∃ w', bunpin i w = Ok tt w' ∧ cached V D L dirty held None pins w'.
Proof.
  intros (HD & HL & Hc) Hin Hnp. destruct (held_buf _ _ Hc Hin) as (bf & Hi & _).
  eexists. split; [done|]. split_and!; [done|done|]. simpl. rewrite (insert_alter _ _ _ _ Hi). by eapply step_unpin.
Qed.

Lemma holdingsleep_ok V D L dirty held pins w i b :
  cached V D L dirty held None pins w → (i, b) ∈ held → holdingsleep (SlBuf i) w = Ok true w.
Proof.
  intros (HD & HL & Hc) Hin. destruct (held_buf _ _ Hc Hin) as (bf & Hi & _ & _ & Hl & _).
  unfold holdingsleep, bind. simpl. rewrite (list_lookup_total_correct _ _ _ Hi), Hl. simpl. by rewrite Z.eqb_refl.
Qed.

Lemma wp_bwrite V D L dirty held pins w i b :
  cached V D L dirty held None pins w → (i, b) ∈ held → is_Some (D !! b) → G (<[b := V b]> D) →
  WP (bwrite i) w (λ _ w', cached V (<[b := V b]> D) L (filter (λ c, c ≠ b) dirty) held None pins w').
Proof.
  intros Hc0 Hin [x Hx] HG. unfold bwrite. rewrite (bind_Ok _ _ _ _ _ (holdingsleep_ok _ _ _ _ _ _ _ _ _ Hc0 Hin)).
  assert (Hc := Hc0). destruct Hc as (HD & HL & Hc). destruct (held_buf _ _ Hc Hin) as (bf & Hi & [Hbd Hbn] & _ & _ & Hd).
  unfold disk_transfer, bind. simpl. rewrite (list_lookup_total_correct _ _ _ Hi), Hbn, HD, Hx, Hd. simpl.
  rewrite HD. split; [done|]. intros w' Hr. eapply rely_cached; [exact Hr|].
  split_and!; [simpl; by rewrite HD|done|]. simpl. by apply step_write.
Qed.

Lemma lru_move (l : list nat) i n : l ≡ₚ seq 0 n → (i < n)%nat → i :: filter (λ j, j ≠ i) l ≡ₚ l.
Proof.
  intros Hl Hi. assert (Hnd : NoDup l) by (rewrite Hl; apply NoDup_seq).
  apply NoDup_Permutation; [|done|].
  - apply NoDup_cons. split; [|by apply NoDup_filter]. rewrite list_elem_of_filter. tauto.
  - intros j. rewrite elem_of_cons, list_elem_of_filter, Hl, elem_of_seq.
    destruct (decide (j = i)); [subst|]; intuition lia.
Qed.

Lemma wp_brelse V D L dirty held pins w i b :
  cached V D L dirty ((i, b) :: held) None pins w → (b ∈ dirty → b ∈ pins) →
  WP (brelse i) w (λ _ w', cached V D L dirty held None pins w').
Proof.
  intros Hc0 Hbd. unfold brelse.
  rewrite (bind_Ok _ _ _ _ _ (holdingsleep_ok _ _ _ _ _ _ _ i b Hc0 ltac:(set_solver))). cbn [negb].
  assert (Hc := Hc0). destruct Hc as (HD & HL & Hc).
  destruct (held_buf _ _ Hc (i := i) (b := b) ltac:(set_solver)) as (bf & Hi & _).
  eapply wp_bind' with (R := λ _ w', cached V D L dirty held (Some (i, b)) pins w').
  { unfold releasesleep, bind. simpl. split; [done|]. intros w' Hr. eapply rely_cached; [exact Hr|].
    split_and!; [done|done|]. simpl. rewrite (insert_alter _ _ _ _ Hi). by apply step_unlock. }
  clear Hc0 Hc HD HL Hi bf w. intros [] w (HD & HL & Hc).
  destruct (c_wait _ _ _ _ _ _ _ _ _ _ Hc i b eq_refl) as (bf & Hi & Hb).
  rewrite bind_setbuf, bind_getbuf. change (f_bufs (w_fs (with_bufs ?f w))) with (f (f_bufs (w_fs w))). cbv beta.
  rewrite (lookup_total_alter_eq _ _ _ _ Hi). unfold when. case_if.
  - split_and!; [done|done|]. simpl. rewrite (insert_alter _ _ _ _ Hi). eapply step_unref; [done|done|].
    eapply lru_move; [apply (c_lru _ _ _ _ _ _ _ _ _ _ Hc)|]. apply lookup_lt_Some in Hi.
    by rewrite (c_len _ _ _ _ _ _ _ _ _ _ Hc) in Hi.
  - split_and!; [done|done|]. simpl. rewrite (insert_alter _ _ _ _ Hi). by eapply step_unref.
Qed.
End BioWp.
