(* ===== verification/LogSpec.v ===== *)
(** * Transactions of the log (src/kernel/log.c)

    The on-disk log as a function on disks: [replay] is what recovery makes of
    a disk.  [write_log], [write_head], [install_trans] and [commit] are
    specified against it. *)

From S2P Require Import Prelude Mem Riscv Kalloc Vm Kstate FsState Bio Log BioSpec BioWp.

(** ** The header block *)

(** the block numbers that a header block lists *)
Definition header_of (blk : list byte) : list Z :=
  (λ i, i32 (rd32 (LH_BLOCK i) blk)) <$> seq 0 (Z.to_nat (i32 (rd32 LH_N blk))).

(** the stores of [write_head] for the first [k] blocks *)
Definition enc_header (bl : list Z) (blk : list byte) (k : nat) : list byte :=
  foldl (λ blk i, wr32 (LH_BLOCK i) (bl !!! i) blk) (wr32 LH_N (Z.of_nat (length bl)) blk) (seq 0 k).

Lemma enc_header_S bl blk k :
  enc_header bl blk (S k) = wr32 (LH_BLOCK k) (bl !!! k) (enc_header bl blk k).
Proof. unfold enc_header. rewrite seq_S, foldl_app. done. Qed.

Section Header.
Context (bl : list Z) (blk : list byte).
Context (Hlen : length blk = Z.to_nat BSIZE) (Hbl : (length bl ≤ Z.to_nat LOGSIZE)%nat)
  (Hrange : Forall (λ b, 0 ≤ b < 2 ^ 31) bl).

Lemma length_enc_header k : (k ≤ length bl)%nat → length (enc_header bl blk k) = Z.to_nat BSIZE.
Proof.
  unfold LOGSIZE, MAXOPBLOCKS, BSIZE in *. induction k as [|k IH]; intros Hk.
  - change (enc_header bl blk 0) with (wr32 LH_N (Z.of_nat (length bl)) blk). rewrite length_wr32; unfold LH_N; lia.
  - rewrite enc_header_S, length_wr32; rewrite IH by lia; unfold LH_BLOCK; lia.
Qed.

Lemma rd_header_n k : (k ≤ length bl)%nat → rd32 LH_N (enc_header bl blk k) = Z.of_nat (length bl).
Proof.
  induction k as [|k IH]; intros Hk.
  - change (enc_header bl blk 0) with (wr32 LH_N (Z.of_nat (length bl)) blk). unfold LOGSIZE, MAXOPBLOCKS, BSIZE, LH_N in *. rewrite rd32_wr32_same, u32_small by lia. done.
  - rewrite enc_header_S, rd32_wr32_ne; [apply IH; lia| |unfold LH_BLOCK, LH_N; lia].
    rewrite length_enc_header by lia. unfold LOGSIZE, MAXOPBLOCKS, BSIZE, LH_BLOCK in *. lia.
Qed.

Lemma rd_header_block k i b : (i < k)%nat → (k ≤ length bl)%nat → bl !! i = Some b →
  rd32 (LH_BLOCK i) (enc_header bl blk k) = b.
Proof.
  induction k as [|k IH]; intros Hi Hk Hb; [lia|].
  assert (Hroom : (LH_BLOCK k + 4 ≤ length (enc_header bl blk k))%nat)
    by (rewrite length_enc_header by lia; unfold LOGSIZE, MAXOPBLOCKS, BSIZE, LH_BLOCK in *; lia).
  rewrite enc_header_S. destruct (decide (i = k)) as [->|Hne].
  - rewrite rd32_wr32_same by done. rewrite (list_lookup_total_correct _ _ _ Hb). apply u32_small.
    rewrite Forall_lookup in Hrange. specialize (Hrange _ _ Hb). lia.
  - rewrite rd32_wr32_ne; [apply IH; (lia || done)|done|unfold LH_BLOCK; lia].
Qed.

(** the header that [write_head] leaves is the one that [read_head] reads *)
Lemma header_enc : header_of (enc_header bl blk (length bl)) = bl.
Proof.
  unfold header_of. rewrite rd_header_n by done. unfold LOGSIZE, MAXOPBLOCKS in *. rewrite i32_small, Nat2Z.id by lia.
  apply list_eq. intros i. rewrite list_lookup_fmap. destruct (bl !! i) as [b|] eqn:Eb.
  - assert (i < length bl)%nat by (by eapply lookup_lt_Some). rewrite lookup_seq_lt by done. simpl. f_equal.
    rewrite (rd_header_block _ i b) by done. rewrite Forall_lookup in Hrange. specialize (Hrange _ _ Eb). apply i32_small. lia.
  - apply lookup_ge_None in Eb. by rewrite lookup_seq_ge by done.
Qed.
End Header.

Lemma header_clear blk : (4 ≤ length blk)%nat → header_of (wr32 LH_N 0 blk) = [].
Proof. intros Hl. unfold header_of. by rewrite rd32_wr32_same by (unfold LH_N; lia). Qed.

Lemma header_of_length blk : (length (header_of blk) = Z.to_nat (i32 (rd32 LH_N blk)))%nat.
Proof. unfold header_of. by rewrite length_fmap, length_seq. Qed.

(** ** Replaying the log *)

(** the first [k] logged blocks copied to their home *)
Definition install (V : Z → list byte) (start : Z) (bl : list Z) (k : nat) (D : gmap Z (list byte)) : gmap Z (list byte) :=
  foldl (λ D i, <[bl !!! i := V (start + Z.of_nat i + 1)]> D) D (seq 0 k).
Definition install_view (start : Z) (bl : list Z) (k : nat) (V : Z → list byte) : Z → list byte :=
  foldl (λ V' i, upd (bl !!! i) (V (start + Z.of_nat i + 1)) V') V (seq 0 k).

(** the disk that recovery leaves, apart from the log itself *)
Definition replay (start : Z) (D : gmap Z (list byte)) : gmap Z (list byte) :=
  let bl := header_of (D !!! start) in install (λ b, D !!! b) start bl (length bl) D.

Lemma install_S V start bl k D :
  install V start bl (S k) D = <[bl !!! k := V (start + Z.of_nat k + 1)]> (install V start bl k D).
Proof. unfold install. rewrite seq_S, foldl_app. done. Qed.
Lemma install_view_S start bl k V c :
  install_view start bl (S k) V c = upd (bl !!! k) (V (start + Z.of_nat k + 1)) (install_view start bl k V) c.
Proof. unfold install_view. rewrite seq_S, foldl_app. done. Qed.

Section Install.
Context (V : Z → list byte) (start : Z) (bl : list Z).
Context (Hnd : NoDup bl).

Lemma install_lookup k D b : (k ≤ length bl)%nat →
  install V start bl k D !! b = match list_find (λ c, c = b) (take k bl) with
    | Some (i, _) => Some (V (start + Z.of_nat i + 1))
    | None => D !! b
    end.
Proof.
  induction k as [|k IH]; intros Hk; [done|]. rewrite install_S.
  destruct (lookup_lt_is_Some_2 bl k) as [x Hx]; [lia|]. rewrite (list_lookup_total_correct _ _ _ Hx).
  rewrite (take_S_r _ _ _ Hx). destruct (decide (x = b)) as [->|Hne].
  - rewrite lookup_insert_eq. rewrite list_find_app_r.
    + simpl. rewrite decide_True by done. simpl. rewrite length_take, Nat.min_l by lia. repeat f_equal.
    + apply list_find_None, Forall_forall. intros c Hc ->. apply elem_of_take in Hc as (j & Hj & Hlt).
      apply (NoDup_lookup bl k j) in Hx; [lia|done|done].
  - rewrite lookup_insert_ne, IH by (done || lia). destruct (list_find _ (take k bl)) as [[i c]|] eqn:Ef.
    + by erewrite list_find_app_l.
    + rewrite list_find_app_r by done. simpl. by rewrite decide_False.
Qed.

Lemma install_out k D b : (k ≤ length bl)%nat → b ∉ bl → install V start bl k D !! b = D !! b.
Proof.
  intros Hk Hb. rewrite install_lookup by done. replace (list_find _ _) with (@None (nat * Z)); [done|].
  symmetry. apply list_find_None, Forall_forall. intros c Hc ->. apply Hb. apply elem_of_take in Hc as (j & Hj & _).
  by eapply list_elem_of_lookup_2.
Qed.
End Install.

Lemma install_view_out start bl k V c : (k ≤ length bl)%nat → c ∉ bl → install_view start bl k V c = V c.
Proof.
  intros Hk Hc. induction k as [|k IH]; [done|]. rewrite install_view_S. unfold upd.
  destruct (lookup_lt_is_Some_2 bl k) as [b Hb]; [lia|]. rewrite (list_lookup_total_correct _ _ _ Hb).
  rewrite decide_False; [apply IH; lia|]. intros ->. by eapply Hc, list_elem_of_lookup_2.
Qed.
Lemma install_view_in start bl k V i b :
  NoDup bl → bl !! i = Some b → (i < k)%nat → (k ≤ length bl)%nat → install_view start bl k V b = V (start + Z.of_nat i + 1).
Proof.
  intros Hnd Hi. induction k as [|k IH]; intros Hik Hk; [lia|]. rewrite install_view_S. unfold upd.
  destruct (lookup_lt_is_Some_2 bl k) as [c Hc]; [lia|]. rewrite (list_lookup_total_correct _ _ _ Hc).
  case_decide as E.
  - subst. by rewrite (NoDup_lookup bl i k c).
  - apply IH; [|lia]. destruct (decide (i = k)) as [->|]; [congruence|lia].
Qed.
Lemma install_dom V start bl k D b : is_Some (D !! b) → is_Some (install V start bl k D !! b).
Proof.
  intros Hb. induction k as [|k IH]; [done|]. rewrite install_S. destruct (decide (b = bl !!! k)) as [->|Hne].
  - rewrite lookup_insert_eq. eauto.
  - by rewrite lookup_insert_ne.
Qed.

(** the blocks of a transaction: distinct, not in the log, on the disk *)
Record tx_ok (start : Z) (bl : list Z) (D : gmap Z (list byte)) : Prop := {
  tx_nodup : NoDup bl;
  tx_home : ∀ b i, b ∈ bl → (i ≤ length bl)%nat → b ≠ start + Z.of_nat i;
  tx_range : Forall (λ b, 0 ≤ b < 2 ^ 31) bl;
  tx_disk : ∀ b, b ∈ bl → is_Some (D !! b);
  tx_log : ∀ i, (i ≤ length bl)%nat → is_Some (D !! (start + Z.of_nat i))
}.

Lemma tx_log_block start bl D i b : tx_ok start bl D → bl !! i = Some b →
  is_Some (D !! (start + Z.of_nat i + 1)) ∧ (start + Z.of_nat i + 1 ∉ bl) ∧ b ∈ bl.
Proof.
  intros Htx Hi. assert (i < length bl)%nat by (by eapply lookup_lt_Some).
  split_and!; [|intros Hin|by eapply list_elem_of_lookup_2].
  - replace (start + Z.of_nat i + 1) with (start + Z.of_nat (S i)) by lia. apply (tx_log _ _ _ Htx). lia.
  - apply (tx_home _ _ _ Htx _ (S i) Hin); lia.
Qed.

(** the log blocks after [write_log] has done [k] of them *)
Definition logged (V : Z → list byte) (start : Z) (bl : list Z) (k : nat) (D : gmap Z (list byte)) : gmap Z (list byte) :=
  foldl (λ D i, <[start + Z.of_nat i + 1 := V (bl !!! i)]> D) D (seq 0 k).
Definition logged_view (start : Z) (bl : list Z) (k : nat) (V : Z → list byte) : Z → list byte :=
  foldl (λ V' i, upd (start + Z.of_nat i + 1) (V (bl !!! i)) V') V (seq 0 k).

Lemma logged_S V start bl k D :
  logged V start bl (S k) D = <[start + Z.of_nat k + 1 := V (bl !!! k)]> (logged V start bl k D).
Proof. unfold logged. rewrite seq_S, foldl_app. done. Qed.
Lemma logged_view_S start bl k V c :
  logged_view start bl (S k) V c = upd (start + Z.of_nat k + 1) (V (bl !!! k)) (logged_view start bl k V) c.
Proof. unfold logged_view. rewrite seq_S, foldl_app. done. Qed.
Lemma logged_view_out start bl k V c :
  (∀ i, (i < k)%nat → c ≠ start + Z.of_nat i + 1) → logged_view start bl k V c = V c.
Proof.
  induction k as [|k IH]; intros Hc; [done|]. rewrite logged_view_S. unfold upd. rewrite decide_False by (apply Hc; lia).
  apply IH. intros. apply Hc. lia.
Qed.
Lemma logged_dom V start bl k D b : is_Some (D !! b) → is_Some (logged V start bl k D !! b).
Proof.
  intros Hb. induction k as [|k IH]; [done|]. rewrite logged_S. destruct (decide (b = start + Z.of_nat k + 1)) as [->|Hne].
  - rewrite lookup_insert_eq. eauto.
  - by rewrite lookup_insert_ne.
Qed.

Lemma logged_out V start bl k D c : (∀ i, (i < k)%nat → c ≠ start + Z.of_nat i + 1) → logged V start bl k D !! c = D !! c.
Proof.
  induction k as [|k IH]; intros Hc; [done|]. rewrite logged_S, lookup_insert_ne by (symmetry; apply Hc; lia).
  apply IH. intros. apply Hc. lia.
Qed.
Lemma logged_in V start bl k D i : (i < k)%nat → logged V start bl k D !! (start + Z.of_nat i + 1) = Some (V (bl !!! i)).
Proof.
  induction k as [|k IH]; intros Hi; [lia|]. rewrite logged_S. destruct (decide (i = k)) as [->|Hne].
  - by rewrite lookup_insert_eq.
  - rewrite lookup_insert_ne by lia. apply IH. lia.
Qed.
Lemma logged_view_in start bl k V i : (i < k)%nat → logged_view start bl k V (start + Z.of_nat i + 1) = V (bl !!! i).
Proof.
  induction k as [|k IH]; intros Hi; [lia|]. rewrite logged_view_S. unfold upd. case_decide as E.
  - by replace i with k by lia.
  - apply IH. destruct (decide (i = k)); [subst; done|lia].
Qed.

(** ** The functions of log.c *)

Section LogWp.
Context `{Caller} (solo : bool) (d : Z) (G : gmap Z (list byte) → Prop).
Context (Hpat : (0 < patience)%nat).

Abbreviation WP m w Q := (wp (bio_out solo) (bio_guar solo G) (bio_rely solo d) (m w) Q).
Abbreviation cached := (cached solo d).

Lemma cached_weaken {V D L dirty held wait pins w} V' dirty' :
  cached V D L dirty held wait pins w → (∀ b, V' b = V b) →
  (∀ b, b ∈ dirty → b ∈ dirty' ∨ ∃ x, D !! b = Some x ∧ x = V b) →
  (∀ b, b ∈ dirty' → b ∈ pins ∨ ∃ i, (i, b) ∈ held) →
  cached V' D L dirty' held wait pins w.
Proof.
  intros (HD & HL & Hc) HV Hd Hd'. split_and!; [done|done|].
  eapply cache_ext; [|exact HV]. eapply cache_weaken; eauto.
Qed.

Lemma wp_write_head V D L dirty pins w :
  cached V D L dirty [] None pins w → l_dev L = d → is_Some (D !! l_start L) → l_start L ∉ dirty →
  (length pins < NBUF)%nat → let h := enc_header (l_block L) (V (l_start L)) (length (l_block L)) in
  G (<[l_start L := h]> D) →
  WP write_head w (λ _ w', cached (upd (l_start L) h V) (<[l_start L := h]> D) L dirty [] None pins w').
Proof.
  intros Hc Hdev Hx Hnd Hlen h HG. set (st := l_start L) in *. unfold write_head. rewrite !bind_getlog.
  assert (HL : f_log (w_fs w) = L) by apply Hc. rewrite HL, Hdev. fold st.
  eapply wp_bind'; [apply (wp_bread solo d G Hpat V D L dirty [] pins); [done|done|]|].
  { intros _. split; [set_solver|left; simpl; lia]. }
  intros i w1 Hc1. rewrite bind_getlog. assert (HL1 : f_log (w_fs w1) = L) by apply Hc1. rewrite HL1.
  set (bl := l_block L) in *.
  destruct (set_bdata_ok solo d V D L dirty [(i, st)] pins w1 i st (wr32 LH_N (Z.of_nat (length bl))) Hc1 ltac:(set_solver)) as (w2 & Hr2 & Hc2).
  rewrite (bind_Ok _ _ _ _ _ Hr2).
  eapply wp_bind'; [apply (wp_for_seq _ _ _ _ (λ k w, cached (upd st (enc_header bl (V st) k) V) D L (st :: dirty) [(i, st)] None pins w))|].
  { exact Hc2. }
  { intros k w3 Hk Hc3.
    destruct (set_bdata_ok solo d _ D L _ [(i, st)] pins w3 i st (wr32 (LH_BLOCK k) (bl !!! k)) Hc3 ltac:(set_solver)) as (w4 & Hr4 & Hc4).
    rewrite Hr4. simpl. eapply (cached_weaken _ _ Hc4).
    - intros b. unfold upd. repeat case_decide; try done. by rewrite enc_header_S.
    - intros b Hb. left. set_solver.
    - intros b Hb. destruct Hc3 as (_ & _ & Hc3). apply (c_dirty _ _ _ _ _ _ _ _ _ _ Hc3). done. }
  intros [] w3 Hc3. simpl in Hc3. fold h in Hc3.
  assert (Hh : upd st h V st = h) by (unfold upd; by rewrite decide_True).
  eapply wp_bind'; [apply (wp_bwrite solo d G _ D L (st :: dirty) [(i, st)] pins w3 i st Hc3)|].
  { set_solver. }
  { done. }
  { by rewrite Hh. }
  intros [] w4 Hc4. rewrite Hh in Hc4. rewrite filter_cons_False in Hc4 by naive_solver.
  eapply wp_mono; [|apply (wp_brelse solo d G Hpat _ _ _ _ _ _ _ i st Hc4)].
  - intros [] w5 Hc5. eapply (cached_weaken _ _ Hc5); [done| |].
    + intros b [_ Hb]%list_elem_of_filter. by left.
    + intros b Hb. destruct Hc as (_ & _ & Hc). by apply (c_dirty _ _ _ _ _ _ _ _ _ _ Hc).
  - intros [? _]%list_elem_of_filter. done.
Qed.

Lemma wp_write_log V D L w :
  let bl := l_block L in let start := l_start L in
  cached V D L bl [] None bl w → l_dev L = d → tx_ok start bl D → (length bl < NBUF)%nat →
  (∀ k, (k < length bl)%nat → G (logged V start bl (S k) D)) →
  WP write_log w (λ _ w', cached (logged_view start bl (length bl) V) (logged V start bl (length bl) D) L bl [] None bl w').
Proof.
  intros bl start Hc Hdev Htx Hlen HG. unfold write_log. rewrite bind_getlog.
  assert (HL : f_log (w_fs w) = L) by apply Hc. rewrite HL. fold bl.
  apply (wp_for_seq _ _ _ _ (λ k w, cached (logged_view start bl k V) (logged V start bl k D) L bl [] None bl w)); [exact Hc|].
  clear w Hc HL. intros k w Hk Hc. rewrite !bind_getlog. assert (HL : f_log (w_fs w) = L) by apply Hc.
  rewrite HL, Hdev. fold start.
  destruct (lookup_lt_is_Some_2 bl k) as [b Hb]; [lia|]. destruct (tx_log_block _ _ _ _ _ Htx Hb) as (Hx & Hnl & Hin).
  set (lb := start + Z.of_nat k + 1) in *. set (Vk := logged_view start bl k V) in *. set (Dk := logged V start bl k D) in *.
  assert (HVb : Vk b = V b).
  { apply logged_view_out. intros i Hi ->. apply (tx_home _ _ _ Htx _ (S i) Hin); lia. }
  eapply wp_bind'; [apply (wp_bread solo d G Hpat Vk Dk L bl [] bl); [done|by apply logged_dom|]|].
  { intros _. split; [set_solver|left; simpl; lia]. }
  intros ti w1 Hc1. rewrite bind_getlog. assert (HL1 : f_log (w_fs w1) = L) by apply Hc1. rewrite HL1. fold bl.
  rewrite (list_lookup_total_correct _ _ _ Hb).
  eapply wp_bind'; [apply (wp_bread solo d G Hpat Vk Dk L bl [(ti, lb)] bl);
    [done|apply logged_dom, (tx_disk _ _ _ Htx); done|]|].
  { intros _. split; [|by right]. intros i [= -> ->]%list_elem_of_singleton. done. }
  intros fi w2 Hc2. rewrite bind_bdata. rewrite (held_data solo d Vk Dk L bl _ bl w2 fi b Hc2) by set_solver. rewrite HVb.
  destruct (set_bdata_ok solo d Vk Dk L bl _ bl w2 ti lb (λ _, V b) Hc2 ltac:(set_solver)) as (w3 & Hr3 & Hc3).
  rewrite (bind_Ok _ _ _ _ _ Hr3). assert (Hu : upd lb (V b) Vk lb = V b) by (unfold upd; by rewrite decide_True).
  specialize (HG k ltac:(lia)). rewrite logged_S, (list_lookup_total_correct _ _ _ Hb) in HG. fold lb Dk in HG.
  eapply wp_bind'; [apply (wp_bwrite solo d G _ _ _ _ _ _ w3 ti lb Hc3);
    [set_solver|by apply logged_dom|by rewrite Hu]|].
  intros [] w4 Hc4. rewrite Hu, filter_cons_False in Hc4 by naive_solver.
  eapply wp_bind'; [apply (wp_brelse solo d G Hpat _ _ _ _ _ _ w4 fi b Hc4); by intros [_ ?]%list_elem_of_filter|].
  intros [] w5 Hc5. eapply wp_mono; [|apply (wp_brelse solo d G Hpat _ _ _ _ _ _ w5 ti lb Hc5); by intros [_ ?]%list_elem_of_filter].
  intros [] w6 Hc6. rewrite logged_S, (list_lookup_total_correct _ _ _ Hb). fold lb Dk.
  eapply (cached_weaken _ _ Hc6).
  - intros c. rewrite logged_view_S, (list_lookup_total_correct _ _ _ Hb). done.
  - intros c [_ Hcd]%list_elem_of_filter. by left.
  - intros c Hcd. by left.
Qed.

Lemma cached_perm {V D L dirty held wait pins w} held' pins' :
  cached V D L dirty held wait pins w → held ≡ₚ held' → pins ≡ₚ pins' → cached V D L dirty held' wait pins' w.
Proof.
  intros (HD & HL & Hc) Hh Hp. split_and!; [done|done|]. eapply cache_weaken; [exact Hc|done|done|by left|].
  intros b Hb. destruct (c_dirty _ _ _ _ _ _ _ _ _ _ Hc b Hb) as [Hb'|[i Hi]].
  - left. by rewrite <- Hp.
  - right. exists i. by rewrite <- Hh.
Qed.

(** the pins that are left after [k] blocks *)
Definition pins_left (recovering : bool) (bl : list Z) (k : nat) : list Z := if recovering then [] else drop k bl.

Lemma unpin_ok (recovering : bool) V D L dirty held w bl i b k :
  cached V D L dirty held None (pins_left recovering bl k) w → NoDup bl → bl !! k = Some b → (i, b) ∈ held →
  ∃ w', when (negb recovering) (bunpin i) w = Ok tt w' ∧ cached V D L dirty held None (pins_left recovering bl (S k)) w'.
Proof.
  intros Hc Hnd Hb Hin. destruct recovering; simpl in *; [eauto|].
  rewrite (drop_S _ _ _ Hb) in Hc. eapply (bunpin_ok solo d V D L dirty held (drop (S k) bl) w i b Hc Hin).
  intros (j & Hj)%list_elem_of_lookup. rewrite lookup_drop in Hj. apply (NoDup_lookup bl k _ b) in Hj; [lia|done|done].
Qed.

Lemma wp_install_trans recovering V D L w :
  let bl := l_block L in let start := l_start L in
  cached V D L (pins_left recovering bl 0) [] None (pins_left recovering bl 0) w →
  l_dev L = d → tx_ok start bl D → (length bl < NBUF)%nat →
  (∀ k, (k < length bl)%nat → G (install V start bl (S k) D)) →
  WP (install_trans recovering) w (λ _ w',
    cached (install_view start bl (length bl) V) (install V start bl (length bl) D) L [] [] None [] w').
Proof.
  intros bl start Hc Hdev Htx Hlen HG. unfold install_trans. rewrite bind_getlog.
  assert (HL : f_log (w_fs w) = L) by apply Hc. rewrite HL. fold bl.
  replace [] with (pins_left recovering bl (length bl)) by (unfold pins_left; destruct recovering; [done|by rewrite drop_all]).
  eapply wp_mono; [|apply (wp_for_seq _ _ _ _ (λ k w, cached (install_view start bl k V) (install V start bl k D) L
    (pins_left recovering bl k) [] None (pins_left recovering bl k) w)); [exact Hc|]].
  { by intros [] w' Hw'. }
  clear w Hc HL. intros k w Hk Hc. rewrite !bind_getlog. assert (HL : f_log (w_fs w) = L) by apply Hc.
  rewrite HL, Hdev. fold start.
  destruct (lookup_lt_is_Some_2 bl k) as [b Hb]; [lia|]. destruct (tx_log_block _ _ _ _ _ Htx Hb) as (Hx & Hnl & Hin).
  set (lb := start + Z.of_nat k + 1) in *. set (Vk := install_view start bl k V) in *. set (Dk := install V start bl k D) in *.
  set (pk := pins_left recovering bl k) in *.
  assert (Hpk : (length pk < NBUF)%nat ∧ (recovering = false → b ∈ pk) ∧ lb ∉ pk).
  { unfold pk, pins_left. destruct recovering; [split_and!; [simpl; unfold NBUF; lia|done|set_solver]|split_and!].
    - rewrite length_drop. lia.
    - intros _. rewrite (drop_S _ _ _ Hb). set_solver.
    - intros Hin'. apply Hnl. eapply subseteq_drop; eauto. }
  destruct Hpk as (Hpl & Hpb & Hplb).
  assert (HVl : Vk lb = V lb) by (apply install_view_out; [lia|done]).
  eapply wp_bind'; [apply (wp_bread solo d G Hpat Vk Dk L pk [] pk); [done|by apply install_dom|]|].
  { intros _. split; [set_solver|left; simpl; lia]. }
  intros li w1 Hc1. rewrite bind_getlog. assert (HL1 : f_log (w_fs w1) = L) by apply Hc1. rewrite HL1. fold bl.
  rewrite (list_lookup_total_correct _ _ _ Hb).
  eapply wp_bind'; [apply (wp_bread solo d G Hpat Vk Dk L pk [(li, lb)] pk);
    [done|apply install_dom, (tx_disk _ _ _ Htx); done|]|].
  { intros _. split; [intros i [= -> ->]%list_elem_of_singleton; done|].
    destruct recovering; [left; simpl; unfold NBUF; lia|right; auto]. }
  intros di w2 Hc2. rewrite bind_bdata. rewrite (held_data solo d Vk Dk L pk _ pk w2 li lb Hc2) by set_solver. rewrite HVl.
  destruct (set_bdata_ok solo d Vk Dk L pk _ pk w2 di b (λ _, V lb) Hc2 ltac:(set_solver)) as (w3 & Hr3 & Hc3).
  rewrite (bind_Ok _ _ _ _ _ Hr3). assert (Hu : upd b (V lb) Vk b = V lb) by (unfold upd; by rewrite decide_True).
  specialize (HG k ltac:(lia)). rewrite install_S, (list_lookup_total_correct _ _ _ Hb) in HG. fold lb Dk in HG.
  eapply wp_bind'; [apply (wp_bwrite solo d G _ _ _ _ _ _ w3 di b Hc3);
    [set_solver|apply install_dom, (tx_disk _ _ _ Htx); done|by rewrite Hu]|].
  intros [] w4 Hc4. rewrite Hu, filter_cons_False in Hc4 by naive_solver.
  destruct (unpin_ok recovering _ _ _ _ _ w4 bl di b k Hc4 (tx_nodup _ _ _ Htx) Hb ltac:(set_solver)) as (w5 & Hr5 & Hc5).
  rewrite (bind_Ok _ _ _ _ _ Hr5). apply (cached_perm [(li, lb); (di, b)] (pins_left recovering bl (S k))) in Hc5; [|by apply perm_swap|done].
  eapply wp_bind'; [apply (wp_brelse solo d G Hpat _ _ _ _ _ _ w5 li lb Hc5); by intros [_ ?]%list_elem_of_filter|].
  intros [] w6 Hc6. eapply wp_mono; [|apply (wp_brelse solo d G Hpat _ _ _ _ _ _ w6 di b Hc6); by intros [? _]%list_elem_of_filter].
  intros [] w7 Hc7. rewrite install_S, (list_lookup_total_correct _ _ _ Hb). fold lb Dk.
  eapply (cached_weaken _ _ Hc7).
  - intros c. rewrite install_view_S, (list_lookup_total_correct _ _ _ Hb). done.
  - intros c [Hne Hcd]%list_elem_of_filter. left. unfold pk, pins_left in *. destruct recovering; [done|].
    rewrite (drop_S _ _ _ Hb) in Hcd. set_solver.
  - intros c Hcd. by left.
Qed.

Lemma setlog_ok V D L dirty held wait pins w f :
  cached V D L dirty held wait pins w → ∃ w', setlog f w = Ok tt w' ∧ cached V D (f L) dirty held wait pins w'.
Proof. intros (HD & HL & Hc). eexists. split; [done|]. split_and!; [done|simpl; by rewrite HL|done]. Qed.

Lemma wp_read_head V D L w :
  cached V D L [] [] None [] w → l_dev L = d → is_Some (D !! l_start L) →
  (length (header_of (V (l_start L))) ≤ Z.to_nat LOGSIZE)%nat →
  WP read_head w (λ _ w', cached V D (L <| l_block := header_of (V (l_start L)) |>) [] [] None [] w').
Proof.
  intros Hc Hdev Hx Hn. rewrite header_of_length in Hn. unfold read_head. rewrite !bind_getlog.
  assert (HL : f_log (w_fs w) = L) by apply Hc. rewrite HL, Hdev. set (st := l_start L) in *.
  eapply wp_bind'; [apply (wp_bread solo d G Hpat V D L [] [] []); [done|done|]|].
  { intros _. split; [set_solver|left; simpl; unfold NBUF; lia]. }
  intros i w1 Hc1. rewrite bind_bdata. rewrite (held_data solo d V D L [] _ [] w1 i st Hc1) by set_solver.
  replace (LOGSIZE <? i32 (rd32 LH_N (V st))) with false by (unfold LOGSIZE, MAXOPBLOCKS in *; lia).
  destruct (setlog_ok _ _ _ _ _ _ _ w1 (λ l, l <| l_block := header_of (V st) |>) Hc1) as (w2 & Hr2 & Hc2).
  rewrite (bind_Ok _ _ _ _ _ Hr2). apply (wp_brelse solo d G Hpat _ _ _ _ _ _ w2 i st Hc2). set_solver.
Qed.

(** the log after [log_write] of block [b] *)
Definition log_add (b : Z) (L : logstate) : logstate :=
  L <| l_block ::= λ bl, if decide (b ∈ bl) then bl else bl ++ [b] |>.

Lemma log_write_ok V D L dirty held w i b :
  cached V D L dirty held None (l_block L) w → (i, b) ∈ held →
  Z.of_nat (length (l_block L)) < LOGSIZE → Z.of_nat (length (l_block L)) < l_size L - 1 → 1 ≤ l_outstanding L →
  ∃ w', log_write i w = Ok tt w' ∧ cached V D (log_add b L) dirty held None (l_block (log_add b L)) w'.
Proof.
  intros Hc Hin H1 H2 H3. unfold log_write. rewrite bind_getlog. assert (Hc' := Hc). destruct Hc' as (HD & HL & Hc').
  destruct (held_buf _ _ Hc' Hin) as (bf & Hi & [Hbd Hbn] & _). rewrite HL.
  replace ((LOGSIZE <=? _) || _) with false by lia. replace (l_outstanding L <? 1) with false by lia.
  rewrite bind_getbuf, (list_lookup_total_correct _ _ _ Hi), Hbn.
  assert (Hadd : l_block (log_add b L) = if decide (b ∈ l_block L) then l_block L else l_block L ++ [b]) by done.
  assert (HLa : log_add b L = L <| l_block := l_block (log_add b L) |>) by done. rewrite HLa, Hadd. clear HLa Hadd.
  case_bool_decide as E.
  - exists w. split; [done|]. rewrite decide_True by done. simpl. by destruct L.
  - eexists. split; [done|]. rewrite decide_False by done.
    eapply cached_perm; [|done|apply Permutation_cons_append].
    split_and!; [done|simpl; by rewrite HL|]. simpl. rewrite (insert_alter _ _ _ _ Hi). by apply step_pin.
Qed.

(** Updating a block in a transaction: read it, change it, log it, release it.
    [k] is the rest of the operation. *)
Lemma wp_log_update {A} V D L dirty held w b f (k : FM A) Q :
  cached V D L dirty held None (l_block L) w → is_Some (D !! b) →
  (solo = true → (∀ i, (i, b) ∉ held) ∧ ((length held + length (l_block L) < NBUF)%nat ∨ b ∈ l_block L)) →
  Z.of_nat (length (l_block L)) < LOGSIZE → Z.of_nat (length (l_block L)) < l_size L - 1 → 1 ≤ l_outstanding L →
  (∀ w', cached (upd b (f (V b)) V) D (log_add b L) (b :: dirty) held None (l_block (log_add b L)) w' → WP k w' Q) →
  WP (let* i := bread d b in set_bdata i f ;;; log_write i ;;; brelse i ;;; k) w Q.
Proof.
  intros Hc Hx Hroom H1 H2 H3 Hk.
  eapply wp_bind'; [apply (wp_bread solo d G Hpat V D L dirty held (l_block L) w b Hc Hx Hroom)|].
  intros i w1 Hc1.
  destruct (set_bdata_ok solo d V D L _ _ _ w1 i b f Hc1 ltac:(set_solver)) as (w2 & Hr2 & Hc2).
  rewrite (bind_Ok _ _ _ _ _ Hr2).
  destruct (log_write_ok _ _ _ _ _ w2 i b Hc2 ltac:(set_solver) H1 H2 H3) as (w3 & Hr3 & Hc3).
  rewrite (bind_Ok _ _ _ _ _ Hr3).
  eapply wp_bind'; [apply (wp_brelse solo d G Hpat _ _ _ _ _ _ w3 i b Hc3)|intros [] w4 Hc4; by apply Hk].
  intros _. unfold log_add. simpl. case_decide; set_solver.
Qed.

(** the log that [initlog] sets up *)
Definition init_log (sb : superblock) (L : logstate) : logstate :=
  L <| l_start := sb_logstart sb |> <| l_size := sb_nlog sb |> <| l_dev := d |>.

Lemma wp_initlog V D L w sb :
  let start := sb_logstart sb in let bl := header_of (V start) in
  let D1 := install V start bl (length bl) D in let V1 := install_view start bl (length bl) V in
  let h := wr32 LH_N 0 (V start) in
  cached V D L [] [] None [] w → tx_ok start bl D → (length bl < NBUF)%nat →
  (∀ k, (k < length bl)%nat → G (install V start bl (S k) D)) → G (<[start := h]> D1) →
  WP (initlog d sb) w (λ _ w',
    cached (upd start h V1) (<[start := h]> D1) (init_log sb L <| l_block := [] |>) [] [] None [] w').
Proof.
  intros start bl D1 V1 h Hc Htx Hlen HG HGh. unfold initlog. change (BSIZE <=? sizeof_logheader) with false. cbv iota.
  destruct (setlog_ok _ _ _ _ _ _ _ w (init_log sb) Hc) as (w1 & Hr1 & Hc1). rewrite (bind_Ok _ _ _ _ _ Hr1).
  assert (Hs : is_Some (D !! start)).
  { replace start with (start + Z.of_nat 0) by lia. apply (tx_log _ _ _ Htx). lia. }
  unfold recover_from_log. eapply wp_bind'; [apply (wp_read_head V D (init_log sb L)); [done|done|done|]|].
  { change (l_start (init_log sb L)) with start. fold bl. unfold NBUF, LOGSIZE, MAXOPBLOCKS in *. lia. }
  intros [] w2 Hc2. change (l_start (init_log sb L)) with start in Hc2. fold bl in Hc2.
  eapply wp_bind'; [apply (wp_install_trans true V D _ w2 Hc2); done|]. intros [] w3 Hc3.
  change (l_start _) with start in Hc3. change (l_block _) with bl in Hc3. fold V1 D1 in Hc3.
  destruct (setlog_ok _ _ _ _ _ _ _ w3 (λ l, l <| l_block := [] |>) Hc3) as (w4 & Hr4 & Hc4).
  rewrite (bind_Ok _ _ _ _ _ Hr4).
  assert (HV1 : V1 start = V start).
  { apply install_view_out; [done|]. intros Hin. apply (tx_home _ _ _ Htx _ O Hin); lia. }
  eapply wp_mono; [|apply (wp_write_head V1 D1 _ [] [] w4 Hc4)]; try done.
  - intros [] w5 Hc5. change (l_start _) with start in Hc5. change (l_block _) with (@nil Z) in Hc5.
    unfold enc_header in Hc5. simpl in Hc5. rewrite HV1 in Hc5. exact Hc5.
  - by apply install_dom.
  - set_solver.
  - unfold NBUF; simpl; lia.
  - change (l_start _) with start. change (l_block _) with (@nil Z). unfold enc_header. simpl. by rewrite HV1.
Qed.
End LogWp.
