(* ===== verification/LogCrash.v ===== *)
(** * Crash safety of the log (src/kernel/log.c)

    A crash keeps the disk and loses everything else.  [power_on] is the state
    of the file system when the kernel starts on a disk; [restart] is what the
    kernel then does to it, [binit] and [initlog].  A transaction that
    [commit] writes is either installed as a whole or not at all, whichever of
    its block writes was the last before the crash, and a crash during
    recovery does no harm.  Block writes are atomic. *)

From S2P Require Import Prelude Mem Riscv Kalloc Vm Kstate FsState Bio Log BioSpec BioWp LogSpec.

(** the disks agree outside of the log, which is [start .. start + size - 1] *)
Definition same_home (start size : Z) (D D' : gmap Z (list byte)) : Prop :=
  ∀ b, ¬ (start ≤ b < start + size) → D !! b = D' !! b.

(** the disk with the blocks [bl] replaced by their new content *)
Definition tx_apply (V : Z → list byte) (bl : list Z) (D : gmap Z (list byte)) : gmap Z (list byte) :=
  foldr (λ b D, <[b := V b]> D) D bl.

Lemma tx_apply_lookup V bl D b : tx_apply V bl D !! b = if decide (b ∈ bl) then Some (V b) else D !! b.
Proof.
  induction bl as [|c bl IH]; [done|]. change (tx_apply V (c :: bl) D) with (<[c := V c]> (tx_apply V bl D)).
  destruct (decide (b = c)) as [->|Hne].
  - rewrite lookup_insert_eq, decide_True by set_solver. done.
  - rewrite lookup_insert_ne, IH by done. apply decide_ext. set_solver.
Qed.

(** the tables of the kernel before it has run *)
Definition power_on (D : gmap Z (list byte)) : fsys :=
  mkFsys D (replicate NBUF inhabitant) [] (mkLog 0 0 0 false 0 []) (mkSuper 0 0 0 0 0 0 0 0)
    (replicate NINODE inhabitant) (replicate NFILE inhabitant) ∅ ∅ (mkConsole (replicate 128 x00) 0 0 0)
    (mkUart (replicate 32 x00) 0 0 [] [] []) false.

Section Crash.
Context `{Caller}.

Definition restart (d : Z) (sb : superblock) (m : machine) (D : gmap Z (list byte)) : option (unit * world) :=
  alone ((binit ;;; initlog d sb) (mkWorld m (power_on D))).

(** a run of a thread that is alone *)
Lemma wp_alone {A} d G (r : run fsevent world A) Q :
  wp (bio_out true) (bio_guar true G) (bio_rely true d) r Q → ∃ a w, alone r = Some (a, w) ∧ Q a w.
Proof.
  induction r as [a w|msg|e w k IH|]; simpl.
  - eauto.
  - by intros [? _].
  - intros [Hg Hk]. destruct e; [done|apply IH, Hk; done|apply IH, Hk; done].
  - by intros [? _].
Qed.

Context (Hpat : (0 < patience)%nat) (d : Z) (Hd : d ≠ 0).

(** the cache of a kernel that starts *)
Lemma cached_fresh D m L :
  let w := mkWorld m ((power_on D) <| f_lru := reverse (seq 0 NBUF) |> <| f_log := L |>) in
  cached true d (λ b, D !!! b) D L [] [] None [] w.
Proof.
  intros w. split_and!; [done|done|].
  assert (Hz : ∀ i bf, replicate NBUF (inhabitant : buf) !! i = Some bf → bf = mkBuf false 0 0 (mkSleeplock false 0) 0 [])
    by (intros i bf [-> _]%lookup_replicate; done).
  assert (Hn : ∀ i bf b, replicate NBUF (inhabitant : buf) !! i = Some bf → ¬ is_block d b bf)
    by (intros i bf b ->%Hz [? _]; simpl in *; by apply Hd).
  split; simpl; try done.
  - apply reverse_Permutation.
  - intros i j bi bj b Hi Hj Hb. by destruct (Hn i bi b Hi).
  - intros i bf b Hi Hb. by destruct (Hn i bf b Hi).
  - intros i bf Hi. rewrite (Hz _ _ Hi). unfold refs_of, pinned, share. simpl. repeat case_decide; try done; set_solver.
  - intros i b Hin. set_solver.
  - constructor.
  - intros _ i bf Hi. by rewrite (Hz _ _ Hi).
  - intros b Hin. set_solver.
  - intros b x Hx. left. by rewrite (lookup_total_correct _ _ _ Hx).
  - intros b Hin. set_solver.
Qed.

Lemma binit_ok D m :
  binit (mkWorld m (power_on D)) = Ok tt (mkWorld m ((power_on D) <| f_lru := reverse (seq 0 NBUF) |>)).
Proof. vm_compute. reflexivity. Qed.

(** ** Recovery *)

Context (sb : superblock).
Abbreviation start := (sb_logstart sb).
Abbreviation size := (sb_nlog sb).

(** the disk that recovery leaves *)
Definition recovered (D : gmap Z (list byte)) : gmap Z (list byte) :=
  <[start := wr32 LH_N 0 (D !!! start)]> (replay start D).

Lemma restart_ok m D G :
  let bl := header_of (D !!! start) in
  tx_ok start bl D → (length bl < NBUF)%nat →
  (∀ k, (k < length bl)%nat → G (install (λ b, D !!! b) start bl (S k) D)) → G (recovered D) →
  wp (bio_out true) (bio_guar true G) (bio_rely true d) ((binit ;;; initlog d sb) (mkWorld m (power_on D)))
    (λ _ w, f_disk (w_fs w) = recovered D ∧ l_block (f_log (w_fs w)) = []).
Proof.
  intros bl Htx Hlen HG HGr. rewrite (bind_Ok _ _ _ _ _ (binit_ok D m)).
  eapply wp_mono; [|apply (wp_initlog true d G Hpat (λ b, D !!! b) D _ _ sb (cached_fresh D m _) Htx Hlen HG HGr)].
  intros [] w (HD & HL & _). by rewrite HD, HL.
Qed.

(** after a crash with disk [D] the kernel restarts, and the blocks outside of
    the log are those of [R] *)
Definition recovers (D R : gmap Z (list byte)) : Prop :=
  ∀ m, ∃ w, restart d sb m D = Some (tt, w) ∧ same_home start size (f_disk (w_fs w)) R.

Lemma recovers_intro D R :
  let bl := header_of (D !!! start) in
  tx_ok start bl D → (length bl < NBUF)%nat → 0 < size → same_home start size (replay start D) R → recovers D R.
Proof.
  intros bl Htx Hlen Hsz HR m.
  destruct (wp_alone d (λ _, True) _ _ (restart_ok m D (λ _, True) Htx Hlen (λ _ _, I) I)) as ([] & w & Hr & HD & _).
  exists w. split; [exact Hr|]. intros b Hb. rewrite HD. unfold recovered. rewrite lookup_insert_ne; [by apply HR|].
  intros Heq. apply Hb. lia.
Qed.

(** a disk whose log is empty is its own recovery *)
Lemma recovers_empty D R :
  header_of (D !!! start) = [] → is_Some (D !! start) → 0 < size → same_home start size D R → recovers D R.
Proof.
  intros Hh Hs Hsz HR. apply recovers_intro; [|rewrite Hh; unfold NBUF; simpl; lia|done|].
  - rewrite Hh. split; [constructor|set_solver|constructor|set_solver|].
    intros i Hi. simpl in Hi. replace (start + Z.of_nat i) with start by lia. done.
  - unfold replay. rewrite Hh. exact HR.
Qed.

(** ** Transactions *)

(** the transaction [bl] on disk [D]: its blocks are distinct blocks of the
    disk outside of the log, which has room for them *)
Record wf_tx (bl : list Z) (D : gmap Z (list byte)) : Prop := {
  wt_nodup : NoDup bl;
  wt_home : ∀ b, b ∈ bl → ¬ (start ≤ b < start + size);
  wt_range : Forall (λ b, 0 ≤ b < 2 ^ 31) bl;
  wt_fits : Z.of_nat (length bl) < size;
  wt_bufs : (length bl < NBUF)%nat;
  wt_disk : ∀ b, b ∈ bl → is_Some (D !! b);
  wt_log : ∀ b, start ≤ b < start + size → is_Some (D !! b)
}.

Lemma wf_tx_ok bl D : wf_tx bl D → tx_ok start bl D.
Proof.
  intros [Hnd Hh Hr Hf Hb Hdk Hl]. split; [done| |done|done|].
  - intros b i Hin Hi ->. apply (Hh _ Hin). lia.
  - intros i Hi. apply Hl. lia.
Qed.

(** a disk with the committed transaction in its log *)
Lemma recovers_committed V bl D D' h :
  wf_tx bl D → D' !! start = Some h → header_of h = bl →
  (∀ i b, bl !! i = Some b → D' !! (start + Z.of_nat i + 1) = Some (V b)) →
  (∀ b, ¬ (start ≤ b < start + size) → b ∉ bl → D' !! b = D !! b) →
  (∀ b, is_Some (D !! b) → is_Some (D' !! b)) →
  recovers D' (tx_apply V bl D).
Proof.
  intros Hwf Hh Hbl Hlog Hout Hdom.
  assert (Ht : D' !!! start = h) by (by apply lookup_total_correct).
  destruct (wf_tx_ok _ _ Hwf) as [Hnd Hhome Hrange Hdisk Hlg].
  apply recovers_intro; rewrite ?Ht, ?Hbl.
  - split; [done|done|done| |]; intros; apply Hdom; auto.
  - apply (wt_bufs _ _ Hwf).
  - pose proof (wt_fits _ _ Hwf). lia.
  - intros b Hb. unfold replay. rewrite Ht, Hbl, install_lookup, firstn_all, tx_apply_lookup by done.
    destruct (list_find _ bl) as [[i c]|] eqn:Ef.
    + apply list_find_Some in Ef as (Hi & -> & _). rewrite decide_True by (by eapply list_elem_of_lookup_2).
      f_equal. apply lookup_total_correct. by apply Hlog.
    + apply list_find_None in Ef. rewrite Forall_forall in Ef.
      assert (b ∉ bl) by (intros Hin; by apply (Ef b Hin)). rewrite decide_False by done. by apply Hout.
Qed.

Lemma recovers_ext D R R' : same_home start size R R' → recovers D R → recovers D R'.
Proof.
  intros HR HD m. destruct (HD m) as (w & Hr & Hw). exists w. split; [done|]. intros b Hb. by rewrite Hw, HR.
Qed.

(** C2: Recovery is crash safe too: when the kernel starts on a disk with a
    committed transaction in its log, it returns with the transaction installed
    and the log empty, and if it crashes after any of the block writes that this
    takes, the next recovery leaves the same blocks. *)
Theorem recovery_crash_safe m D :
  wf_tx (header_of (D !!! start)) D → length (D !!! start) = Z.to_nat BSIZE →
  wp (bio_out true) (bio_guar true (λ D', recovers D' (replay start D))) (bio_rely true d)
    ((binit ;;; initlog d sb) (mkWorld m (power_on D)))
    (λ _ w, same_home start size (f_disk (w_fs w)) (replay start D) ∧
      header_of (f_disk (w_fs w) !!! start) = [] ∧ l_block (f_log (w_fs w)) = []).
Proof.
  set (bl := header_of (D !!! start)). intros Hwf Hlen. pose proof (wt_fits _ _ Hwf) as Hfits.
  assert (Htx := wf_tx_ok _ _ Hwf). assert (Hnd := wt_nodup _ _ Hwf).
  assert (Hhome : same_home start size (recovered D) (replay start D)).
  { intros b Hb. unfold recovered. rewrite lookup_insert_ne; [done|]. intros Heq. apply Hb. lia. }
  assert (Hclr : header_of (recovered D !!! start) = []).
  { unfold recovered. rewrite lookup_total_insert_eq. apply header_clear. rewrite Hlen. unfold BSIZE. lia. }
  eapply wp_mono; [|apply (restart_ok m D (λ D', recovers D' (replay start D)) Htx (wt_bufs _ _ Hwf))].
  - intros [] w [-> HL]. done.
  - intros k Hk. fold bl in Hk |- *. set (V := λ b, D !!! b).
    apply (recovers_ext _ (tx_apply (install_view start bl (length bl) V) bl D)).
    + intros b Hb. unfold replay. fold bl V. rewrite install_lookup, firstn_all, tx_apply_lookup by done.
      destruct (list_find _ bl) as [[i c]|] eqn:Ef.
      * apply list_find_Some in Ef as (Hi & -> & _). rewrite decide_True by (by eapply list_elem_of_lookup_2).
        rewrite (install_view_in _ _ _ _ i) by (done || by eapply lookup_lt_Some). done.
      * apply list_find_None in Ef. rewrite Forall_forall in Ef. by rewrite decide_False by (intros Hin; by apply (Ef b Hin)).
    + destruct (wt_log _ _ Hwf start ltac:(lia)) as [x Hx].
      apply (recovers_committed _ bl D _ x Hwf).
      * rewrite install_out; [done|done|lia|]. intros Hin. apply (wt_home _ _ Hwf _ Hin). lia.
      * unfold bl. by rewrite (lookup_total_correct _ _ _ Hx).
      * intros i b Hi. destruct (tx_log_block _ _ _ _ _ Htx Hi) as ([y Hy] & Hnl & _).
        rewrite install_out by (done || lia). rewrite Hy. f_equal.
        rewrite (install_view_in _ _ _ _ i) by (done || by eapply lookup_lt_Some). unfold V. by rewrite (lookup_total_correct _ _ _ Hy).
      * intros b Hb Hnb. by rewrite install_out by (done || lia).
      * intros b Hb. by apply install_dom.
  - apply recovers_empty; [done|unfold recovered; rewrite lookup_insert_eq; eauto|lia|done].
Qed.

(** ** commit *)

Lemma tx_start bl D : wf_tx bl D → start ∉ bl ∧ is_Some (D !! start).
Proof.
  intros Hwf. pose proof (wt_fits _ _ Hwf). split.
  - intros Hin. apply (wt_home _ _ Hwf _ Hin). lia.
  - apply (wt_log _ _ Hwf). lia.
Qed.

Section Commit.
Context (V : Z → list byte) (D : gmap Z (list byte)) (bl : list Z).
Context (Hwf : wf_tx bl D) (Hempty : header_of (D !!! start) = []) (Hhlen : length (V start) = Z.to_nat BSIZE).

Let n := length bl.
Let V1 := logged_view start bl n V.
Let D1 := logged V start bl n D.
Let h := enc_header bl (V start) n.
Let V2 := upd start h V1.
Let D2 := <[start := h]> D1.
Let D4 := <[start := wr32 LH_N 0 h]> (install V2 start bl n D2).

Lemma home_not_log b k : (k ≤ n)%nat → ¬ (start ≤ b < start + size) → ∀ i, (i < k)%nat → b ≠ start + Z.of_nat i + 1.
Proof. intros Hk Hb i Hi ->. apply Hb. pose proof (wt_fits _ _ Hwf). unfold n in *. lia. Qed.

Lemma header_h : header_of h = bl ∧ length h = Z.to_nat BSIZE.
Proof.
  assert ((length bl ≤ Z.to_nat LOGSIZE)%nat) by (pose proof (wt_bufs _ _ Hwf); unfold NBUF, LOGSIZE, MAXOPBLOCKS in *; lia).
  split; [by apply header_enc, (wt_range _ _ Hwf)|by apply length_enc_header].
Qed.

Lemma V2_log i b : bl !! i = Some b → V2 (start + Z.of_nat i + 1) = V b.
Proof.
  intros Hi. assert (i < length bl)%nat by (by eapply lookup_lt_Some). unfold V2, upd. rewrite decide_False by lia.
  unfold V1. rewrite logged_view_in by (unfold n; lia). by rewrite (list_lookup_total_correct _ _ _ Hi).
Qed.

(** while the log is being written, recovery finds nothing to do *)
Lemma crash_write_log k : (k ≤ n)%nat → recovers (logged V start bl k D) D.
Proof.
  intros Hk. destruct (tx_start _ _ Hwf) as [_ Hs]. apply recovers_empty.
  - rewrite lookup_total_alt, logged_out by (intros; lia). by rewrite <- lookup_total_alt.
  - by apply logged_dom.
  - pose proof (wt_fits _ _ Hwf). lia.
  - intros b Hb. apply logged_out. by apply home_not_log.
Qed.

(** once the header is written, recovery installs the whole transaction, also
    when a part of it has been installed already *)
Lemma crash_install k : (k ≤ n)%nat → recovers (install V2 start bl k D2) (tx_apply V bl D).
Proof.
  intros Hk. destruct (tx_start _ _ Hwf) as [Hns Hs]. apply (recovers_committed V bl D _ h Hwf).
  - rewrite install_out by (done || apply (wt_nodup _ _ Hwf)). apply lookup_insert_eq.
  - apply header_h.
  - intros i b Hi. destruct (tx_log_block _ _ _ _ _ (wf_tx_ok _ _ Hwf) Hi) as (_ & Hnl & _).
    assert (i < length bl)%nat by (by eapply lookup_lt_Some).
    rewrite install_out by (done || apply (wt_nodup _ _ Hwf)). unfold D2. rewrite lookup_insert_ne by lia.
    unfold D1. rewrite logged_in by (unfold n; lia). by rewrite (list_lookup_total_correct _ _ _ Hi).
  - intros b Hb Hnb. rewrite install_out by (done || apply (wt_nodup _ _ Hwf)). unfold D2.
    rewrite lookup_insert_ne by (intros <-; apply Hb; pose proof (wt_fits _ _ Hwf); lia).
    apply logged_out. by apply home_not_log.
  - intros b Hb. apply install_dom. unfold D2. destruct (decide (b = start)) as [->|Hne].
    + rewrite lookup_insert_eq. eauto.
    + rewrite lookup_insert_ne by done. by apply logged_dom.
Qed.

Lemma final_home : same_home start size D4 (tx_apply V bl D).
Proof.
  intros b Hb. unfold D4. pose proof (wt_fits _ _ Hwf). rewrite lookup_insert_ne by (intros <-; apply Hb; lia).
  rewrite install_lookup by (done || apply (wt_nodup _ _ Hwf)).
  change (take n bl) with (take (length bl) bl). rewrite firstn_all, tx_apply_lookup.
  destruct (list_find _ bl) as [[i c]|] eqn:Ef.
  - apply list_find_Some in Ef as (Hi & -> & _). rewrite decide_True by (by eapply list_elem_of_lookup_2).
    by rewrite (V2_log i b).
  - apply list_find_None in Ef. rewrite Forall_forall in Ef.
    rewrite decide_False by (intros Hin; by apply (Ef b Hin)). unfold D2. rewrite lookup_insert_ne by (intros <-; apply Hb; lia).
    apply logged_out. by apply home_not_log.
Qed.

Lemma final_header : header_of (D4 !!! start) = [].
Proof.
  unfold D4. rewrite lookup_total_insert_eq. apply header_clear. rewrite (proj2 header_h). unfold BSIZE. lia.
Qed.

Lemma crash_final : recovers D4 (tx_apply V bl D).
Proof.
  apply recovers_empty; [apply final_header|unfold D4; rewrite lookup_insert_eq; eauto| |apply final_home].
  pose proof (wt_fits _ _ Hwf). lia.
Qed.

End Commit.

(** the part of [commit] from its first [write_head] *)
Lemma commit_installs (solo : bool) V D L w :
  let bl := l_block L in
  cached solo d (logged_view start bl (length bl) V) (logged V start bl (length bl) D) L bl [] None bl w →
  l_dev L = d → l_start L = start → wf_tx bl D → header_of (D !!! start) = [] → length (V start) = Z.to_nat BSIZE →
  wp (bio_out solo) (bio_guar solo (λ D', recovers D' D ∨ recovers D' (tx_apply V bl D))) (bio_rely solo d)
    ((write_head ;;; install_trans false ;;; setlog (λ l, l <| l_block := [] |>) ;;; write_head) w)
    (λ _ w', same_home start size (f_disk (w_fs w')) (tx_apply V bl D) ∧
      header_of (f_disk (w_fs w') !!! start) = [] ∧ l_block (f_log (w_fs w')) = []).
Proof.
  intros bl Hc Hdev Hst Hwf Hempty Hhlen. destruct (tx_start _ _ Hwf) as [Hns Hs]. assert (Htx := wf_tx_ok _ _ Hwf).
  set (n := length bl) in *. set (V1 := logged_view start bl n V) in *. set (D1 := logged V start bl n D) in *.
  assert (HV1 : V1 start = V start) by (apply logged_view_out; intros; lia).
  set (h := enc_header bl (V start) n).
  assert (Hh : enc_header (l_block L) (V1 (l_start L)) (length (l_block L)) = h) by (rewrite Hst, HV1; done).
  assert (Hinst := crash_install V D bl Hwf Hhlen). fold n V1 D1 h in Hinst.
  eapply wp_bind'; [apply (wp_write_head solo d _ Hpat V1 D1 L bl bl w Hc Hdev)|].
  { rewrite Hst. by apply logged_dom. }
  { by rewrite Hst. }
  { apply (wt_bufs _ _ Hwf). }
  { rewrite Hh, Hst. right. apply (Hinst O). lia. }
  rewrite Hh, Hst. intros [] w2 Hc2. set (V2 := upd start h V1) in *. set (D2 := <[start := h]> D1) in *.
  assert (Hdom : ∀ b, is_Some (D !! b) → is_Some (D2 !! b)).
  { intros b Hb. unfold D2. destruct (decide (b = start)) as [->|Hne]; [rewrite lookup_insert_eq; eauto|].
    rewrite lookup_insert_ne by done. by apply logged_dom. }
  eapply wp_bind'; [apply (wp_install_trans solo d _ Hpat false V2 D2 L w2 Hc2 Hdev)|].
  { rewrite Hst. destruct Htx as [? ? ? Hdk Hlg]. split; auto. }
  { apply (wt_bufs _ _ Hwf). }
  { rewrite Hst. intros k Hk. right. apply Hinst. fold bl n in Hk. lia. }
  rewrite Hst. intros [] w3 Hc3. fold bl n in Hc3.
  destruct (setlog_ok _ _ _ _ _ _ _ _ _ w3 (λ l, l <| l_block := [] |>) Hc3) as (w4 & Hr4 & Hc4).
  rewrite (bind_Ok _ _ _ _ _ Hr4).
  assert (HV3 : install_view start bl n V2 start = h).
  { rewrite install_view_out by done. unfold V2, upd. by rewrite decide_True. }
  eapply wp_mono; [|apply (wp_write_head solo d _ Hpat _ _ _ _ _ w4 Hc4)]; try done.
  - intros [] w5 (HD5 & HL5 & _). rewrite HD5, HL5. change (l_start (set_field _ _ L)) with (l_start L).
    rewrite Hst, HV3. split_and!; [|by apply (final_header V D bl Hwf Hhlen)|done]. by apply (final_home V D bl Hwf).
  - change (l_start (set_field _ _ L)) with (l_start L). rewrite Hst. by apply install_dom, Hdom.
  - set_solver.
  - unfold NBUF; simpl; lia.
  - change (l_start (set_field _ _ L)) with (l_start L). rewrite Hst, HV3. right. by apply (crash_final V D bl Hwf Hhlen).
Qed.

(** C1: Whatever block write is the last one before a crash in the middle of
    [commit], with other threads reading the file system at the same time, the
    restarted kernel recovers either the disk before the transaction or the
    disk with all of its blocks; and [commit] leaves the latter, with an empty
    log. *)
Theorem commit_crash_atomic (solo : bool) V D L w :
  let bl := l_block L in
  cached solo d V D L bl [] None bl w → l_dev L = d → l_start L = start →
  wf_tx bl D → header_of (D !!! start) = [] → length (D !!! start) = Z.to_nat BSIZE →
  wp (bio_out solo) (bio_guar solo (λ D', recovers D' D ∨ recovers D' (tx_apply V bl D))) (bio_rely solo d) (commit w)
    (λ _ w', same_home start size (f_disk (w_fs w')) (tx_apply V bl D) ∧
      header_of (f_disk (w_fs w') !!! start) = [] ∧ l_block (f_log (w_fs w')) = []).
Proof.
  intros bl Hc Hdev Hst Hwf Hempty Hhlen. unfold commit. rewrite bind_getlog.
  assert (HL : f_log (w_fs w) = L) by apply Hc. rewrite HL. fold bl. unfold when.
  assert (HVs : V start = D !!! start).
  { destruct (tx_start _ _ Hwf) as [Hns [x Hx]]. rewrite (lookup_total_correct _ _ _ Hx).
    destruct Hc as (_ & _ & Hc). by destruct (c_disk _ _ _ _ _ _ _ _ _ _ Hc _ _ Hx). }
  rewrite <- HVs in Hhlen. destruct (bool_decide_reflect (0 < length bl)%nat) as [Hn|Hn].
  2: { assert (bl = []) as Hb0 by (destruct bl; simpl in *; [done|lia]). destruct Hc as (HD & _ & _). simpl.
       rewrite HD, HL. fold bl. rewrite Hb0. done. }
  assert (Htx := wf_tx_ok _ _ Hwf). rewrite <- Hst in Htx.
  eapply wp_bind'; [apply (wp_write_log solo d _ Hpat V D L w Hc Hdev Htx (wt_bufs _ _ Hwf))|].
  { intros k Hk. left. rewrite Hst. by apply crash_write_log. }
  rewrite Hst. intros [] w1 Hc1. fold bl in Hc1.
  apply (commit_installs solo V D L w1); done.
Qed.
End Crash.

(** ** An example: a disk of 64 blocks with its log in blocks 2 to 31 *)
Module Demo.
Definition me : Caller := {| my_tid := 1; my_pagetable := 0; my_cwd := O; patience := 1 |}.
Definition block_of (c : byte) : list byte := replicate (Z.to_nat BSIZE) c.
Definition disk0 : gmap Z (list byte) := list_to_map ((λ i, (Z.of_nat i, block_of x00)) <$> seq 0 64).
Definition sb0 : superblock := mkSuper FSMAGIC 64 30 16 30 2 32 33.
(** block 40 is in the committed transaction of the log *)
Definition disk1 : gmap Z (list byte) :=
  <[2 := enc_header [40] (block_of x00) 1]> (<[3 := block_of x01]> disk0).
Definition no_mach : machine := mkMachine ∅ 0.

Lemma disk0_lookup b : 0 ≤ b < 64 → disk0 !! b = Some (block_of x00).
Proof.
  intros Hb. apply elem_of_list_to_map_1'.
  - intros y (i & [= _ <-] & _)%list_elem_of_fmap. done.
  - apply list_elem_of_fmap. exists (Z.to_nat b). split; [f_equal; lia|]. apply elem_of_seq. lia.
Qed.

Lemma insert_dom (D : gmap Z (list byte)) b c x : is_Some (D !! b) → is_Some (<[c := x]> D !! b).
Proof. intros Hb. destruct (decide (c = b)) as [->|Hne]; [rewrite lookup_insert_eq; eauto|by rewrite lookup_insert_ne]. Qed.

Lemma wf_tx_40 D : (∀ b, 0 ≤ b < 64 → is_Some (D !! b)) → wf_tx sb0 [40] D.
Proof.
  intros Hdom. split; try (apply NoDup_singleton || (simpl; lia)).
  - intros b ->%list_elem_of_singleton. simpl. lia.
  - by repeat constructor.
  - unfold NBUF. simpl. lia.
  - intros b ->%list_elem_of_singleton. apply Hdom. lia.
  - intros b Hb. simpl in Hb. apply Hdom. lia.
Qed.

Lemma recovery_crash_safe_witness :
  wp (bio_out true) (bio_guar true (λ D', recovers (H := me) 1 sb0 D' (replay 2 disk1))) (bio_rely (H := me) true 1)
    ((binit ;;; initlog (H := me) 1 sb0) (mkWorld no_mach (power_on disk1)))
    (λ _ w, same_home 2 30 (f_disk (w_fs w)) (replay 2 disk1) ∧
      header_of (f_disk (w_fs w) !!! 2) = [] ∧ l_block (f_log (w_fs w)) = []).
Proof.
  assert (Hh : header_of (disk1 !!! 2) = [40]) by (vm_compute; reflexivity).
  apply (recovery_crash_safe (H := me) ltac:(simpl; lia) 1 ltac:(done) sb0 no_mach disk1).
  - change (sb_logstart sb0) with 2. rewrite Hh. apply wf_tx_40. intros b Hb. unfold disk1.
    apply insert_dom, insert_dom. rewrite (disk0_lookup b Hb). eauto.
  - vm_compute. reflexivity.
Defined.

(** the kernel in a transaction that has changed block 40 *)
Definition log0 : logstate := mkLog 2 30 1 false 1 [].
Definition w0 : world := mkWorld no_mach ((power_on disk0) <| f_lru := reverse (seq 0 NBUF) |> <| f_log := log0 |>).
Definition view1 : Z → list byte := upd 40 (block_of x01) (λ b, disk0 !!! b).

Lemma in_transaction : ∃ w, cached (H := me) true 1 view1 disk0 (log_add 40 log0) [40] [] None [40] w.
Proof.
  destruct (wp_alone (H := me) 1 (λ _, True) ((let* i := bread (H := me) 1 40 in set_bdata i (λ _, block_of x01) ;;;
    log_write i ;;; brelse (H := me) i ;;; ret tt) w0)
    (λ _ w, cached (H := me) true 1 view1 disk0 (log_add 40 log0) [40] [] None [40] w)) as (a & w & _ & Hw); [|eauto].
  apply (wp_log_update (H := me) true 1 _ ltac:(simpl; lia) (λ b, disk0 !!! b) disk0 log0 [] [] w0 40).
  - apply (cached_fresh (H := me) ltac:(simpl; lia) 1 ltac:(done) disk0 no_mach log0).
  - rewrite disk0_lookup by lia. eauto.
  - intros _. split; [set_solver|left; unfold NBUF; simpl; lia].
  - done.
  - done.
  - done.
  - intros w' Hw'. exact Hw'.
Qed.

Lemma commit_crash_atomic_witness : ∃ w,
  cached (H := me) true 1 view1 disk0 (log_add 40 log0) [40] [] None [40] w ∧
  wp (bio_out true) (bio_guar true (λ D', recovers (H := me) 1 sb0 D' disk0 ∨
      recovers (H := me) 1 sb0 D' (tx_apply view1 [40] disk0))) (bio_rely (H := me) true 1) (commit (H := me) w)
    (λ _ w', same_home 2 30 (f_disk (w_fs w')) (tx_apply view1 [40] disk0) ∧
      header_of (f_disk (w_fs w') !!! 2) = [] ∧ l_block (f_log (w_fs w')) = []).
Proof.
  destruct in_transaction as [w Hw]. exists w. split; [exact Hw|].
  apply (commit_crash_atomic (H := me) ltac:(simpl; lia) 1 ltac:(done) sb0 true view1 disk0 (log_add 40 log0) w Hw).
  - done.
  - done.
  - apply (wf_tx_40 disk0). intros b Hb. rewrite disk0_lookup by done. eauto.
  - vm_compute. reflexivity.
  - vm_compute. reflexivity.
Defined.
End Demo.
