(* ===== verification/Fs.v ===== *)
(** * Blocks, inodes, directories and paths (src/kernel/fs.c)

    An inode pointer is an index into the inode table.  The on-disk structures
    are read and written in the data of the buffer that holds them.  A name is
    the content of a [char[DIRSIZ]] buffer, a path the bytes up to its
    terminating NUL (the end of the list counts as NUL). *)

From S2P Require Import Prelude Mem Riscv Kalloc Vm Kstate FsState Bio Log.

Section Fs.
Context `{Caller}.

(** ** The super block *)

(** struct superblock: eight words *)
Definition superblock_of (d : list byte) : superblock :=
  mkSuper (rd32 0 d) (rd32 4 d) (rd32 8 d) (rd32 12 d) (rd32 16 d) (rd32 20 d) (rd32 24 d) (rd32 28 d).

Definition readsb (dev : Z) : FM superblock :=
  let* bp := bread dev 1 in
  let* d := bdata bp in
  brelse bp ;;;
  ret (superblock_of d).

Definition fsinit (dev : Z) : FM unit :=
  let* sb := readsb dev in
  setf (λ s, s <| f_sb := sb |>) ;;;
  if negb (sb_magic sb =? FSMAGIC) then panic "invalid file system" else
  initlog dev sb.

(** ** Blocks *)

Definition BPB : Z := BSIZE * 8.
Definition BBLOCK (b : Z) (sb : superblock) : Z := u32 (b / BPB + sb_bmapstart sb).

Definition bzero (dev bno : Z) : FM unit :=
  let* bp := bread dev bno in
  set_bdata bp (λ _, replicate (Z.to_nat BSIZE) x00) ;;;
  log_write bp ;;;
  brelse bp.

(** the byte and the mask of bit [bi] in a bitmap block *)
Definition bit_byte (bi : Z) : nat := Z.to_nat (bi / 8).
Definition bit_mask (bi : Z) : Z := Z.shiftl 1 (bi mod 8).

Definition balloc (dev : Z) : FM Z :=
  let* sb := getf f_sb in
  let* r := for_until (seq 0 (Z.to_nat ((sb_size sb + BPB - 1) / BPB))) (λ k,
    let b := Z.of_nat k * BPB in
    let* bp := bread dev (BBLOCK b sb) in
    let* free := for_until (seq 0 (Z.to_nat (Z.min BPB (sb_size sb - b)))) (λ bi,
      let bi := Z.of_nat bi in
      let m := bit_mask bi in
      let* d := bdata bp in
      if Z.land (rd8 (bit_byte bi) d) m =? 0 then
        set_bdata bp (λ d, wr8 (bit_byte bi) (Z.lor (rd8 (bit_byte bi) d) m) d) ;;;
        log_write bp ;;;
        brelse bp ;;;
        bzero dev (b + bi) ;;;
        ret (Some (b + bi))
      else ret None) in
    match free with
    | Some b => ret (Some b)
    | None => brelse bp ;;; ret None
    end) in
  match r with
  | Some b => ret b
  | None => panic "balloc: out of blocks"
  end.

Definition bfree (dev b : Z) : FM unit :=
  let* sb := getf f_sb in
  let* bp := bread dev (BBLOCK b sb) in
  let bi := b mod BPB in
  let m := bit_mask bi in
  let* d := bdata bp in
  if Z.land (rd8 (bit_byte bi) d) m =? 0 then panic "freeing free block" else
  set_bdata bp (λ d, wr8 (bit_byte bi) (Z.land (rd8 (bit_byte bi) d) (Z.lnot m)) d) ;;;
  log_write bp ;;;
  brelse bp.

(** ** Inodes *)

Definition sizeof_dinode : Z := 64.
Definition IPB : Z := BSIZE / sizeof_dinode.
Definition IBLOCK (i : Z) (sb : superblock) : Z := u32 (i / IPB + sb_inodestart sb).

(** offsets of a [struct dinode] in its block, and of its fields *)
Definition dinode_at (inum : Z) : nat := Z.to_nat (sizeof_dinode * (inum mod IPB)).
Definition DI_MAJOR : nat := 2.
Definition DI_MINOR : nat := 4.
Definition DI_NLINK : nat := 6.
Definition DI_SIZE : nat := 8.
Definition DI_ADDRS : nat := 12.
Definition NADDRS : nat := 13.

Definition iinit : FM unit :=
  for_each (seq 0 NINODE) (λ k, initsleeplock (SlInode k)).

Definition iget (dev inum : Z) : FM nat :=
  let* hit := for_until (seq 0 NINODE) (λ k,
    let* ip := geti k in
    if (0 <? i_ref ip) && (i_dev ip =? dev) && (i_inum ip =? inum) then
      seti k (λ ip, ip <| i_ref ::= λ r, r + 1 |>) ;;;
      ret (Some k)
    else ret None) in
  match hit with
  | Some k => ret k
  | None =>
      (* recycle the first empty slot *)
      let* t := getf f_itable in
      match list_find (λ ip, i_ref ip = 0) (take NINODE t) with
      | None => panic "iget: no inodes"
      | Some (k, _) =>
          seti k (λ ip, ip <| i_dev := dev |> <| i_inum := inum |> <| i_ref := 1 |> <| i_valid := false |>) ;;;
          ret k
      end
  end.

Definition ialloc (dev type : Z) : FM nat :=
  let* sb := getf f_sb in
  let* r := for_until (seq 1 (Z.to_nat (sb_ninodes sb - 1))) (λ inum,
    let inum := Z.of_nat inum in
    let* bp := bread dev (IBLOCK inum sb) in
    let off := dinode_at inum in
    let* d := bdata bp in
    if i16 (rd16 off d) =? 0 then
      set_bdata bp (splice off (replicate (Z.to_nat sizeof_dinode) x00)) ;;;
      set_bdata bp (wr16 off type) ;;;
      log_write bp ;;;
      brelse bp ;;;
      let* k := iget dev inum in
      ret (Some k)
    else
      brelse bp ;;; ret None) in
  match r with
  | Some k => ret k
  | None => panic "ialloc: no inodes"
  end.

(** the stores of [iupdate] to the dinode at [off] *)
Definition put_dinode (ip : inode) (off : nat) (d : list byte) : list byte :=
  splice (off + DI_ADDRS) (concat (le_split 4 <$> i_addrs ip))
    (wr32 (off + DI_SIZE) (i_size ip)
      (wr16 (off + DI_NLINK) (i_nlink ip)
        (wr16 (off + DI_MINOR) (i_minor ip)
          (wr16 (off + DI_MAJOR) (i_major ip)
            (wr16 off (i_type ip) d))))).

(** the loads of [ilock] from the dinode at [off] *)
Definition get_dinode (off : nat) (d : list byte) (ip : inode) : inode :=
  ip <| i_type := i16 (rd16 off d) |>
     <| i_major := i16 (rd16 (off + DI_MAJOR) d) |>
     <| i_minor := i16 (rd16 (off + DI_MINOR) d) |>
     <| i_nlink := i16 (rd16 (off + DI_NLINK) d) |>
     <| i_size := rd32 (off + DI_SIZE) d |>
     <| i_addrs := (λ j, rd32 (off + DI_ADDRS + 4 * j) d) <$> seq 0 NADDRS |>.

Definition iupdate (k : nat) : FM unit :=
  let* ip := geti k in
  let* sb := getf f_sb in
  let* bp := bread (i_dev ip) (IBLOCK (i_inum ip) sb) in
  set_bdata bp (put_dinode ip (dinode_at (i_inum ip))) ;;;
  log_write bp ;;;
  brelse bp.

Definition idup (k : nat) : FM nat :=
  seti k (λ ip, ip <| i_ref ::= λ r, r + 1 |>) ;;;
  ret k.

Definition ilock (k : nat) : FM unit :=
  let* ip := geti k in
  if i_ref ip <? 1 then panic "ilock" else
  acquiresleep (SlInode k) ;;;
  let* ip := geti k in
  if i_valid ip then ret tt else
  let* sb := getf f_sb in
  let* bp := bread (i_dev ip) (IBLOCK (i_inum ip) sb) in
  let* d := bdata bp in
  seti k (get_dinode (dinode_at (i_inum ip)) d) ;;;
  brelse bp ;;;
  seti k (λ ip, ip <| i_valid := true |>) ;;;
  let* ip := geti k in
  when (i_type ip =? 0) (panic "ilock: no type").

Definition iunlock (k : nat) : FM unit :=
  let* h := holdingsleep (SlInode k) in
  let* ip := geti k in
  if negb h || (i_ref ip <? 1) then panic "iunlock" else
  releasesleep (SlInode k).

(** ** Inode content *)

Definition set_addr (k : nat) (j : nat) (a : Z) : FM unit := seti k (λ ip, ip <| i_addrs ::= <[j := a]> |>).

Definition bmap (k : nat) (bn : Z) : FM Z :=
  let* ip := geti k in
  if bn <? NDIRECT then
    let j := Z.to_nat bn in
    let addr := i_addrs ip !!! j in
    if addr =? 0 then
      let* addr := balloc (i_dev ip) in
      set_addr k j addr ;;; ret addr
    else ret addr
  else
  let bn := bn - NDIRECT in
  if bn <? NINDIRECT then
    let j := Z.to_nat NDIRECT in
    let* addr :=
      (let addr := i_addrs ip !!! j in
       if addr =? 0 then
         let* addr := balloc (i_dev ip) in
         set_addr k j addr ;;; ret addr
       else ret addr) in
    let* bp := bread (i_dev ip) addr in
    let* d := bdata bp in
    let off := (4 * Z.to_nat bn)%nat in
    let* addr :=
      (let addr := rd32 off d in
       if addr =? 0 then
         let* addr := balloc (i_dev ip) in
         set_bdata bp (wr32 off addr) ;;;
         log_write bp ;;;
         ret addr
       else ret addr) in
    brelse bp ;;;
    ret addr
  else panic "bmap: out of range".

Definition itrunc (k : nat) : FM unit :=
  for_each (seq 0 (Z.to_nat NDIRECT)) (λ j,
    let* ip := geti k in
    when (negb (i_addrs ip !!! j =? 0))
      (bfree (i_dev ip) (i_addrs ip !!! j) ;;;
       set_addr k j 0)) ;;;
  let* ip := geti k in
  let nd := Z.to_nat NDIRECT in
  when (negb (i_addrs ip !!! nd =? 0))
    (let* bp := bread (i_dev ip) (i_addrs ip !!! nd) in
     for_each (seq 0 (Z.to_nat NINDIRECT)) (λ j,
       let* d := bdata bp in
       when (negb (rd32 (4 * j) d =? 0)) (bfree (i_dev ip) (rd32 (4 * j) d))) ;;;
     brelse bp ;;;
     bfree (i_dev ip) (i_addrs ip !!! nd) ;;;
     set_addr k nd 0) ;;;
  seti k (λ ip, ip <| i_size := 0 |>) ;;;
  iupdate k.

Definition iput (k : nat) : FM unit :=
  let* ip := geti k in
  when ((i_ref ip =? 1) && i_valid ip && (i_nlink ip =? 0))
    (acquiresleep (SlInode k) ;;;
     itrunc k ;;;
     seti k (λ ip, ip <| i_type := 0 |>) ;;;
     iupdate k ;;;
     seti k (λ ip, ip <| i_valid := false |>) ;;;
     releasesleep (SlInode k)) ;;;
  seti k (λ ip, ip <| i_ref ::= λ r, r - 1 |>).

Definition iunlockput (k : nat) : FM unit :=
  iunlock k ;;;
  iput k.

(** struct stat; four bytes before [size] are padding and keep their value *)
Definition sizeof_stat : nat := 24.
Definition stati (ip : inode) (st : list byte) : list byte :=
  splice 16 (le_split 8 (i_size ip))
    (wr16 10 (i_nlink ip) (wr16 8 (i_type ip) (wr32 4 (i_inum ip) (wr32 0 (i_dev ip) st)))).

(** Where [readi] stores: at a user address, in RAM, or in a variable of the
    caller.  [either_copyout] for the bytes at distance [off]. *)
Inductive dest := DUser (va : Z) | DRam (pa : Z) | DLocal.
Definition copy_to (d : dest) (off : Z) (bs : list byte) : FM Z :=
  match d with
  | DUser va => wmach (copyout my_pagetable (u64 (va + off)) bs)
  | DRam pa => wmach (modify (λ m, m <| ram ::= stbytes (pa + off) bs |>)) ;;; ret 0
  | DLocal => ret 0
  end.

(** Where [writei] loads from: a user address or a variable of the caller.
    [either_copyin] of [m] bytes at distance [off]. *)
Inductive source := SUser (va : Z) | SLocal (bs : list byte).
Definition copy_from (s : source) (off m : Z) : FM (Z * list byte) :=
  match s with
  | SUser va => wmach (copyin my_pagetable (u64 (va + off)) m)
  | SLocal bs => ret (0, subbytes (Z.to_nat off) (Z.to_nat m) bs)
  end.

(** how many rounds a loop over [n] bytes of blocks takes at most *)
Definition block_fuel (n : Z) : nat := Z.to_nat (n / BSIZE + 3).

(** the result, and the bytes stored at the destination *)
Definition readi (k : nat) (dst : dest) (off n : Z) : FM (Z * list byte) :=
  let* ip := geti k in
  if (i_size ip <? off) || (u32 (off + n) <? off) then ret (0, []) else
  let n := if i_size ip <? off + n then i_size ip - off else n in
  iterate (block_fuel n) (λ '(tot, off, out),
    if negb (tot <? n) then ret (inr (i32 tot, out)) else
    let* addr := bmap k (off / BSIZE) in
    let* bp := bread (i_dev ip) addr in
    let m := Z.min (n - tot) (BSIZE - off mod BSIZE) in
    let* d := bdata bp in
    let bs := subbytes (Z.to_nat (off mod BSIZE)) (Z.to_nat m) d in
    let* r := copy_to dst tot bs in
    if r =? -1 then
      brelse bp ;;; ret (inr (-1, out))
    else
      brelse bp ;;; ret (inl (tot + m, off + m, out ++ bs))) (0, off, []).

Definition writei (k : nat) (src : source) (off n : Z) : FM Z :=
  let* ip := geti k in
  if (i_size ip <? off) || (u32 (off + n) <? off) then ret (-1) else
  if MAXFILE * BSIZE <? off + n then ret (-1) else
  let* '(tot, off) := iterate (block_fuel n) (λ '(tot, off),
    if negb (tot <? n) then ret (inr (tot, off)) else
    let* addr := bmap k (off / BSIZE) in
    let* bp := bread (i_dev ip) addr in
    let m := Z.min (n - tot) (BSIZE - off mod BSIZE) in
    let* '(r, bs) := copy_from src tot m in
    (* the pages before the one that failed have been copied *)
    set_bdata bp (splice (Z.to_nat (off mod BSIZE)) bs) ;;;
    if r =? -1 then
      brelse bp ;;; ret (inr (tot, off))
    else
      log_write bp ;;;
      brelse bp ;;;
      ret (inl (tot + m, off + m))) (0, off) in
  seti k (λ ip, if i_size ip <? off then ip <| i_size := off |> else ip) ;;;
  iupdate k ;;;
  ret (i32 tot).

(** ** Directories *)

Definition sizeof_dirent : Z := 16.
(** struct dirent *)
Definition de_inum (de : list byte) : Z := rd16 0 de.
Definition de_name (de : list byte) : list byte := subbytes 2 (Z.to_nat DIRSIZ) de.

(** strncmp and strncpy on two character arrays *)
Definition namecmp (s t : list byte) : Z := strncmp 0 4096 DIRSIZ (stbytes 4096 t (stbytes 0 s ∅)).
Definition put_name (old name : list byte) : list byte :=
  ldbytes (Z.to_nat DIRSIZ) (strncpy 4096 0 DIRSIZ (stbytes 4096 old (stbytes 0 name ∅))) 4096.

(** the offsets of the entries of a directory of [size] bytes *)
Definition dirents (size : Z) : list Z :=
  (λ j, sizeof_dirent * Z.of_nat j) <$> seq 0 (Z.to_nat ((size + sizeof_dirent - 1) / sizeof_dirent)).

(** the inode and the offset of its entry *)
Definition dirlookup (dp : nat) (name : list byte) : FM (option (nat * Z)) :=
  let* ip := geti dp in
  if negb (i_type ip =? T_DIR) then panic "dirlookup not DIR" else
  for_until (dirents (i_size ip)) (λ off,
    let* '(r, de) := readi dp DLocal off sizeof_dirent in
    if negb (r =? sizeof_dirent) then panic "dirlookup read" else
    if de_inum de =? 0 then ret None else
    if namecmp name (de_name de) =? 0 then
      let* k := iget (i_dev ip) (de_inum de) in
      ret (Some (k, off))
    else ret None).

Definition dirlink (dp : nat) (name : list byte) (inum : Z) : FM Z :=
  let* hit := dirlookup dp name in
  match hit with
  | Some (k, _) => iput k ;;; ret (-1)
  | None =>
      (* look for an empty dirent *)
      let* ip := geti dp in
      let* free := for_until (dirents (i_size ip)) (λ off,
        let* '(r, de) := readi dp DLocal off sizeof_dirent in
        if negb (r =? sizeof_dirent) then panic "dirlink read" else
        if de_inum de =? 0 then ret (Some (off, de)) else ret None) in
      let '(off, de) := match free with
        | Some (off, de) => (off, de)
        | None => (sizeof_dirent * Z.of_nat (length (dirents (i_size ip))), replicate 16 x00)
        end in
      let de := le_split 2 inum ++ put_name (de_name de) name in
      let* r := writei dp (SLocal de) off sizeof_dirent in
      if negb (r =? sizeof_dirent) then panic "dirlink" else ret 0
  end.

(** ** Paths *)

Definition slash : byte := x2f.

Fixpoint skip_slashes (path : list byte) : list byte :=
  match path with
  | c :: path' => if bool_decide (c = slash) then skip_slashes path' else path
  | [] => []
  end.

(** the element before the next slash or NUL, and what follows it *)
Fixpoint path_elem (path : list byte) : list byte * list byte :=
  match path with
  | c :: path' =>
      if bool_decide (c = slash) || bool_decide (c = x00) then ([], path)
      else let '(s, rest) := path_elem path' in (c :: s, rest)
  | [] => ([], [])
  end.

(** the rest of the path, and the buffer [name] after the call *)
Definition skipelem (path name : list byte) : option (list byte * list byte) :=
  let path := skip_slashes path in
  if bool_decide (hd x00 path = x00) then None else
  let '(s, rest) := path_elem path in
  let len := Z.of_nat (length s) in
  let name :=
    if DIRSIZ <=? len then splice 0 (take (Z.to_nat DIRSIZ) s) name
    else splice (length s) [x00] (splice 0 s name) in
  Some (skip_slashes rest, name).

(** the inode, and the buffer [name] *)
Definition namex (path : list byte) (nameiparent : bool) (name : list byte) : FM (option nat * list byte) :=
  let* ip := (if bool_decide (hd x00 path = slash) then iget ROOTDEV ROOTINO else idup my_cwd) in
  let* '(r, name) := iterate (S (length path)) (λ '(path, name, ip),
    match skipelem path name with
    | None => ret (inr (inl ip, name))
    | Some (path, name) =>
        ilock ip ;;;
        let* i := geti ip in
        if negb (i_type i =? T_DIR) then
          iunlockput ip ;;; ret (inr (inr None, name))
        else if nameiparent && bool_decide (hd x00 path = x00) then
          iunlock ip ;;; ret (inr (inr (Some ip), name))
        else
          let* next := dirlookup ip name in
          match next with
          | None => iunlockput ip ;;; ret (inr (inr None, name))
          | Some (next, _) => iunlockput ip ;;; ret (inl (path, name, next))
          end
    end) (path, name, ip) in
  match r with
  | inr res => ret (res, name)
  | inl ip =>
      if nameiparent then iput ip ;;; ret (None, name)
      else ret (Some ip, name)
  end.

Definition namei (path : list byte) : FM (option nat) :=
  let* '(r, _) := namex path false (replicate (Z.to_nat DIRSIZ) x00) in
  ret r.

Definition nameiparent (path name : list byte) : FM (option nat * list byte) := namex path true name.
End Fs.
