(* ===== verification/Console.v ===== *)
(** * Console, serial line and printf (src/kernel/console.c, uart.c, printf.c)

    The console input ring, the transmit ring of the serial line, and the
    kernel's formatted output.  The device answers the reads of its registers
    from [u_lsr] and [u_rhr]; a loop that polls it takes as many rounds as
    there are answers left.  The flag [panicked] is set only when the kernel
    has stopped, so the spins on it are not part of a run. *)

From S2P Require Import Prelude Mem Riscv Kalloc Vm Kstate Spinlock Proc Process FsState.

Section Console.
Context `{KernelSymbols}.

Definition kf {A} (f : fsys → A) : FK A := gets (λ s, f (k_fs s)).
Definition setkf (f : fsys → fsys) : FK unit := modify (λ s, s <| k_fs ::= f |>).
Definition getcons {A} (f : console → A) : FK A := kf (λ s, f (f_cons s)).
Definition setcons (f : console → console) : FK unit := setkf (λ s, s <| f_cons ::= f |>).
Definition getuart {A} (f : uart → A) : FK A := kf (λ s, f (f_uart s)).
Definition setuart (f : uart → uart) : FK unit := setkf (λ s, s <| f_uart ::= f |>).

(** ** uart.c *)

Definition UART_TX_BUF_SIZE : Z := 32.
Definition LSR_RX_READY : Z := Z.shiftl 1 0.
Definition LSR_TX_IDLE : Z := Z.shiftl 1 5.

Definition read_LSR : FK Z :=
  let* l := getuart u_lsr in
  match l with
  | [] => out_of_fuel
  | v :: l' => setuart (λ u, u <| u_lsr := l' |>) ;;; ret v
  end.
Definition read_RHR : FK Z :=
  let* l := getuart u_rhr in
  match l with
  | [] => out_of_fuel
  | v :: l' => setuart (λ u, u <| u_rhr := l' |>) ;;; ret (u8 v)
  end.
Definition write_THR (c : Z) : FK unit := setuart (λ u, u <| u_thr ::= cons (u8 c) |>).

Definition uartputc_sync (c : Z) : FK unit :=
  push_off ;;;
  let* polls := getuart (λ u, length (u_lsr u)) in
  iterate (S polls) (λ _,
    let* lsr := read_LSR in
    if Z.land lsr LSR_TX_IDLE =? 0 then ret (inl tt) else ret (inr tt)) tt ;;;
  write_THR c ;;;
  pop_off.

(** the buffer holds at most UART_TX_BUF_SIZE characters *)
Definition uartstart : FK unit :=
  iterate (S (Z.to_nat UART_TX_BUF_SIZE)) (λ _,
    let* u := getuart (λ u, u) in
    if u_w u =? u_r u then ret (inr tt) else
    let* lsr := read_LSR in
    if Z.land lsr LSR_TX_IDLE =? 0 then ret (inr tt) else
    let c := u_buf u !!! Z.to_nat (u_r u mod UART_TX_BUF_SIZE) in
    setuart (λ u, u <| u_r ::= λ r, u64 (r + 1) |>) ;;;
    wakeup (Some ChUart) ;;;
    write_THR (byte.unsigned c) ;;;
    ret (inl tt)) tt.

Definition uartputc (fuel : nat) (c : Z) : FK unit :=
  acquire LkUart ;;;
  iterate fuel (λ _,
    let* u := getuart (λ u, u) in
    if u_w u =? u64 (u_r u + UART_TX_BUF_SIZE) then
      sleep ChUart LkUart ;;;
      ret (inl tt)
    else
      setuart (λ u, u <| u_buf ::= <[Z.to_nat (u_w u mod UART_TX_BUF_SIZE) := byte.of_Z c]> |>
                      <| u_w ::= λ w, u64 (w + 1) |>) ;;;
      uartstart ;;;
      release LkUart ;;;
      ret (inr tt)) tt.

Definition uartgetc : FK Z :=
  let* lsr := read_LSR in
  if Z.land lsr LSR_RX_READY =? 0 then ret (-1) else read_RHR.

(** ** printf.c *)

Definition BACKSPACE : Z := 0x100.

Definition consputc (c : Z) : FK unit :=
  if c =? BACKSPACE then
    uartputc_sync 8 ;;; uartputc_sync 32 ;;; uartputc_sync 8
  else uartputc_sync c.

Definition digits : list Z :=
  [48; 49; 50; 51; 52; 53; 54; 55; 56; 57; 97; 98; 99; 100; 101; 102].

(** the loop [do ... while((x /= base) != 0)]: the characters in [buf] *)
Fixpoint printint_digits (fuel : nat) (x base : Z) : list Z :=
  match fuel with
  | O => []
  | S fuel' =>
      let d := digits !!! Z.to_nat (x mod base) in
      if x / base =? 0 then [d] else d :: printint_digits fuel' (x / base) base
  end.
(** the contents of [buf]; a 32-bit number has at most 32 digits *)
Definition printint_buf (xx base : Z) (sign : bool) : list Z :=
  let neg := sign && (xx <? 0) in
  let x := if neg then u32 (- xx) else u32 xx in
  printint_digits 32 x base ++ (if neg then [45] else []).

Definition printint (xx base : Z) (sign : bool) : FK unit :=
  for_each (reverse (printint_buf xx base sign)) consputc.

Definition printptr (x : Z) : FK unit :=
  consputc 48 ;;;
  consputc 120 ;;;
  for_each (seq 0 16) (λ i,
    consputc (digits !!! Z.to_nat (Z.shiftr (u64 (Z.shiftl x (4 * Z.of_nat i))) 60))).

(** the variable arguments: an integer or pointer, or a string *)
Inductive vararg := VInt (x : Z) | VStr (s : option (list byte)).
Definition va_int (ap : list vararg) : option (Z * list vararg) :=
  match ap with VInt x :: ap' => Some (x, ap') | _ => None end.
Definition va_str (ap : list vararg) : option (option (list byte) * list vararg) :=
  match ap with VStr s :: ap' => Some (s, ap') | _ => None end.

Definition str_null : list byte := [x28; x6e; x75; x6c; x6c; x29].

(** the loop over the format; a missing argument has no defined value *)
Fixpoint printf_loop (fmt : list byte) (ap : list vararg) : FK unit :=
  match fmt with
  | [] => ret tt
  | c :: fmt' =>
      if bool_decide (c = x00) then ret tt
      else if negb (bool_decide (c = x25)) then consputc (byte.unsigned c) ;;; printf_loop fmt' ap
      else
        match fmt' with
        | [] => ret tt
        | x00 :: _ => ret tt
        | x64 :: fmt'' =>
            match va_int ap with
            | Some (x, ap') => printint (i32 x) 10 true ;;; printf_loop fmt'' ap'
            | None => out_of_bounds
            end
        | x78 :: fmt'' =>
            match va_int ap with
            | Some (x, ap') => printint (i32 x) 16 true ;;; printf_loop fmt'' ap'
            | None => out_of_bounds
            end
        | x70 :: fmt'' =>
            match va_int ap with
            | Some (x, ap') => printptr (u64 x) ;;; printf_loop fmt'' ap'
            | None => out_of_bounds
            end
        | x73 :: fmt'' =>
            match va_str ap with
            | Some (s, ap') =>
                for_each (default str_null s) (λ b, consputc (byte.unsigned b)) ;;;
                printf_loop fmt'' ap'
            | None => out_of_bounds
            end
        | x25 :: fmt'' => consputc 37 ;;; printf_loop fmt'' ap
        | c' :: fmt'' =>
            consputc 37 ;;; consputc (byte.unsigned c') ;;; printf_loop fmt'' ap
        end
  end.

Definition printf (fmt : list byte) (ap : list vararg) : FK unit :=
  let* locking := kf f_pr_locking in
  when locking (acquire LkPr) ;;;
  printf_loop fmt ap ;;;
  when locking (release LkPr).

Definition printfinit : FK unit := setkf (λ s, s <| f_pr_locking := true |>).

(** ** procdump (proc.c) *)

Definition bytes_of (s : string) : list byte :=
  (λ a, byte.of_Z (Z.of_N (Ascii.N_of_ascii a))) <$> String.list_ascii_of_string s.

Definition state_name (st : procstate) : string :=
  match st with
  | UNUSED => "unused" | SLEEPING => "sleep " | RUNNABLE => "runble"
  | RUNNING => "run   " | ZOMBIE => "zombie" | USED => "???"
  end.

(** the characters of an array up to its NUL *)
Fixpoint c_string (bs : list byte) : list byte :=
  match bs with
  | [] => []
  | c :: bs' => if bool_decide (c = x00) then [] else c :: c_string bs'
  end.

Definition newline : list byte := [x0a].

Definition procdump : FK unit :=
  printf newline [] ;;;
  for_each (seq 0 NPROC) (λ i,
    let* p := getp i in
    when (negb (bool_decide (p_state p = UNUSED)))
      (printf (bytes_of "%d %s %s")
         [VInt (p_pid p); VStr (Some (bytes_of (state_name (p_state p)))); VStr (Some (c_string (p_name p)))] ;;;
       printf newline [])).

(** ** console.c *)

Definition CTRL_D : Z := 4.
Definition CTRL_H : Z := 8.
Definition CTRL_P : Z := 16.
Definition CTRL_U : Z := 21.

Definition cons_at (c : console) (i : Z) : byte := c_buf c !!! Z.to_nat (i mod INPUT_BUF).

(** [char] is unsigned on RISC-V *)
Definition consolewrite (fuel : nat) (user_src : bool) (src n : Z) : FK Z :=
  iterate (S (Z.to_nat n)) (λ i,
    if negb (i <? n) then ret (inr i) else
    let* '(r, bs) := either_copyin user_src (u64 (src + i)) 1 in
    if r =? -1 then ret (inr i) else
    uartputc fuel (byte.unsigned (hd x00 bs)) ;;;
    ret (inl (i + 1))) 0.

(** the loop [while(cons.r == cons.w)]: false when the thread is killed *)
Definition consoleread_wait (fuel : nat) : FK bool :=
  iterate fuel (λ _,
    let* c := getcons (λ c, c) in
    if negb (c_r c =? c_w c) then ret (inr true) else
    let* i := myproc' in
    let* p := getp i in
    let* '(ti, tj) := mythread' in
    let* t := gett ti tj in
    if negb (p_killed p =? 0) || negb (t_killed t =? 0) then ret (inr false) else
    sleep ChCons LkCons ;;;
    ret (inl tt)) tt.

Definition consoleread (fuel : nat) (user_dst : bool) (dst n : Z) : FK Z :=
  let target := u32 n in
  acquire LkCons ;;;
  let* r := iterate (S (Z.to_nat n)) (λ '(dst, n),
    if negb (0 <? n) then ret (inr (Some n)) else
    let* live := consoleread_wait fuel in
    if negb live then
      release LkCons ;;; ret (inr None)
    else
    let* c := getcons (λ c, cons_at c (c_r c)) in
    setcons (λ c, c <| c_r ::= λ r, u32 (r + 1) |>) ;;;
    if byte.unsigned c =? CTRL_D then
      when (u32 n <? target) (setcons (λ c, c <| c_r ::= λ r, u32 (r - 1) |>)) ;;;
      ret (inr (Some n))
    else
    let* e := either_copyout user_dst dst [c] in
    if e =? -1 then ret (inr (Some n)) else
    if byte.unsigned c =? 10 then ret (inr (Some (n - 1)))
    else ret (inl (u64 (dst + 1), n - 1))) (dst, n) in
  match r with
  | None => ret (-1)
  | Some n => release LkCons ;;; ret (i32 (target - n))
  end.

(** the rest of the line in the buffer is at most INPUT_BUF characters *)
Definition kill_line : FK unit :=
  iterate (S (Z.to_nat INPUT_BUF)) (λ _,
    let* c := getcons (λ c, c) in
    if negb (c_e c =? c_w c) && negb (byte.unsigned (cons_at c (u32 (c_e c - 1))) =? 10) then
      setcons (λ c, c <| c_e ::= λ e, u32 (e - 1) |>) ;;;
      consputc BACKSPACE ;;;
      ret (inl tt)
    else ret (inr tt)) tt.

Definition consoleintr (c : Z) : FK unit :=
  acquire LkCons ;;;
  (if c =? CTRL_P then procdump
   else if c =? CTRL_U then kill_line
   else if (c =? CTRL_H) || (c =? 0x7f) then
     let* s := getcons (λ c, c) in
     when (negb (c_e s =? c_w s))
       (setcons (λ c, c <| c_e ::= λ e, u32 (e - 1) |>) ;;;
        consputc BACKSPACE)
   else
     let* s := getcons (λ c, c) in
     when (negb (c =? 0) && (u32 (c_e s - c_r s) <? INPUT_BUF))
       (let c := if c =? 13 then 10 else c in
        consputc c ;;;
        setcons (λ s, s <| c_buf ::= <[Z.to_nat (c_e s mod INPUT_BUF) := byte.of_Z c]> |>
                        <| c_e ::= λ e, u32 (e + 1) |>) ;;;
        let* s := getcons (λ c, c) in
        when ((c =? 10) || (c =? CTRL_D) || (c_e s =? u32 (c_r s + INPUT_BUF)))
          (setcons (λ s, s <| c_w := c_e s |>) ;;;
           wakeup (Some ChCons)))) ;;;
  release LkCons.

Definition consoleinit : FK unit := setkf (λ s, s <| f_devsw ::= <[CONSOLE := DevConsole]> |>).

Definition uartintr : FK unit :=
  let* n := getuart (λ u, length (u_rhr u)) in
  iterate (S n) (λ _,
    let* c := uartgetc in
    if c =? -1 then ret (inr tt) else
    consoleintr c ;;; ret (inl tt)) tt ;;;
  acquire LkUart ;;;
  uartstart ;;;
  release LkUart.
End Console.
