(* ===== verification/ConsoleSpec.v ===== *)
(** * Line editing and number printing (src/kernel/console.c, printf.c, uart.c)

    The input ring of the console is two queues: the lines that are ready for
    [consoleread], and the line that is being edited.  [consoleintr] is an
    operation on these. *)

From S2P Require Import Prelude Ring Mem Riscv Kalloc Vm Uvm Pagetable Kstate Spinlock Proc Sched Process FsState LogCrash Console.

(** ** Output

    The transmitter reports itself idle [idles] times in the answers that are
    left. *)

Definition idle (lsr : Z) : bool := negb (Z.land lsr LSR_TX_IDLE =? 0).
Fixpoint idles (l : list Z) : nat :=
  match l with [] => O | v :: l' => if idle v then S (idles l') else idles l' end.

Section Output.
Context `{KernelSymbols}.

(** the state after the characters [out], last first, went to the device, and
    the console became [c] *)
Definition typed (out : list Z) (c : console) (s s' : kstate fsys) : Prop :=
  ∃ u, s' = s <| k_fs ::= λ x, x <| f_cons := c |> <| f_uart := u |> |> ∧ u_thr u = out ++ u_thr (f_uart (k_fs s)) ∧
    (idles (u_lsr (f_uart (k_fs s))) ≤ idles (u_lsr u) + length out)%nat.
Definition sent (out : list Z) (s s' : kstate fsys) : Prop := typed out (f_cons (k_fs s)) s s'.

Lemma typed_trans a b c c' s1 s2 s3 : typed a c s1 s2 → typed b c' s2 s3 → typed (b ++ a) c' s1 s3.
Proof.
  intros (u & -> & Ht & Hi) (u' & -> & Ht' & Hi'). rproj_in Hi'. rproj_in Ht'. exists u'. split_and!; [by destruct s1| |].
  - by rewrite Ht', Ht, app_assoc.
  - rewrite length_app. lia.
Qed.

Lemma poll_ok n : ∀ s : kstate fsys, (0 < idles (u_lsr (f_uart (k_fs s))))%nat → (length (u_lsr (f_uart (k_fs s))) ≤ n)%nat →
  ∃ l, iterate (S n) (λ _, let* lsr := read_LSR in if Z.land lsr LSR_TX_IDLE =? 0 then ret (inl tt) else ret (inr tt)) tt s =
    Ok tt (s <| k_fs ::= λ x, x <| f_uart ::= λ u, u <| u_lsr := l |> |> |>) ∧
    (idles (u_lsr (f_uart (k_fs s))) = S (idles l))%nat.
Proof.
  induction n as [|n IH]; intros s Hi Hl.
  { destruct (u_lsr (f_uart (k_fs s))); simpl in *; lia. }
  destruct s as [m ps ip np nt bs h tk fi fs]. cbn [k_fs] in *. destruct (u_lsr (f_uart fs)) as [|v l] eqn:El; [simpl in Hi; lia|].
  assert (Er : ∀ A (k : Z → FK A), bind read_LSR k (mkKstate m ps ip np nt bs h tk fi fs) =
    k v (mkKstate m ps ip np nt bs h tk fi (fs <| f_uart ::= λ u, u <| u_lsr := l |> |>))).
  { intros A k. unfold read_LSR, getuart, kf, setuart, setkf. unfold bind, Prelude.gets, modify, ret. simpl. by rewrite El. }
  cbn [idles] in Hi. unfold idle in *. cbn [idles]. unfold idle. destruct (Z.land v LSR_TX_IDLE =? 0) eqn:Ev; cbn [negb] in *.
  - edestruct (IH (mkKstate m ps ip np nt bs h tk fi (fs <| f_uart ::= λ u, u <| u_lsr := l |> |>))) as (l' & Hrun & Hn);
      [exact Hi|simpl in *; lia|].
    exists l'. split; [|exact Hn]. erewrite iterate_next; [|rewrite Er, Ev; done]. exact Hrun.
  - exists l. split; [|done]. apply iterate_done. by rewrite Er, Ev.
Qed.

(** [push_off] and [pop_off] where a lock is held *)
Definition deeper (h : hart) : hart := h <| h_noff ::= Z.add 1 |>.
Lemma push_off_held (s : kstate fsys) : hart_ok (k_hart s) → h_held (k_hart s) ≠ [] →
  push_off s = Ok tt (s <| k_hart ::= deeper |>).
Proof.
  intros [Hn _ Ho] Hne. unfold push_off, intr_get, intr_off, get_hart, set_hart, when, bind, Prelude.gets, modify, ret, deeper.
  destruct s as [m ps ip np nt bs [hp ht hn ha hi hl] tk fi fs]. simpl in *. unset. simpl. rewrite (Ho Hne).
  assert (E : (hn =? 0) = false) by (destruct hl; [done|simpl in Hn; lia]). by rewrite E.
Qed.
Lemma pop_off_held (s : kstate fsys) h : hart_ok h → h_held h ≠ [] → k_hart s = deeper h →
  pop_off s = Ok tt (s <| k_hart := h |>).
Proof.
  intros [Hn _ Ho] Hne. unfold pop_off, intr_get, intr_on, get_hart, set_hart, when, bind, Prelude.gets, modify, ret, deeper.
  destruct s as [m ps ip np nt bs h' tk fi fs], h as [hp ht hn ha hi hl]. simpl in *. intros ->. unset. simpl. rewrite (Ho Hne).
  assert (hn = Z.of_nat (length hl) ∧ (0 < length hl)%nat) as [-> ?] by (destruct hl; [done|simpl in *; lia]).
  cbn [k_hart h_noff]. rewrite (proj2 (Z.ltb_ge _ _)) by lia. replace (1 + Z.of_nat (length hl) - 1) with (Z.of_nat (length hl)) by lia.
  rewrite (proj2 (Z.eqb_neq _ _)) by lia. done.
Qed.

Lemma uartputc_sync_ok c (s : kstate fsys) :
  hart_ok (k_hart s) → h_held (k_hart s) ≠ [] → (0 < idles (u_lsr (f_uart (k_fs s))))%nat →
  ∃ s', uartputc_sync c s = Ok tt s' ∧ sent [u8 c] s s'.
Proof.
  intros Hh Hne Hi. unfold uartputc_sync. rewrite (bind_Ok _ _ _ _ _ (push_off_held s Hh Hne)).
  unfold getuart, kf. rewrite bind_gets.
  destruct (poll_ok (length (u_lsr (f_uart (k_fs s)))) (s <| k_hart ::= deeper |>)) as (l & Hrun & Hl); [done|done|].
  rewrite (bind_Ok _ _ _ _ _ Hrun). unfold write_THR, setuart, setkf. rewrite bind_modify.
  rewrite (pop_off_held _ (k_hart s)) by (done || by destruct s). eexists. split; [done|].
  exists ((f_uart (k_fs s)) <| u_lsr := l |> <| u_thr ::= cons (u8 c) |>). split_and!.
  - destruct s as [m ps ip np nt bs h tk fi fs]. by destruct fs.
  - done.
  - change (k_fs (s <| k_hart ::= deeper |>)) with (k_fs s) in Hl. rewrite Hl. simpl. rproj. lia.
Qed.

Definition echo (c : Z) : list Z := if c =? BACKSPACE then [8; 32; 8] else [u8 c].

Lemma typed_hart out c s s' : typed out c s s' → k_hart s' = k_hart s.
Proof. by intros (u & -> & _). Qed.
Lemma typed_cons out c s s' : typed out c s s' → f_cons (k_fs s') = c.
Proof. by intros (u & -> & _). Qed.
Lemma typed_idles out c s s' n : typed out c s s' → (length out + n ≤ idles (u_lsr (f_uart (k_fs s))))%nat →
  (n ≤ idles (u_lsr (f_uart (k_fs s'))))%nat.
Proof. intros (u & -> & _ & Hi) Hn. rproj. lia. Qed.

Lemma consputc_ok c (s : kstate fsys) :
  hart_ok (k_hart s) → h_held (k_hart s) ≠ [] → (length (echo c) ≤ idles (u_lsr (f_uart (k_fs s))))%nat →
  ∃ s', consputc c s = Ok tt s' ∧ sent (echo c) s s'.
Proof.
  intros Hh Hne Hi. unfold consputc, echo in *. destruct (c =? BACKSPACE); [|apply uartputc_sync_ok; simpl in Hi; done || lia].
  simpl in Hi. destruct (uartputc_sync_ok 8 s Hh Hne) as (s1 & E1 & S1); [lia|].
  assert (H1 := typed_hart _ _ _ _ S1). assert (I1 := typed_idles _ _ _ _ 2 S1 ltac:(simpl; lia)).
  destruct (uartputc_sync_ok 32 s1) as (s2 & E2 & S2); [by rewrite H1|by rewrite H1|lia|].
  assert (H2 := typed_hart _ _ _ _ S2). assert (I2 := typed_idles _ _ _ _ 1 S2 ltac:(simpl; lia)).
  destruct (uartputc_sync_ok 8 s2) as (s3 & E3 & S3); [by rewrite H2, H1|by rewrite H2, H1|lia|].
  exists s3. rewrite (bind_Ok _ _ _ _ _ E1), (bind_Ok _ _ _ _ _ E2), E3. split; [done|].
  unfold sent in *. rewrite (typed_cons _ _ _ _ S1) in S2. rewrite (typed_cons _ _ _ _ S2) in S3.
  exact (typed_trans _ _ _ _ _ _ _ (typed_trans _ _ _ _ _ _ _ S1 S2) S3).
Qed.

Lemma setcons_typed f (s : kstate fsys) :
  ∃ s', setcons f s = Ok tt s' ∧ typed [] (f (f_cons (k_fs s))) s s'.
Proof.
  eexists. split; [done|]. exists (f_uart (k_fs s)). split_and!; [|done|simpl; lia].
  destruct s as [m ps ip np nt bs h tk fi fs]. by destruct fs.
Qed.
End Output.

(** ** The two queues of the console *)

Definition committed (c : console) : list byte := ring_queue INPUT_BUF (c_buf c) (c_r c) (c_w c).
Definition editing (c : console) : list byte := ring_queue INPUT_BUF (c_buf c) (c_w c) (c_e c).

Record cons_ok (c : console) : Prop := {
  ck_buf : length (c_buf c) = Z.to_nat INPUT_BUF;
  ck_r : 0 ≤ c_r c < 2 ^ 32;
  ck_w : 0 ≤ c_w c < 2 ^ 32;
  ck_e : 0 ≤ c_e c < 2 ^ 32;
  ck_we : ring_len (c_r c) (c_w c) ≤ ring_len (c_r c) (c_e c);
  ck_len : ring_len (c_r c) (c_e c) ≤ INPUT_BUF;
  ck_line : x0a ∉ editing c
}.

(** what a character does to the ready input and the line being edited *)
Definition commits (c : Z) (full : bool) : bool := (c =? 10) || (c =? CTRL_D) || full.
Definition edit (c : Z) (st : list byte * list byte) : list byte * list byte :=
  let '(ready, line) := st in
  if c =? CTRL_U then (ready, [])
  else if (c =? CTRL_H) || (c =? 0x7f) then (ready, removelast line)
  else if negb (c =? 0) && (Z.of_nat (length ready + length line) <? INPUT_BUF) then
    let c := if c =? 13 then 10 else c in
    let line' := line ++ [byte.of_Z c] in
    if commits c (Z.of_nat (length ready + length line') =? INPUT_BUF) then (ready ++ line', []) else (ready, line')
  else (ready, line).
(** the characters it sends to the screen, last first *)
Definition edit_echo (c : Z) (st : list byte * list byte) : list Z :=
  let '(ready, line) := st in
  if c =? CTRL_U then concat (replicate (length line) (echo BACKSPACE))
  else if (c =? CTRL_H) || (c =? 0x7f) then if bool_decide (line = []) then [] else echo BACKSPACE
  else if negb (c =? 0) && (Z.of_nat (length ready + length line) <? INPUT_BUF) then
    echo (if c =? 13 then 10 else c)
  else [].

Lemma INPUT_BUF_pos : 0 < INPUT_BUF. Proof. done. Qed.
Lemma INPUT_BUF_div : (INPUT_BUF | 2 ^ 32). Proof. by exists (2 ^ 25). Qed.
#[local] Hint Resolve INPUT_BUF_pos INPUT_BUF_div : core.

Lemma cons_lengths c : cons_ok c →
  Z.of_nat (length (committed c) + length (editing c)) = ring_len (c_r c) (c_e c) ∧
  Z.of_nat (length (editing c)) = ring_len (c_w c) (c_e c).
Proof.
  intros Hc. destruct (ring_app INPUT_BUF INPUT_BUF_div (c_buf c) (c_r c) (c_w c) (c_e c) (ck_we c Hc)) as [_ He].
  pose proof (length_ring INPUT_BUF (c_buf c) (c_r c) (c_w c)). pose proof (length_ring INPUT_BUF (c_buf c) (c_w c) (c_e c)).
  unfold committed, editing. lia.
Qed.

(** the counters [e] and [w] differ when there is a line to edit *)
Lemma editing_test c : cons_ok c → (c_e c =? c_w c) = bool_decide (editing c = []).
Proof.
  intros Hc. destruct (cons_lengths c Hc) as [_ He]. rewrite ring_len_case in He by apply Hc.
  pose proof (ck_w c Hc). pose proof (ck_e c Hc).
  case_bool_decide as Hl; [rewrite Hl in He; simpl in He|assert (0 < length (editing c))%nat by (destruct (editing c); [done|simpl; lia])];
    revert He; destruct (Z.leb_spec (c_w c) (c_e c)); lia.
Qed.

(** the last character of the line is taken back *)
Definition rubout (c : console) : console := c <| c_e ::= λ e, u32 (e - 1) |>.
Lemma rubout_ok c : cons_ok c → editing c ≠ [] →
  cons_ok (rubout c) ∧ committed (rubout c) = committed c ∧ editing c = editing (rubout c) ++ [cons_at c (u32 (c_e c - 1))].
Proof.
  intros Hc Hne. destruct (cons_lengths c Hc) as [Ht He]. assert (0 < length (editing c))%nat by (destruct (editing c); [done|simpl; lia]).
  assert (Hu : editing c = editing (rubout c) ++ [cons_at c (u32 (c_e c - 1))]).
  { apply (ring_unpush INPUT_BUF INPUT_BUF_div (c_buf c) (c_w c) (c_e c)). lia. }
  pose proof (ring_len_range (c_r c) (c_w c)). pose proof (length_ring INPUT_BUF (c_buf c) (c_r c) (c_w c)) as Hrw. fold (committed c) in Hrw.
  split_and!; [|done|done]. destruct Hc as [Hb Hr Hw Hee Hwe Hl Hline]. split; try done.
  - apply u32_range.
  - change (ring_len (c_r c) (c_w c) ≤ ring_len (c_r c) (u32 (c_e c - 1))). rewrite ring_len_dec by lia. lia.
  - change (ring_len (c_r c) (u32 (c_e c - 1)) ≤ INPUT_BUF). rewrite ring_len_dec by lia. lia.
  - rewrite Hu in Hline. set_solver.
Qed.

Lemma set_hart_settled {F} (s : kstate F) g : hart_ok (k_hart s) → h_held (k_hart s) ≠ [] →
  s <| k_proc ::= g |> <| k_hart ::= settle |> = s <| k_proc ::= g |>.
Proof.
  intros [Hn _ _] Hne. destruct s as [m ps ip np nt bs h tk fi fs]. simpl in *. kred. unfold settle.
  destruct (Z.eqb_spec (h_noff h) 0); [|done]. destruct (h_held h); [done|simpl in Hn; lia].
Qed.

(** a character is added to the line *)
Definition typein (b : byte) (c : console) : console :=
  c <| c_buf ::= <[Z.to_nat (c_e c mod INPUT_BUF) := b]> |> <| c_e ::= λ e, u32 (e + 1) |>.
Definition commit_line (c : console) : console := c <| c_w := c_e c |>.

Lemma typein_ok c b : cons_ok c → ring_len (c_r c) (c_e c) < INPUT_BUF →
  committed (typein b c) = committed c ∧ editing (typein b c) = editing c ++ [b] ∧
  (b ≠ x0a → cons_ok (typein b c)) ∧ cons_ok (commit_line (typein b c)) ∧
  committed (commit_line (typein b c)) = committed c ++ editing c ++ [b] ∧ editing (commit_line (typein b c)) = [].
Proof.
  intros Hc Hl. destruct (cons_lengths c Hc) as [Ht He]. pose proof (ck_len c Hc) as Hle. unfold INPUT_BUF in *.
  pose proof (length_ring INPUT_BUF (c_buf c) (c_r c) (c_w c)) as Hrw. fold (committed c) in Hrw.
  assert (E1 : committed (typein b c) = committed c).
  { apply ring_insert; [done|done|apply Hc|done]. }
  assert (E2 : editing (typein b c) = editing c ++ [b]).
  { refine (ring_push INPUT_BUF INPUT_BUF_pos INPUT_BUF_div (c_buf c) (c_w c) (c_e c) b _ _ _); [apply Hc|done|unfold INPUT_BUF; lia]. }
  assert (Hinc : ring_len (c_r c) (u32 (c_e c + 1)) = ring_len (c_r c) (c_e c) + 1) by (apply ring_len_inc; lia).
  assert (E3 : editing (commit_line (typein b c)) = []).
  { unfold editing, ring_queue. cbn. unfold ring_len. by rewrite Z.sub_diag. }
  assert (Hwe := ck_we c Hc).
  split_and!; [done|done| | | |done].
  - intros Hb. destruct Hc as [Hbuf Hr Hw Hee _ _ Hline].
    split; cbn; [by rewrite length_insert|done|done|apply u32_range|lia|unfold INPUT_BUF; lia|]. rewrite E2. set_solver.
  - destruct Hc as [Hbuf Hr Hw Hee _ _ Hline].
    split; cbn; [by rewrite length_insert|done|apply u32_range|apply u32_range|lia|unfold INPUT_BUF; lia|]. rewrite E3. set_solver.
  - assert (Happ := ring_app INPUT_BUF INPUT_BUF_div (c_buf (typein b c)) (c_r c) (c_w c) (u32 (c_e c + 1)) ltac:(lia)).
    destruct Happ as [Happ _]. etrans; [exact Happ|]. fold (committed (typein b c)) in *. rewrite <- E1, <- E2. done.
Qed.

(** ** consoleintr *)

Section Intr.
Context `{KernelSymbols}.
Abbreviation tx s := (idles (u_lsr (f_uart (k_fs s)))).

(** one character is rubbed out, on the screen too *)
Lemma rubout_run {A} (k : FK A) (s : kstate fsys) :
  hart_ok (k_hart s) → h_held (k_hart s) ≠ [] → (3 ≤ tx s)%nat →
  ∃ s', (setcons rubout ;;; consputc BACKSPACE ;;; k) s = k s' ∧ (setcons rubout ;;; consputc BACKSPACE) s = Ok tt s' ∧ typed (echo BACKSPACE) (rubout (f_cons (k_fs s))) s s'.
Proof.
  intros Hh Hne Hi. destruct (setcons_typed rubout s) as (s1 & E1 & T1).
  assert (H1 := typed_hart _ _ _ _ T1). assert (I1 := typed_idles _ _ _ _ 3 T1 Hi).
  destruct (consputc_ok BACKSPACE s1) as (s2 & E2 & T2); [by rewrite H1|by rewrite H1|done|].
  unfold sent in T2. rewrite (typed_cons _ _ _ _ T1) in T2.
  exists s2. rewrite !(bind_Ok _ _ _ _ _ E1), (bind_Ok _ _ _ _ _ E2). split; [done|]. split; [done|].
  rewrite <- (app_nil_r (echo BACKSPACE)). by apply (typed_trans _ _ _ _ _ _ _ T1 T2).
Qed.

Lemma typed_refl (s : kstate fsys) : typed [] (f_cons (k_fs s)) s s.
Proof. exists (f_uart (k_fs s)). split_and!; [|done|simpl; lia]. destruct s as [m ps ip np nt bs h tk fi fs]. by destruct fs. Qed.

Lemma kill_line_loop : ∀ d (s : kstate fsys),
  hart_ok (k_hart s) → h_held (k_hart s) ≠ [] → cons_ok (f_cons (k_fs s)) →
  (length (editing (f_cons (k_fs s))) ≤ d)%nat → (3 * length (editing (f_cons (k_fs s))) ≤ tx s)%nat →
  ∃ s' c', iterate (S d) (λ _,
    let* c := getcons (λ c, c) in
    if negb (c_e c =? c_w c) && negb (byte.unsigned (cons_at c (u32 (c_e c - 1))) =? 10) then
      setcons rubout ;;; consputc BACKSPACE ;;; ret (inl tt)
    else ret (inr tt)) tt s = Ok tt s' ∧
    typed (concat (replicate (length (editing (f_cons (k_fs s)))) (echo BACKSPACE))) c' s s' ∧
    cons_ok c' ∧ committed c' = committed (f_cons (k_fs s)) ∧ editing c' = [].
Proof.
  induction d as [|d IH]; intros s Hh Hne Hc Hd Hi.
  all: assert (Et := editing_test _ Hc); destruct (editing (f_cons (k_fs s))) as [|b line] eqn:Eb.
  1, 3: exists s, (f_cons (k_fs s)); split_and!; [|by apply typed_refl|done|done|done];
    apply iterate_done; unfold getcons, kf; rewrite bind_gets, Et; done.
  { simpl in Hd. lia. }
  assert (Hed : editing (f_cons (k_fs s)) ≠ []) by (by rewrite Eb).
  destruct (rubout_ok _ Hc Hed) as (Hc1 & Ec1 & El1).
  assert (Hnl : (byte.unsigned (cons_at (f_cons (k_fs s)) (u32 (c_e (f_cons (k_fs s)) - 1))) =? 10) = false).
  { apply Z.eqb_neq. intros H10. apply (ck_line _ Hc). rewrite El1. apply elem_of_app. right.
    rewrite <- (byte.of_Z_unsigned (cons_at _ _)), H10. by apply list_elem_of_singleton. }
  rewrite Eb in El1. assert (Hlen := f_equal length El1). rewrite length_app in Hlen. simpl in Hlen, Hd, Hi.
  destruct (rubout_run (ret (inl tt : unit + unit)) s Hh Hne) as (s1 & E1 & _ & T1); [lia|].
  assert (H1 := typed_hart _ _ _ _ T1). assert (C1 := typed_cons _ _ _ _ T1).
  assert (I1 := typed_idles _ _ _ _ (3 * length line) T1 ltac:(simpl; lia)).
  destruct (IH s1) as (s2 & c2 & E2 & T2 & Hc2 & Ecm & Eed); [by rewrite H1|by rewrite H1|by rewrite C1|rewrite C1; lia|rewrite C1; lia|].
  exists s2, c2. split_and!; [| |done|by rewrite Ecm, C1, Ec1|done].
  - erewrite iterate_next; [exact E2|]. unfold getcons, kf. rewrite bind_gets, Et, Hnl. simpl. exact E1.
  - assert (Hl1 : length (editing (f_cons (k_fs s1))) = length line) by (rewrite C1; lia). rewrite Hl1 in T2.
    assert (Hcat : concat (replicate (length (b :: line)) (echo BACKSPACE)) = concat (replicate (length line) (echo BACKSPACE)) ++ echo BACKSPACE).
    { cbn [length]. rewrite <- Nat.add_1_r, replicate_add, concat_app. simpl. done. }
    rewrite Hcat. exact (typed_trans _ _ _ _ _ _ _ T1 T2).
Qed.

(** the lock is held: the console and the screen after the character *)
Definition intr_body (c : Z) : FK unit :=
  if c =? CTRL_P then procdump
  else if c =? CTRL_U then kill_line
  else if (c =? CTRL_H) || (c =? 0x7f) then
    let* s := getcons (λ c, c) in when (negb (c_e s =? c_w s)) (setcons rubout ;;; consputc BACKSPACE)
  else
    let* s := getcons (λ c, c) in
    when (negb (c =? 0) && (u32 (c_e s - c_r s) <? INPUT_BUF))
      (let c := if c =? 13 then 10 else c in
       consputc c ;;;
       setcons (λ s, typein (byte.of_Z c) s) ;;;
       let* s := getcons (λ c, c) in
       when ((c =? 10) || (c =? CTRL_D) || (c_e s =? u32 (c_r s + INPUT_BUF)))
         (setcons commit_line ;;; wakeup (Some ChCons))).
Lemma consoleintr_body c s : consoleintr c s = (acquire LkCons ;;; intr_body c ;;; release LkCons) s.
Proof. reflexivity. Qed.

Definition cons_state (s : kstate fsys) : list byte * list byte := (committed (f_cons (k_fs s)), editing (f_cons (k_fs s))).

(** the body leaves the queues as [edit] says, and wakes the readers if there is input for them *)
Definition edited (c : Z) (s s' : kstate fsys) : Prop :=
  ∃ c', cons_ok c' ∧ (committed c', editing c') = edit c (cons_state s) ∧
  ∃ s1, typed (edit_echo c (cons_state s)) c' s s1 ∧
    s' = s1 <| k_proc ::= λ ps, if bool_decide (committed c' = committed (f_cons (k_fs s))) then ps
                                else imap (wake_proc (h_thread (k_hart s)) (Some ChCons)) ps |>.

Section Branches.
Context (c : Z) (s : kstate fsys).
Context (Hh : hart_ok (k_hart s)) (Hne : h_held (k_hart s) ≠ []) (Hc : cons_ok (f_cons (k_fs s))).

Lemma edited_same c' s1 : cons_ok c' → committed c' = committed (f_cons (k_fs s)) →
  (committed c', editing c') = edit c (cons_state s) → typed (edit_echo c (cons_state s)) c' s s1 → edited c s s1.
Proof.
  intros Hc' Ec Ed Ht. exists c'. split; [done|]. split; [done|]. exists s1. split; [done|]. rewrite bool_decide_true by done. by destruct s1.
Qed.

Lemma kill_line_edits : c = CTRL_U → (3 * length (editing (f_cons (k_fs s))) ≤ tx s)%nat →
  ∃ s', intr_body c s = Ok tt s' ∧ edited c s s'.
Proof.
  intros Ecu Hi. destruct (cons_lengths _ Hc) as [Ht _]. pose proof (ck_len _ Hc) as Hle.
  destruct (kill_line_loop (Z.to_nat INPUT_BUF) s) as (s' & c' & E & T & Hc' & Ecm & Eed); [done..|unfold INPUT_BUF in *; lia|done|].
  exists s'. split; [rewrite Ecu; exact E|]. apply (edited_same c'); [done|done|by rewrite Ecm, Eed, Ecu|by rewrite Ecu].
Qed.

Lemma rubout_edits : (c =? CTRL_H) || (c =? 0x7f) = true → (3 ≤ tx s)%nat →
  ∃ s', intr_body c s = Ok tt s' ∧ edited c s s'.
Proof.
  intros Hch Hi. assert (Ed : edit c (cons_state s) = (committed (f_cons (k_fs s)), removelast (editing (f_cons (k_fs s)))) ∧
    edit_echo c (cons_state s) = if bool_decide (editing (f_cons (k_fs s)) = []) then [] else echo BACKSPACE).
  { unfold edit, edit_echo, cons_state. rewrite Hch. assert (Eu : (c =? CTRL_U) = false) by (unfold CTRL_H, CTRL_U in *; lia). by rewrite Eu. }
  destruct Ed as [Ed Ee].
  unfold intr_body. rewrite Hch. assert (Ep : (c =? CTRL_P) = false) by (unfold CTRL_H, CTRL_P in *; lia).
  assert (Eu : (c =? CTRL_U) = false) by (unfold CTRL_H, CTRL_U in *; lia). rewrite Ep, Eu.
  unfold getcons, kf. rewrite bind_gets, editing_test by done. case_bool_decide as Hl; cbn [negb when].
  - exists s. split; [done|]. apply (edited_same (f_cons (k_fs s))); [done|done|by rewrite Ed, Hl|by rewrite Ee; apply typed_refl].
  - destruct (rubout_run (ret tt) s Hh Hne Hi) as (s1 & _ & E1 & T1). destruct (rubout_ok _ Hc Hl) as (Hc1 & Ec1 & El1).
    exists s1. split; [exact E1|].
    apply (edited_same (rubout (f_cons (k_fs s)))); [done|done| |by rewrite Ee]. rewrite Ed, Ec1, El1. by rewrite removelast_last.
Qed.

Lemma typein_edits : 0 ≤ c < 256 → c ≠ CTRL_P → c ≠ CTRL_U → (c =? CTRL_H) || (c =? 0x7f) = false →
  (1 ≤ tx s)%nat → no_proc_lock (k_hart s) → shaped (k_proc s) →
  ∃ s', intr_body c s = Ok tt s' ∧ edited c s s'.
Proof.
  intros Hr Hp Hu Hb Hi Hnp Hsh. unfold intr_body. rewrite (proj2 (Z.eqb_neq c CTRL_P)), (proj2 (Z.eqb_neq c CTRL_U)), Hb by done.
  destruct (cons_lengths _ Hc) as [Ht _]. set (c0 := f_cons (k_fs s)) in *.
  set (c1 := if c =? 13 then 10 else c). set (full := Z.of_nat (length (committed c0) + length (editing c0 ++ [byte.of_Z c1])) =? INPUT_BUF).
  assert (Ed : edit c (cons_state s) = (if negb (c =? 0) && (ring_len (c_r c0) (c_e c0) <? INPUT_BUF) then
      if commits c1 full then (committed c0 ++ editing c0 ++ [byte.of_Z c1], []) else (committed c0, editing c0 ++ [byte.of_Z c1])
    else (committed c0, editing c0)) ∧
    edit_echo c (cons_state s) = if negb (c =? 0) && (ring_len (c_r c0) (c_e c0) <? INPUT_BUF) then echo c1 else []).
  { unfold edit, edit_echo, cons_state. fold c0. rewrite (proj2 (Z.eqb_neq c CTRL_U)), Hb, Ht by done. done. }
  destruct Ed as [Ed Ee]. unfold getcons, kf at 1. rewrite bind_gets. fold c0. fold (ring_len (c_r c0) (c_e c0)).
  destruct (negb (c =? 0) && (ring_len (c_r c0) (c_e c0) <? INPUT_BUF)) eqn:Eg; cbn [when].
  2: { exists s. split; [done|]. apply (edited_same c0); [done|done|by rewrite Ed|rewrite Ee; apply typed_refl]. }
  apply andb_true_iff in Eg as [_ Eg%Z.ltb_lt].
  assert (Hc1 : 0 ≤ c1 < 256) by (unfold c1; destruct (c =? 13); lia). cbv zeta. fold c1.
  assert (Hec : echo c1 = [u8 c1]) by (unfold echo; rewrite (proj2 (Z.eqb_neq c1 BACKSPACE)) by (unfold BACKSPACE; lia); done).
  destruct (consputc_ok c1 s) as (s1 & E1 & T1); [done|done|by rewrite Hec|]. rewrite (bind_Ok _ _ _ _ _ E1).
  destruct (setcons_typed (typein (byte.of_Z c1)) s1) as (s2 & E2 & T2). rewrite (bind_Ok _ _ _ _ _ E2).
  rewrite (typed_cons _ _ _ _ T1) in T2. assert (T12 := typed_trans _ _ _ _ _ _ _ T1 T2). rewrite app_nil_l in T12.
  unfold kf. rewrite bind_gets, (typed_cons _ _ _ _ T2). fold c0.
  destruct (typein_ok c0 (byte.of_Z c1) Hc Eg) as (Ec & Eed & Hok & Hok' & Ecm & Een).
  assert (Ef : (c1 =? 10) || (c1 =? CTRL_D) || (c_e (typein (byte.of_Z c1) c0) =? u32 (c_r (typein (byte.of_Z c1) c0) + INPUT_BUF)) = commits c1 full).
  { unfold commits, full. f_equal. change (c_r (typein (byte.of_Z c1) c0)) with (c_r c0). change (c_e (typein (byte.of_Z c1) c0)) with (u32 (c_e c0 + 1)).
    rewrite ring_full_test by (done || apply u32_range || apply Hc). rewrite ring_len_inc by (unfold INPUT_BUF in Eg; lia).
    rewrite length_app. simpl. rewrite <- Ht. f_equal. lia. }
  rewrite Ef. destruct (commits c1 full) eqn:Ecc; cbn [when].
  - destruct (setcons_typed commit_line s2) as (s3 & E3 & T3). rewrite (bind_Ok _ _ _ _ _ E3). rewrite (typed_cons _ _ _ _ T2) in T3.
    assert (T13 := typed_trans _ _ _ _ _ _ _ T12 T3). rewrite app_nil_l in T13.
    assert (H3 := typed_hart _ _ _ _ T13). assert (P3 : k_proc s3 = k_proc s) by (by destruct T13 as (u & -> & _)).
    rewrite wakeup_ok by (rewrite ?H3, ?P3; done). eexists. split; [done|].
    exists (commit_line (typein (byte.of_Z c1) c0)). split; [done|]. split; [by rewrite Ed, Ecm, Een|].
    exists s3. rewrite Ee. split; [exact T13|]. rewrite bool_decide_false; [|rewrite Ecm; intros Hbad; apply (f_equal length) in Hbad; fold c0 in Hbad; rewrite !length_app in Hbad; simpl in Hbad; lia].
    rewrite H3. by rewrite (set_hart_settled s3) by (rewrite H3; done).
  - exists s2. split; [done|]. apply (edited_same (typein (byte.of_Z c1) c0)); [|done|by rewrite Ed, Ec, Eed|by rewrite Ee].
    apply Hok. intros Hx. apply (f_equal byte.unsigned) in Hx. rewrite byte.unsigned_of_Z in Hx. unfold byte.wrap in Hx.
    rewrite Z.mod_small in Hx by lia. unfold commits in Ecc. rewrite Hx in Ecc. done.
Qed.

End Branches.

(** C28: each character from the keyboard acts on the ready input and the line
    that is being edited as [edit] says, with its echo on the screen: it is
    added at the end, the line becomes ready at a newline, at ^D and when the
    buffer is full, ^H and delete take the last character of the line back, ^U
    all of it, and nothing that is ready is lost.  The counters stay in range
    and 128 characters at most are in the ring.  Readers are woken exactly when
    there is new input for them. *)
Theorem consoleintr_edits c (s : kstate fsys) :
  hart_ok (k_hart s) → LkCons ∉ h_held (k_hart s) → no_proc_lock (k_hart s) → shaped (k_proc s) →
  cons_ok (f_cons (k_fs s)) → 0 ≤ c < 256 → c ≠ CTRL_P →
  (3 * Z.to_nat INPUT_BUF ≤ idles (u_lsr (f_uart (k_fs s))))%nat →
  ∃ s', consoleintr c s = Ok tt s' ∧ cons_ok (f_cons (k_fs s')) ∧
    cons_state s' = edit c (cons_state s) ∧
    u_thr (f_uart (k_fs s')) = edit_echo c (cons_state s) ++ u_thr (f_uart (k_fs s)) ∧
    k_mach s' = k_mach s ∧ k_hart s' = settle (k_hart s) ∧
    k_proc s' = if bool_decide ((cons_state s').1 = (cons_state s).1) then k_proc s
                else imap (wake_proc (h_thread (k_hart s)) (Some ChCons)) (k_proc s).
Proof.
  intros Hh Hl Hnp Hsh Hc Hr Hp Hi. rewrite consoleintr_body, (bind_Ok _ _ _ _ _ (acquire_ok LkCons s Hl)).
  set (s0 := s <| k_hart ::= locked LkCons |>).
  assert (Hh0 : hart_ok (k_hart s0)) by (by apply locked_ok).
  assert (Hne0 : h_held (k_hart s0) ≠ []) by (unfold s0; rproj; by rewrite locked_held).
  assert (Hnp0 : no_proc_lock (k_hart s0)) by (intros i; unfold s0; rproj; rewrite locked_held; specialize (Hnp i); set_solver).
  destruct (cons_lengths _ Hc) as [Ht _]. pose proof (ck_len _ Hc) as Hle.
  assert (Hb : ∃ s1, intr_body c s0 = Ok tt s1 ∧ edited c s0 s1).
  { destruct (decide (c = CTRL_U)); [apply kill_line_edits; try done; unfold INPUT_BUF in *; change (k_fs s0) with (k_fs s); lia|].
    destruct ((c =? CTRL_H) || (c =? 0x7f)) eqn:Eh; [apply rubout_edits; try done; unfold INPUT_BUF in *; change (k_fs s0) with (k_fs s); lia|].
    apply typein_edits; try done. unfold INPUT_BUF in *. change (k_fs s0) with (k_fs s). lia. }
  destruct Hb as (s1 & E1 & c' & Hc' & Est & s2 & (u & -> & Hthr & _) & ->). rewrite (bind_Ok _ _ _ _ _ E1).
  destruct s as [m ps ip np nt bs h tk fi fs]. unfold s0. kred. rewrite release_locked by done. eexists. split; [done|].
  unfold cons_state in *. kred. rproj. by split_and!.
Qed.
End Intr.

(** ** Printing numbers *)

Definition digit_val (d : Z) : Z := if d <=? 57 then d - 48 else d - 87.
(** the number that the digits write, last digit first *)
Fixpoint digits_val (base : Z) (ds : list Z) : Z :=
  match ds with [] => 0 | d :: ds' => digit_val d + base * digits_val base ds' end.
(** the number that the characters write, with a sign or without *)
Definition read_number (base : Z) (cs : list Z) : Z :=
  match cs with
  | c :: cs' => if c =? 45 then - digits_val base (reverse cs') else digits_val base (reverse cs)
  | [] => 0
  end.

Lemma digit_at k : 0 ≤ k < 16 → digit_val (digits !!! Z.to_nat k) = k ∧ digits !!! Z.to_nat k ≠ 45.
Proof.
  intros Hk. assert (Hn : ∃ n, k = Z.of_nat n ∧ (n < 16)%nat) by (exists (Z.to_nat k); lia).
  destruct Hn as (n & -> & Hn). rewrite Nat2Z.id. by do 16 (destruct n as [|n]; [by vm_compute|]); lia.
Qed.

Lemma printint_digits_ok base : 2 ≤ base ≤ 16 → ∀ n x, 0 ≤ x < base ^ Z.of_nat (S n) →
  let ds := printint_digits (S n) x base in
  digits_val base ds = x ∧ (0 < length ds ≤ S n)%nat ∧ 45 ∉ ds ∧
  ∀ fuel, (S n ≤ fuel)%nat → printint_digits fuel x base = ds.
Proof.
  intros Hb. induction n as [|n IH]; intros x Hx ds; unfold ds; clear ds.
  - destruct (digit_at x) as [Hv H45]; [change (Z.of_nat 1) with 1 in Hx; lia|]. change (Z.of_nat 1) with 1 in Hx. rewrite Z.pow_1_r in Hx.
    assert (Hq : x / base = 0) by (by apply Z.div_small). assert (Hm : x mod base = x) by (by apply Z.mod_small).
    assert (E : ∀ f, printint_digits (S f) x base = [digits !!! Z.to_nat x]) by (intros f; cbn [printint_digits]; by rewrite Hq, Hm).
    rewrite E. split_and!; simpl; [lia|lia|lia|set_solver|]. intros [|f] Hf; [lia|apply E].
  - rewrite Nat2Z.inj_succ, Z.pow_succ_r in Hx by lia. pose proof (Z.mod_pos_bound x base ltac:(lia)) as Hm.
    pose proof (Z.div_mod x base ltac:(lia)) as Hdm.
    assert (Hq : 0 ≤ x / base < base ^ Z.of_nat (S n)) by (split; [apply Z.div_pos; lia|apply Z.div_lt_upper_bound; lia]).
    destruct (IH (x / base) Hq) as (Hv & Hl & H45 & Hf). destruct (digit_at (x mod base)) as [Hd Hd45]; [lia|].
    remember (S n) as n' eqn:En'. cbn [printint_digits]. destruct (Z.eqb_spec (x / base) 0) as [H0|H0].
    + split_and!; simpl; [lia|lia|lia|set_solver|]. intros [|f] Hf'; [lia|]. cbn [printint_digits]. by rewrite H0.
    + split_and!; simpl; [rewrite Hv; lia|lia|lia|set_solver|]. intros [|f] Hf'; [lia|]. cbn [printint_digits].
      rewrite (proj2 (Z.eqb_neq _ _)) by done. f_equal. apply Hf. lia.
Qed.

Lemma read_printed base ds (neg : bool) : 45 ∉ ds → (0 < length ds)%nat →
  read_number base (reverse (ds ++ if neg then [45] else [])) = if neg then - digits_val base ds else digits_val base ds.
Proof.
  intros Hds Hlen. destruct neg.
  - rewrite reverse_app. change (reverse [45]) with [45]. unfold read_number. cbn [app]. by rewrite Z.eqb_refl, reverse_involutive.
  - rewrite app_nil_r. unfold read_number. destruct (reverse ds) as [|d l'] eqn:Er.
    { rewrite <- length_reverse, Er in Hlen. simpl in Hlen. lia. }
    rewrite (proj2 (Z.eqb_neq d 45)), <- Er, reverse_involutive; [done|]. intros ->.
    apply Hds. rewrite <- elem_of_reverse, Er. apply list_elem_of_here.
Qed.

(** C29: the loop of [printint] ends within ten rounds for every 32-bit number in
    base 10 or 16, more rounds do not change it, its buffer of 16 characters is
    never overrun, and what is printed reads as the number. *)
Theorem printint_prints xx base sign : - 2 ^ 31 ≤ xx < 2 ^ 31 → base = 10 ∨ base = 16 →
  let neg := sign && (xx <? 0) in
  let x := if neg then u32 (- xx) else u32 xx in
  (∀ fuel, (10 ≤ fuel)%nat → printint_digits fuel x base = printint_digits 32 x base) ∧
  (length (printint_buf xx base sign) ≤ 11)%nat ∧
  read_number base (reverse (printint_buf xx base sign)) = if sign then xx else u32 xx.
Proof.
  intros Hxx Hb neg x. assert (Hx : 0 ≤ x < 2 ^ 32) by (unfold x; destruct neg; apply u32_range).
  assert (H10 : x < base ^ Z.of_nat 10) by (destruct Hb as [-> | ->]; lia).
  destruct (printint_digits_ok base ltac:(lia) 9 x (conj (proj1 Hx) H10)) as (Hv & Hl & H45 & Hf).
  assert (E := Hf 32%nat ltac:(lia)).
  change (printint_buf xx base sign) with (printint_digits 32 x base ++ if neg then [45] else []).
  rewrite E. set (ds := printint_digits 10 x base) in *. clearbody ds.
  split_and!; [exact Hf|rewrite length_app; destruct neg; simpl; lia|].
  rewrite read_printed, Hv by (done || lia). unfold x. destruct sign; [|done]. unfold u32.
  unfold neg. simpl. destruct (Z.ltb_spec xx 0); rewrite Z.mod_small; lia.
Qed.

(** ** A keystroke *)
Module Demo.
Import Sched.Running.

(** an empty console, and a device that is always idle *)
Definition idle_fs : fsys := (power_on ∅) <| f_uart := mkUart (replicate 32 x00) 0 0 (replicate 384 LSR_TX_IDLE) [] [] |>.
Definition at_console : kstate fsys :=
  mkKstate (mkMachine ∅ 0) (replicate NPROC (the_proc (the_thread :: replicate (pred NTHREAD) (sleeper ChCons)))) None 2 2 [] the_hart 0 true idle_fs.

Lemma consoleintr_edits_witness : ∃ s', consoleintr 13 at_console = Ok tt s' ∧ cons_state s' = ([x0a], []).
Proof.
  assert (Hheld : h_held (k_hart at_console) = []) by reflexivity.
  destruct (consoleintr_edits 13 at_console) as (s' & Hrun & _ & Hst & _).
  - split; [reflexivity|rewrite Hheld; constructor|rewrite Hheld; congruence].
  - rewrite Hheld. apply not_elem_of_nil.
  - intros i. rewrite Hheld. apply not_elem_of_nil.
  - split; [reflexivity|]. by intros i p [-> _]%lookup_replicate.
  - split; vm_compute; try done; try (split; congruence). apply not_elem_of_nil.
  - lia.
  - discriminate.
  - vm_compute. lia.
  - exists s'. split; [exact Hrun|]. rewrite Hst. vm_compute. reflexivity.
Defined.

Lemma printint_prints_witness : read_number 10 (reverse (printint_buf (-42) 10 true)) = -42.
Proof. exact (proj2 (proj2 (printint_prints (-42) 10 true ltac:(lia) ltac:(by left)))). Defined.
End Demo.
