(* ===== verification/File.v ===== *)
(** * Open files and pipes (src/kernel/file.c, pipe.c)

    [fs_call] runs file-system code in the kernel: its sleeps and wake-ups are
    those of proc.c, on behalf of the running thread.  A [struct file *] or
    [struct inode *] of the process table is an index in its table plus one, so
    that zero is the null pointer.  A pipe is named by the address of its page;
    its fields are in [f_pipes] as long as the page is allocated. *)

From S2P Require Import Prelude Mem Riscv Kalloc Vm Kstate Spinlock Proc Process.
From S2P Require Import FsState Bio Log Fs Console.

Section File.
Context `{KernelSymbols}.

(** ** File-system code in the kernel *)

Definition fs_event (e : fsevent) : FK unit :=
  match e with
  | EvSleep ch lk => acquire lk ;;; sleep ch lk ;;; release lk
  | EvWakeup ch => wakeup (Some ch)
  | EvDisk _ => ret tt
  end.

(** the running thread; before the first process there is none, and the code
    that runs then does not use it *)
Definition caller (fuel : nat) (s : kstate fsys) : Caller :=
  let p := match h_proc (k_hart s) with Some i => k_proc s !!! i | None => inhabitant end in
  let t := match h_thread (k_hart s) with
           | Some (i, j) => p_threads (k_proc s !!! i) !!! j
           | None => inhabitant
           end in
  {| my_tid := t_id t; my_pagetable := p_pagetable p; my_cwd := Z.to_nat (p_cwd p - 1); patience := fuel |}.

Definition fs_call (fuel : nat) {A} (m : Caller → FM A) : FK A := λ s,
  zoom (λ s, mkWorld (k_mach s) (k_fs s)) (λ w s, s <| k_mach := w_mach w |> <| k_fs := w_fs w |>)
    fs_event (m (caller fuel s)) s.

Definition ptr (k : nat) : Z := Z.of_nat k + 1.
Definition idx (p : Z) : nat := Z.to_nat (p - 1).
Definition ptr_opt (k : option nat) : Z := match k with Some k => ptr k | None => 0 end.

Definition getfile (f : Z) : FK file := kf (λ s, f_ftable s !!! idx f).
Definition setfile (f : Z) (g : file → file) : FK unit := setkf (λ s, s <| f_ftable ::= alter g (idx f) |>).
Definition getpipe (pi : Z) : FK pipe :=
  let* p := kf (λ s, f_pipes s !! pi) in
  match p with Some p => ret p | None => out_of_bounds end.
Definition setpipe (pi : Z) (g : pipe → pipe) : FK unit := setkf (λ s, s <| f_pipes ::= alter g pi |>).

(** ** pipe.c *)

Definition pipeclose (pi : Z) (writable : bool) : FK unit :=
  acquire (LkPipe pi) ;;;
  (if writable then
     setpipe pi (λ p, p <| pi_writeopen := 0 |>) ;;;
     wakeup (Some (ChPipeR pi))
   else
     setpipe pi (λ p, p <| pi_readopen := 0 |>) ;;;
     wakeup (Some (ChPipeW pi))) ;;;
  let* p := getpipe pi in
  if (pi_readopen p =? 0) && (pi_writeopen p =? 0) then
    release (LkPipe pi) ;;;
    mach (kfree pi) ;;;
    setkf (λ s, s <| f_pipes ::= delete pi |>)
  else release (LkPipe pi).

(** one round of the loop [while(i < n)] of [pipewrite] *)
Definition pipewrite_body (pi addr n : Z) (pr : nat) (i : Z) : FK (Z + Z) :=
  if negb (i <? n) then
    wakeup (Some (ChPipeR pi)) ;;;
    release (LkPipe pi) ;;;
    ret (inr i)
  else
  let* p := getpipe pi in
  let* q := getp pr in
  if (pi_readopen p =? 0) || negb (p_killed q =? 0) then
    release (LkPipe pi) ;;;
    ret (inr (-1))
  else if pi_nwrite p =? u32 (pi_nread p + PIPESIZE) then
    wakeup (Some (ChPipeR pi)) ;;;
    sleep (ChPipeW pi) (LkPipe pi) ;;;
    ret (inl i)
  else
    let* '(r, bs) := mach (copyin (p_pagetable q) (u64 (addr + i)) 1) in
    if r =? -1 then
      wakeup (Some (ChPipeR pi)) ;;;
      release (LkPipe pi) ;;;
      ret (inr i)
    else
      setpipe pi (λ p, p <| pi_data ::= <[Z.to_nat (pi_nwrite p mod PIPESIZE) := hd x00 bs]> |>
                         <| pi_nwrite ::= λ w, u32 (w + 1) |>) ;;;
      ret (inl (i + 1)).

(** fuel: one round per byte, and those that end in [sleep] *)
Definition pipewrite (fuel : nat) (pi addr n : Z) : FK Z :=
  let* pr := myproc' in
  acquire (LkPipe pi) ;;;
  iterate (S (Z.to_nat n) + fuel) (pipewrite_body pi addr n pr) 0.

(** the loop [while(pi->nread == pi->nwrite && pi->writeopen)] of [piperead]:
    false when the process is killed *)
Definition piperead_wait (fuel : nat) (pi : Z) (pr : nat) : FK bool :=
  iterate fuel (λ _,
    let* p := getpipe pi in
    if (pi_nread p =? pi_nwrite p) && negb (pi_writeopen p =? 0) then
      let* q := getp pr in
      if negb (p_killed q =? 0) then ret (inr false)
      else sleep (ChPipeR pi) (LkPipe pi) ;;; ret (inl tt)
    else ret (inr true)) tt.

(** one round of the loop [for(i = 0; i < n; i++)] of [piperead] *)
Definition piperead_body (pi addr n : Z) (pr : nat) (i : Z) : FK (Z + Z) :=
  if negb (i <? n) then ret (inr i) else
  let* p := getpipe pi in
  if pi_nread p =? pi_nwrite p then ret (inr i) else
  let ch := pi_data p !!! Z.to_nat (pi_nread p mod PIPESIZE) in
  setpipe pi (λ p, p <| pi_nread ::= λ r, u32 (r + 1) |>) ;;;
  let* q := getp pr in
  let* r := mach (copyout (p_pagetable q) (u64 (addr + i)) [ch]) in
  if r =? -1 then ret (inr i) else ret (inl (i + 1)).

Definition piperead (fuel : nat) (pi addr n : Z) : FK Z :=
  let* pr := myproc' in
  acquire (LkPipe pi) ;;;
  let* live := piperead_wait fuel pi pr in
  if negb live then
    release (LkPipe pi) ;;; ret (-1)
  else
  let* i := iterate (S (Z.to_nat n)) (piperead_body pi addr n pr) 0 in
  wakeup (Some (ChPipeW pi)) ;;;
  release (LkPipe pi) ;;;
  ret i.

(** ** file.c *)

Definition filealloc : FK Z :=
  let* r := for_until (seq 0 NFILE) (λ k,
    let* f := getfile (ptr k) in
    if f_ref f =? 0 then
      setfile (ptr k) (λ f, f <| f_ref := 1 |>) ;;; ret (Some (ptr k))
    else ret None) in
  ret (default 0 r).

Definition filedup (f : Z) : FK Z :=
  let* ff := getfile f in
  if f_ref ff <? 1 then panic "filedup" else
  setfile f (λ f, f <| f_ref ::= λ r, r + 1 |>) ;;;
  ret f.

Definition fileclose (fuel : nat) (f : Z) : FK unit :=
  let* ff := getfile f in
  if f_ref ff <? 1 then panic "fileclose" else
  setfile f (λ f, f <| f_ref ::= λ r, r - 1 |>) ;;;
  let* ff := getfile f in
  if 0 <? f_ref ff then ret tt else
  setfile f (λ f, f <| f_ref := 0 |> <| f_type := FD_NONE |>) ;;;
  match f_type ff with
  | FD_PIPE => pipeclose (f_pipe ff) (f_writable ff)
  | FD_INODE | FD_DEVICE =>
      fs_call fuel (λ _, begin_op) ;;;
      fs_call fuel (λ _, iput (f_ip ff)) ;;;
      fs_call fuel (λ _, end_op)
  | FD_NONE => ret tt
  end.

(** [st0] is the content of the variable [st] before it is filled in *)
Definition filestat (fuel : nat) (st0 : list byte) (f addr : Z) : FK Z :=
  let* i := myproc' in
  let* ff := getfile f in
  match f_type ff with
  | FD_INODE | FD_DEVICE =>
      fs_call fuel (λ _, ilock (f_ip ff)) ;;;
      let* ip := kf (λ s, f_itable s !!! f_ip ff) in
      fs_call fuel (λ _, iunlock (f_ip ff)) ;;;
      let* p := getp i in
      let* r := mach (copyout (p_pagetable p) addr (stati ip st0)) in
      if r <? 0 then ret (-1) else ret 0
  | _ => ret (-1)
  end.

(** the function of a device in devsw[] *)
Definition device_of (major : Z) : FK (option device) :=
  if (major <? 0) || (NDEV <=? major) then ret None else kf (λ s, f_devsw s !! major).

Definition fileread (fuel : nat) (f addr n : Z) : FK Z :=
  let* ff := getfile f in
  if negb (f_readable ff) then ret (-1) else
  match f_type ff with
  | FD_PIPE => piperead fuel (f_pipe ff) addr n
  | FD_DEVICE =>
      let* d := device_of (f_major ff) in
      match d with
      | None => ret (-1)
      | Some DevConsole => consoleread fuel true addr n
      end
  | FD_INODE =>
      fs_call fuel (λ _, ilock (f_ip ff)) ;;;
      let* off := (let* ff := getfile f in ret (f_off ff)) in
      let* '(r, _) := fs_call fuel (λ _, readi (f_ip ff) (DUser addr) off (u32 n)) in
      when (0 <? r) (setfile f (λ f, f <| f_off ::= λ o, u32 (o + r) |>)) ;;;
      fs_call fuel (λ _, iunlock (f_ip ff)) ;;;
      ret r
  | FD_NONE => panic "fileread"
  end.

(** the most that one transaction writes *)
Definition filewrite_max : Z := ((MAXOPBLOCKS - 1 - 1 - 2) / 2) * BSIZE.

(** one round of the loop [while(i < n)]: [inr] is the value of [i] after it *)
Definition filewrite_body (fuel : nat) (f addr n i : Z) : FK (Z + Z) :=
  if negb (i <? n) then ret (inr i) else
  let n1 := if filewrite_max <? n - i then filewrite_max else n - i in
  let* ff := getfile f in
  fs_call fuel (λ _, begin_op) ;;;
  fs_call fuel (λ _, ilock (f_ip ff)) ;;;
  let* off := (let* ff := getfile f in ret (f_off ff)) in
  let* r := fs_call fuel (λ _, writei (f_ip ff) (SUser (u64 (addr + i))) off (u32 n1)) in
  when (0 <? r) (setfile f (λ f, f <| f_off ::= λ o, u32 (o + r) |>)) ;;;
  fs_call fuel (λ _, iunlock (f_ip ff)) ;;;
  fs_call fuel (λ _, end_op) ;;;
  if negb (r =? n1) then ret (inr i) else ret (inl (i + r)).

Definition filewrite (fuel : nat) (f addr n : Z) : FK Z :=
  let* ff := getfile f in
  if negb (f_writable ff) then ret (-1) else
  match f_type ff with
  | FD_PIPE => pipewrite fuel (f_pipe ff) addr n
  | FD_DEVICE =>
      let* d := device_of (f_major ff) in
      match d with
      | None => ret (-1)
      | Some DevConsole => consolewrite fuel true addr n
      end
  | FD_INODE =>
      let* i := iterate (Z.to_nat (n / filewrite_max + 2)) (filewrite_body fuel f addr n) 0 in
      ret (if i =? n then n else -1)
  | FD_NONE => panic "filewrite"
  end.

(** ** pipealloc (pipe.c) *)

(** [kalloc] has filled the page with 5 *)
Definition new_pipe : pipe := mkPipe (replicate (Z.to_nat PIPESIZE) x05) 0 0 1 1.

(** the result, and *f0 and *f1 *)
Definition pipealloc (fuel : nat) : FK (Z * Z * Z) :=
  let bad f0 f1 :=
    when (negb (f0 =? 0)) (fileclose fuel f0) ;;;
    when (negb (f1 =? 0)) (fileclose fuel f1) ;;;
    ret (-1, f0, f1) in
  let* f0 := filealloc in
  if f0 =? 0 then bad f0 0 else
  let* f1 := filealloc in
  if f1 =? 0 then bad f0 f1 else
  let* pi := mach kalloc in
  if pi =? 0 then bad f0 f1 else
  setkf (λ s, s <| f_pipes ::= <[pi := new_pipe]> |>) ;;;
  setfile f0 (λ f, f <| f_type := FD_PIPE |> <| f_readable := true |> <| f_writable := false |> <| f_pipe := pi |>) ;;;
  setfile f1 (λ f, f <| f_type := FD_PIPE |> <| f_readable := false |> <| f_writable := true |> <| f_pipe := pi |>) ;;;
  ret (0, f0, f1).

(** ** What the process layer uses *)

#[export] Instance fsys_FileSys (fuel : nat) : FileSys fsys := {|
  Proc.filedup := filedup;
  Proc.fileclose := fileclose fuel;
  Proc.idup ip := fs_call fuel (λ _, let* k := idup (idx ip) in ret (ptr k));
  Proc.iput ip := fs_call fuel (λ _, iput (idx ip));
  Proc.namei path := fs_call fuel (λ _, let* k := namei path in ret (ptr_opt k));
  Proc.fsinit dev := fs_call fuel (λ _, fsinit dev);
  Proc.begin_op := fs_call fuel (λ _, begin_op);
  Proc.end_op := fs_call fuel (λ _, end_op)
|}.
End File.
