(* ===== verification/PipeSpec.v ===== *)
(** * Pipes are queues (src/kernel/pipe.c)

    The ring buffer of a pipe with its wrapping 32-bit counters is a queue of
    at most PIPESIZE bytes; [pipewrite] appends to it and [piperead] takes
    from it, in order, sleeping when it is full or empty. *)

From S2P Require Import Prelude Ring Mem Riscv Kalloc Vm Uvm Pagetable VmSpec Kstate Spinlock Proc Sched ProcMem Process.
From S2P Require Import ProcAlloc ProcSpec Growproc FsState Bio Log LogCrash Fs Console File.

(** ** The queue in the ring *)

Definition pipe_len (p : pipe) : Z := ring_len (pi_nread p) (pi_nwrite p).
Definition pipe_queue (p : pipe) : list byte := ring_queue PIPESIZE (pi_data p) (pi_nread p) (pi_nwrite p).

Record pipe_ok (p : pipe) : Prop := {
  pk_data : length (pi_data p) = Z.to_nat PIPESIZE;
  pk_read : 0 ≤ pi_nread p < 2 ^ 32;
  pk_write : 0 ≤ pi_nwrite p < 2 ^ 32;
  pk_len : pipe_len p ≤ PIPESIZE
}.

Definition push (c : byte) (p : pipe) : pipe :=
  p <| pi_data ::= <[Z.to_nat (pi_nwrite p mod PIPESIZE) := c]> |> <| pi_nwrite ::= λ w, u32 (w + 1) |>.
Definition pop (p : pipe) : pipe := p <| pi_nread ::= λ r, u32 (r + 1) |>.

Lemma PIPESIZE_pos : 0 < PIPESIZE. Proof. done. Qed.
Lemma PIPESIZE_div : (PIPESIZE | 2 ^ 32). Proof. by exists (2 ^ 23). Qed.
#[local] Hint Resolve PIPESIZE_pos PIPESIZE_div : core.

Lemma length_queue p : Z.of_nat (length (pipe_queue p)) = pipe_len p.
Proof. apply length_ring. Qed.

(** the tests of the code *)
Lemma full_test p : pipe_ok p → (pi_nwrite p =? u32 (pi_nread p + PIPESIZE)) = (pipe_len p =? PIPESIZE).
Proof. intros [_ Hr Hw _]. by apply ring_full_test. Qed.
Lemma empty_test p : pipe_ok p → (pi_nread p =? pi_nwrite p) = (pipe_len p =? 0).
Proof. intros [_ Hr Hw _]. by apply ring_empty_test. Qed.

Lemma push_ok p c : pipe_ok p → pipe_len p < PIPESIZE → pipe_ok (push c p).
Proof.
  intros [Hd Hr Hw _] Hl. split; cbn; [by rewrite length_insert|done|apply u32_range|].
  unfold pipe_len in *. cbn. unfold PIPESIZE in *. rewrite ring_len_inc by lia. lia.
Qed.
Lemma pop_ok p : pipe_ok p → 0 < pipe_len p → pipe_ok (pop p).
Proof.
  intros [Hd Hr Hw Hle] Hl. split; cbn; [done|apply u32_range|done|].
  unfold pipe_len in *. cbn. rewrite ring_len_pop by done. lia.
Qed.

Lemma push_queue p c : pipe_ok p → pipe_len p < PIPESIZE → pipe_queue (push c p) = pipe_queue p ++ [c].
Proof. intros Hp Hl. apply ring_push; [done|done|apply Hp|done|done]. Qed.
Lemma pop_queue p : pipe_ok p → 0 < pipe_len p →
  pipe_queue p = pi_data p !!! Z.to_nat (pi_nread p mod PIPESIZE) :: pipe_queue (pop p).
Proof. intros _ Hl. by apply ring_pop. Qed.

(** ** Writing *)

(** what a thread that uses the pipe finds: the pipe, and memory of its process *)
Record pipe_env `{KernelSymbols} (pi : Z) (pr : nat) (p : pipe) (s : kstate fsys) : Prop := {
  pe_pipe : f_pipes (k_fs s) !! pi = Some p;
  pe_ok : pipe_ok p;
  pe_mem : ∃ free, kmem_ok (k_mach s) free ∧ uvm_ok (ram (k_mach s)) (p_pagetable (k_proc s !!! pr)) free
}.

(** a thread that is resumed clears its channel: nothing else of a process changes *)
Lemma resumed_fields i ti tj (s : kstate fsys) j : resumed i ti tj s →
  let ps := set_thread ti tj (λ t, t <| t_chan := None |>) (k_proc s) in
  p_pagetable (ps !!! j) = p_pagetable (k_proc s !!! j) ∧ p_killed (ps !!! j) = p_killed (k_proc s !!! j).
Proof.
  intros (h0 & _ & Hr0). cbv zeta. unfold set_thread. rewrite lookup_total_alter; [by case_decide|].
  destruct (tr_shaped _ _ _ _ Hr0) as [Hl _]. change (length (k_proc s) = NPROC) in Hl. rewrite Hl. apply Hr0.
Qed.

(** the end of an operation on the pipe: [wakeup] and [release] *)
Lemma wake_release {A} pi ch (s : kstate fsys) i ti tj (k : FK A) :
  thread_runs s i ti tj →
  (wakeup (Some ch) ;;; release (LkPipe pi) ;;; k) (s <| k_hart ::= locked (LkPipe pi) |>) =
    k (s <| k_proc ::= imap (wake_proc (Some (ti, tj)) (Some ch)) |> <| k_hart ::= settle |>).
Proof.
  intros [[Hh Hheld Hp Ht] Hsh Hsl Htp]. destruct s as [m ps ip np nt bs h tk fi fs]. simpl in *. kred.
  erewrite bind_Ok; [|apply wakeup_ok; kred; [hart|intros j; hart|done]]. kred. rewrite settle_locked by done.
  change (h_thread (locked (LkPipe pi) h)) with (h_thread h). rewrite Ht. by rewrite bind_release by hart.
Qed.

(** and its start *)
Lemma enter_pipe {A} pi (k : nat → FK A) (s : kstate fsys) i ti tj :
  thread_runs s i ti tj →
  (let* pr := myproc' in acquire (LkPipe pi) ;;; k pr) s = k i (s <| k_hart ::= settle |> <| k_hart ::= locked (LkPipe pi) |>).
Proof.
  intros [[Hh Hheld Hp Ht] _ _ _]. destruct s as [m ps ip np nt bs h tk fi fs]. simpl in *.
  rewrite (bind_myproc' _ _ _ _ _ _ _ _ _ _ Hh _ i Hp). by rewrite bind_acquire by hart.
Qed.

Lemma bind_getpipe {A} pi p (k : pipe → FK A) s : f_pipes (k_fs s) !! pi = Some p → bind (getpipe pi) k s = k p s.
Proof. intros Hp. unfold getpipe, kf. unfold bind at 1 2, gets. simpl. by rewrite Hp. Qed.

Section Write.
Context `{KernelSymbols} (pi addr n : Z) (pr ti tj : nat).
Context (Haddr : 0 ≤ addr) (Hn : addr + n < 2 ^ 64).

Abbreviation umem s := (ubyte (ram (k_mach s)) (p_pagetable (k_proc s !!! pr))).

(** between [s] and [s'] the bytes [bs] at [addr + i] went into the pipe *)
Definition appended (i : Z) (p : pipe) (s s' : kstate fsys) (bs : list byte) : Prop :=
  k_mach s' = k_mach s ∧
  user_bytes (ram (k_mach s)) (p_pagetable (k_proc s !!! pr)) (addr + i) bs ∧
  ∃ p', f_pipes (k_fs s') !! pi = Some p' ∧ pipe_ok p' ∧ pipe_queue p' = pipe_queue p ++ bs ∧
    pi_readopen p' = pi_readopen p ∧ pi_writeopen p' = pi_writeopen p.

(** The run [r] of the writer from state [s], where it has [i] bytes written:
    it returns, or it sleeps when the pipe is full; [m] bounds how often it is
    resumed. *)
Fixpoint writes (m : nat) (i : Z) (p : pipe) (s : kstate fsys) (r : run kevent (kstate fsys) Z) : Prop :=
  match r with
  | Ok v s' => thread_runs s' pr ti tj ∧ ∃ bs, appended i p s s' bs ∧
      if (i <? n) && ((pi_readopen p =? 0) || negb (p_killed (k_proc s !!! pr) =? 0))
      then v = -1 ∧ bs = []
      else v = i + Z.of_nat (length bs) ∧ v ≤ Z.max i n ∧ (n ≤ v ∨ umem s (addr + v) = None) ∧
           none_sleeps (ChPipeR pi) (ti, tj) (k_proc s')
  | Event e s1 k =>
      e = EvSched ∧ pi_readopen p ≠ 0 ∧ p_killed (k_proc s !!! pr) = 0 ∧
      h_held (k_hart s1) = [LkProc pr] ∧ none_sleeps (ChPipeR pi) (ti, tj) (k_proc s1) ∧
      t_state (p_threads (k_proc s1 !!! ti) !!! tj) = SLEEPING ∧
      t_chan (p_threads (k_proc s1 !!! ti) !!! tj) = Some (ChPipeW pi) ∧
      ∃ bs, appended i p s s1 bs ∧ i + Z.of_nat (length bs) < n ∧
        Z.of_nat (length (pipe_queue p ++ bs)) = PIPESIZE ∧
        match m with
        | O => True
        | S m' => ∀ p2 s2, resumed pr ti tj s2 → pipe_env pi pr p2 s2 → writes m' (i + Z.of_nat (length bs)) p2 s2 (k s2)
        end
  | _ => False
  end.

Lemma appended_nil i p s s' : pipe_ok p → k_mach s' = k_mach s → f_pipes (k_fs s') !! pi = Some p → appended i p s s' [].
Proof.
  intros Hp Em Hpi. split_and!; [done|intros k Hk; simpl in Hk; lia|]. exists p. split_and!; try done. by rewrite app_nil_r.
Qed.

Lemma appended_cons i p s s1 s' c bs :
  pipe_ok p → pipe_len p < PIPESIZE → umem s (addr + i) = Some c → k_mach s1 = k_mach s → k_proc s1 = k_proc s →
  appended (i + 1) (push c p) s1 s' bs → appended i p s s' (c :: bs).
Proof.
  intros Hp Hl Hc Em Eps (Em' & Hub & p' & Hpi & Hok & Hq & Hr & Hw). split_and!.
  - by rewrite Em', Em.
  - change (c :: bs) with ([c] ++ bs). apply user_bytes_app.
    + intros [|k] Hk; [|simpl in Hk; lia]. by rewrite Z.add_0_r.
    + rewrite Em, Eps, Z.add_assoc in Hub. exact Hub.
  - exists p'. rewrite push_queue, <- app_assoc in Hq by done. done.
Qed.

(** one more byte in front of a run *)
Lemma writes_cons m i p s s1 c r :
  pipe_ok p → pipe_len p < PIPESIZE → umem s (addr + i) = Some c → k_mach s1 = k_mach s → k_proc s1 = k_proc s →
  i < n → pi_readopen p ≠ 0 → p_killed (k_proc s !!! pr) = 0 →
  writes m (i + 1) (push c p) s1 r → writes m i p s r.
Proof.
  intros Hp Hl Hc Em Eps Hi Hro Hk.
  assert (Eg : ∀ j, (j <? n) && ((pi_readopen p =? 0) || negb (p_killed (k_proc s !!! pr) =? 0)) = false).
  { intros j. rewrite Hk. rewrite (proj2 (Z.eqb_neq _ _) Hro). by rewrite andb_false_r. }
  destruct m; (destruct r as [v s'| |e s2 k|]; cbn [writes]; [|done| |done]).
  1, 3: intros (Hr & bs & Happ & Hv); split; [done|]; exists (c :: bs); split; [by eapply appended_cons|].
  1, 2: change (pi_readopen (push c p)) with (pi_readopen p) in Hv; rewrite Eps, Em, Eg in Hv; rewrite Eg; simpl length;
    destruct Hv as (-> & Hv1 & Hv2 & Hv3); replace (i + 1 + Z.of_nat (length bs)) with (i + Z.of_nat (S (length bs))) in * by lia;
    (split_and!; [done|lia|done|done]).
  all: intros (He & Hr1 & Hk1 & Hh & Hns & Hst & Hch & bs & Happ & Hlt & Hfull & Hres); split_and!; [done..|].
  all: exists (c :: bs); rewrite push_queue, <- app_assoc in Hfull by done.
  all: split_and!; [by eapply appended_cons|simpl length; lia|done|].
  - done.
  - replace (i + Z.of_nat (length (c :: bs))) with (i + 1 + Z.of_nat (length bs)) by (simpl length; lia). done.
Qed.

Lemma copyin_byte (s : kstate fsys) p i : pipe_env pi pr p s → 0 ≤ i < n →
  ∃ r bs, copyin (E := Empty_set) (p_pagetable (k_proc s !!! pr)) (u64 (addr + i)) 1 (k_mach s) = Ok (r, bs) (k_mach s) ∧
    match umem s (addr + i) with Some c => r = 0 ∧ bs = [c] | None => r = -1 end.
Proof.
  intros [_ _ (free & Hk & Hu)] Hi. rewrite u64_small by lia.
  destruct (copyin_loop_ok (E := Empty_set) 1 (p_pagetable (k_proc s !!! pr)) (addr + i) 1 [] (k_mach s) free)
    as (r & bs & Hrun & Hb & Hcase); [lia|lia|done|lia|].
  exists r, bs. split; [exact Hrun|]. destruct Hcase as [[-> Hl]|(-> & Hl & Hno)].
  - destruct bs as [|c [|]]; try (simpl in Hl; lia). specialize (Hb O ltac:(simpl; lia)). rewrite Z.add_0_r in Hb. by rewrite Hb.
  - destruct bs; [|simpl in Hl; lia]. rewrite Z.add_0_r in Hno. by rewrite Hno.
Qed.

Abbreviation lk s := (s <| k_hart ::= locked (LkPipe pi) |>).
Abbreviation woken s := (s <| k_proc ::= imap (wake_proc (Some (ti, tj)) (Some (ChPipeR pi))) |>).
Abbreviation body := (pipewrite_body pi addr n pr).

(** the rounds of the loop *)
Lemma round_end i s : thread_runs s pr ti tj → n ≤ i → body i (lk s) = Ok (inr i) ((woken s) <| k_hart ::= settle |>).
Proof.
  intros Hr Hi. unfold pipewrite_body. rewrite (proj2 (Z.ltb_ge i n)) by done. cbn [negb].
  by rewrite (wake_release pi (ChPipeR pi) s pr ti tj _ Hr).
Qed.

Context (i : Z) (p : pipe) (s : kstate fsys).
Context (Hr : thread_runs s pr ti tj) (He : pipe_env pi pr p s) (Hi : 0 ≤ i < n).

Lemma round_start : body i (lk s) =
  (if (pi_readopen p =? 0) || negb (p_killed (k_proc s !!! pr) =? 0) then
    release (LkPipe pi) ;;; ret (inr (-1))
  else if pipe_len p =? PIPESIZE then
    wakeup (Some (ChPipeR pi)) ;;; sleep (ChPipeW pi) (LkPipe pi) ;;; ret (inl i)
  else
    let* '(r, bs) := mach (copyin (p_pagetable (k_proc s !!! pr)) (u64 (addr + i)) 1) in
    if r =? -1 then wakeup (Some (ChPipeR pi)) ;;; release (LkPipe pi) ;;; ret (inr i)
    else setpipe pi (push (hd x00 bs)) ;;; ret (inl (i + 1))) (lk s).
Proof.
  unfold pipewrite_body. rewrite (proj2 (Z.ltb_lt i n)) by lia. cbn [negb].
  rewrite (bind_getpipe _ p) by apply He. rewrite <- (full_test p) by apply He. reflexivity.
Qed.

Lemma round_dead : (pi_readopen p =? 0) || negb (p_killed (k_proc s !!! pr) =? 0) = true →
  body i (lk s) = Ok (inr (-1)) (s <| k_hart ::= settle |>).
Proof.
  intros Hd. rewrite round_start, Hd. destruct Hr as [[Hh Hheld _ _] _ _ _]. destruct s as [m ps ip np nt bs h tk fi fs].
  simpl in Hheld. kred. by rewrite bind_release by hart.
Qed.

Context (Halive : (pi_readopen p =? 0) || negb (p_killed (k_proc s !!! pr) =? 0) = false).

Lemma round_full : pipe_len p = PIPESIZE → ∃ b,
  body i (lk s) = Event EvSched
    ((woken s) <| k_proc ::= set_thread ti tj (λ t, t <| t_chan := Some (ChPipeW pi) |> <| t_state := SLEEPING |>) |>
             <| k_hart ::= λ h, locked (LkProc pr) (settle h) |>)
    (λ s2, run_bind (sleep_resume pr ti tj b (LkPipe pi) s2) (λ _, ret (inl i))).
Proof.
  intros Hf. rewrite round_start, Halive, Hf, Z.eqb_refl. assert (Hw := wake_runs (Some (ChPipeR pi)) s pr ti tj Hr).
  assert (Hr' := Hr). destruct Hr' as [[Hh Hheld Hp Ht] Hsh Hsl Htp].
  assert (Ewk : wakeup (Some (ChPipeR pi)) (lk s) = Ok tt (lk ((woken s) <| k_hart ::= settle |>))).
  { destruct s as [m ps ip np nt bs h tk fi fs]. simpl in *. kred.
    rewrite wakeup_ok; kred; [|hart|intros k; hart|done]. rewrite settle_locked by done. rewrite locked_settle.
    change (h_thread (locked (LkPipe pi) h)) with (h_thread h). by rewrite Ht. }
  rewrite (bind_Ok _ _ _ _ _ Ewk). rewrite Ht in Hw.
  assert (Hne : LkPipe pi ≠ LkProc pr) by discriminate.
  rewrite (bind_Event _ _ _ _ _ _ (sleep_sleeps (ChPipeW pi) (LkPipe pi) pr ti tj _ Hw Hne)). exists (h_intr (settle (k_hart s))). by destruct s.
Qed.

Context (Hfree : pipe_len p < PIPESIZE).

Lemma round_copy : body i (lk s) =
  match umem s (addr + i) with
  | Some c => Ok (inl (i + 1)) (lk (s <| k_fs ::= λ x, x <| f_pipes ::= alter (push c) pi |> |>))
  | None => Ok (inr i) ((woken s) <| k_hart ::= settle |>)
  end.
Proof.
  rewrite round_start, Halive, (proj2 (Z.eqb_neq _ _)) by lia.
  destruct (copyin_byte s p i He Hi) as (r & bs & Hc & Hb).
  assert (Hc' : mach (copyin (p_pagetable (k_proc s !!! pr)) (u64 (addr + i)) 1) (lk s) = Ok (r, bs) (lk s)).
  { apply mach_read. exact Hc. }
  rewrite (bind_Ok _ _ _ _ _ Hc'). destruct (umem s (addr + i)) as [c|].
  - destruct Hb as [-> ->]. cbv iota beta. by destruct s.
  - subst r. cbv iota beta. rewrite Z.eqb_refl.
    by rewrite (wake_release pi (ChPipeR pi) s pr ti tj _ Hr).
Qed.
End Write.

Section WriteLoop.
Context `{KernelSymbols} (pi addr n : Z) (pr ti tj : nat).
Context (Haddr : 0 ≤ addr) (Hn : addr + n < 2 ^ 64).

Abbreviation writes' := (writes pi addr n pr ti tj).
Abbreviation lk s := (s <| k_hart ::= locked (LkPipe pi) |>).

(** the run is judged from the state of memory and of the process *)
Lemma writes_ext m i p s s1 r :
  k_mach s1 = k_mach s → p_pagetable (k_proc s1 !!! pr) = p_pagetable (k_proc s !!! pr) →
  p_killed (k_proc s1 !!! pr) = p_killed (k_proc s !!! pr) → writes' m i p s1 r → writes' m i p s r.
Proof. intros Em Ep Ek. destruct m, r; cbn [writes]; unfold appended; rewrite ?Em, ?Ep, ?Ek; done. Qed.

Lemma writes_stop m i p s s' :
  pipe_env pi pr p s → thread_runs s' pr ti tj → k_mach s' = k_mach s → k_fs s' = k_fs s → 
  none_sleeps (ChPipeR pi) (ti, tj) (k_proc s') →
  n ≤ i ∨ (pi_readopen p =? 0) || negb (p_killed (k_proc s !!! pr) =? 0) = false ∧
    ubyte (ram (k_mach s)) (p_pagetable (k_proc s !!! pr)) (addr + i) = None →
  writes' m i p s (Ok i s').
Proof.
  intros He Hr Em Ef Hns Hcase. cut (writes' 0 i p s (Ok i s')); [by destruct m|]. split; [done|].
  exists []. split; [apply appended_nil; [apply He|done|rewrite Ef; apply He]|].
  assert (Eg : (i <? n) && ((pi_readopen p =? 0) || negb (p_killed (k_proc s !!! pr) =? 0)) = false).
  { destruct Hcase as [Hi|[-> _]]; [|apply andb_false_r]. by rewrite (proj2 (Z.ltb_ge i n)). }
  rewrite Eg. simpl. rewrite Z.add_0_r. split_and!; [done|lia| |done]. destruct Hcase as [?|[_ ?]]; [by left|by right].
Qed.

Abbreviation body := (pipewrite_body pi addr n pr).

(** a thread that wakes up in [pipewrite] *)
Lemma write_resume m f i b s2 :
  (∀ p2 s2, thread_runs s2 pr ti tj → pipe_env pi pr p2 s2 → writes' m i p2 s2 (iterate f body i (lk s2))) →
  ∀ p2, resumed pr ti tj s2 → pipe_env pi pr p2 s2 →
  writes' m i p2 s2 (run_bind (run_bind (sleep_resume pr ti tj b (LkPipe pi) s2) (λ _, ret (inl i)))
    (λ r, match r with inl a' => iterate f body a' | inr v => ret v end)).
Proof.
  intros Hnext p2 Hres He. destruct (sleep_resume_ok pr ti tj b (LkPipe pi) s2 Hres) as (h & Hrun & ->). cbn [run_bind].
  set (s3 := s2 <| k_proc ::= set_thread ti tj (λ t, t <| t_chan := None |>) |> <| k_hart := h |>) in *.
  destruct (resumed_fields pr ti tj s2 pr Hres) as [Hpt Hk].
  apply (writes_ext m i p2 s2 s3); [done..|].
  apply Hnext; [done|]. split; [apply He|apply He|]. unfold s3. rproj. rewrite Hpt. apply He.
Qed.

Lemma write_full m f i p s :
  thread_runs s pr ti tj → pipe_env pi pr p s → 0 ≤ i < n →
  (pi_readopen p =? 0) || negb (p_killed (k_proc s !!! pr) =? 0) = false → pipe_len p = PIPESIZE →
  match m with
  | O => True
  | S m' => ∀ p' s', thread_runs s' pr ti tj → pipe_env pi pr p' s' → writes' m' i p' s' (iterate f body i (lk s'))
  end →
  writes' m i p s (iterate (S f) body i (lk s)).
Proof.
  intros Hr He Hi Ea Hfull Hres. destruct (round_full pi addr n pr ti tj i p s Hr He Hi Ea Hfull) as [b Hb].
  rewrite (iterate_suspend _ _ _ _ _ _ _ Hb). apply orb_false_iff in Ea as [Ea1 Ea2].
  assert (Hsl : shaped (imap (wake_proc (Some (ti, tj)) (Some (ChPipeR pi))) (k_proc s))).
  { apply shaped_imap; [|apply Hr]. intros. apply wake_proc_threads. }
  destruct (tr_slot _ _ _ _ Hr) as [Hti Htj].
  assert (Hns : none_sleeps (ChPipeR pi) (ti, tj) (set_thread ti tj (λ t, t <| t_chan := Some (ChPipeW pi) |> <| t_state := SLEEPING |>)
    (imap (wake_proc (Some (ti, tj)) (Some (ChPipeR pi))) (k_proc s)))).
  { intros i' j' Hi' Hj' Hne. rewrite set_thread_other by done. by apply wake_none_sleeps; [apply Hr|..]. }
  destruct m; cbn [writes]; (split_and!; [done|lia|lia| |exact Hns|rproj; by rewrite set_thread_lookup|rproj; by rewrite set_thread_lookup|]).
  1, 3: destruct (tr_run _ _ _ _ Hr) as [_ Hheld _ _]; rproj; by rewrite locked_held, settle_held, Hheld.
  all: exists []; rewrite app_nil_r, length_queue; simpl length; rewrite Z.add_0_r.
  all: split_and!; [apply appended_nil; [apply He|done|apply He]|lia|done|].
  1: done.
  intros p2 s2 Hr2 He2. by apply write_resume.
Qed.

Lemma write_step m f i p s :
  thread_runs s pr ti tj → pipe_env pi pr p s → 0 ≤ i →
  (i < n → ∀ p' s', thread_runs s' pr ti tj → pipe_env pi pr p' s' → writes' m (i + 1) p' s' (iterate f body (i + 1) (lk s'))) →
  match m with
  | O => True
  | S m' => i < n → ∀ p' s', thread_runs s' pr ti tj → pipe_env pi pr p' s' → writes' m' i p' s' (iterate f body i (lk s'))
  end →
  writes' m i p s (iterate (S f) body i (lk s)).
Proof.
  intros Hr He Hi Hnext Hres. assert (Hsh := tr_shaped _ _ _ _ Hr). assert (Hw := wake_runs (Some (ChPipeR pi)) s pr ti tj Hr).
  rewrite (ro_thread _ _ _ _ (tr_run _ _ _ _ Hr)) in Hw.
  destruct (Z.lt_ge_cases i n) as [Hin|Hin].
  2: { rewrite (iterate_done _ _ _ _ _ _ (round_end pi addr n pr ti tj i s Hr Hin)).
       apply writes_stop; try done; [by apply wake_none_sleeps|by left]. }
  destruct ((pi_readopen p =? 0) || negb (p_killed (k_proc s !!! pr) =? 0)) eqn:Ea.
  { rewrite (iterate_done _ _ _ _ _ _ (round_dead pi addr n pr ti tj i p s Hr He (conj Hi Hin) Ea)).
    cut (writes' 0 i p s (Ok (-1) (s <| k_hart ::= settle |>))); [by destruct m|].
    split; [by apply (thread_runs_settle s _ pr ti tj)|]. exists []. split; [apply appended_nil; [apply He|done|apply He]|].
    by rewrite Ea, (proj2 (Z.ltb_lt i n)). }
  destruct (Z.eq_dec (pipe_len p) PIPESIZE) as [Hfull|Hnf].
  { apply write_full; try done. destruct m; [done|]. by apply Hres. }
  assert (Hl : pipe_len p < PIPESIZE) by (pose proof (pk_len p (pe_ok _ _ _ _ He)); lia).
  assert (Hc := round_copy pi addr n pr ti tj Haddr Hn i p s Hr He (conj Hi Hin) Ea Hl).
  destruct (ubyte _ _ (addr + i)) as [c|] eqn:Ec.
  - rewrite (iterate_next _ _ _ _ _ _ Hc). set (s1 := s <| k_fs ::= λ x, x <| f_pipes ::= alter (push c) pi |> |>).
    apply orb_false_iff in Ea as [Ea1 Ea2]. apply (writes_cons pi addr n pr ti tj m i p s s1 c); try done || lia; [apply He|].
    apply Hnext; [done|by destruct Hr; constructor|]. split; [|apply push_ok; [apply He|done]|apply He].
    unfold s1. rproj. by rewrite lookup_alter_eq, (pe_pipe _ _ _ _ He).
  - rewrite (iterate_done _ _ _ _ _ _ Hc). apply writes_stop; try done; [by apply wake_none_sleeps|by right].
Qed.

Lemma write_loop : ∀ m d i p s,
  thread_runs s pr ti tj → pipe_env pi pr p s → 0 ≤ i → (Z.to_nat (n - i) ≤ d)%nat →
  writes' m i p s (iterate (S d + m) body i (lk s)).
Proof.
  induction m as [|m IHm]; induction d as [|d IHd]; intros i p s Hr He Hi Hd.
  - apply (write_step 0 0); try done; lia.
  - apply (write_step 0 (S d + 0)); try done. intros Hin p' s' Hr' He'. apply IHd; try done; lia.
  - apply (write_step (S m) (S m)); try done; lia.
  - apply (write_step (S m) (S d + S m)); try done; intros Hin p' s' Hr' He'.
    + apply IHd; try done; lia.
    + replace (S d + S m)%nat with (S (S d) + m)%nat by lia. by apply IHm.
Qed.

(** C13: [pipewrite] appends the bytes of the user's buffer to the queue of the
    pipe, in order and each once.  When the queue is full it wakes the readers
    and sleeps, and goes on with the next byte when it is resumed, in whatever
    state the pipe is then; it returns the number of bytes written, which is [n]
    unless the buffer ends at an unmapped address, or -1 when the read end is
    closed or the process is killed.  No reader is left asleep on a return. *)
Theorem pipewrite_spec m p s :
  thread_runs s pr ti tj → pipe_env pi pr p s → writes' m 0 p s (pipewrite m pi addr n s).
Proof.
  intros Hr He. assert (Hrs : thread_runs (s <| k_hart ::= settle |>) pr ti tj) by (apply (thread_runs_settle s _ pr ti tj Hr); [done|apply Hr|done]).
  unfold pipewrite. rewrite (enter_pipe _ _ _ pr ti tj) by done.
  apply (writes_ext m 0 p s (s <| k_hart ::= settle |>)); [done..|]. apply write_loop; [done| |lia|lia].
  by destruct He.
Qed.
End WriteLoop.

(** ** Reading *)

Section Read.
Context `{KernelSymbols} (pi addr n : Z) (pr ti tj : nat).
Context (Haddr : 0 ≤ addr) (Hn : addr + n < 2 ^ 64).

Abbreviation umem s := (ubyte (ram (k_mach s)) (p_pagetable (k_proc s !!! pr))).
Abbreviation lk s := (s <| k_hart ::= locked (LkPipe pi) |>).
Abbreviation body := (piperead_body pi addr n pr).

(** between [s] and [s'] the first bytes of the queue went to [addr + i], up to
    [v]: all that there are, or that fit, or up to an unmapped address; the byte
    that did not find a place there is lost *)
Definition taken (free : list Z) (i v : Z) (p : pipe) (s s' : kstate fsys) : Prop :=
  let k := Z.to_nat (v - i) in
  i ≤ v ≤ Z.max i n ∧ (k ≤ length (pipe_queue p))%nat ∧
  user_written (p_pagetable (k_proc s !!! pr)) free (addr + i) (take k (pipe_queue p)) (k_mach s) (k_mach s') ∧
  ∃ p', f_pipes (k_fs s') !! pi = Some p' ∧ pipe_ok p' ∧
    pi_readopen p' = pi_readopen p ∧ pi_writeopen p' = pi_writeopen p ∧
    ((n ≤ v ∨ k = length (pipe_queue p)) ∧ pipe_queue p' = drop k (pipe_queue p) ∨
     v < n ∧ (k < length (pipe_queue p))%nat ∧ umem s (addr + v) = None ∧ pipe_queue p' = drop (S k) (pipe_queue p)).

(** the environment of a reader, with the free pages *)
Record read_env (free : list Z) (p : pipe) (s : kstate fsys) : Prop := {
  re_pipe : f_pipes (k_fs s) !! pi = Some p;
  re_ok : pipe_ok p;
  re_kmem : kmem_ok (k_mach s) free;
  re_uvm : uvm_ok (ram (k_mach s)) (p_pagetable (k_proc s !!! pr)) free
}.

Lemma taken_stop free i p s : read_env free p s → n ≤ i ∨ pipe_queue p = [] → taken free i i p s s.
Proof.
  intros [Hp Hok Hk Hu] Hc. unfold taken. rewrite Z.sub_diag, take_0. split_and!; [lia|lia|lia|by apply user_written_nil|].
  exists p. split_and!; try done. left. split; [|done]. destruct Hc as [?| ->]; [by left|by right].
Qed.

Abbreviation popped s m' := (s <| k_mach := m' |> <| k_fs ::= λ x, x <| f_pipes ::= alter pop pi |> |>).

Lemma read_round free i p s c q : read_env free p s → 0 ≤ i < n → pipe_queue p = c :: q →
  ∃ m', pipe_queue (pop p) = q ∧ read_env free (pop p) (popped s m') ∧
    ((body i s = Ok (inl (i + 1)) (popped s m') ∧
      user_written (p_pagetable (k_proc s !!! pr)) free (addr + i) [c] (k_mach s) m') ∨
     (body i s = Ok (inr i) (popped s m') ∧ umem s (addr + i) = None ∧
      user_written (p_pagetable (k_proc s !!! pr)) free (addr + i) [] (k_mach s) m')).
Proof.
  intros [Hp Hok Hk Hu] Hi Hq. assert (Hl : 0 < pipe_len p) by (rewrite <- length_queue, Hq; simpl; lia).
  assert (Hpop := pop_queue p Hok Hl). rewrite Hq in Hpop. injection Hpop as Ec Eq.
  destruct (copyout_ok (E := Empty_set) (p_pagetable (k_proc s !!! pr)) (addr + i) [c] (k_mach s) free Hk Hu ltac:(lia))
    as (k & r & m' & Hrun & Hw & Hcase).
  exists m'. split; [done|]. split.
  { split; [|by apply pop_ok|apply Hw|apply Hw]. rproj. by rewrite lookup_alter_eq, Hp. }
  assert (Eb : body i s = if r =? -1 then Ok (inr i) (popped s m') else Ok (inl (i + 1)) (popped s m')).
  { unfold piperead_body. rewrite (proj2 (Z.ltb_lt i n)) by lia. cbn [negb]. rewrite (bind_getpipe _ p) by done.
    rewrite empty_test, (proj2 (Z.eqb_neq (pipe_len p) 0)) by (done || lia). cbv zeta. rewrite <- Ec, u64_small by lia.
    destruct s as [m ps ip np nt bs h tk fi fs]. unfold setpipe, setkf. krun. simpl in Hrun. erewrite bind_Ok; [|apply mach_Ok; exact Hrun]. kred. by case_match. }
  destruct Hcase as [[-> ->]|(-> & Hlt & Hno)]; [left|right].
  - done.
  - destruct k; [|simpl in Hlt; lia]. rewrite Z.add_0_r in Hno. done.
Qed.
Lemma taken_cons free i v p s m' s' c q :
  read_env free p s → i < n → pipe_queue p = c :: q → pipe_queue (pop p) = q →
  user_written (p_pagetable (k_proc s !!! pr)) free (addr + i) [c] (k_mach s) m' →
  taken free (i + 1) v (pop p) (popped s m') s' → taken free i v p s s'.
Proof.
  intros [Hp Hok Hk Hu] Hin Hq Hq' Hw. unfold taken. rewrite Hq, Hq'. intros (Hv & Hl & Hw' & p' & Hp' & Hok' & Hr & Ho & Hcase).
  replace (Z.to_nat (v - i)) with (S (Z.to_nat (v - (i + 1)))) by lia. set (k := Z.to_nat (v - (i + 1))) in *. simpl.
  split_and!; [lia|lia|lia| |].
  - apply (user_written_app _ _ _ [c] _ _ m'); [done|].
    replace (addr + i + Z.of_nat (length [c])) with (addr + (i + 1)) by (simpl; lia). done.
  - exists p'. split_and!; try done. destruct Hcase as [[Hc Hd]|(Hvn & Hkl & Hno & Hd)]; [left|right].
    + split; [|done]. destruct Hc; [by left|right; lia].
    + split_and!; [done|lia| |done]. change (ubyte (ram m') (p_pagetable (k_proc s !!! pr)) (addr + v) = None) in Hno.
      rewrite (uw_byte _ _ _ _ _ _ Hw) in Hno. rewrite decide_False in Hno by (simpl; lia). done.
Qed.

Lemma read_loop : ∀ d free i p s,
  read_env free p s → 0 ≤ i → (Z.to_nat (n - i) ≤ d)%nat →
  ∃ v s', iterate (S d) body i s = Ok v s' ∧ taken free i v p s s' ∧
    s' = s <| k_mach := k_mach s' |> <| k_fs := k_fs s' |>.
Proof.
  induction d as [|d IHd]; intros free i p s He Hi Hd.
  all: destruct (Z.lt_ge_cases i n) as [Hin|Hin].
  1: lia.
  1, 3: exists i, s; split_and!; [apply iterate_done; unfold piperead_body; by rewrite (proj2 (Z.ltb_ge i n))
    |by apply taken_stop; [|left]|by destruct s].
  destruct (pipe_queue p) as [|c q] eqn:Hq.
  { exists i, s. split_and!; [|by apply taken_stop; [|right]|by destruct s].
    apply iterate_done. unfold piperead_body. rewrite (proj2 (Z.ltb_lt i n)) by done. cbn [negb].
    rewrite (bind_getpipe _ p) by apply He. rewrite empty_test by apply He.
    rewrite (proj2 (Z.eqb_eq _ _)); [done|]. rewrite <- length_queue, Hq. done. }
  destruct (read_round free i p s c q He (conj Hi Hin) Hq) as (m' & Hq' & He' & [[Hb Hw]|(Hb & Hno & Hw)]).
  - rewrite (iterate_next _ _ _ _ _ _ Hb).
    destruct (IHd free (i + 1) (pop p) (popped s m') He') as (v & s' & -> & Ht & Es); [lia|lia|].
    exists v, s'. split_and!; [done|by eapply taken_cons|]. rewrite Es. by destruct s.
  - rewrite (iterate_done _ _ _ _ _ _ Hb). exists i, (popped s m'). split_and!; [done| |by destruct s].
    unfold taken. rewrite Z.sub_diag, take_0, Hq. split_and!; [lia|lia|simpl; lia|done|].
    exists (pop p). split_and!; [apply He'|apply He'|done|done|right].
    split_and!; [done|simpl; lia|done|done].
Qed.

(** The run [r] of the reader from state [s]: it returns, or it sleeps when the
    pipe is empty and open for writing; [m] bounds how often it is resumed. *)
Fixpoint reads (m : nat) (p : pipe) (s : kstate fsys) (r : run kevent (kstate fsys) Z) : Prop :=
  match r with
  | Ok v s' => thread_runs s' pr ti tj ∧
      if bool_decide (pipe_queue p = [] ∧ pi_writeopen p ≠ 0)
      then v = -1 ∧ p_killed (k_proc s !!! pr) ≠ 0 ∧ k_mach s' = k_mach s ∧ k_fs s' = k_fs s
      else none_sleeps (ChPipeW pi) (ti, tj) (k_proc s') ∧ ∃ free, taken free 0 v p s s'
  | Event e s1 k =>
      e = EvSched ∧ pipe_queue p = [] ∧ pi_writeopen p ≠ 0 ∧ p_killed (k_proc s !!! pr) = 0 ∧
      k_mach s1 = k_mach s ∧ k_fs s1 = k_fs s ∧ h_held (k_hart s1) = [LkProc pr] ∧
      t_state (p_threads (k_proc s1 !!! ti) !!! tj) = SLEEPING ∧
      t_chan (p_threads (k_proc s1 !!! ti) !!! tj) = Some (ChPipeR pi) ∧
      match m with
      | O => True
      | S m' => ∀ p2 s2, resumed pr ti tj s2 → pipe_env pi pr p2 s2 → reads m' p2 s2 (k s2)
      end
  | _ => False
  end.

Lemma reads_ext m p s s1 r :
  k_mach s1 = k_mach s → k_fs s1 = k_fs s → p_pagetable (k_proc s1 !!! pr) = p_pagetable (k_proc s !!! pr) →
  p_killed (k_proc s1 !!! pr) = p_killed (k_proc s !!! pr) → reads m p s1 r → reads m p s r.
Proof. intros Em Ef Ep Ek. destruct m, r; cbn [reads]; unfold taken; rewrite ?Em, ?Ef, ?Ep, ?Ek; done. Qed.

(** the end of [piperead], after the wait *)
Abbreviation rest := (λ live : bool,
  if negb live then release (LkPipe pi) ;;; ret (-1)
  else let* i := iterate (S (Z.to_nat n)) body 0 in wakeup (Some (ChPipeW pi)) ;;; release (LkPipe pi) ;;; ret i).

Lemma read_rest m p s : thread_runs s pr ti tj → pipe_env pi pr p s →
  ¬ (pipe_queue p = [] ∧ pi_writeopen p ≠ 0) → reads m p s (rest true (lk s)).
Proof.
  intros Hr [Hp Hok (free & Hk & Hu)] Hne. cbn [negb].
  destruct (read_loop (Z.to_nat n) free 0 p (lk s)) as (v & s' & Hrun & Ht & Es); [done|lia|lia|].
  rewrite (bind_Ok _ _ _ _ _ Hrun). set (s1 := s <| k_mach := k_mach s' |> <| k_fs := k_fs s' |>).
  assert (Es' : s' = lk s1) by (rewrite Es; by destruct s). rewrite Es'.
  assert (Hr1 : thread_runs s1 pr ti tj) by (by destruct Hr).
  assert (Hw := wake_runs (Some (ChPipeW pi)) s1 pr ti tj Hr1). rewrite (ro_thread _ _ _ _ (tr_run _ _ _ _ Hr1)) in Hw.
  rewrite (wake_release pi (ChPipeW pi) s1 pr ti tj _ Hr1).
  assert (Hgoal : reads 0 p s (Ok v (s1 <| k_proc ::= imap (wake_proc (Some (ti, tj)) (Some (ChPipeW pi))) |> <| k_hart ::= settle |>))).
  { split; [done|]. rewrite bool_decide_false by done. split; [apply wake_none_sleeps, Hr1|]. exists free. exact Ht. }
  destruct m; exact Hgoal.
Qed.

Abbreviation wait := (λ _ : unit,
  let* p := getpipe pi in
  if (pi_nread p =? pi_nwrite p) && negb (pi_writeopen p =? 0) then
    let* q := getp pr in
    if negb (p_killed q =? 0) then ret (inr false)
    else sleep (ChPipeR pi) (LkPipe pi) ;;; ret (inl tt)
  else ret (inr true)).

Abbreviation wait_rest f := (let* live := iterate f wait tt in rest live).

Lemma read_resume m f b s2 :
  (∀ p2 s2, thread_runs s2 pr ti tj → pipe_env pi pr p2 s2 → reads m p2 s2 (wait_rest f (lk s2))) →
  ∀ p2, resumed pr ti tj s2 → pipe_env pi pr p2 s2 →
  reads m p2 s2 (run_bind (run_bind (run_bind (sleep_resume pr ti tj b (LkPipe pi) s2) (λ _, ret (inl tt)))
    (λ r, match r with inl a' => iterate f wait a' | inr v => ret v end)) rest).
Proof.
  intros Hnext p2 Hres He. destruct (sleep_resume_ok pr ti tj b (LkPipe pi) s2 Hres) as (h & Hrun & ->). cbn [run_bind].
  set (s3 := s2 <| k_proc ::= set_thread ti tj (λ t, t <| t_chan := None |>) |> <| k_hart := h |>) in *.
  destruct (resumed_fields pr ti tj s2 pr Hres) as [Hpt Hk]. apply (reads_ext m p2 s2 s3); [done..|].
  apply Hnext; [done|]. split; [apply He|apply He|]. unfold s3. rproj. rewrite Hpt. apply He.
Qed.

Lemma read_step m f p s : thread_runs s pr ti tj → pipe_env pi pr p s →
  match m with
  | O => True
  | S m' => ∀ p' s', thread_runs s' pr ti tj → pipe_env pi pr p' s' → reads m' p' s' (wait_rest f (lk s'))
  end →
  reads m p s (wait_rest (S f) (lk s)).
Proof.
  intros Hr He Hres.
  assert (Et : (pi_nread p =? pi_nwrite p) && negb (pi_writeopen p =? 0) = bool_decide (pipe_queue p = [] ∧ pi_writeopen p ≠ 0)).
  { rewrite empty_test, <- length_queue by apply He. destruct (pipe_queue p), (Z.eqb_spec (pi_writeopen p) 0);
      case_bool_decide; try done; naive_solver. }
  case_bool_decide as Hc.
  2: { rewrite (bind_Ok (iterate _ wait tt) rest (lk s) true (lk s)); [by apply read_rest|].
       apply iterate_done. rewrite (bind_getpipe _ p) by apply He. by rewrite Et. }
  assert (Ew : wait tt (lk s) = (if negb (p_killed (k_proc s !!! pr) =? 0) then ret (inr false)
    else sleep (ChPipeR pi) (LkPipe pi) ;;; ret (inl tt)) (lk s)).
  { rewrite (bind_getpipe _ p) by apply He. by rewrite Et. }
  destruct (Z.eqb_spec (p_killed (k_proc s !!! pr)) 0) as [Hk|Hk].
  - assert (Hne : LkPipe pi ≠ LkProc pr) by discriminate. cbn [negb] in Ew.
    rewrite (bind_Event _ _ _ _ _ _ (sleep_sleeps (ChPipeR pi) (LkPipe pi) pr ti tj s Hr Hne)) in Ew.
    rewrite (bind_Event _ _ _ _ _ _ (iterate_suspend f wait tt _ _ _ _ Ew)).
    destruct (tr_slot _ _ _ _ Hr) as [Hti Htj], (tr_run _ _ _ _ Hr) as [_ Hheld _ _], Hc as [Hq Hwo]. assert (Hsh := tr_shaped _ _ _ _ Hr).
    destruct m; cbn [reads]; (split_and!; [done..|rproj; by rewrite locked_held, Hheld|rproj; by rewrite set_thread_lookup|rproj; by rewrite set_thread_lookup|]).
    1: done.
    intros p2 s2 Hr2 He2. by apply read_resume.
  - rewrite (bind_Ok _ _ _ _ _ (iterate_done f wait tt _ _ _ Ew)). cbn [negb].
    assert (Hrel : (release (LkPipe pi) ;;; ret (-1)) (lk s) = Ok (-1) (s <| k_hart ::= settle |>)).
    { destruct Hr as [[Hh Hheld _ _] _ _ _]. destruct s as [m0 ps ip np nt bs h tk fi fs]. simpl in Hheld. kred. by rewrite bind_release by hart. }
    rewrite Hrel. assert (Hgoal : reads 0 p s (Ok (-1) (s <| k_hart ::= settle |>))).
    { split; [apply (thread_runs_settle s _ pr ti tj Hr); [done|apply Hr|done]|]. by rewrite bool_decide_true. }
    destruct m; exact Hgoal.
Qed.

Lemma read_wait : ∀ m p s, thread_runs s pr ti tj → pipe_env pi pr p s → reads m p s (wait_rest (S m) (lk s)).
Proof. induction m as [|m IHm]; intros p s Hr He; by apply read_step. Qed.

(** C14: [piperead] waits while the pipe is empty and open for writing; then it
    takes the bytes at the front of the queue, in order and as many as there are
    or as fit in the buffer, and puts them in the user's memory, and nothing
    else there changes.  It returns their number: 0 at the end of the stream, -1
    when the process is killed during the wait.  An unmapped address ends the
    transfer, and the byte that was to go there is lost.  No writer is left
    asleep on a return. *)
Theorem piperead_spec m p s :
  thread_runs s pr ti tj → pipe_env pi pr p s → reads m p s (piperead (S m) pi addr n s).
Proof.
  intros Hr He. assert (Hrs : thread_runs (s <| k_hart ::= settle |>) pr ti tj) by (apply (thread_runs_settle s _ pr ti tj Hr); [done|apply Hr|done]).
  unfold piperead. rewrite (enter_pipe _ _ _ pr ti tj) by done.
  apply (reads_ext m p s (s <| k_hart ::= settle |>)); [done..|]. apply read_wait; [done|]. by destruct He.
Qed.
End Read.

(** ** The specifications at work *)
Module Demo.
Import ProcSpec.Demo Growproc.GrowDemo.
#[local] Existing Instance small_image.

(** a process with a page of memory, and a pipe *)
Lemma with_pipe (p : pipe) : pipe_ok p → ∃ s : kstate fsys,
  thread_runs s 0 0 0 ∧ pipe_env 8192 0 p s ∧ p_killed (k_proc s !!! O) = 0 ∧
  ∀ v, 0 ≤ v < 4096 → ubyte (ram (k_mach s)) (p_pagetable (k_proc s !!! O)) v ≠ None.
Proof.
  intros Hok. destruct proc_with_page as (m & np & free & tf & pt & pa & Hinv & Ept & Hmap).
  set (p0 := (new_proc 0 1 1 tf pt pa proc0) <| p_sz := 4096 |>) in *.
  set (ps0 := <[O := p0]> (replicate NPROC proc0)) in *.
  assert (Hp0 : ps0 !! O = Some p0) by (apply list_lookup_insert_eq; rewrite length_replicate; unfold NPROC; lia).
  set (fs := (power_on ∅) <| f_pipes := {[ 8192 := p ]} |>).
  exists (mkKstate m ps0 None np 2 [] hart1 0 true fs). assert (E0 := list_lookup_total_correct _ _ _ Hp0). split_and!.
  - split; [exact hart1_runs|exact (table_shaped _ _ _ _ Hinv)|unfold NPROC, NTHREAD; lia|].
    change (t_tproc (p_threads (ps0 !!! O) !!! O) = Some O). rewrite E0. reflexivity.
  - split; [exact (lookup_singleton_eq 8192 p)|exact Hok|]. exists free. change (kmem_ok m free ∧ uvm_ok (ram m) (p_pagetable (ps0 !!! O)) free).
    rewrite E0. split; [apply Hinv|].
    assert (Hu : p_state p0 ≠ UNUSED) by discriminate.
    destruct (so_used _ _ _ _ (ti_slot _ _ _ _ Hinv O p0 Hp0) Hu) as (_ & _ & _ & Hut & _). apply aspace_uvm, Hut.
  - change (p_killed (ps0 !!! O) = 0). rewrite E0. reflexivity.
  - intros v Hv. change (ubyte (ram m) (p_pagetable (ps0 !!! O)) v ≠ None). rewrite E0, Ept, (Hmap v Hv). discriminate.
Qed.

Lemma new_pipe_ok : pipe_ok new_pipe.
Proof. split; vm_compute; try done; split; congruence. Qed.

Lemma pipewrite_spec_witness : ∃ s s' : kstate fsys, pipewrite 3 8192 0 4 s = Ok 4 s'.
Proof.
  destruct (with_pipe new_pipe new_pipe_ok) as (s & Hr & He & Hk & Hm).
  assert (Hw := pipewrite_spec 8192 0 4 0 0 0 ltac:(lia) ltac:(lia) 3 new_pipe s Hr He).
  exists s. destruct (pipewrite 3 8192 0 4 s) as [v s'| |e s1 k|] eqn:Er; cbn [writes] in Hw; [|by destruct Hw| |by destruct Hw].
  - destruct Hw as (_ & bs & _ & Hv). rewrite Hk in Hv. destruct Hv as (-> & Hle & [Hge|Hno] & _).
    + exists s'. f_equal. lia.
    + destruct (Hm (0 + (0 + Z.of_nat (length bs)))); [|exact Hno]. lia.
  - exfalso. destruct Hw as (_ & _ & _ & _ & _ & _ & _ & bs & _ & Hlt & Hfull & _). change (pipe_queue new_pipe) with (@nil byte) in Hfull.
    unfold PIPESIZE in Hfull. simpl in Hfull. lia.
Defined.

(** two bytes in the pipe, and the read counter about to wrap *)
Definition wrapping_pipe : pipe := mkPipe (x42 :: replicate 510 x00 ++ [x41]) (2 ^ 32 - 1) 1 1 1.
Lemma wrapping_pipe_ok : pipe_ok wrapping_pipe.
Proof. split; vm_compute; try done; split; congruence. Qed.

Lemma piperead_spec_witness : ∃ s s' : kstate fsys, piperead 4 8192 100 16 s = Ok 2 s' ∧
  ubyte (ram (k_mach s')) (p_pagetable (k_proc s !!! O)) 100 = Some x41 ∧
  ubyte (ram (k_mach s')) (p_pagetable (k_proc s !!! O)) 101 = Some x42.
Proof.
  destruct (with_pipe wrapping_pipe wrapping_pipe_ok) as (s & Hr & He & Hk & Hm).
  assert (Hw := piperead_spec 8192 100 16 0 0 0 ltac:(lia) ltac:(lia) 3 wrapping_pipe s Hr He).
  assert (Eq : pipe_queue wrapping_pipe = [x41; x42]) by (vm_compute; reflexivity).
  exists s. destruct (piperead 4 8192 100 16 s) as [v s'| |e s1 k|] eqn:Er; cbn [reads] in Hw; [|by destruct Hw| |by destruct Hw].
  - destruct Hw as (_ & Hw). rewrite Eq, bool_decide_false in Hw by naive_solver.
    destruct Hw as (_ & free & Hv & Hl & Hwr & p' & _ & _ & _ & _ & Hc). rewrite Eq in *. rewrite Z.sub_0_r in *. simpl in Hl.
    assert (Ev : v = 2).
    { destruct Hc as [[[Hc|Hc] _]|(Hc & Hc' & Hno & _)]; [lia|simpl in Hc; lia|]. destruct (Hm (100 + v)); [lia|exact Hno]. }
    subst v. exists s'. split_and!; [done| |].
    + by rewrite (uw_byte _ _ _ _ _ _ Hwr).
    + by rewrite (uw_byte _ _ _ _ _ _ Hwr).
  - exfalso. destruct Hw as (_ & Hq & _). rewrite Eq in Hq. discriminate Hq.
Defined.
End Demo.
