(* ===== verification/Exec.v ===== *)
(** * Program execution (src/kernel/exec.c)

    [exec] takes the addresses of the argument strings in RAM.  A [goto bad] is
    a call of [exec_bad].  While [exec] spins until the other threads of the
    process are gone, the timer interrupts it and [kerneltrap] calls [yield]. *)

From S2P Require Import Prelude Mem Riscv Kalloc Vm Uvm Pagetable Kstate Spinlock Proc Process.
From S2P Require Import FsState Bio Log Fs Console File.

Section Exec.
Context `{KernelSymbols}.

(** ** elf.h *)

Definition ELF_MAGIC : Z := 0x464C457F.
Definition ELF_PROG_LOAD : Z := 1.
Definition sizeof_elfhdr : Z := 64.
Definition sizeof_proghdr : Z := 56.
Definition elf_magic (elf : list byte) : Z := rd32 0 elf.
Definition elf_entry (elf : list byte) : Z := rd64 24 elf.
Definition elf_phoff (elf : list byte) : Z := rd64 32 elf.
Definition elf_phnum (elf : list byte) : Z := rd16 56 elf.
Definition ph_type (ph : list byte) : Z := rd32 0 ph.
Definition ph_off (ph : list byte) : Z := rd64 8 ph.
Definition ph_vaddr (ph : list byte) : Z := rd64 16 ph.
Definition ph_filesz (ph : list byte) : Z := rd64 32 ph.
Definition ph_memsz (ph : list byte) : Z := rd64 40 ph.

(** ** Loading *)

Definition loadseg (fuel : nat) (pagetable va : Z) (ip : nat) (offset sz : Z) : FK Z :=
  if negb (va mod PGSIZE =? 0) then panic "loadseg: va must be page aligned" else
  iterate (Z.to_nat (sz / PGSIZE + 2)) (λ i,
    if negb (i <? sz) then ret (inr 0) else
    let* pa := mach (walkaddr pagetable (u64 (va + i))) in
    if pa =? 0 then panic "loadseg: address should exist" else
    let n := if sz - i <? PGSIZE then sz - i else PGSIZE in
    let* '(r, _) := fs_call fuel (λ _, readi ip (DRam pa) (u32 (offset + i)) n) in
    if negb (u32 r =? n) then ret (inr (-1)) else ret (inl (u32 (i + PGSIZE)))) 0.

(** one program header: the new size, or [None] for [goto bad] with size [sz] *)
Definition exec_segment (fuel : nat) (pagetable : Z) (ip : nat) (off sz : Z) : FK (Z * bool) :=
  let* '(r, ph) := fs_call fuel (λ _, readi ip DLocal (u32 off) sizeof_proghdr) in
  if negb (r =? sizeof_proghdr) then ret (sz, false) else
  if negb (ph_type ph =? ELF_PROG_LOAD) then ret (sz, true) else
  if ph_memsz ph <? ph_filesz ph then ret (sz, false) else
  if u64 (ph_vaddr ph + ph_memsz ph) <? ph_vaddr ph then ret (sz, false) else
  let* sz1 := mach (uvmalloc pagetable sz (u64 (ph_vaddr ph + ph_memsz ph))) in
  if sz1 =? 0 then ret (sz, false) else
  let sz := sz1 in
  if negb (ph_vaddr ph mod PGSIZE =? 0) then ret (sz, false) else
  let* r := loadseg fuel pagetable (ph_vaddr ph) ip (u32 (ph_off ph)) (u32 (ph_filesz ph)) in
  ret (sz, negb (r <? 0)).

(** the loop over the program headers *)
Definition exec_segments (fuel : nat) (pagetable : Z) (ip : nat) (elf : list byte) : FK (Z * bool) :=
  iterate (S (Z.to_nat (elf_phnum elf))) (λ '(i, off, sz),
    if negb (i <? elf_phnum elf) then ret (inr (sz, true)) else
    let* '(sz, ok) := exec_segment fuel pagetable ip off sz in
    if ok then ret (inl (i + 1, i32 (off + sizeof_proghdr), sz))
    else ret (inr (sz, false))) (0, i32 (elf_phoff elf), 0).

(** ** Arguments *)

(** one argument string: the stack pointer after it, or [None] for [goto bad] *)
Definition exec_push (pagetable stackbase sp s : Z) : FK (option Z) :=
  let* m := gets (λ s, ram (k_mach s)) in
  match strlen (Z.to_nat PGSIZE) s m with
  | None => out_of_bounds
  | Some len =>
      let sp := u64 (sp - (len + 1)) in
      let sp := u64 (sp - sp mod 16) in
      if sp <? stackbase then ret None else
      let* r := mach (copyout pagetable sp (ldbytes (Z.to_nat (len + 1)) m s)) in
      if r <? 0 then ret None else ret (Some sp)
  end.

(** the loop [for(argc = 0; argv[argc]; argc++)]: sp and ustack *)
Fixpoint exec_args (pagetable stackbase : Z) (argv : list Z) (sp : Z) (ustack : list Z) : FK (option (Z * list Z)) :=
  match argv with
  | [] => ret (Some (sp, ustack))
  | s :: argv' =>
      if s =? 0 then ret (Some (sp, ustack)) else
      if bool_decide (MAXARG ≤ length ustack)%nat then ret None else
      let* r := exec_push pagetable stackbase sp s in
      match r with
      | None => ret None
      | Some sp => exec_args pagetable stackbase argv' sp (ustack ++ [sp])
      end
  end.

(** the part of a path after its last slash *)
Fixpoint last_elem (s last : list byte) : list byte :=
  match s with
  | [] => last
  | c :: s' =>
      if bool_decide (c = x00) then last
      else last_elem s' (if bool_decide (c = slash) then s' else last)
  end.

(** ** exec *)

Definition exec_bad (fuel : nat) (pagetable sz : Z) (ip : option nat) : FK Z :=
  when (negb (pagetable =? 0)) (mach (proc_freepagetable pagetable sz)) ;;;
  match ip with
  | Some k =>
      fs_call fuel (λ _, iunlockput k) ;;;
      fs_call fuel (λ _, end_op)
  | None => ret tt
  end ;;;
  ret (-1).

(** tells the other threads of the process to exit *)
Definition exec_kill_threads (i ti tj : nat) : FK unit :=
  acquire (LkProc i) ;;;
  for_each (seq 0 NTHREAD) (λ j,
    let* ot := gett i j in
    when (negb (bool_decide (t_state ot = UNUSED)) && negb (bool_decide ((ti, tj) = (i, j))))
      (sett i j (λ t, t <| t_killed := 1 |>) ;;;
       when (bool_decide (t_state ot = SLEEPING)) (sett i j (λ t, t <| t_state := RUNNABLE |>)))) ;;;
  release (LkProc i).

Definition is_live (st : procstate) : bool :=
  match st with UNUSED | ZOMBIE => false | _ => true end.

(** waits until they have *)
Definition exec_wait_threads (fuel : nat) (i ti tj : nat) : FK unit :=
  iterate fuel (λ _,
    let* p := getp i in
    if existsb (λ j, is_live (t_state (p_threads p !!! j)) && negb (bool_decide ((ti, tj) = (i, j)))) (seq 0 NTHREAD)
    then yield ;;; ret (inl tt)
    else ret (inr tt)) tt.

(** from the allocation of the stack: the new image is complete *)
Definition exec_commit (path elf : list byte) (args : list Z) (fuel : nat) (pagetable sz : Z) : FK Z :=
  let* '(ti, tj) := mythread' in
  let* t := gett ti tj in
  match t_tproc t with
  | None => null_deref
  | Some i =>
      let* p := getp i in
      let oldsz := p_sz p in
      let sz := PGROUNDUP sz in
      let* sz1 := mach (uvmalloc pagetable sz (u64 (sz + 2 * PGSIZE))) in
      if sz1 =? 0 then exec_bad fuel pagetable sz None else
      let sz := sz1 in
      mach (uvmclear pagetable (u64 (sz - 2 * PGSIZE))) ;;;
      let stackbase := u64 (sz - PGSIZE) in
      let* pushed := exec_args pagetable stackbase args sz [] in
      match pushed with
      | None => exec_bad fuel pagetable sz None
      | Some (sp, ustack) =>
          let argc := Z.of_nat (length ustack) in
          let sp := u64 (sp - (argc + 1) * 8) in
          let sp := u64 (sp - sp mod 16) in
          if sp <? stackbase then exec_bad fuel pagetable sz None else
          let* r := mach (copyout pagetable sp (concat (le_split 8 <$> ustack ++ [0]))) in
          if r <? 0 then exec_bad fuel pagetable sz None else
          tf_set (t_trapframe t) TF_A1 sp ;;;
          setp i (λ p, p <| p_name ::= λ n, arr_safestrcpy n (last_elem path path) 16 |>) ;;;
          let* p := getp i in
          let oldpagetable := p_pagetable p in
          setp i (λ p, p <| p_pagetable := pagetable |> <| p_sz := sz |>) ;;;
          (* the code compares the address of the handler, so every one is reset *)
          for_each (seq 0 32) (λ k,
            setp i (λ p, p <| p_signal_handlers ::= <[k := SIG_DFL]> |>
                           <| p_signal_handlers_mask ::= <[k := 0]> |>)) ;;;
          tf_set (t_trapframe t) TF_EPC (elf_entry elf) ;;;
          tf_set (t_trapframe t) TF_SP sp ;;;
          mach (proc_freepagetable oldpagetable oldsz) ;;;
          ret argc
      end
  end.

Definition exec (fuel : nat) (path : list byte) (args : list Z) : FK Z :=
  let* '(ti, tj) := mythread' in
  let* t := gett ti tj in
  match t_tproc t with
  | None => null_deref
  | Some i =>
      exec_kill_threads i ti tj ;;;
      exec_wait_threads fuel i ti tj ;;;
      fs_call fuel (λ _, begin_op) ;;;
      let* ip := fs_call fuel (λ _, namei path) in
      match ip with
      | None => fs_call fuel (λ _, end_op) ;;; ret (-1)
      | Some ip =>
          fs_call fuel (λ _, ilock ip) ;;;
          let* '(r, elf) := fs_call fuel (λ _, readi ip DLocal 0 sizeof_elfhdr) in
          if negb (r =? sizeof_elfhdr) then exec_bad fuel 0 0 (Some ip) else
          if negb (elf_magic elf =? ELF_MAGIC) then exec_bad fuel 0 0 (Some ip) else
          let* p := getp i in
          let* pagetable := mach (proc_pagetable (p_trapframe p)) in
          if pagetable =? 0 then exec_bad fuel 0 0 (Some ip) else
          let* '(sz, ok) := exec_segments fuel pagetable ip elf in
          if negb ok then exec_bad fuel pagetable sz (Some ip) else
          fs_call fuel (λ _, iunlockput ip) ;;;
          fs_call fuel (λ _, end_op) ;;;
          exec_commit path elf args fuel pagetable sz
      end
  end.
End Exec.
