(* ===== verification/Boot.v ===== *)
(** * Start-up (src/kernel/start.c, main.c, plic.c, and the control registers of
    riscv.h)

    The code that runs on one core: the accessors of the control registers,
    the machine-mode set-up, the interrupt controller and the serial
    port's registers, and the order in which [main] calls the initialisations
    of the other components. *)

From S2P Require Import Prelude Mem Riscv Kalloc Vm Uvm Pagetable Kstate Spinlock Proc Process Trap FsState Bio Fs Console File Asm Virtio.

Abbreviation HM := (M Empty_set core).

(** ** riscv.h *)

Definition csrr (r : Csr.csr) : HM Z := gets (λ c, x_csr c r).
Definition csrw (r : Csr.csr) (x : Z) : HM unit := modify (csr_set r x).

Definition r_mhartid : HM Z := csrr Csr.mhartid.
Definition MSTATUS_MPP_MASK : Z := Z.shiftl 3 11.
Definition MSTATUS_MPP_S : Z := Z.shiftl 1 11.
Definition MSTATUS_MIE : Z := Z.shiftl 1 3.
Definition r_mstatus : HM Z := csrr Csr.mstatus.
Definition w_mstatus (x : Z) : HM unit := csrw Csr.mstatus x.
Definition w_mepc (x : Z) : HM unit := csrw Csr.mepc x.
Definition SIE_SEIE : Z := Z.shiftl 1 9.
Definition SIE_STIE : Z := Z.shiftl 1 5.
Definition SIE_SSIE : Z := Z.shiftl 1 1.
Definition r_sie : HM Z := csrr Csr.sie.
Definition w_sie (x : Z) : HM unit := csrw Csr.sie x.
Definition MIE_MTIE : Z := Z.shiftl 1 7.
Definition r_mie : HM Z := csrr Csr.mie.
Definition w_mie (x : Z) : HM unit := csrw Csr.mie x.
Definition w_medeleg (x : Z) : HM unit := csrw Csr.medeleg x.
Definition w_mideleg (x : Z) : HM unit := csrw Csr.mideleg x.
Definition w_stvec (x : Z) : HM unit := csrw Csr.stvec x.
Definition w_mtvec (x : Z) : HM unit := csrw Csr.mtvec x.
Definition w_satp (x : Z) : HM unit := csrw Csr.satp x.
Definition w_mscratch (x : Z) : HM unit := csrw Csr.mscratch x.
Definition r_tp : HM Z := gets (reg_get Reg.tp).
Definition w_tp (x : Z) : HM unit := modify (reg_set Reg.tp x).
Definition sfence_vma : HM unit := ret tt.

(** [*(uint64 * ) a], [*(uint32 * ) a] and bytes of device registers *)
Definition rd64 (a : Z) : HM Z := gets (λ c, ld64 (x_mem c) a).
Definition wr64 (a v : Z) : HM unit := modify (λ c, c <| x_mem ::= st64 a v |>).
Definition rd32 (a : Z) : HM Z := gets (λ c, ld32 (x_mem c) a).
Definition wr32 (a v : Z) : HM unit := modify (λ c, c <| x_mem ::= st32 a v |>).
Definition wr8 (a v : Z) : HM unit := modify (λ c, c <| x_mem ::= <[a := byte.of_Z v]> |>).

(** ** start.c *)

Definition CLINT : Z := 0x2000000.
Definition CLINT_MTIMECMP (hartid : Z) : Z := CLINT + 0x4000 + 8 * hartid.
Definition CLINT_MTIME : Z := CLINT + 0xBFF8.
Definition interval : Z := 1000000.

(** the addresses of main, timervec and timer_scratch *)
Record boot_symbols := { sym_main : Z; sym_timervec : Z; sym_kernelvec : Z; sym_timer_scratch : Z }.

Section Start.
Context (sy : boot_symbols).

Definition timerinit : HM unit :=
  let* id := r_mhartid in
  let id := i32 id in
  let* now := rd64 CLINT_MTIME in
  wr64 (CLINT_MTIMECMP id) (u64 (now + interval)) ;;;
  let scratch := sym_timer_scratch sy + 5 * 8 * id in
  wr64 (scratch + 3 * 8) (CLINT_MTIMECMP id) ;;;
  wr64 (scratch + 4 * 8) interval ;;;
  w_mscratch scratch ;;;
  w_mtvec (sym_timervec sy) ;;;
  let* x := r_mstatus in
  w_mstatus (Z.lor x MSTATUS_MIE) ;;;
  let* x := r_mie in
  w_mie (Z.lor x MIE_MTIE).

(** up to [mret] *)
Definition start : HM unit :=
  let* x := r_mstatus in
  let x := Z.land x (Z.lnot MSTATUS_MPP_MASK) in
  let x := Z.lor x MSTATUS_MPP_S in
  w_mstatus x ;;;
  w_mepc (sym_main sy) ;;;
  w_satp 0 ;;;
  w_medeleg 0xffff ;;;
  w_mideleg 0xffff ;;;
  let* x := r_sie in
  w_sie (Z.lor (Z.lor (Z.lor x SIE_SEIE) SIE_STIE) SIE_SSIE) ;;;
  timerinit ;;;
  let* id := r_mhartid in
  w_tp (u64 (i32 id)).

(** ** trap.c, vm.c *)

Definition cpuid : HM Z := let* id := r_tp in ret (i32 id).
Definition trapinithart : HM unit := w_stvec (sym_kernelvec sy).
Definition kvminithart (kernel_pagetable : Z) : HM unit := w_satp (MAKE_SATP kernel_pagetable) ;;; sfence_vma.

(** ** plic.c *)

Definition PLIC_SENABLE (hart : Z) : Z := PLIC + 0x2080 + hart * 0x100.
Definition PLIC_SPRIORITY (hart : Z) : Z := PLIC + 0x201000 + hart * 0x2000.
Definition PLIC_SCLAIM (hart : Z) : Z := PLIC + 0x201004 + hart * 0x2000.
Definition plicinit : HM unit :=
  wr32 (PLIC + UART0_IRQ * 4) 1 ;;;
  wr32 (PLIC + VIRTIO0_IRQ * 4) 1.
Definition plicinithart : HM unit :=
  let* hart := cpuid in
  wr32 (PLIC_SENABLE hart) (Z.lor (Z.shiftl 1 UART0_IRQ) (Z.shiftl 1 VIRTIO0_IRQ)) ;;;
  wr32 (PLIC_SPRIORITY hart) 0.
Definition plic_claim : HM Z :=
  let* hart := cpuid in
  let* irq := rd32 (PLIC_SCLAIM hart) in
  ret (i32 irq).
Definition plic_complete (irq : Z) : HM unit :=
  let* hart := cpuid in
  wr32 (PLIC_SCLAIM hart) irq.

(** ** uart.c *)

Definition IER : Z := 1.
Definition IER_RX_ENABLE : Z := Z.shiftl 1 0.
Definition IER_TX_ENABLE : Z := Z.shiftl 1 1.
Definition FCR : Z := 2.
Definition FCR_FIFO_ENABLE : Z := Z.shiftl 1 0.
Definition FCR_FIFO_CLEAR : Z := Z.shiftl 3 1.
Definition LCR : Z := 3.
Definition LCR_EIGHT_BITS : Z := Z.shiftl 3 0.
Definition LCR_BAUD_LATCH : Z := Z.shiftl 1 7.
Definition WriteReg (reg v : Z) : HM unit := wr8 (UART0 + reg) v.
Definition uartinit : HM unit :=
  WriteReg IER 0x00 ;;;
  WriteReg LCR LCR_BAUD_LATCH ;;;
  WriteReg 0 0x03 ;;;
  WriteReg 1 0x00 ;;;
  WriteReg LCR LCR_EIGHT_BITS ;;;
  WriteReg FCR (Z.lor FCR_FIFO_ENABLE FCR_FIFO_CLEAR) ;;;
  WriteReg IER (Z.lor IER_TX_ENABLE IER_RX_ENABLE).
End Start.

(** ** main.c *)

(** what the harts share, and the core this code runs on *)
Record booting := mkBooting {
  b_core : core;
  b_kernel : kstate fsys;
  b_disk : vdisk;
  b_kernel_pagetable : Z;
  b_started : bool
}.
#[export] Instance set_b_core : Setter b_core := λ f r, mkBooting (f (b_core r)) (b_kernel r) (b_disk r) (b_kernel_pagetable r) (b_started r).
#[export] Instance set_b_kernel : Setter b_kernel := λ f r, mkBooting (b_core r) (f (b_kernel r)) (b_disk r) (b_kernel_pagetable r) (b_started r).
#[export] Instance set_b_disk : Setter b_disk := λ f r, mkBooting (b_core r) (b_kernel r) (f (b_disk r)) (b_kernel_pagetable r) (b_started r).
#[export] Instance set_b_kernel_pagetable : Setter b_kernel_pagetable := λ f r, mkBooting (b_core r) (b_kernel r) (b_disk r) (f (b_kernel_pagetable r)) (b_started r).
#[export] Instance set_b_started : Setter b_started := λ f r, mkBooting (b_core r) (b_kernel r) (b_disk r) (b_kernel_pagetable r) (f (b_started r)).

(** [BSpin]: a hart that waits for hart 0 reads [started] again *)
Inductive bevent := BKernel (e : kevent) | BSpin.
Abbreviation BM := (M bevent booting).
Definition on_core {A} (m : HM A) : BM A := zoom b_core (λ c s, s <| b_core := c |>) (λ e : Empty_set, match e with end) m.
Definition on_kernel {A} (m : FK A) : BM A := zoom b_kernel (λ k s, s <| b_kernel := k |>) (λ e, emit (BKernel e)) m.
Definition on_disk {A} (m : M vevent vdisk A) : BM A := zoom b_disk (λ d s, s <| b_disk := d |>) (λ _, ret tt) m.

Section Main.
Context `{KernelSymbols} `{FileSys fsys} (sy : boot_symbols) (mmio : Z → Z) (pages : Z) (fuel : nat).

Definition kvminit : BM unit :=
  let* kpgtbl := on_kernel (mach kvmmake) in
  modify (λ s, s <| b_kernel_pagetable := kpgtbl |>).

(** the scheduler, which never returns, is its first [rounds] rounds *)
Definition main (rounds : nat) : BM unit :=
  let* id := on_core cpuid in
  (if id =? 0 then
     on_core uartinit ;;; on_kernel consoleinit ;;;
     on_kernel printfinit ;;;
     on_kernel (printf (bytes_of "
") []) ;;;
     on_kernel (printf (bytes_of "xv6 kernel is booting
") []) ;;;
     on_kernel (printf (bytes_of "
") []) ;;;
     on_kernel (mach kinit) ;;;
     kvminit ;;;
     (let* kpgtbl := gets b_kernel_pagetable in on_core (kvminithart kpgtbl)) ;;;
     on_kernel procinit ;;;
     on_core (trapinithart sy) ;;;
     on_core plicinit ;;;
     on_core plicinithart ;;;
     on_kernel (fs_call fuel (λ _, binit)) ;;;
     on_kernel (fs_call fuel (λ _, iinit)) ;;;
     on_disk (virtio_disk_init mmio pages) ;;;
     on_kernel userinit ;;;
     modify (λ s, s <| b_started := true |>)
   else
     iterate fuel (λ _ : unit,
       let* started := gets b_started in
       if (started : bool) then ret (inr tt) else emit BSpin ;;; ret (inl tt)) tt ;;;
     let* id := on_core cpuid in
     on_kernel (printf (bytes_of "hart %d starting
") [VInt id]) ;;;
     (let* kpgtbl := gets b_kernel_pagetable in on_core (kvminithart kpgtbl)) ;;;
     on_core (trapinithart sy) ;;;
     on_core plicinithart) ;;;
  on_kernel (scheduler_rounds rounds).
End Main.
