(* ===== verification/BootSpec.v ===== *)
(** * The harts start and their timers tick (src/kernel/entry.S, start.c,
    kernelvec.S) *)

From S2P Require Import Prelude Mem Riscv Kstate Asm AsmSpec Boot.

(** machine mode has no address translation *)
Definition bare (satp a : Z) : Z := a.
Lemma seen_bare satp a n : 0 ≤ a → a + n ≤ 2 ^ 64 → seen_at bare satp a a n.
Proof. intros H1 H2 o Ho Hn. unfold bare. apply u64_small. lia. Qed.

Module TimerSpec.
Import Reg.
Definition save : layout := [(a1, 0); (a2, 8); (a3, 16)].
Definition params : layout := [(a1, 24); (a2, 32)].
Definition back : layout := [(a3, 16); (a2, 8); (a1, 0)].
Lemma save_laid_out : laid_out 40 save.
Proof. apply laid_out_check. by vm_compute. Qed.
Lemma params_laid_out : laid_out 40 params.
Proof. apply laid_out_check. by vm_compute. Qed.
Lemma back_laid_out : laid_out 40 back.
Proof. apply laid_out_check. by vm_compute. Qed.
Lemma cmp_laid_out : laid_out 8 [(a3, 0)].
Proof. apply laid_out_check. by vm_compute. Qed.
Lemma timervec_blocks : Code.timervec = Instr.csrrw a0 Csr.mscratch a0 :: saves a0 save ++ loads a0 params ++
  Instr.ld a3 0 a1 :: Instr.add a3 a3 a2 :: saves a1 [(a3, 0)] ++
  Instr.li a1 2 :: Instr.csrw Csr.sip a1 :: loads a0 back ++ [Instr.csrrw a0 Csr.mscratch a0; Instr.mret].
Proof. done. Qed.
End TimerSpec.

(** what [timervec] expects in the scratch area of its hart *)
Record ticking (scratch cmp : Z) (c : core) : Prop := {
  tk_scratch : x_csr c Csr.mscratch = scratch;
  tk_cmp : ld64 (x_mem c) (scratch + 24) = cmp;
  tk_interval : ld64 (x_mem c) (scratch + 32) = interval
}.

Section Tick.
Context (symbol : string → Z) (callee : string → core → core) (kernel : core → core).
Abbreviation run_asm := (run_asm bare symbol callee kernel).
Context (scratch cmp : Z) (Hs : 0 ≤ scratch ∧ scratch + 40 ≤ 2 ^ 64) (Hc : 0 ≤ cmp ∧ cmp + 8 ≤ 2 ^ 64).
Context (Hd : cmp + 8 ≤ scratch ∨ scratch + 40 ≤ cmp).

Lemma exec_add rd rs1 rs2 p c : run_asm (Instr.add rd rs1 rs2 :: p) c = run_asm p (reg_set rd (u64 (reg_get rs1 c + reg_get rs2 c)) c).
Proof. done. Qed.
Lemma exec_li rd imm p c : run_asm (Instr.li rd imm :: p) c = run_asm p (reg_set rd (u64 imm) c).
Proof. done. Qed.
Lemma exec_mret p c : run_asm (Instr.mret :: p) c = (MRet, c).
Proof. done. Qed.

Lemma save_offset o : o ∈ TimerSpec.save.*2 → 0 ≤ o ∧ o ≤ 16.
Proof. unfold TimerSpec.save. cbn [fmap list_fmap snd]. set_unfold. lia. Qed.

(** up to the point where the registers are restored *)
Record half_done (c c7 : core) : Prop := {
  hd_a0 : reg_get Reg.a0 c7 = scratch;
  hd_mscratch : x_csr c7 Csr.mscratch = reg_get Reg.a0 c;
  hd_sip : x_csr c7 Csr.sip = 2;
  hd_save r o : (r, o) ∈ TimerSpec.save → ld64 (x_mem c7) (scratch + o) = reg_get r c;
  hd_params o : o = 24 ∨ o = 32 → ld64 (x_mem c7) (scratch + o) = ld64 (x_mem c) (scratch + o);
  hd_cmp : ld64 (x_mem c7) cmp = u64 (ld64 (x_mem c) cmp + interval);
  hd_other r : r ≠ Reg.a0 → r ≠ Reg.a1 → r ≠ Reg.a2 → r ≠ Reg.a3 → reg_get r c7 = reg_get r c;
  hd_mem x : ¬ (scratch ≤ x < scratch + 24) → ¬ (cmp ≤ x < cmp + 8) → ld8 (x_mem c7) x = ld8 (x_mem c) x
}.
Lemma timer_first c : words c → ticking scratch cmp c → ∃ c7,
  run_asm Code.timervec c = run_asm (loads Reg.a0 TimerSpec.back ++ [Instr.csrrw Reg.a0 Csr.mscratch Reg.a0; Instr.mret]) c7 ∧ half_done c c7.
Proof.
  intros Hw [T1 T2 T3]. rewrite TimerSpec.timervec_blocks, exec_csrrw. set (c0 := csr_set Csr.mscratch _ _).
  assert (E0 : reg_get Reg.a0 c0 = scratch) by exact T1. assert (Hw0 : words c0) by (apply (words_set Reg.a0 _ c Hw); rewrite T1; lia).
  assert (Hseen : ∀ satp, seen_at bare satp scratch scratch 40) by (intros; apply seen_bare; lia).
  rewrite (exec_saves _ _ _ _ Reg.a0 40 scratch _ _ _ TimerSpec.save_laid_out) by (by rewrite E0).
  set (c1 := c0 <| x_mem ::= _ |>). assert (E1 : reg_get Reg.a0 c1 = scratch) by exact T1.
  rewrite (exec_loads _ _ _ _ Reg.a0 40 scratch _ _ _ TimerSpec.params_laid_out); [|by rewrite E1|].
  2: { intros o Ho. exfalso. apply (list_elem_of_fmap_2 fst) in Ho. by apply (bool_decide_unpack (Reg.a0 ∉ TimerSpec.params.*1)). }
  set (c2 := loaded scratch TimerSpec.params c1). destruct (loaded_rest scratch TimerSpec.params c1) as [Ec2 Em2]. fold c2 in Ec2, Em2.
  set (m1 := saved scratch TimerSpec.save c0 (x_mem c)). assert (Em1 : x_mem c1 = m1) by done. rewrite Em1 in Em2.
  assert (Hm1 : ∀ o, o = 24 ∨ o = 32 → ld64 m1 (scratch + o) = ld64 (x_mem c) (scratch + o)).
  { intros o Ho. apply ld64_saved_out. intros o' Ho'. destruct (save_offset o' Ho'). lia. }
  assert (Hk : ∀ a, 0 ≤ a → cmp = a → ld64 m1 a = ld64 (x_mem c) a).
  { intros a _ <-. apply ld64_saved_out. intros o' Ho'. destruct (save_offset o' Ho'). lia. }
  assert (A1 : reg_get Reg.a1 c2 = cmp).
  { unfold c2. rewrite (reg_get_loaded scratch 40 _ TimerSpec.params_laid_out _ Reg.a1 24), Em1, Hm1; [done|by left|set_solver]. }
  assert (A2 : reg_get Reg.a2 c2 = interval).
  { unfold c2. rewrite (reg_get_loaded scratch 40 _ TimerSpec.params_laid_out _ Reg.a2 32), Em1, Hm1; [done|by right|set_solver]. }
  rewrite exec_ld. assert (Ea : address bare 0 Reg.a1 c2 = cmp) by (unfold address, bare; rewrite A1, Z.add_0_r; apply u64_small; lia).
  rewrite Ea, exec_add. set (v := u64 _).
  assert (Ev : v = u64 (ld64 (x_mem c) cmp + interval)).
  { unfold v. rewrite reg_get_same by done. rewrite reg_get_other by done. rewrite A2, Em2, Hk by (done || lia). done. }
  clearbody v. set (c4 := reg_set Reg.a3 v _). assert (E4 : reg_get Reg.a1 c4 = cmp) by exact A1. assert (Em4 : x_mem c4 = m1) by exact Em2.
  rewrite (exec_saves _ _ _ _ Reg.a1 8 cmp _ _ _ TimerSpec.cmp_laid_out) by (rewrite E4; apply seen_bare; lia).
  rewrite exec_li, exec_csrw. set (c7 := csr_set Csr.sip _ _).
  set (m7 := saved cmp [(Reg.a3, 0)] c4 m1). assert (Em7 : x_mem c7 = m7) by (change (x_mem c7) with (saved cmp [(Reg.a3, 0)] c4 (x_mem c4)); by rewrite Em4).
  assert (H7 : ∀ a, a + 8 ≤ cmp ∨ cmp + 8 ≤ a → ld64 m7 a = ld64 m1 a).
  { intros x Hx. apply ld64_saved_out. intros o' ->%list_elem_of_singleton. cbn [snd]. lia. }
  exists c7. split; [done|]. split; rewrite ?Em7.
  - exact (eq_trans (loaded_other scratch TimerSpec.params Reg.a0 ltac:(by apply (bool_decide_unpack (Reg.a0 ∉ TimerSpec.params.*1))) c1) E1).
  - change (x_csr c7 Csr.mscratch) with (x_csr c2 Csr.mscratch). by rewrite Ec2.
  - done.
  - intros r o Ho. destruct (lo_range _ _ TimerSpec.save_laid_out r o Ho) as (? & ? & _). rewrite H7 by lia.
    unfold m1. rewrite (ld64_saved scratch 40 _ _ Hw0 TimerSpec.save_laid_out _ r o Ho). apply (reg_get_other Reg.a0). intros ->.
    apply (list_elem_of_fmap_2 fst) in Ho. by apply (bool_decide_unpack (Reg.a0 ∉ TimerSpec.save.*1)).
  - intros o Ho. rewrite H7 by lia. by apply Hm1.
  - rewrite <- Ev. change m7 with (st64 (cmp + 0) v m1). rewrite Z.add_0_r. apply ld64_st64_same. rewrite Ev. apply u64_range.
  - intros r R0 R1 R2 R3. change (reg_get r c7) with (reg_get r (reg_set Reg.a1 (u64 2) c4)). rewrite reg_get_other by done. unfold c4.
    rewrite !reg_get_other by done. unfold c2. rewrite loaded_other by (unfold TimerSpec.params; cbn; set_solver). by apply (reg_get_other Reg.a0).
  - intros x Hx Hx'. unfold m7. rewrite (ld8_saved_out cmp 8 _ _ _ TimerSpec.cmp_laid_out Hx').
    apply (ld8_saved_out scratch 24). { apply laid_out_check. by vm_compute. } done.
Qed.

Lemma timervec_ticks c : words c → ticking scratch cmp c → ∃ c',
  run_asm Code.timervec c = (MRet, c') ∧ (∀ r, reg_get r c' = reg_get r c) ∧ ticking scratch cmp c' ∧ x_csr c' Csr.sip = 2 ∧
  ld64 (x_mem c') cmp = u64 (ld64 (x_mem c) cmp + interval) ∧
  (∀ x, ¬ (scratch ≤ x < scratch + 24) → ¬ (cmp ≤ x < cmp + 8) → ld8 (x_mem c') x = ld8 (x_mem c) x).
Proof.
  intros Hw Ht. destruct (timer_first c Hw Ht) as (c7 & -> & Hh). destruct Ht as [T1 T2 T3].
  rewrite (exec_loads _ _ _ _ Reg.a0 40 scratch _ _ _ TimerSpec.back_laid_out); [|rewrite (hd_a0 _ _ Hh); apply seen_bare; lia|].
  2: { intros o Ho. exfalso. apply (list_elem_of_fmap_2 fst) in Ho. by apply (bool_decide_unpack (Reg.a0 ∉ TimerSpec.back.*1)). }
  set (c8 := loaded scratch TimerSpec.back c7). destruct (loaded_rest scratch TimerSpec.back c7) as [Ec8 Em8]. fold c8 in Ec8, Em8.
  assert (E8 : reg_get Reg.a0 c8 = scratch).
  { unfold c8. rewrite loaded_other; [apply Hh|]. by apply (bool_decide_unpack (Reg.a0 ∉ TimerSpec.back.*1)). }
  rewrite exec_csrrw, exec_mret, E8. eexists. split; [reflexivity|]. set (c9 := csr_set _ _ _).
  assert (Em9 : x_mem c9 = x_mem c7) by exact Em8. rewrite Em9. split_and!; [| |change (x_csr c8 Csr.sip = 2); rewrite Ec8; apply Hh|apply Hh|apply Hh].
  - intros r. change (reg_get r c9) with (reg_get r (reg_set Reg.a0 (x_csr c8 Csr.mscratch) c8)). destruct (decide (r = Reg.a0)) as [->|R0].
    { rewrite reg_get_same, Ec8 by done. apply Hh. }
    rewrite reg_get_other by done. destruct (decide (r ∈ TimerSpec.back.*1)) as [Hin|Hin].
    + apply list_elem_of_fmap in Hin as ([r' o] & -> & Ho). cbn [fst] in *. unfold c8. rewrite (reg_get_loaded scratch 40 _ TimerSpec.back_laid_out _ r' o Ho).
      apply (hd_save _ _ Hh). unfold TimerSpec.save, TimerSpec.back in *. set_solver.
    + unfold c8. rewrite loaded_other by done. unfold TimerSpec.back in Hin. cbn [fmap list_fmap fst] in Hin. apply (hd_other _ _ Hh); [done|set_solver..].
  - split; rewrite ?Em9; [done|by rewrite (hd_params _ _ Hh) by auto|by rewrite (hd_params _ _ Hh) by auto].
Qed.
End Tick.

(** ** A hart from reset to main *)

(** what [start] leaves when it executes [mret] *)
Record started (sy : boot_symbols) (h : Z) (c c' : core) : Prop := {
  sd_tp : reg_get Reg.tp c' = h;
  sd_regs r : r ≠ Reg.tp → reg_get r c' = reg_get r c;
  sd_mepc : x_csr c' Csr.mepc = sym_main sy;
  sd_mode : Z.land (x_csr c' Csr.mstatus) MSTATUS_MPP_MASK = MSTATUS_MPP_S;
  sd_mie : Z.land (x_csr c' Csr.mstatus) MSTATUS_MIE = MSTATUS_MIE ∧ Z.land (x_csr c' Csr.mie) MIE_MTIE = MIE_MTIE;
  sd_satp : x_csr c' Csr.satp = 0;
  sd_deleg : x_csr c' Csr.medeleg = 0xffff ∧ x_csr c' Csr.mideleg = 0xffff;
  sd_mtvec : x_csr c' Csr.mtvec = sym_timervec sy;
  sd_timer : ticking (sym_timer_scratch sy + 40 * h) (CLINT_MTIMECMP h) c';
  sd_cmp : ld64 (x_mem c') (CLINT_MTIMECMP h) = u64 (ld64 (x_mem c) CLINT_MTIME + interval)
}.
Lemma land_mode x m p e : Z.land p m = p → Z.land e m = 0 → Z.land (Z.lor (Z.lor (Z.land x (Z.lnot m)) p) e) m = p.
Proof.
  intros Hp He. rewrite !Z.land_lor_distr_l, Hp, He, Z.lor_0_r. rewrite <- Z.land_assoc, (Z.land_comm (Z.lnot m)), Z.land_lnot_diag, Z.land_0_r. done.
Qed.
Lemma land_set x m : Z.land (Z.lor x m) m = m.
Proof. apply Z.bits_inj'. intros n _. rewrite Z.land_spec, Z.lor_spec. by destruct (Z.testbit x n), (Z.testbit m n). Qed.

(** the scratch area of the hart [h], and the core after [timerinit] *)
Definition scratch_of (sy : boot_symbols) (h : Z) : Z := sym_timer_scratch sy + 40 * h.
Definition armed (sy : boot_symbols) (h : Z) (c : core) : core :=
  csr_set Csr.mie (Z.lor (x_csr c Csr.mie) MIE_MTIE) (csr_set Csr.mstatus (Z.lor (x_csr c Csr.mstatus) MSTATUS_MIE)
    (csr_set Csr.mtvec (sym_timervec sy) (csr_set Csr.mscratch (scratch_of sy h)
      (c <| x_mem ::= λ m, st64 (scratch_of sy h + 32) interval (st64 (scratch_of sy h + 24) (CLINT_MTIMECMP h)
                             (st64 (CLINT_MTIMECMP h) (u64 (ld64 m CLINT_MTIME + interval)) m)) |>)))).
Lemma timerinit_runs sy h c : 0 ≤ h < 8 → x_csr c Csr.mhartid = h → timerinit sy c = Ok tt (armed sy h c).
Proof.
  intros Hh Eh. assert (Ei : i32 h = h) by (apply i32_small; lia).
  unfold timerinit. unfold bind at 1, r_mhartid, csrr, gets. cbn [run_bind]. rewrite Eh, Ei. unfold bind at 1, rd64, gets. cbn [run_bind].
  unfold armed, scratch_of. change (5 * 8 * h) with (40 * h). by destruct c.
Qed.
Definition privileged (sy : boot_symbols) (c : core) : core :=
  csr_set Csr.sie (Z.lor (Z.lor (Z.lor (x_csr c Csr.sie) SIE_SEIE) SIE_STIE) SIE_SSIE) (csr_set Csr.mideleg 0xffff (csr_set Csr.medeleg 0xffff
    (csr_set Csr.satp 0 (csr_set Csr.mepc (sym_main sy)
      (csr_set Csr.mstatus (Z.lor (Z.land (x_csr c Csr.mstatus) (Z.lnot MSTATUS_MPP_MASK)) MSTATUS_MPP_S) c))))).
Lemma start_runs sy h c : 0 ≤ h < 8 → x_csr c Csr.mhartid = h → start sy c = Ok tt (reg_set Reg.tp h (armed sy h (privileged sy c))).
Proof.
  intros Hh Eh. assert (Ei : u64 (i32 h) = h) by (rewrite i32_small, u64_small; lia).
  assert (E : start sy c = (timerinit sy ;;; let* id := r_mhartid in w_tp (u64 (i32 id))) (privileged sy c)) by done.
  rewrite E, (bind_Ok _ _ _ _ _ (timerinit_runs sy h (privileged sy c) Hh Eh)).
  unfold bind, r_mhartid, csrr, gets, w_tp, modify. cbn [run_bind].
  change (x_csr (armed sy h (privileged sy c)) Csr.mhartid) with (x_csr c Csr.mhartid). by rewrite Eh, Ei.
Qed.
Lemma start_started sy h c : 0 ≤ h < 8 → x_csr c Csr.mhartid = h → KERNBASE ≤ sym_timer_scratch sy → sym_timer_scratch sy + 320 ≤ 2 ^ 64 →
  started sy h c (reg_set Reg.tp h (armed sy h (privileged sy c))).
Proof.
  intros Hh Eh H1 H2. assert (Hc : 0 ≤ CLINT_MTIMECMP h ∧ CLINT_MTIMECMP h + 8 ≤ scratch_of sy h).
  { unfold CLINT_MTIMECMP, CLINT, scratch_of, KERNBASE in *. lia. }
  assert (Hs : scratch_of sy h + 40 ≤ 2 ^ 64) by (unfold scratch_of; lia).
  split; try done.
  - intros r Hr. exact (reg_get_other Reg.tp r h (armed sy h (privileged sy c)) Hr).
  - change (Z.land (Z.lor (Z.lor (Z.land (x_csr c Csr.mstatus) (Z.lnot MSTATUS_MPP_MASK)) MSTATUS_MPP_S) MSTATUS_MIE) MSTATUS_MPP_MASK = MSTATUS_MPP_S).
    by apply land_mode.
  - split; apply land_set.
  - fold (scratch_of sy h). split; [done| |]; unfold armed; cbn -[ld64 st64 CLINT_MTIMECMP interval scratch_of]; rewrite ?ld64_st64_out by lia; apply ld64_st64_same; [lia|done].
  - unfold armed. cbn -[ld64 st64 CLINT_MTIMECMP interval scratch_of u64]. rewrite !ld64_st64_out by lia. apply ld64_st64_same, u64_range.
Qed.

(** C11: from reset to main, on each hart.  [_entry] calls start on the stack
    of its hart, one of eight that do not overlap.  start leaves the hart
    ready to go to main in supervisor mode without paging, with its number in tp and
    its timer set.  From then on each timer interrupt, whatever runs, gives
    back every register, raises a software interrupt for the kernel and
    sets the timer one interval further. *)
Theorem hart_boots symbol kernel sy h c : 0 ≤ h < 8 → x_csr c Csr.mhartid = h →
  0 ≤ symbol "stack0" → symbol "stack0" + 4096 * 8 < 2 ^ 64 →
  KERNBASE ≤ sym_timer_scratch sy → sym_timer_scratch sy + 40 * 8 ≤ 2 ^ 64 →
  let callee := λ (f : string) d, match start sy d with Ok _ d' => d' | _ => d end in
  ∃ c1 c', run_asm bare symbol callee kernel Code._entry c = (Goto "spin", c') ∧
    x_mem c1 = x_mem c ∧ reg_get Reg.sp c1 = symbol "stack0" + 4096 * (h + 1) ∧ started sy h c1 c' ∧
    ∀ c2, words c2 → ticking (sym_timer_scratch sy + 40 * h) (CLINT_MTIMECMP h) c2 →
      ∃ c3, run_asm bare symbol callee kernel Code.timervec c2 = (MRet, c3) ∧ (∀ r, reg_get r c3 = reg_get r c2) ∧
        ticking (sym_timer_scratch sy + 40 * h) (CLINT_MTIMECMP h) c3 ∧ x_csr c3 Csr.sip = 2 ∧
        ld64 (x_mem c3) (CLINT_MTIMECMP h) = u64 (ld64 (x_mem c2) (CLINT_MTIMECMP h) + interval).
Proof.
  intros Hh Eh S1 S2 T1 T2 callee.
  set (c1 := reg_set Reg.sp (symbol "stack0" + 4096 * (h + 1)) (reg_set Reg.a0 (4096 * (h + 1)) (reg_set Reg.a1 (h + 1)
     (reg_set Reg.a1 h (reg_set Reg.a0 4096 (reg_set Reg.sp (symbol "stack0") c)))))).
  assert (Ee : run_asm bare symbol callee kernel Code._entry c = (Goto "spin", callee "start" c1)).
  { unfold Code._entry. cbn -[Z.mul Z.add u64 callee]. rewrite Eh. repeat first [rewrite reg_get_same by done|rewrite reg_get_other by done].
    rewrite (u64_small (1024 * 4)), (u64_small (h + 1)), (u64_small (1024 * 4 * (h + 1))), (u64_small (symbol "stack0" + _)) by lia. done. }
  exists c1, (reg_set Reg.tp h (armed sy h (privileged sy c1))).
  split_and!; [|done|done|by apply start_started|].
  - rewrite Ee. unfold callee. by rewrite (start_runs sy h c1 Hh Eh).
  - intros c2 Hw Ht. unfold KERNBASE, CLINT_MTIMECMP, CLINT in *.
    destruct (timervec_ticks symbol callee kernel (sym_timer_scratch sy + 40 * h) (0x2000000 + 0x4000 + 8 * h) ltac:(lia) ltac:(lia) ltac:(lia) c2 Hw Ht)
      as (c3 & H1 & H2 & H3 & H4 & H5 & _). eauto 10.
Qed.

Module BootDemo.
Definition reset (h : Z) : core := mkCore (λ _, 0) (λ r, if decide (r = Csr.mhartid) then h else 0) ∅.
Definition sy : boot_symbols := {| sym_main := 0x80000100; sym_timervec := 0x80000200; sym_kernelvec := 0x80000300; sym_timer_scratch := 0x80009000 |}.
Definition symbol (s : string) : Z := if bool_decide (s = "stack0") then 0x80008000 else 0.
Lemma hart_boots_witness : ∃ c1 c',
  run_asm bare symbol (λ (f : string) d, match start sy d with Ok _ d' => d' | _ => d end) id Code._entry (reset 3) = (Goto "spin", c') ∧
    reg_get Reg.sp c1 = 0x8000c000 ∧ started sy 3 c1 c'.
Proof.
  destruct (hart_boots symbol id sy 3 (reset 3)) as (c1 & c' & H1 & _ & H2 & H3 & _); [lia|done|done|done|done|done|]. eauto.
Defined.
End BootDemo.
