(* ===== verification/Sysfile.v ===== *)
(** * The file-system calls (src/kernel/sysfile.c)

    A buffer [char name[DIRSIZ]] starts as zeros.  The instance of [SysFile]
    gives the system-call table its file-system entries. *)

From S2P Require Import Prelude Mem Riscv Kalloc Vm Uvm Pagetable Kstate Spinlock Proc Process Syscall.
From S2P Require Import FsState Bio Log Fs Console File Exec.

Section Sysfile.
Context `{KernelSymbols} (fuel : nat).

Abbreviation call m := (fs_call fuel (λ _, m)).

(** ** File descriptors *)

(** the descriptor and the file, or [None] when the result is -1 *)
Definition argfd (n : Z) : FK (option (nat * Z)) :=
  let* fd := argint n in
  if (fd <? 0) || (Z.of_nat NOFILE <=? fd) then ret None else
  let* i := myproc' in
  let* p := getp i in
  let f := p_ofile p !!! Z.to_nat fd in
  if f =? 0 then ret None else ret (Some (Z.to_nat fd, f)).

Definition fdalloc (f : Z) : FK Z :=
  let* i := myproc' in
  let* r := for_until (seq 0 NOFILE) (λ fd,
    let* p := getp i in
    if p_ofile p !!! fd =? 0 then
      setp i (λ p, p <| p_ofile ::= <[fd := f]> |>) ;;; ret (Some (Z.of_nat fd))
    else ret None) in
  ret (default (-1) r).

Definition sys_dup : FK Z :=
  let* a := argfd 0 in
  match a with
  | None => ret (u64 (-1))
  | Some (_, f) =>
      let* fd := fdalloc f in
      if fd <? 0 then ret (u64 (-1)) else
      filedup f ;;;
      ret (u64 fd)
  end.

Definition sys_read : FK Z :=
  let* a := argfd 0 in
  match a with
  | None => ret (u64 (-1))
  | Some (_, f) =>
      let* n := argint 2 in
      let* p := argaddr 1 in
      let* r := fileread fuel f p n in
      ret (u64 r)
  end.

Definition sys_write : FK Z :=
  let* a := argfd 0 in
  match a with
  | None => ret (u64 (-1))
  | Some (_, f) =>
      let* n := argint 2 in
      let* p := argaddr 1 in
      let* r := filewrite fuel f p n in
      ret (u64 r)
  end.

Definition sys_close : FK Z :=
  let* a := argfd 0 in
  match a with
  | None => ret (u64 (-1))
  | Some (fd, f) =>
      let* i := myproc' in
      setp i (λ p, p <| p_ofile ::= <[fd := 0]> |>) ;;;
      fileclose fuel f ;;;
      ret 0
  end.

Definition sys_fstat (st0 : list byte) : FK Z :=
  let* a := argfd 0 in
  match a with
  | None => ret (u64 (-1))
  | Some (_, f) =>
      let* st := argaddr 1 in
      let* r := filestat fuel st0 f st in
      ret (u64 r)
  end.

(** ** Names *)

Definition name0 : list byte := replicate (Z.to_nat DIRSIZ) x00.
Definition dot : list byte := [x2e; x00].
Definition dotdot : list byte := [x2e; x2e; x00].
Definition kgeti (k : nat) : FK inode := kf (λ s, f_itable s !!! k).
Definition kseti (k : nat) (f : inode → inode) : FK unit := setkf (λ s, s <| f_itable ::= alter f k |>).

Definition sys_link : FK Z :=
  let* '(r0, old) := argstr 0 MAXPATH in
  if r0 <? 0 then ret (u64 (-1)) else
  let* '(r1, new) := argstr 1 MAXPATH in
  if r1 <? 0 then ret (u64 (-1)) else
  call begin_op ;;;
  let* ip := call (namei old) in
  match ip with
  | None => call end_op ;;; ret (u64 (-1))
  | Some ip =>
      call (ilock ip) ;;;
      let* i := kgeti ip in
      if i_type i =? T_DIR then
        call (iunlockput ip) ;;; call end_op ;;; ret (u64 (-1))
      else
      kseti ip (λ i, i <| i_nlink ::= λ n, i16 (n + 1) |>) ;;;
      call (iupdate ip) ;;;
      call (iunlock ip) ;;;
      let bad :=
        call (ilock ip) ;;;
        kseti ip (λ i, i <| i_nlink ::= λ n, i16 (n - 1) |>) ;;;
        call (iupdate ip) ;;;
        call (iunlockput ip) ;;;
        call end_op ;;;
        ret (u64 (-1)) in
      let* '(dp, name) := call (nameiparent new name0) in
      match dp with
      | None => bad
      | Some dp =>
          call (ilock dp) ;;;
          let* d := kgeti dp in
          let* i := kgeti ip in
          let* linked := (if negb (i_dev d =? i_dev i) then ret false
                          else let* r := call (dirlink dp name (i_inum i)) in ret (negb (r <? 0))) in
          if negb linked then call (iunlockput dp) ;;; bad else
          call (iunlockput dp) ;;;
          call (iput ip) ;;;
          call end_op ;;;
          ret 0
      end
  end.

(** the entries after "." and ".." *)
Definition isdirempty (dp : nat) : FK bool :=
  let* d := kgeti dp in
  let* r := for_until (drop 2 (dirents (i_size d))) (λ off,
    let* '(r, de) := call (readi dp DLocal off sizeof_dirent) in
    if negb (r =? sizeof_dirent) then panic "isdirempty: readi" else
    if negb (de_inum de =? 0) then ret (Some tt) else ret None) in
  ret (bool_decide (r = None)).

Definition sys_unlink : FK Z :=
  let* '(r, path) := argstr 0 MAXPATH in
  if r <? 0 then ret (u64 (-1)) else
  call begin_op ;;;
  let* '(dp, name) := call (nameiparent path name0) in
  match dp with
  | None => call end_op ;;; ret (u64 (-1))
  | Some dp =>
      let bad := call (iunlockput dp) ;;; call end_op ;;; ret (u64 (-1)) in
      call (ilock dp) ;;;
      if (namecmp name dot =? 0) || (namecmp name dotdot =? 0) then bad else
      let* hit := call (dirlookup dp name) in
      match hit with
      | None => bad
      | Some (ip, off) =>
          call (ilock ip) ;;;
          let* i := kgeti ip in
          if i_nlink i <? 1 then panic "unlink: nlink < 1" else
          let* full := (if i_type i =? T_DIR then let* e := isdirempty ip in ret (negb e) else ret false) in
          if full then call (iunlockput ip) ;;; bad else
          let* r := call (writei dp (SLocal (replicate (Z.to_nat sizeof_dirent) x00)) off sizeof_dirent) in
          if negb (r =? sizeof_dirent) then panic "unlink: writei" else
          let* i := kgeti ip in
          when (i_type i =? T_DIR)
            (kseti dp (λ d, d <| i_nlink ::= λ n, i16 (n - 1) |>) ;;;
             call (iupdate dp)) ;;;
          call (iunlockput dp) ;;;
          kseti ip (λ i, i <| i_nlink ::= λ n, i16 (n - 1) |>) ;;;
          call (iupdate ip) ;;;
          call (iunlockput ip) ;;;
          call end_op ;;;
          ret 0
      end
  end.

Definition create (path : list byte) (type major minor : Z) : FK (option nat) :=
  let* '(dp, name) := call (nameiparent path name0) in
  match dp with
  | None => ret None
  | Some dp =>
      call (ilock dp) ;;;
      let* hit := call (dirlookup dp name) in
      match hit with
      | Some (ip, _) =>
          call (iunlockput dp) ;;;
          call (ilock ip) ;;;
          let* i := kgeti ip in
          if (type =? T_FILE) && ((i_type i =? T_FILE) || (i_type i =? T_DEVICE)) then ret (Some ip)
          else call (iunlockput ip) ;;; ret None
      | None =>
          let* d := kgeti dp in
          let* ip := call (ialloc (i_dev d) type) in
          call (ilock ip) ;;;
          kseti ip (λ i, i <| i_major := major |> <| i_minor := minor |> <| i_nlink := 1 |>) ;;;
          call (iupdate ip) ;;;
          let* i := kgeti ip in
          when (type =? T_DIR)
            (kseti dp (λ d, d <| i_nlink ::= λ n, i16 (n + 1) |>) ;;;
             call (iupdate dp) ;;;
             let* r1 := call (dirlink ip dot (i_inum i)) in
             if r1 <? 0 then panic "create dots" else
             let* r2 := call (dirlink ip dotdot (i_inum d)) in
             when (r2 <? 0) (panic "create dots")) ;;;
          let* r := call (dirlink dp name (i_inum i)) in
          if r <? 0 then panic "create: dirlink" else
          call (iunlockput dp) ;;;
          ret (Some ip)
      end
  end.

(** the part of [sys_open] that finds the inode and locks it *)
Definition open_inode (path : list byte) (omode : Z) : FK (option nat) :=
  if negb (Z.land omode O_CREATE =? 0) then create path T_FILE 0 0
  else
    let* ip := call (namei path) in
    match ip with
    | None => ret None
    | Some ip =>
        call (ilock ip) ;;;
        let* i := kgeti ip in
        if (i_type i =? T_DIR) && negb (omode =? O_RDONLY) then
          call (iunlockput ip) ;;; ret None
        else ret (Some ip)
    end.

Definition sys_open : FK Z :=
  let* '(n, path) := argstr 0 MAXPATH in
  if n <? 0 then ret (u64 (-1)) else
  let* omode := argint 1 in
  call begin_op ;;;
  let* ip := open_inode path omode in
  match ip with
  | None => call end_op ;;; ret (u64 (-1))
  | Some ip =>
      let bad := call (iunlockput ip) ;;; call end_op ;;; ret (u64 (-1)) in
      let* i := kgeti ip in
      if (i_type i =? T_DEVICE) && ((i_major i <? 0) || (NDEV <=? i_major i)) then bad else
      let* f := filealloc in
      if f =? 0 then bad else
      let* fd := fdalloc f in
      if fd <? 0 then fileclose fuel f ;;; bad else
      let* i := kgeti ip in
      setfile f (λ f,
        let f := if i_type i =? T_DEVICE then f <| f_type := FD_DEVICE |> <| f_major := i_major i |>
                 else f <| f_type := FD_INODE |> <| f_off := 0 |> in
        f <| f_ip := ip |>
          <| f_readable := (Z.land omode O_WRONLY =? 0) |>
          <| f_writable := negb (Z.land omode O_WRONLY =? 0) || negb (Z.land omode O_RDWR =? 0) |>) ;;;
      when (negb (Z.land omode O_TRUNC =? 0) && (i_type i =? T_FILE)) (call (itrunc ip)) ;;;
      call (iunlock ip) ;;;
      call end_op ;;;
      ret (u64 fd)
  end.

Definition sys_mkdir : FK Z :=
  call begin_op ;;;
  let* '(r, path) := argstr 0 MAXPATH in
  let* ip := (if r <? 0 then ret None else create path T_DIR 0 0) in
  match ip with
  | None => call end_op ;;; ret (u64 (-1))
  | Some ip => call (iunlockput ip) ;;; call end_op ;;; ret 0
  end.

Definition sys_mknod : FK Z :=
  call begin_op ;;;
  let* '(r, path) := argstr 0 MAXPATH in
  let* ip := (if r <? 0 then ret None else
              let* major := argint 1 in
              let* minor := argint 2 in
              create path T_DEVICE (i16 major) (i16 minor)) in
  match ip with
  | None => call end_op ;;; ret (u64 (-1))
  | Some ip => call (iunlockput ip) ;;; call end_op ;;; ret 0
  end.

Definition sys_chdir : FK Z :=
  let* pi := myproc' in
  call begin_op ;;;
  let* '(r, path) := argstr 0 MAXPATH in
  let* ip := (if r <? 0 then ret None else call (namei path)) in
  match ip with
  | None => call end_op ;;; ret (u64 (-1))
  | Some ip =>
      call (ilock ip) ;;;
      let* i := kgeti ip in
      if negb (i_type i =? T_DIR) then
        call (iunlockput ip) ;;; call end_op ;;; ret (u64 (-1))
      else
      call (iunlock ip) ;;;
      let* p := getp pi in
      call (iput (idx (p_cwd p))) ;;;
      call end_op ;;;
      setp pi (λ p, p <| p_cwd := ptr ip |>) ;;;
      ret 0
  end.

(** the loop that fetches the arguments: the pages, and whether all went well *)
Definition fetch_args (uargv : Z) : FK (list Z * bool) :=
  iterate (S MAXARG) (λ argv,
    let i := length argv in
    if bool_decide (MAXARG ≤ i)%nat then ret (inr (argv, false)) else
    let* '(r, uarg) := fetchaddr (u64 (uargv + 8 * Z.of_nat i)) in
    if r <? 0 then ret (inr (argv, false)) else
    if uarg =? 0 then ret (inr (argv, true)) else
    let* page := mach kalloc in
    if page =? 0 then ret (inr (argv, false)) else
    let* '(r, bs) := fetchstr uarg PGSIZE in
    mach (modify (λ m, m <| ram ::= stbytes page bs |>)) ;;;
    if r <? 0 then ret (inr (argv ++ [page], false)) else ret (inl (argv ++ [page]))) [].

Definition sys_exec : FK Z :=
  let* '(r, path) := argstr 0 MAXPATH in
  if r <? 0 then ret (u64 (-1)) else
  let* uargv := argaddr 1 in
  let* '(argv, ok) := fetch_args uargv in
  let* r := (if ok then exec fuel path argv else ret (-1)) in
  for_each argv (λ page, mach (kfree page)) ;;;
  ret (u64 r).

Definition sys_pipe : FK Z :=
  let* i := myproc' in
  let* fdarray := argaddr 0 in
  let* '(r, rf, wf) := pipealloc fuel in
  if r <? 0 then ret (u64 (-1)) else
  let* fd0 := fdalloc rf in
  let* fd1 := (if fd0 <? 0 then ret (-1) else fdalloc wf) in
  if (fd0 <? 0) || (fd1 <? 0) then
    when (0 <=? fd0) (setp i (λ p, p <| p_ofile ::= <[Z.to_nat fd0 := 0]> |>)) ;;;
    fileclose fuel rf ;;;
    fileclose fuel wf ;;;
    ret (u64 (-1))
  else
    let* p := getp i in
    let* r0 := mach (copyout (p_pagetable p) fdarray (le_split 4 fd0)) in
    let* r1 := (if r0 <? 0 then ret (-1)
                else mach (copyout (p_pagetable p) (u64 (fdarray + 4)) (le_split 4 fd1))) in
    if (r0 <? 0) || (r1 <? 0) then
      setp i (λ p, p <| p_ofile ::= <[Z.to_nat fd0 := 0]> |> <| p_ofile ::= <[Z.to_nat fd1 := 0]> |>) ;;;
      fileclose fuel rf ;;;
      fileclose fuel wf ;;;
      ret (u64 (-1))
    else ret 0.

#[export] Instance fsys_SysFile (st0 : list byte) : SysFile fsys := {|
  Syscall.sys_pipe := sys_pipe;
  Syscall.sys_read := sys_read;
  Syscall.sys_exec := sys_exec;
  Syscall.sys_fstat := sys_fstat st0;
  Syscall.sys_chdir := sys_chdir;
  Syscall.sys_dup := sys_dup;
  Syscall.sys_open := sys_open;
  Syscall.sys_write := sys_write;
  Syscall.sys_mknod := sys_mknod;
  Syscall.sys_unlink := sys_unlink;
  Syscall.sys_link := sys_link;
  Syscall.sys_mkdir := sys_mkdir;
  Syscall.sys_close := sys_close
|}.
End Sysfile.
