(* ===== verification/User.v ===== *)
(** * User programs (src/user)

    A user program is a tree of the system calls it makes; its own variables
    and buffers are values of the model.  A C string is the list of the bytes
    before its NUL, and a pointer into it the rest of the list.  [filter_io] is
    an environment that answers the calls of a filter: a program that reads one
    file and writes another. *)

From S2P Require Import Prelude Mem Riscv.

(** ** System calls (user.h, usys.pl) *)

Record ustat := mkUstat {
  us_dev : Z;
  us_ino : Z;
  us_type : Z;
  us_nlink : Z;
  us_size : Z
}.

(** a system call and the type of its result; what the kernel stores through a
    pointer is part of the result *)
Inductive sys : Type → Type :=
| Read (fd n : Z) : sys (Z * list byte)
| Write (fd : Z) (bs : list byte) : sys Z
| Open (path : list byte) (mode : Z) : sys Z
| Close (fd : Z) : sys Z
| Fstat (fd : Z) : sys (Z * ustat)
| Dup (fd : Z) : sys Z
| Pipe : sys (Z * (Z * Z))
| Fork : sys Z
| Exec (path : list byte) (argv : list (list byte)) : sys Z
| Wait : sys Z
| Exit (status : Z) : sys Empty_set
| Kill (pid signum : Z) : sys Z
| Chdir (path : list byte) : sys Z
| Mkdir (path : list byte) : sys Z
| Mknod (path : list byte) (major minor : Z) : sys Z
| Link (old new : list byte) : sys Z
| Unlink (path : list byte) : sys Z
| Sleep (n : Z) : sys Z.

Inductive prog (A : Type) : Type :=
| Ret (a : A)
| Sys {R : Type} (c : sys R) (k : R → prog A)
| Unfinished.
Arguments Ret {A} a.
Arguments Sys {A R} c k.
Arguments Unfinished {A}.

Fixpoint pbind {A B : Type} (p : prog A) (f : A → prog B) : prog B :=
  match p with
  | Ret a => f a
  | Sys c k => Sys c (λ r, pbind (k r) f)
  | Unfinished => Unfinished
  end.
Definition call {R : Type} (c : sys R) : prog R := Sys c Ret.

Declare Scope user_scope.
Delimit Scope user_scope with user.
Notation "'let!' x := m 'in' k" := (pbind m (λ x, k))
  (at level 10, x name, m at level 100, k at level 200) : user_scope.
Notation "'let!' ' p := m 'in' k" := (pbind m (λ x, match x with p => k end))
  (at level 10, p pattern, m at level 100, k at level 200) : user_scope.
Notation "m ;! k" := (pbind m (λ _, k))
  (at level 100, k at level 200, right associativity) : user_scope.
Open Scope user_scope.

Definition exit {A : Type} (status : Z) : prog A := Sys (Exit status) (λ e : Empty_set, match e with end).

(** a loop that runs while its body asks for another round *)
Fixpoint ploop {A B : Type} (fuel : nat) (body : A → prog (A + B)) (a : A) : prog B :=
  match fuel with
  | O => Unfinished
  | S fuel' => let! r := body a in match r with inl a' => ploop fuel' body a' | inr b => Ret b end
  end.
Definition pfor {A : Type} (l : list A) (body : A → prog unit) : prog unit :=
  foldr (λ a k, body a ;! k) (Ret tt) l.

(** ** Strings *)

Definition str (s : string) : list byte := String.list_byte_of_string s.
Definition line (s : string) : list byte := str s ++ [x0a].
(** [*s] *)
Definition chr (s : list byte) : byte := hd x00 s.
(** the bytes before the first NUL of a buffer *)
Fixpoint cstring (bs : list byte) : list byte :=
  match bs with
  | [] => []
  | c :: bs' => if bool_decide (c = x00) then [] else c :: cstring bs'
  end.

(** ** Running a filter *)

(** One file is read and one is written.  [io_chunks] are the sizes in which
    the kernel delivers the input: each [read] gives at least a byte, and at
    most what was asked for, until the input is at its end. *)
Record filter_io := mkIo {
  io_in : list byte;
  io_chunks : list nat;
  io_out : list byte
}.

Definition io_size (n : Z) (io : filter_io) : nat :=
  match io_chunks io with c :: _ => Nat.min (Z.to_nat n) (S c) | [] => Z.to_nat n end.
Definition io_read (n : Z) (io : filter_io) : (Z * list byte) * filter_io :=
  let k := io_size n io in
  let bs := take k (io_in io) in
  ((Z.of_nat (length bs), bs), mkIo (drop k (io_in io)) (tl (io_chunks io)) (io_out io)).
Definition io_write (bs : list byte) (io : filter_io) : Z * filter_io :=
  (Z.of_nat (length bs), mkIo (io_in io) (io_chunks io) (io_out io ++ bs)).

(** how a program ends, with the state of its environment *)
Inductive outcome (W A : Type) : Type :=
| Done (a : A) (w : W)
| Exited (status : Z) (w : W)
| Stuck.
Arguments Done {W A} a w.
Arguments Exited {W A} status w.
Arguments Stuck {W A}.

(** the filter reads from [fd] and writes to 1 *)
Fixpoint run_filter {A : Type} (fd : Z) (p : prog A) (io : filter_io) : outcome filter_io A :=
  match p with
  | Ret a => Done a io
  | Unfinished => Stuck
  | Sys c k =>
      match c in sys R return (R → prog A) → (R → filter_io → outcome filter_io A) → outcome filter_io A with
      | Read fd' n => λ _ run, if fd' =? fd then let '(r, io') := io_read n io in run r io' else Stuck
      | Write fd' bs => λ _ run, if fd' =? 1 then let '(r, io') := io_write bs io in run r io' else Stuck
      | Exit status => λ _ _, Exited status io
      | _ => λ _ _, Stuck
      end k (λ r, run_filter fd (k r))
  end.

Lemma run_filter_bind {A B} fd (p : prog A) (f : A → prog B) io :
  run_filter fd (pbind p f) io =
    match run_filter fd p io with
    | Done a io' => run_filter fd (f a) io'
    | Exited st io' => Exited st io'
    | Stuck => Stuck
    end.
Proof.
  revert io. induction p as [a|R c k IH|]; intros io; [done| |done].
  destruct c; simpl; try done.
  - case_match; [|done]. apply IH.
  - case_match; [|done]. apply IH.
Qed.

Lemma read_progress n io :
  0 < n → io_in io ≠ [] →
  ∃ bs io', io_read n io = ((Z.of_nat (length bs), bs), io') ∧ bs ≠ [] ∧ io_in io = bs ++ io_in io' ∧
    Z.of_nat (length bs) ≤ n ∧ io_out io' = io_out io.
Proof.
  intros Hn Hin. unfold io_read. cbv zeta.
  assert (Hk : (1 ≤ io_size n io ≤ Z.to_nat n)%nat) by (unfold io_size; case_match; lia). set (k := io_size n io) in *.
  eexists _, _. split; [done|]. split_and!.
  - destruct k as [|k]; [lia|]. by destruct (io_in io).
  - simpl. by rewrite take_drop.
  - rewrite length_take. lia.
  - done.
Qed.
Lemma read_end n io : io_in io = [] → io_read n io = ((0, []), mkIo [] (tl (io_chunks io)) (io_out io)).
Proof. intros E. unfold io_read. by rewrite E, take_nil, drop_nil. Qed.

(** ** Running a command on files *)

(** Files are read through descriptors; the descriptors 1 and 2 are for
    output. *)
Record world := mkWorld {
  w_files : gmap (list byte) (list byte);
  w_fds : gmap Z (list byte);
  w_chunks : list nat;
  w_out : list byte;
  w_err : list byte
}.
Definition lowest_fd (w : world) : option Z :=
  head (filter (λ fd, fd ≠ 1 ∧ fd ≠ 2 ∧ w_fds w !! fd = None) (seqZ 0 (Z.of_nat NOFILE))).

Definition set_fds (f : gmap Z (list byte) → gmap Z (list byte)) (w : world) : world :=
  mkWorld (w_files w) (f (w_fds w)) (w_chunks w) (w_out w) (w_err w).
Definition w_open (path : list byte) (w : world) : Z * world :=
  match w_files w !! path, lowest_fd w with
  | Some content, Some fd => (fd, set_fds <[fd := content]> w)
  | _, _ => (-1, w)
  end.
Definition w_read (fd n : Z) (w : world) : (Z * list byte) * world :=
  match w_fds w !! fd with
  | Some rest =>
      let '(r, io) := io_read n (mkIo rest (w_chunks w) []) in
      (r, mkWorld (w_files w) (<[fd := io_in io]> (w_fds w)) (io_chunks io) (w_out w) (w_err w))
  | None => ((-1, []), w)
  end.
Definition emit (fd : Z) (bs : list byte) (w : world) : world :=
  if fd =? 1 then mkWorld (w_files w) (w_fds w) (w_chunks w) (w_out w ++ bs) (w_err w)
  else mkWorld (w_files w) (w_fds w) (w_chunks w) (w_out w) (w_err w ++ bs).

Fixpoint run_world {A : Type} (p : prog A) (w : world) : outcome world A :=
  match p with
  | Ret a => Done a w
  | Unfinished => Stuck
  | Sys c k =>
      match c in sys R return (R → prog A) → (R → world → outcome world A) → outcome world A with
      | Read fd n => λ _ run, let '(r, w') := w_read fd n w in run r w'
      | Write fd bs => λ _ run, if (fd =? 1) || (fd =? 2) then run (Z.of_nat (length bs)) (emit fd bs w) else run (-1) w
      | Open path mode => λ _ run, if mode =? 0 then let '(fd, w') := w_open path w in run fd w' else Stuck
      | Close fd => λ _ run, match w_fds w !! fd with Some _ => run 0 (set_fds (delete fd) w) | None => run (-1) w end
      | Exit status => λ _ _, Exited status w
      | _ => λ _ _, Stuck
      end k (λ r, run_world (k r))
  end.

Lemma run_world_bind {A B} (p : prog A) (f : A → prog B) w :
  run_world (pbind p f) w =
    match run_world p w with
    | Done a w' => run_world (f a) w'
    | Exited st w' => Exited st w'
    | Stuck => Stuck
    end.
Proof.
  revert w. induction p as [a|R c k IH|]; intros w; [done| |done].
  destruct c; simpl; try done.
  - destruct (w_read fd n w). apply IH.
  - case_match; apply IH.
  - case_match; [|done]. destruct (w_open path w). apply IH.
  - case_match; apply IH.
Qed.

(** a filter does the same among the files *)
Definition with_io (fd : Z) (io : filter_io) (w : world) : world :=
  mkWorld (w_files w) (<[fd := io_in io]> (w_fds w)) (io_chunks io) (io_out io) (w_err w).
Lemma run_world_filter {A} fd (p : prog A) io a io' w :
  run_filter fd p io = Done a io' → run_world p (with_io fd io w) = Done a (with_io fd io' w).
Proof.
  revert io. induction p as [a'|R c k IH|]; intros io; simpl; [by intros [= -> ->]| |done].
  destruct c; simpl; try done.
  - destruct (Z.eqb_spec fd0 fd) as [->|]; [|done]. intros H. unfold w_read. simpl. rewrite lookup_insert_eq.
    apply IH in H. rewrite <- H. unfold io_read, with_io, io_size. simpl. by rewrite insert_insert_eq.
  - destruct (Z.eqb_spec fd0 1) as [->|]; [|done]. intros H. by apply IH in H.
Qed.

(** ** Output *)

(** the program writes [bs] to [fd] and does nothing else *)
Definition prints (fd : Z) (bs : list byte) (p : prog unit) : Prop :=
  (fd = 1 ∨ fd = 2) ∧ ∀ w, run_world p w = Done tt (emit fd bs w).

Lemma emit_nil fd w : emit fd [] w = w.
Proof. destruct w. unfold emit. simpl. by case_match; rewrite app_nil_r. Qed.
Lemma emit_app fd bs cs w : emit fd cs (emit fd bs w) = emit fd (bs ++ cs) w.
Proof. unfold emit. case_match; simpl; by rewrite <- app_assoc. Qed.
Lemma prints_ret fd : fd = 1 ∨ fd = 2 → prints fd [] (Ret tt).
Proof. intros Hfd. split; [done|]. intros w. simpl. by rewrite emit_nil. Qed.
Lemma prints_bind fd bs cs p q : prints fd bs p → prints fd cs q → prints fd (bs ++ cs) (p ;! q).
Proof. intros [Hfd Hp] [_ Hq]. split; [done|]. intros w. by rewrite run_world_bind, Hp, Hq, emit_app. Qed.
Lemma prints_write fd bs : fd = 1 ∨ fd = 2 → prints fd bs (call (Write fd bs) ;! Ret tt).
Proof. intros Hfd. split; [done|]. intros w. simpl. by destruct Hfd as [-> | ->]. Qed.
Lemma prints_for {A} fd (l : list A) f g : fd = 1 ∨ fd = 2 → (∀ a, prints fd (f a) (g a)) → prints fd (concat (f <$> l)) (pfor l g).
Proof.
  intros Hfd Hg. induction l as [|a l IH]; simpl; [by apply prints_ret|]. by apply prints_bind.
Qed.
