(* ===== verification/Ulib.v ===== *)
(** * The user library (src/user/ulib.c)

    The routines on strings are on the bytes before the NUL, those that write
    are on the memory of the process. *)

From S2P Require Import Prelude Mem User.

Fixpoint strcmp (p q : list byte) : Z :=
  match p with
  | [] => 0 - byte.unsigned (chr q)
  | c :: p' => if bool_decide (c = chr q) then strcmp p' (tl q) else byte.unsigned c - byte.unsigned (chr q)
  end.
Definition strlen (s : list byte) : Z := u32 (Z.of_nat (length s)).
(** the rest of the string from the byte, if it is there *)
Fixpoint strchr (s : list byte) (c : byte) : option (list byte) :=
  match s with
  | [] => None
  | d :: s' => if bool_decide (d = c) then Some s else strchr s' c
  end.
Fixpoint atoi_loop (n : Z) (s : list byte) : Z :=
  match s with
  | c :: s' =>
      let d := byte.unsigned c in
      if (48 <=? d) && (d <=? 57) then atoi_loop (i32 (n * 10 + d - 48)) s' else n
  | [] => n
  end.
Definition atoi (s : list byte) : Z := atoi_loop 0 s.

(** the buffer holds [acc] so far; it has room for [max] bytes *)
Definition gets (max : Z) : prog (list byte) :=
  ploop (S (Z.to_nat max)) (λ acc,
    if negb (Z.of_nat (length acc) + 1 <? max) then Ret (inr acc) else
    let! '(cc, bs) := call (Read 0 1) in
    if cc <? 1 then Ret (inr acc) else
    let c := chr bs in
    if bool_decide (c = x0a) || bool_decide (c = x0d) then Ret (inr (acc ++ [c]))
    else Ret (inl (acc ++ [c]))) [].

Definition stat (n : list byte) : prog (Z * ustat) :=
  let! fd := call (Open n 0) in
  if fd <? 0 then Ret (-1, mkUstat 0 0 0 0 0) else
  let! '(r, st) := call (Fstat fd) in
  call (Close fd) ;!
  Ret (r, st).

(** ** Routines on memory *)

Fixpoint strcpy_loop (fuel : nat) (s t : Z) (m : gmap Z byte) : option (gmap Z byte) :=
  match fuel with
  | O => None
  | S fuel' =>
      let c := ld8 m t in
      let m' := <[s := c]> m in
      if bool_decide (c = x00) then Some m' else strcpy_loop fuel' (s + 1) (t + 1) m'
  end.
Definition strcpy (fuel : nat) (s t : Z) (m : gmap Z byte) : option (gmap Z byte) := strcpy_loop fuel s t m.

Definition memset (dst c n : Z) (m : gmap Z byte) : gmap Z byte := memset_loop (Z.to_nat n) dst (byte.of_Z c) m.

Definition memmove (vdst vsrc n : Z) (m : gmap Z byte) : gmap Z byte :=
  if vdst <? vsrc then copy_up (Z.to_nat n) vdst vsrc m
  else copy_down (Z.to_nat n) (vdst + n) (vsrc + n) m.

Definition memcmp (s1 s2 n : Z) (m : gmap Z byte) : Z := memcmp_loop (Z.to_nat n) s1 s2 m.
Definition memcpy (dst src n : Z) (m : gmap Z byte) : gmap Z byte := memmove dst src n m.
