(* ===== verification/Grep.v ===== *)
(** * grep (src/user/grep.c)

    The matcher of regular expressions and the loop over the lines of a file.
    The matcher is equivalent to a denotational semantics of its patterns, and
    the loop prints the lines of its input that match, however the kernel cuts
    the input into reads. *)

From S2P Require Import Prelude Mem User Ulib.

(** ** The matcher *)

(** [matchstar(c, re, text)]; [here] is [matchhere(re, .)] *)
Fixpoint matchstar (here : list byte → bool) (c : byte) (text : list byte) : bool :=
  if here text then true
  else match text with
       | [] => false
       | t :: text' => if bool_decide (t = c) || bool_decide (c = x2e) then matchstar here c text' else false
       end.

Fixpoint matchhere (re text : list byte) : bool :=
  match re with
  | [] => true
  | r0 :: re1 =>
      let plain :=
        if bool_decide (r0 = x24) && bool_decide (re1 = []) then bool_decide (text = [])
        else match text with
             | t :: text' => if bool_decide (r0 = x2e) || bool_decide (r0 = t) then matchhere re1 text' else false
             | [] => false
             end in
      match re1 with
      | r1 :: re2 => if bool_decide (r1 = x2a) then matchstar (matchhere re2) r0 text else plain
      | [] => plain
      end
  end.

Fixpoint match_loop (re text : list byte) : bool :=
  if matchhere re text then true
  else match text with [] => false | _ :: text' => match_loop re text' end.
Definition match_ (re text : list byte) : bool :=
  match re with
  | r0 :: re1 => if bool_decide (r0 = x5e) then matchhere re1 text else match_loop re text
  | [] => match_loop re text
  end.

(** ** The lines of a file *)

(** the loop [while((q = strchr(p, '\n')) != 0)] from [p]: the value of [p] after it *)
Fixpoint grep_lines (fuel : nat) (pattern p : list byte) : prog (list byte) :=
  match fuel with
  | O => Unfinished
  | S fuel' =>
      match strchr (cstring p) x0a with
      | None => Ret p
      | Some q =>
          let n := (length (cstring p) - length q)%nat in
          let line := take n p in
          (if match_ pattern line then call (Write 1 (line ++ [x0a])) ;! Ret tt else Ret tt) ;!
          grep_lines fuel' pattern (drop (S n) p)
      end
  end.

(** [buf] holds the [m] bytes that are left of an unfinished line *)
Definition grep (fuel : nat) (pattern : list byte) (fd : Z) : prog unit :=
  ploop fuel (λ buf,
    let! '(n, bs) := call (Read fd (1024 - Z.of_nat (length buf) - 1)) in
    if negb (0 <? n) then Ret (inr tt) else
    let buf1 := buf ++ bs in
    let! p := grep_lines (S (length buf1)) pattern buf1 in
    Ret (inl p)) [].

(** ** Patterns and what they denote *)

Inductive atom := AnyByte | Only (c : byte).
Inductive item := One (a : atom) | Many (a : atom).
Record pattern := mkPattern {
  at_start : bool;
  items : list item;
  at_end : bool
}.

Definition atom_of (c : byte) : atom := if bool_decide (c = x2e) then AnyByte else Only c.
Definition accepts (a : atom) (c : byte) : Prop := match a with AnyByte => True | Only d => c = d end.

(** the syntax: a star follows the byte it repeats, ^ and $ are at the ends *)
Fixpoint parse_items (re : list byte) : list item * bool :=
  match re with
  | [] => ([], false)
  | r0 :: re1 =>
      let plain :=
        if bool_decide (r0 = x24) && bool_decide (re1 = []) then ([], true)
        else let '(its, e) := parse_items re1 in (One (atom_of r0) :: its, e) in
      match re1 with
      | r1 :: re2 =>
          if bool_decide (r1 = x2a) then let '(its, e) := parse_items re2 in (Many (atom_of r0) :: its, e) else plain
      | [] => plain
      end
  end.
Definition parse (re : list byte) : pattern :=
  match re with
  | r0 :: re1 =>
      if bool_decide (r0 = x5e) then let '(its, e) := parse_items re1 in mkPattern true its e
      else let '(its, e) := parse_items re in mkPattern false its e
  | [] => mkPattern false [] false
  end.

Definition item_lang (i : item) (w : list byte) : Prop :=
  match i with
  | One a => ∃ c, w = [c] ∧ accepts a c
  | Many a => Forall (accepts a) w
  end.
Inductive items_lang : list item → list byte → Prop :=
| lang_nil : items_lang [] []
| lang_cons i its w1 w2 : item_lang i w1 → items_lang its w2 → items_lang (i :: its) (w1 ++ w2).

(** somewhere in the text, or at its ends where the pattern says so *)
Definition denotes (p : pattern) (text : list byte) : Prop :=
  ∃ pre w post, text = pre ++ w ++ post ∧ items_lang (items p) w ∧
    (at_start p = true → pre = []) ∧ (at_end p = true → post = []).

(** ** The matcher is the semantics *)

Definition here_denotes (ie : list item * bool) (text : list byte) : Prop :=
  ∃ w post, text = w ++ post ∧ items_lang ie.1 w ∧ (ie.2 = true → post = []).

Lemma atom_of_accepts c t : accepts (atom_of c) t ↔ bool_decide (t = c) || bool_decide (c = x2e) = true.
Proof. unfold atom_of. repeat case_bool_decide; simpl; naive_solver. Qed.

Lemma here_many a its e text :
  here_denotes (Many a :: its, e) text ↔ ∃ w rest, text = w ++ rest ∧ Forall (accepts a) w ∧ here_denotes (its, e) rest.
Proof.
  split.
  - intros (w & post & -> & Hl & He). inversion Hl as [|? ? w1 w2 H1 H2]; subst.
    exists w1, (w2 ++ post). rewrite app_assoc. split_and!; [done..|]. by exists w2, post.
  - intros (w & rest & -> & Hw & w2 & post & -> & Hl & He). exists (w ++ w2), post. rewrite app_assoc.
    split_and!; [done|by constructor|done].
Qed.
Lemma here_one a its e text :
  here_denotes (One a :: its, e) text ↔ ∃ c rest, text = c :: rest ∧ accepts a c ∧ here_denotes (its, e) rest.
Proof.
  split.
  - intros (w & post & -> & Hl & He). inversion Hl as [|? ? w1 w2 H1 H2]; subst. destruct H1 as (c & -> & Hc).
    exists c, (w2 ++ post). split_and!; [done..|]. by exists w2, post.
  - intros (c & rest & -> & Hc & w2 & post & -> & Hl & He). exists ([c] ++ w2), post.
    split_and!; [done|constructor; [by exists c|done]|done].
Qed.

Lemma matchstar_spec here (P : list byte → Prop) c text :
  (∀ t, here t = true ↔ P t) →
  matchstar here c text = true ↔ ∃ w rest, text = w ++ rest ∧ Forall (accepts (atom_of c)) w ∧ P rest.
Proof.
  intros Hh. induction text as [|t text IH]; simpl; destruct (here _) eqn:Eh.
  1, 3: split; [intros _|done]; eexists [], _; by rewrite <- Hh.
  - split; [done|]. intros (w & rest & E & _ & HP). destruct w; [|done]. simpl in E. subst. apply Hh in HP. congruence.
  - destruct (bool_decide (t = c) || bool_decide (c = x2e)) eqn:Ea.
    + rewrite IH. apply atom_of_accepts in Ea. split.
      * intros (w & rest & -> & Hw & HP). exists (t :: w), rest. split_and!; [done|by constructor|done].
      * intros (w & rest & E & Hw & HP). destruct w as [|t' w]; simpl in E.
        { subst rest. apply Hh in HP. congruence. }
        injection E as -> ->. inversion Hw; subst. by exists w, rest.
    + split; [done|]. intros (w & rest & E & Hw & HP). destruct w as [|t' w]; simpl in E.
      { subst rest. apply Hh in HP. congruence. }
      injection E as -> ->. inversion Hw as [|? ? Ht]; subst. apply atom_of_accepts in Ht. congruence.
Qed.

(** recursion on a pattern takes one byte or two *)
Lemma pattern_ind (P : list byte → Prop) :
  P [] → (∀ r, P [r]) → (∀ r0 r1 re, P re → P (r1 :: re) → P (r0 :: r1 :: re)) → ∀ re, P re.
Proof.
  intros H0 H1 H2 re. cut (P re ∧ ∀ r, P (r :: re)); [tauto|].
  induction re as [|r1 re [IH IH1]]; [done|]. split; [done|]. intros r. by apply H2.
Qed.

Lemma here_nil e text : here_denotes ([], e) text ↔ (e = true → text = []).
Proof.
  split.
  - intros (w & post & -> & Hl & He). by inversion Hl; subst.
  - intros He. exists [], text. split_and!; [done|constructor|done].
Qed.

(** the case of a byte that no star follows *)
Lemma plain_spec r0 re1 text :
  (∀ t, matchhere re1 t = true ↔ here_denotes (parse_items re1) t) →
  (if bool_decide (r0 = x24) && bool_decide (re1 = []) then bool_decide (text = [])
   else match text with
        | t :: text' => if bool_decide (r0 = x2e) || bool_decide (r0 = t) then matchhere re1 text' else false
        | [] => false
        end) = true ↔
  here_denotes (if bool_decide (r0 = x24) && bool_decide (re1 = []) then ([], true)
    else let '(its, e) := parse_items re1 in (One (atom_of r0) :: its, e)) text.
Proof.
  intros IH. destruct (bool_decide (r0 = x24) && bool_decide (re1 = [])).
  { rewrite here_nil, bool_decide_eq_true. naive_solver. }
  destruct (parse_items re1) as [its e]. rewrite here_one. destruct text as [|t text].
  { split; [done|]. intros (? & ? & ? & _). done. }
  assert (Ea : accepts (atom_of r0) t ↔ bool_decide (r0 = x2e) || bool_decide (r0 = t) = true).
  { rewrite atom_of_accepts. repeat case_bool_decide; naive_solver. }
  destruct (bool_decide (r0 = x2e) || bool_decide (r0 = t)).
  - rewrite IH. naive_solver.
  - split; [done|]. intros (c & rest & [= <- <-] & Hc & _). by apply Ea in Hc.
Qed.

Lemma matchhere_spec re : ∀ text, matchhere re text = true ↔ here_denotes (parse_items re) text.
Proof.
  induction re as [|r|r0 r1 re IH IH1] using pattern_ind; intros text.
  - simpl. rewrite here_nil. naive_solver.
  - apply (plain_spec r []). intros t. simpl. rewrite here_nil. naive_solver.
  - cbn [matchhere parse_items]. destruct (bool_decide (r1 = x2a)) eqn:Es.
    + destruct (parse_items re) as [its e] eqn:Ep. rewrite here_many.
      apply (matchstar_spec _ (here_denotes (its, e))). exact IH.
    + apply (plain_spec r0 (r1 :: re)). exact IH1.
Qed.

Lemma match_loop_spec re text :
  match_loop re text = true ↔ ∃ pre rest, text = pre ++ rest ∧ here_denotes (parse_items re) rest.
Proof.
  induction text as [|t text IH]; simpl; destruct (matchhere re _) eqn:Eh.
  1, 3: split; [intros _|done]; eexists [], _; by rewrite <- matchhere_spec.
  - split; [done|]. intros (pre & rest & E & HP). destruct pre; [|done]. simpl in E. subst. apply matchhere_spec in HP. congruence.
  - rewrite IH. split.
    + intros (pre & rest & -> & HP). by exists (t :: pre), rest.
    + intros (pre & rest & E & HP). destruct pre as [|t' pre]; simpl in E.
      { subst. apply matchhere_spec in HP. congruence. }
      injection E as -> ->. by exists pre, rest.
Qed.

(** C24: the matcher answers yes exactly for the texts that the pattern denotes:
    some part of the text (its beginning after ^, its end before $) is a
    concatenation of bytes, arbitrary bytes and repetitions, as the pattern
    lists them. *)
Theorem match_denotes re text : match_ re text = true ↔ denotes (parse re) text.
Proof.
  assert (Hloop : ∀ re, match_loop re text = true ↔
    denotes (let '(its, e) := parse_items re in mkPattern false its e) text).
  { intros re'. rewrite match_loop_spec. destruct (parse_items re') as [its e]. unfold denotes, here_denotes. simpl. naive_solver. }
  unfold match_, parse. destruct re as [|r0 re1]; [apply (Hloop [])|].
  case_bool_decide; [|apply Hloop]. rewrite matchhere_spec. destruct (parse_items re1) as [its e].
  unfold denotes, here_denotes. simpl. split.
  - intros (w & post & -> & Hl & He). by exists [], w, post.
  - intros (pre & w & post & -> & Hl & Hs & He). rewrite Hs by done. by exists w, post.
Qed.

(** ** The loop prints the lines that match *)

(** the complete lines of a text, and what follows the last newline *)
Fixpoint split_lines (s : list byte) : list (list byte) * list byte :=
  match s with
  | [] => ([], [])
  | c :: s' =>
      let '(ls, rest) := split_lines s' in
      if bool_decide (c = x0a) then ([] :: ls, rest)
      else match ls with [] => ([], c :: rest) | l :: ls' => ((c :: l) :: ls', rest) end
  end.
Definition selected (pattern s : list byte) : list byte :=
  concat ((λ l, l ++ [x0a]) <$> filter (λ l, match_ pattern l = true) (split_lines s).1).

Lemma split_line l s : x0a ∉ l → split_lines (l ++ x0a :: s) = (l :: (split_lines s).1, (split_lines s).2).
Proof.
  induction l as [|c l IH]; intros Hl; simpl.
  - by destruct (split_lines s).
  - rewrite IH by set_solver. rewrite bool_decide_false by set_solver. done.
Qed.
Lemma split_no_line l : x0a ∉ l → split_lines l = ([], l).
Proof.
  induction l as [|c l IH]; intros Hl; simpl; [done|]. rewrite IH by set_solver. by rewrite bool_decide_false by set_solver.
Qed.
Lemma first_line s : x0a ∉ s ∨ ∃ l s', s = l ++ x0a :: s' ∧ x0a ∉ l.
Proof.
  induction s as [|c s [IH|(l & s' & -> & Hl)]]; [left; set_solver| |].
  - destruct (decide (c = x0a)) as [->|Hc]; [right; exists [], s; set_solver|left; set_solver].
  - destruct (decide (c = x0a)) as [->|Hc]; right; [exists [], (l ++ x0a :: s'); set_solver|exists (c :: l), s'; set_solver].
Qed.

Lemma strchr_first l s c : c ∉ l → strchr (l ++ c :: s) c = Some (c :: s).
Proof.
  induction l as [|d l IH]; intros Hl; simpl; [by rewrite bool_decide_true|]. rewrite bool_decide_false by set_solver. apply IH. set_solver.
Qed.
Lemma strchr_none s c : c ∉ s → strchr s c = None.
Proof. induction s as [|d s IH]; intros Hs; simpl; [done|]. rewrite bool_decide_false by set_solver. apply IH. set_solver. Qed.
Lemma cstring_id s : x00 ∉ s → cstring s = s.
Proof. induction s as [|d s IH]; intros Hs; simpl; [done|]. rewrite bool_decide_false by set_solver. by rewrite IH by set_solver. Qed.

Lemma split_app s t :
  split_lines (s ++ t) =
    ((split_lines s).1 ++ (split_lines ((split_lines s).2 ++ t)).1, (split_lines ((split_lines s).2 ++ t)).2).
Proof.
  induction s as [s IH] using (induction_ltof1 _ length). unfold ltof in IH.
  destruct (first_line s) as [Hs|(l & s' & -> & Hl)].
  - rewrite (split_no_line s Hs). simpl. by destruct (split_lines (s ++ t)).
  - rewrite <- app_assoc. simpl. rewrite !split_line by done. simpl.
    rewrite (IH s') by (rewrite length_app; simpl; lia). done.
Qed.
Lemma split_rest s : x0a ∉ (split_lines s).2 ∧ ∀ c, c ∈ (split_lines s).2 → c ∈ s.
Proof.
  induction s as [s IH] using (induction_ltof1 _ length). unfold ltof in IH.
  destruct (first_line s) as [Hs|(l & s' & -> & Hl)]; [by rewrite split_no_line|].
  rewrite split_line by done. simpl. destruct (IH s') as [H1 H2]; [rewrite length_app; simpl; lia|]. set_solver.
Qed.
Lemma selected_app pattern s t :
  selected pattern (s ++ t) = selected pattern s ++ selected pattern ((split_lines s).2 ++ t).
Proof. unfold selected. rewrite split_app. simpl. by rewrite filter_app, fmap_app, concat_app. Qed.

Lemma grep_lines_ok fd pattern fuel : ∀ s io, x00 ∉ s → (length s < fuel)%nat →
  run_filter fd (grep_lines fuel pattern s) io =
    Done (split_lines s).2 (mkIo (io_in io) (io_chunks io) (io_out io ++ selected pattern s)).
Proof.
  induction fuel as [|fuel IH]; intros s io H0 Hf; [lia|]. cbn [grep_lines]. rewrite cstring_id by done.
  destruct (first_line s) as [Hs|(l & s' & -> & Hl)].
  - rewrite strchr_none by done. unfold selected. rewrite split_no_line by done. simpl. rewrite app_nil_r. by destruct io.
  - rewrite strchr_first by done.
    replace (length (l ++ x0a :: s') - length (x0a :: s'))%nat with (length l) by (rewrite length_app; lia).
    rewrite take_app_length. rewrite run_filter_bind.
    assert (Ed : drop (S (length l)) (l ++ x0a :: s') = s').
    { rewrite <- Nat.add_1_r. by rewrite drop_app_add. }
    rewrite Ed. rewrite length_app in Hf. simpl in Hf. unfold selected. rewrite split_line by done. cbn [fst snd].
    rewrite filter_cons. destruct (match_ pattern l) eqn:Em; [rewrite decide_True by done|rewrite decide_False by done].
    + simpl. rewrite IH by (set_solver || lia). simpl. by rewrite <- app_assoc.
    + simpl. rewrite IH by (set_solver || lia). done.
Qed.

(** every line, and what follows the last one, fits in the buffer *)
Definition fits (s : list byte) : Prop :=
  Forall (λ l, (length l ≤ 1022)%nat) (split_lines s).1 ∧ (length (split_lines s).2 ≤ 1022)%nat.

Lemma fits_app s t : fits (s ++ t) → fits ((split_lines s).2 ++ t).
Proof. unfold fits. rewrite split_app. simpl. rewrite Forall_app. tauto. Qed.
Lemma fits_prefix r t : x0a ∉ r → fits (r ++ t) → (length r ≤ 1022)%nat.
Proof.
  intros Hr. unfold fits. destruct (first_line t) as [Ht|(l & t' & -> & Hl)].
  - rewrite split_no_line by set_solver. simpl. rewrite length_app. lia.
  - rewrite app_assoc, split_line by set_solver. simpl. rewrite Forall_cons, length_app. lia.
Qed.

Lemma grep_loop_ok fd pattern fuel : ∀ buf io,
  x00 ∉ buf ++ io_in io → x0a ∉ buf → fits (buf ++ io_in io) → (length (io_in io) < fuel)%nat →
  ∃ io', run_filter fd (ploop fuel (λ buf,
    let! '(n, bs) := call (Read fd (1024 - Z.of_nat (length buf) - 1)) in
    if negb (0 <? n) then Ret (inr tt) else
    let buf1 := buf ++ bs in
    let! p := grep_lines (S (length buf1)) pattern buf1 in
    Ret (inl p)) buf) io = Done tt io' ∧ io_out io' = io_out io ++ selected pattern (buf ++ io_in io).
Proof.
  induction fuel as [|fuel IH]; intros buf io H0 Hb Hfit Hf; [lia|]. cbn [ploop].
  rewrite !run_filter_bind. cbn [call run_filter]. rewrite Z.eqb_refl.
  destruct (io_in io) as [|c0 rest0] eqn:Ei.
  { rewrite read_end by done. simpl. eexists. split; [done|]. simpl. rewrite app_nil_r. unfold selected.
    rewrite split_no_line by done. simpl. by rewrite app_nil_r. }
  assert (Hlen := fits_prefix buf _ Hb Hfit).
  destruct (read_progress (1024 - Z.of_nat (length buf) - 1) io) as (bs & io1 & -> & Hbs & Ein & Hle & Hout); [lia|by rewrite Ei|].
  rewrite Ei in Ein. rewrite Ein in *. cbn [run_filter].
  assert (Hpos : (0 < length bs)%nat) by (destruct bs; [done|simpl; lia]).
  rewrite (proj2 (Z.ltb_lt 0 _)) by lia. cbn [negb]. cbv zeta.
  rewrite run_filter_bind, grep_lines_ok by (set_solver || lia). cbn [run_filter].
  rewrite app_assoc in Hfit. destruct (split_rest (buf ++ bs)) as [Hr1 Hr2].
  set (io2 := mkIo (io_in io1) (io_chunks io1) (io_out io1 ++ selected pattern (buf ++ bs))).
  destruct (IH (split_lines (buf ++ bs)).2 io2) as (io' & Hrun & Hout').
  - change (io_in io2) with (io_in io1). intros Hin. apply H0. set_solver.
  - done.
  - by apply fits_app.
  - change (io_in io2) with (io_in io1). rewrite length_app in Hf. lia.
  - exists io'. split; [exact Hrun|]. rewrite Hout'. unfold io2. simpl. rewrite Hout, <- app_assoc. f_equal.
    by rewrite <- selected_app, app_assoc.
Qed.


