(* ===== verification/Umalloc.v ===== *)
(** * The user memory allocator (src/user/umalloc.c)

    [malloc] and [free] of Kernighan and Ritchie on the memory of a process: the
    free blocks form a circular list in order of their addresses, which starts
    at the static header [base].  A header is 16 bytes, the pointer and the size
    in units of a header.  [sbrk] is the system call: it moves the end of the
    memory, within what the kernel allows. *)

From S2P Require Import Prelude Mem.

Record uheap := mkUheap {
  u_mem : gmap Z byte;
  u_freep : Z;
  u_brk : Z;  (* the size of the process *)
  u_lim : Z  (* how far the kernel lets it grow *)
}.
Abbreviation U := (M Empty_set uheap).

Section Umalloc.
Context (base : Z).  (* the address of the static header *)

Definition HDR : Z := 16.
Definition hptr (m : gmap Z byte) (a : Z) : Z := ld64 m a.
Definition hsize (m : gmap Z byte) (a : Z) : Z := ld32 m (a + 8).
Definition ptr_of (a : Z) : U Z := gets (λ s, hptr (u_mem s) a).
Definition size_of (a : Z) : U Z := gets (λ s, hsize (u_mem s) a).
Definition set_mem (f : gmap Z byte → gmap Z byte) : U unit :=
  modify (λ s, mkUheap (f (u_mem s)) (u_freep s) (u_brk s) (u_lim s)).
Definition set_ptr (a v : Z) : U unit := set_mem (st64 a v).
Definition set_size (a v : Z) : U unit := set_mem (st32 (a + 8) v).
Definition set_freep (p : Z) : U unit := modify (λ s, mkUheap (u_mem s) p (u_brk s) (u_lim s)).

(** the argument is an int; growproc keeps the size when it would become negative *)
Definition sbrk (n : Z) : U Z := λ s,
  let n := i32 n in
  let new := if u_brk s + n <? 0 then u_brk s else u_brk s + n in
  if new <=? u_lim s then Ok (u_brk s) (mkUheap (u_mem s) (u_freep s) new (u_lim s))
  else Ok (u64 (-1)) s.

(** [for(p = freep; !(bp > p && bp < p->s.ptr); p = p->s.ptr) ...] *)
Definition free_scan (fuel : nat) (bp : Z) : U Z :=
  let* freep := gets u_freep in
  iterate fuel (λ p,
    let* nx := ptr_of p in
    if (p <? bp) && (bp <? nx) then ret (inr p)
    else if (nx <=? p) && ((p <? bp) || (bp <? nx)) then ret (inr p)
    else ret (inl nx)) freep.

Definition free (fuel : nat) (ap : Z) : U unit :=
  let bp := u64 (ap - HDR) in
  let* p := free_scan fuel bp in
  let* sz := size_of bp in
  let* nx := ptr_of p in
  (if u64 (bp + HDR * sz) =? nx then
     let* nsz := size_of nx in
     set_size bp (u32 (sz + nsz)) ;;;
     let* nnx := ptr_of nx in
     set_ptr bp nnx
   else set_ptr bp nx) ;;;
  let* psz := size_of p in
  (if u64 (p + HDR * psz) =? bp then
     let* bsz := size_of bp in
     set_size p (u32 (psz + bsz)) ;;;
     let* bnx := ptr_of bp in
     set_ptr p bnx
   else set_ptr p bp) ;;;
  set_freep p.

Definition morecore (fuel : nat) (nu : Z) : U Z :=
  let nu := if nu <? 4096 then 4096 else nu in
  let* p := sbrk (u64 (nu * HDR)) in
  if p =? u64 (-1) then ret 0 else
  set_size p nu ;;;
  free fuel (u64 (p + HDR)) ;;;
  gets u_freep.

Definition nunits_of (nbytes : Z) : Z := u32 ((nbytes + HDR - 1) / HDR + 1).

(** one round of the loop [for(p = prevp->s.ptr; ; prevp = p, p = p->s.ptr)] *)
Definition malloc_body (fuel : nat) (nunits : Z) (pp : Z * Z) : U (Z * Z + Z) :=
  let '(prevp, p) := pp in
  let* sz := size_of p in
  if nunits <=? sz then
    (if sz =? nunits then
       let* nx := ptr_of p in
       set_ptr prevp nx ;;;
       set_freep prevp ;;;
       ret (inr (u64 (p + HDR)))
     else
       set_size p (u32 (sz - nunits)) ;;;
       let* sz' := size_of p in
       let p := u64 (p + HDR * sz') in
       set_size p nunits ;;;
       set_freep prevp ;;;
       ret (inr (u64 (p + HDR))))
  else
    let next p := let* nx := ptr_of p in ret (inl (p, nx)) in
    let* freep := gets u_freep in
    if p =? freep then
      let* p := morecore fuel nunits in
      if p =? 0 then ret (inr 0) else next p
    else next p.

Definition malloc (fuel : nat) (nbytes : Z) : U Z :=
  let nunits := nunits_of nbytes in
  let* freep := gets u_freep in
  when (freep =? 0)
    (set_freep base ;;; set_ptr base base ;;; set_size base 0) ;;;
  let* prevp := gets u_freep in
  let* p := ptr_of prevp in
  iterate fuel (malloc_body fuel nunits) (prevp, p).
End Umalloc.

(** ** Headers in memory *)

Lemma ld32_ext m m' a a' : (∀ i, 0 ≤ i < 4 → ld8 m (a + i) = ld8 m' (a' + i)) → ld32 m a = ld32 m' a'.
Proof. intros H. unfold ld32. f_equal. apply ldbytes_ext. intros i Hi. apply H. lia. Qed.
Lemma ld32_st32_same a v m : 0 ≤ v < 2 ^ 32 → ld32 (st32 a v m) a = v.
Proof.
  intros Hv. unfold ld32, st32. rewrite <- (length_le_split 4 v) at 1. rewrite ldbytes_stbytes_same, le_combine_split.
  by apply Z.mod_small.
Qed.
Lemma ld8_st32_out a x v m : ¬ (a ≤ x < a + 4) → ld8 (st32 a v m) x = ld8 m x.
Proof. intros H. unfold st32. apply ld8_stbytes_out. rewrite length_le_split. lia. Qed.

(** memory that changed only in the header at [a] *)
Definition header_only (a : Z) (m m' : gmap Z byte) : Prop := ∀ x, ¬ (a ≤ x < a + HDR) → ld8 m' x = ld8 m x.

Lemma header_keep a b m m' : header_only a m m' → b + HDR ≤ a ∨ a + HDR ≤ b → hptr m' b = hptr m b ∧ hsize m' b = hsize m b.
Proof.
  intros Hm Hd. unfold HDR in *. split; [apply ld64_ext|apply ld32_ext]; intros i Hi; apply Hm; unfold HDR; lia.
Qed.
Lemma set_ptr_ok a v m : 0 ≤ v < 2 ^ 64 → header_only a m (st64 a v m) ∧ hptr (st64 a v m) a = v ∧ hsize (st64 a v m) a = hsize m a.
Proof.
  intros Hv. split_and!.
  - intros x Hx. apply ld8_st64_out. unfold HDR in Hx. lia.
  - by apply ld64_st64_same.
  - apply ld32_ext. intros i Hi. apply ld8_st64_out. lia.
Qed.
Lemma set_size_ok a v m : 0 ≤ v < 2 ^ 32 → header_only a m (st32 (a + 8) v m) ∧ hptr (st32 (a + 8) v m) a = hptr m a ∧ hsize (st32 (a + 8) v m) a = v.
Proof.
  intros Hv. split_and!.
  - intros x Hx. apply ld8_st32_out. unfold HDR in Hx. lia.
  - apply ld64_ext. intros i Hi. apply ld8_st32_out. lia.
  - by apply ld32_st32_same.
Qed.
Lemma header_trans a m1 m2 m3 : header_only a m1 m2 → header_only a m2 m3 → header_only a m1 m3.
Proof. intros H1 H2 x Hx. by rewrite H2, H1. Qed.

(** ** The free list *)

Definition next (l : list (Z * Z)) (e : Z) : Z := match l with (a, _) :: _ => a | [] => e end.
Fixpoint links (m : gmap Z byte) (l : list (Z * Z)) (e : Z) : Prop :=
  match l with
  | [] => True
  | (a, z) :: l' => hsize m a = z ∧ hptr m a = next l' e ∧ links m l' e
  end.
(** blocks in order, with a gap before each *)
Fixpoint ordered (lo : Z) (l : list (Z * Z)) : Prop :=
  match l with
  | [] => True
  | (a, z) :: l' => lo < a ∧ 1 ≤ z ∧ ordered (a + HDR * z) l'
  end.
Definition in_block (b : Z * Z) (x : Z) : Prop := b.1 ≤ x < b.1 + HDR * b.2.
Definition in_free (l : list (Z * Z)) (x : Z) : Prop := ∃ b, b ∈ l ∧ in_block b x.

Lemma links_app m l1 l2 e : links m (l1 ++ l2) e ↔ links m l1 (next l2 e) ∧ links m l2 e.
Proof.
  induction l1 as [|[a z] l1 IH]; simpl; [tauto|]. rewrite IH. destruct l1 as [|[a' z'] l1]; simpl; tauto.
Qed.
Lemma links_frame m m' l e :
  (∀ b, b ∈ l → hptr m' b.1 = hptr m b.1 ∧ hsize m' b.1 = hsize m b.1) → links m l e → links m' l e.
Proof.
  induction l as [|[a z] l IH]; intros Hm; simpl; [done|]. intros (Hz & Hp & Hl).
  destruct (Hm (a, z)) as [Ep Ez]; [set_solver|]. simpl in Ep, Ez. rewrite Ep, Ez. split_and!; [done..|]. apply IH; [set_solver|done].
Qed.
Lemma ordered_app lo l1 a z l2 : ordered lo (l1 ++ (a, z) :: l2) ↔ ordered lo (l1 ++ [(a, z)]) ∧ ordered (a + HDR * z) l2.
Proof. revert lo. induction l1 as [|[b y] l1 IH]; intros lo; simpl; [tauto|]. rewrite IH. tauto. Qed.
Lemma ordered_weaken lo lo' l : lo' ≤ lo → ordered lo l → ordered lo' l.
Proof. destruct l as [|[a z] l]; simpl; [done|]. intros ? (? & ? & ?). split_and!; [lia|done..]. Qed.
Lemma ordered_above lo l b : ordered lo l → b ∈ l → lo < b.1 ∧ 1 ≤ b.2.
Proof.
  revert lo. induction l as [|[a z] l IH]; intros lo; simpl; [set_solver|]. intros (Ha & Hz & Hl) [->|Hb]%elem_of_cons; [done|].
  destruct (IH _ Hl Hb). unfold HDR in *. lia.
Qed.

(** a block that overlaps no free block has its place between two of them *)
Lemma block_place lo l bp z : ordered lo l → 1 ≤ z →
  (∀ b, b ∈ l → b.1 + HDR * b.2 ≤ bp ∨ bp + HDR * z ≤ b.1) →
  ∃ l1 l2, l = l1 ++ l2 ∧ (∀ b, b ∈ l1 → b.1 + HDR * b.2 ≤ bp) ∧ (∀ b, b ∈ l2 → bp + HDR * z ≤ b.1).
Proof.
  revert lo. induction l as [|[a y] l IH]; intros lo; simpl.
  { intros _ _ _. exists [], []. set_solver. }
  intros (Ha & Hy & Hl) Hz Hd. destruct (Hd (a, y)) as [Hb|Hb]; [set_solver| |].
  - destruct (IH _ Hl Hz) as (l1 & l2 & -> & H1 & H2); [set_solver|]. exists ((a, y) :: l1), l2. set_solver.
  - exists [], ((a, y) :: l). split_and!; [done|set_solver|]. intros b [->|Hin]%elem_of_cons; [done|].
    destruct (ordered_above _ _ _ Hl Hin). simpl in *. unfold HDR in *. lia.
Qed.

Section Inv.
Context (base : Z).

Record heap_ok (s : uheap) (fl : list (Z * Z)) : Prop := {
  hk_base : 0 < base;
  hk_links : links (u_mem s) ((base, 0) :: fl) base;
  hk_ord : ordered (base + HDR - 1) fl;
  hk_end b : b ∈ fl → b.1 + HDR * b.2 ≤ u_brk s;
  hk_brk : base + HDR ≤ u_brk s ≤ u_lim s;
  hk_lim : u_lim s < 2 ^ 31;
  hk_freep : u_freep s ∈ base :: fl.*1
}.

Lemma bind_ptr {A} a (k : Z → U A) s : bind (ptr_of a) k s = k (hptr (u_mem s) a) s.
Proof. done. Qed.
Lemma bind_size {A} a (k : Z → U A) s : bind (size_of a) k s = k (hsize (u_mem s) a) s.
Proof. done. Qed.

Lemma bind_freep {A} (k : Z → U A) s : bind (gets u_freep) k s = k (u_freep s) s.
Proof. done. Qed.
Abbreviation with_mem s m := (mkUheap m (u_freep s) (u_brk s) (u_lim s)).
Lemma bind_set_ptr {A} a v (k : unit → U A) s : bind (set_ptr a v) k s = k tt (with_mem s (st64 a v (u_mem s))).
Proof. done. Qed.
Lemma bind_set_size {A} a v (k : unit → U A) s : bind (set_size a v) k s = k tt (with_mem s (st32 (a + 8) v (u_mem s))).
Proof. done. Qed.

(** ** Finding the place of a block *)

Section Scan.
Context (s : uheap) (bp : Z) (k1 : list (Z * Z)) (p ps : Z) (l2 : list (Z * Z)).
Context (Hbase : base < bp) (Hlinks : links (u_mem s) (k1 ++ (p, ps) :: l2) base)
  (Hfirst : next (k1 ++ [(p, ps)]) 0 = base) (Hmin : ∀ b, b ∈ k1 ++ (p, ps) :: l2 → base ≤ b.1)
  (Hlow : ∀ b, b ∈ k1 ++ [(p, ps)] → b.1 < bp) (Hhigh : ∀ b, b ∈ l2 → bp < b.1)
  (Hsorted : ∀ A x y B, k1 ++ (p, ps) :: l2 = A ++ x :: y :: B → x.1 < y.1).

Definition scan_step (p : Z) : U (Z + Z) :=
  let* nx := ptr_of p in
  if (p <? bp) && (bp <? nx) then ret (inr p)
  else if (nx <=? p) && ((p <? bp) || (bp <? nx)) then ret (inr p)
  else ret (inl nx).

Lemma scan_here : scan_step p s = Ok (inr p) s.
Proof.
  apply links_app in Hlinks as (_ & _ & Hp & _). unfold scan_step. rewrite bind_ptr, Hp.
  assert (Hpb : p < bp) by (apply (Hlow (p, ps)); set_solver). rewrite (proj2 (Z.ltb_lt p bp)) by done.
  destruct l2 as [|[a z] l2']; simpl.
  - rewrite (proj2 (Z.ltb_ge bp base)) by lia. simpl.
    rewrite (proj2 (Z.leb_le base p)) by (apply (Hmin (p, ps)); set_solver). done.
  - rewrite (proj2 (Z.ltb_lt bp a)) by (apply (Hhigh (a, z)); set_solver). done.
Qed.

(** an element before the place *)
Lemma scan_low A q z B : k1 = A ++ (q, z) :: B → scan_step q s = Ok (inl (next (B ++ [(p, ps)]) 0)) s.
Proof.
  intros E. assert (Hnx : hptr (u_mem s) q = next (B ++ [(p, ps)]) 0 ∧ q < next (B ++ [(p, ps)]) 0 < bp).
  { rewrite E in Hlinks. rewrite <- app_assoc in Hlinks. apply links_app in Hlinks as (_ & _ & Hp & _).
    destruct B as [|[b y] B]; simpl in *.
    - split_and!; [done| |apply (Hlow (p, ps)); set_solver].
      apply (Hsorted A (q, z) (p, ps) l2). rewrite E. by rewrite <- app_assoc.
    - split_and!; [done| |apply (Hlow (b, y)); set_solver].
      apply (Hsorted A (q, z) (b, y) (B ++ (p, ps) :: l2)). rewrite E. by rewrite <- app_assoc. }
  destruct Hnx as [Hp Hr]. unfold scan_step. rewrite bind_ptr, Hp.
  rewrite (proj2 (Z.ltb_ge bp _)), andb_false_r, (proj2 (Z.leb_gt _ q)) by lia. done.
Qed.
(** an element after it *)
Lemma scan_high A q z B : l2 = A ++ (q, z) :: B → scan_step q s = Ok (inl (next B base)) s.
Proof.
  intros E. assert (Hq : bp < q) by (apply (Hhigh (q, z)); set_solver).
  assert (Hp : hptr (u_mem s) q = next B base).
  { rewrite E in Hlinks. apply links_app in Hlinks as (_ & _ & _ & Hl). by apply links_app in Hl as (_ & _ & Hp & _). }
  unfold scan_step. rewrite bind_ptr, Hp, (proj2 (Z.ltb_ge q bp)) by lia. simpl.
  destruct B as [|[b y] B]; simpl.
  - rewrite (proj2 (Z.ltb_ge bp base)), andb_false_r by lia. done.
  - rewrite (proj2 (Z.leb_gt b q)); [done|]. apply (Hsorted (k1 ++ (p, ps) :: A) (q, z) (b, y) B). rewrite E. by rewrite <- app_assoc.
Qed.

Lemma scan_from_low B : ∀ A q z fuel, k1 = A ++ (q, z) :: B → (length B + 1 < fuel)%nat →
  iterate fuel scan_step q s = Ok p s.
Proof.
  induction B as [|[b y] B IH]; intros A q z fuel E Hf; (destruct fuel as [|fuel]; [simpl in Hf; lia|]);
    rewrite (iterate_next _ _ _ _ _ _ (scan_low A q z _ E)).
  - destruct fuel as [|fuel]; [simpl in Hf; lia|]. by apply iterate_done, scan_here.
  - simpl. apply (IH (A ++ [(q, z)]) b y); [by rewrite <- app_assoc|simpl in Hf; lia].
Qed.
Lemma scan_from_base fuel : (length k1 < fuel)%nat → iterate fuel scan_step base s = Ok p s.
Proof.
  intros Hf. assert (Hk : k1 = [] ∨ ∃ a z k', k1 = (a, z) :: k') by (destruct k1 as [|[a z] k']; [by left|right; eauto]).
  assert (Hb := Hfirst). destruct Hk as [Hk|(a & z & k' & Hk)]; rewrite Hk in Hb; simpl in Hb; rewrite <- Hb.
  - destruct fuel as [|fuel]; [lia|]. by apply iterate_done, scan_here.
  - apply (scan_from_low k' [] a z); [done|rewrite Hk in Hf; simpl in Hf; lia].
Qed.
Lemma scan_from_high B : ∀ A q z fuel, l2 = A ++ (q, z) :: B → (length B + length k1 + 1 < fuel)%nat →
  iterate fuel scan_step q s = Ok p s.
Proof.
  induction B as [|[b y] B IH]; intros A q z fuel E Hf; (destruct fuel as [|fuel]; [simpl in Hf; lia|]);
    rewrite (iterate_next _ _ _ _ _ _ (scan_high A q z _ E)).
  - simpl. apply scan_from_base. simpl in Hf. lia.
  - simpl. apply (IH (A ++ [(q, z)]) b y); [by rewrite <- app_assoc|simpl in Hf; lia].
Qed.

(** wherever the scan starts, it finds the place *)
Lemma scan_finds q fuel : q ∈ (k1 ++ (p, ps) :: l2).*1 → (length k1 + length l2 + 1 < fuel)%nat →
  iterate fuel scan_step q s = Ok p s.
Proof.
  intros ([q' z] & -> & Hq)%list_elem_of_fmap Hf. simpl. apply elem_of_app in Hq as [Hq|[Hq|Hq]%elem_of_cons].
  - apply list_elem_of_split in Hq as (A & B & E). apply (scan_from_low B A q' z); [done|]. rewrite E, length_app in Hf. simpl in Hf. lia.
  - injection Hq as -> ->. destruct fuel as [|fuel]; [lia|]. by apply iterate_done, scan_here.
  - apply list_elem_of_split in Hq as (A & B & E). apply (scan_from_high B A q' z); [done|]. rewrite E, length_app in Hf. simpl in Hf. lia.
Qed.
End Scan.

(** ** Joining a block with its neighbours *)

Lemma in_free_cons b l x : in_free (b :: l) x ↔ in_block b x ∨ in_free l x.
Proof. unfold in_free. set_solver. Qed.
Lemma in_free_app l1 l2 x : in_free (l1 ++ l2) x ↔ in_free l1 x ∨ in_free l2 x.
Proof. unfold in_free. set_solver. Qed.
Lemma in_block_join a y z x : 0 ≤ y → 0 ≤ z → in_block (a, y + z) x ↔ in_block (a, y) x ∨ in_block (a + HDR * y, z) x.
Proof. unfold in_block, HDR. simpl. lia. Qed.

Lemma join_next s bp z l2 :
  0 < base → base < bp → 1 ≤ z → hsize (u_mem s) bp = z → links (u_mem s) l2 base → ordered (bp + HDR * z - 1) l2 →
  bp + HDR * z < 2 ^ 31 → (∀ b, b ∈ l2 → b.1 + HDR * b.2 < 2 ^ 31) →
  ∃ m' bz l2',
    (if u64 (bp + HDR * z) =? next l2 base then
       let* nsz := size_of (next l2 base) in
       set_size bp (u32 (z + nsz)) ;;;
       let* nnx := ptr_of (next l2 base) in
       set_ptr bp nnx
     else set_ptr bp (next l2 base)) s = Ok tt (with_mem s m') ∧
    header_only bp (u_mem s) m' ∧ hsize m' bp = bz ∧ hptr m' bp = next l2' base ∧ links m' l2' base ∧
    ordered (bp + HDR * bz) l2' ∧ z ≤ bz ∧ (length l2' ≤ length l2)%nat ∧ (∀ b, b ∈ l2' → b ∈ l2) ∧
    (∀ x, in_free ((bp, bz) :: l2') x ↔ in_free ((bp, z) :: l2) x).
Proof.
  intros Hb0 Hb Hz Hsz Hl Ho Hlt Hend. unfold HDR in Hlt. rewrite u64_small by (unfold HDR; lia).
  assert (Hkeep : ∀ m' l, (∀ b, b ∈ l → bp + HDR ≤ b.1) → header_only bp (u_mem s) m' → links (u_mem s) l base → links m' l base).
  { intros m' l Hab Hm. apply links_frame. intros b Hin. apply (header_keep bp); [done|]. right. by apply Hab. }
  destruct l2 as [|[a y] l2]; simpl.
  - rewrite (proj2 (Z.eqb_neq _ base)) by (unfold HDR; lia).
    destruct (set_ptr_ok bp base (u_mem s)) as (Hm & Hp & Hs); [lia|].
    exists (st64 bp base (u_mem s)), z, []. split_and!; try done. by rewrite Hs.
  - simpl in Ho, Hl. destruct Ho as (Ha & Hy & Ho), Hl as (Hys & Hya & Hl).
    assert (Hae := Hend (a, y) ltac:(set_solver)). simpl in Hae. unfold HDR in *.
    assert (Habove : ∀ b, b ∈ l2 → a + 16 * y < b.1) by (intros b Hin; apply (ordered_above _ _ _ Ho Hin)).
    destruct (Z.eqb_spec (bp + 16 * z) a) as [E|E].
    + assert (Hnn : 0 ≤ next l2 base < 2 ^ 64).
      { destruct l2 as [|[c w] l2']; simpl; [lia|]. specialize (Habove (c, w) ltac:(set_solver)). specialize (Hend (c, w) ltac:(set_solver)).
        simpl in Ho. simpl in *. lia. }
      destruct (set_size_ok bp (u32 (z + y)) (u_mem s)) as (Hm1 & Hp1 & Hs1); [apply u32_range|].
      set (m1 := st32 (bp + 8) (u32 (z + y)) (u_mem s)) in *.
      destruct (header_keep bp a (u_mem s) m1 Hm1) as [Hap _]; [right; unfold HDR; lia|].
      destruct (set_ptr_ok bp (next l2 base) m1) as (Hm2 & Hp2 & Hs2); [done|].
      exists (st64 bp (next l2 base) m1), (z + y), l2.
      assert (Hm12 := header_trans _ _ _ _ Hm1 Hm2).
      split_and!; try done; [| | | |lia|simpl; lia|set_solver|].
      * rewrite bind_size, Hys. rewrite bind_set_size, bind_ptr. simpl. fold m1. by rewrite Hap, Hya.
      * rewrite Hs2, Hs1. unfold u32. apply Z.mod_small. lia.
      * apply Hkeep; [|done|done]. intros b Hin. specialize (Habove b Hin). unfold HDR. lia.
      * by replace (bp + 16 * (z + y)) with (a + 16 * y) by lia.
      * intros x. rewrite !in_free_cons, in_block_join by lia. unfold HDR. rewrite E. tauto.
    + destruct (set_ptr_ok bp a (u_mem s)) as (Hm & Hp & Hs); [lia|].
      exists (st64 bp a (u_mem s)), z, ((a, y) :: l2). split_and!; try done; [by rewrite Hs| |simpl; split_and!; [lia|done|done]].
      apply Hkeep; [|done|by simpl]. intros b [->|Hin]%elem_of_cons; [simpl; unfold HDR; lia|]. specialize (Habove b Hin). unfold HDR. lia.
Qed.

Lemma join_prev s bp bz p ps k1 l2 :
  0 < base → base ≤ p < bp → 0 ≤ ps → (p = base → ps = 0) → 1 ≤ bz → p + HDR * ps ≤ bp → p + HDR ≤ bp →
  hsize (u_mem s) p = ps → hsize (u_mem s) bp = bz → hptr (u_mem s) bp = next l2 base →
  links (u_mem s) k1 p → links (u_mem s) l2 base → ordered (bp + HDR * bz) l2 → bp + HDR * bz < 2 ^ 31 →
  (∀ b, b ∈ k1 → b.1 + HDR ≤ p) → 0 ≤ next l2 base < 2 ^ 64 →
  ∃ m' T,
    (if u64 (p + HDR * ps) =? bp then
       let* bsz := size_of bp in
       set_size p (u32 (ps + bsz)) ;;;
       let* bnx := ptr_of bp in
       set_ptr p bnx
     else set_ptr p bp) s = Ok tt (with_mem s m') ∧
    header_only p (u_mem s) m' ∧ links m' (k1 ++ T) base ∧
    (T = (p, ps + bz) :: l2 ∧ p + HDR * ps = bp ∧ p ≠ base ∨ T = (p, ps) :: (bp, bz) :: l2 ∧ (p + HDR * ps < bp)).
Proof.
  intros Hb0 Hp Hps Hp0 Hbz Hpb Hph Hszp Hszb Hptrb Hk1 Hl2 Ho Hlt Hbelow Hnx. unfold HDR in *. rewrite u64_small by lia.
  assert (Hkeep : ∀ m', header_only p (u_mem s) m' → links m' k1 p ∧ links m' l2 base ∧ hptr m' bp = next l2 base ∧ hsize m' bp = bz).
  { intros m' Hm. split_and!.
    - revert Hk1. apply links_frame. intros b Hin. apply (header_keep p); [done|]. left. by apply Hbelow.
    - revert Hl2. apply links_frame. intros b Hin. apply (header_keep p); [done|]. right. destruct (ordered_above _ _ _ Ho Hin). unfold HDR. lia.
    - rewrite (proj1 (header_keep p bp _ _ Hm ltac:(right; unfold HDR; lia))). done.
    - rewrite (proj2 (header_keep p bp _ _ Hm ltac:(right; unfold HDR; lia))). done. }
  destruct (Z.eqb_spec (p + 16 * ps) bp) as [E|E].
  - destruct (set_size_ok p (u32 (ps + bz)) (u_mem s)) as (Hm1 & Hp1 & Hs1); [apply u32_range|].
    set (m1 := st32 (p + 8) (u32 (ps + bz)) (u_mem s)) in *. destruct (Hkeep m1 Hm1) as (_ & _ & Hbp1 & _).
    destruct (set_ptr_ok p (next l2 base) m1 Hnx) as (Hm2 & Hp2 & Hs2).
    assert (Hm12 := header_trans _ _ _ _ Hm1 Hm2). destruct (Hkeep _ Hm12) as (Hk & Hl & _).
    exists (st64 p (next l2 base) m1), ((p, ps + bz) :: l2). split_and!; [|done| |left; split_and!; [done|done|lia]].
    + rewrite bind_size, Hszb, bind_set_size, bind_ptr. simpl. fold m1. by rewrite Hbp1.
    + apply links_app. simpl. split_and!; [done| |done|done]. rewrite Hs2, Hs1. unfold u32. apply Z.mod_small. lia.
  - destruct (set_ptr_ok p bp (u_mem s)) as (Hm & Hp2 & Hs2); [lia|]. destruct (Hkeep _ Hm) as (Hk & Hl & Hbp & Hbs).
    exists (st64 p bp (u_mem s)), ((p, ps) :: (bp, bz) :: l2). split_and!; [done|done| |right; split; [done|lia]].
    apply links_app. simpl. split_and!; try done. by rewrite Hs2.
Qed.

(** the facts about a list in order that the scan uses *)
Lemma ordered_adjacent lo l A x y B : ordered lo l → l = A ++ x :: y :: B → x.1 < y.1.
Proof.
  intros Ho ->. destruct x as [a z], y as [b w]. rewrite ordered_app in Ho. destruct Ho as [Ho1 Ho2]. simpl in Ho2.
  destruct (ordered_above _ _ (a, z) Ho1) as [_ Hz]; [set_solver|]. simpl in *. unfold HDR in *. lia.
Qed.
Lemma full_adjacent fl A x y B : ordered (base + HDR - 1) fl → (base, 0) :: fl = A ++ x :: y :: B → x.1 < y.1.
Proof.
  intros Ho E. destruct A as [|x' A]; simpl in E; injection E as E1 E.
  - subst x fl. destruct y as [b w]. simpl in *. unfold HDR in Ho. lia.
  - by apply (ordered_adjacent _ _ A x y B Ho).
Qed.

(** how a run changes the heap: outside of the free blocks and [base] nothing *)
Definition heap_frame (s s' : uheap) (fl : list (Z * Z)) : Prop :=
  u_lim s' = u_lim s ∧ ∀ x, ¬ in_free fl x → ¬ (base ≤ x < base + HDR) → ld8 (u_mem s') x = ld8 (u_mem s) x.

Lemma ordered_resize lo l p y z : 1 ≤ z → ordered lo (l ++ [(p, y)]) → ordered lo (l ++ [(p, z)]).
Proof. intros Hz. revert lo. induction l as [|[b w] l IH]; intros lo; simpl; [tauto|]. intros (? & ? & ?). split_and!; auto. Qed.

(** the list with the new block in its place *)
Lemma assemble k1 p ps T bp bz l1 l2 :
  (base, 0) :: l1 = k1 ++ [(p, ps)] → ordered (base + HDR - 1) l1 → 1 ≤ bz → base + HDR ≤ bp → ordered (bp + HDR * bz) l2 →
  (T = (p, ps + bz) :: l2 ∧ p + HDR * ps = bp ∧ p ≠ base ∨ T = (p, ps) :: (bp, bz) :: l2 ∧ (p + HDR * ps < bp)) →
  ∃ fl', k1 ++ T = (base, 0) :: fl' ∧ ordered (base + HDR - 1) fl' ∧ p ∈ base :: fl'.*1 ∧
    (length fl' ≤ S (length l1 + length l2))%nat ∧
    (∀ x, in_free fl' x ↔ in_free l1 x ∨ in_free ((bp, bz) :: l2) x) ∧
    (p = base ∨ ∀ x, p ≤ x < p + HDR → in_free fl' x).
Proof.
  intros Ek Ho Hbz Hbp Ho2 HT. destruct k1 as [|b0 k1]; simpl in Ek.
  - injection Ek as <- <- ->. destruct HT as [(_ & _ & ?)|[-> _]]; [done|]. exists ((bp, bz) :: l2).
    split_and!; [done|simpl; split_and!; [lia|lia|done]|set_solver|simpl; lia| |by left].
    intros x. assert (¬ in_free [] x) by (intros (? & ? & _); set_solver). tauto.
  - injection Ek as <- ->. assert (Hp := ordered_above _ _ (p, ps) Ho ltac:(set_solver)). simpl in Hp.
    exists (k1 ++ T). split; [done|]. destruct HT as [(-> & Hj & _)|[-> Hlt]].
    + split_and!; [|rewrite fmap_app; set_solver|rewrite !length_app; simpl; lia| |].
      * apply ordered_app. split; [apply (ordered_resize _ _ _ ps); [lia|done]|]. by replace (p + HDR * (ps + bz)) with (bp + HDR * bz) by lia.
      * intros x. rewrite !in_free_app, !in_free_cons, in_block_join by lia. rewrite Hj.
        assert (¬ in_free [] x) by (intros (? & ? & _); set_solver). tauto.
      * right. intros x Hx. exists (p, ps + bz). split; [set_solver|]. unfold in_block, HDR in *. simpl. lia.
    + split_and!; [|rewrite fmap_app; set_solver|rewrite !length_app; simpl; lia| |].
      * apply ordered_app. split; [done|]. simpl. split_and!; [lia|lia|done].
      * intros x. rewrite !in_free_app, !in_free_cons. assert (¬ in_free [] x) by (intros (? & ? & _); set_solver). tauto.
      * right. intros x Hx. exists (p, ps). split; [set_solver|]. unfold in_block, HDR in *. simpl. lia.
Qed.

(** a block [bp] of [z] units between [l1] and [l2]; [p] is the element before it *)
Section Free.
Context (s : uheap) (l1 l2 k1 : list (Z * Z)) (bp z p ps : Z).
Context (Hok : heap_ok s (l1 ++ l2)) (Hbp : base + HDR ≤ bp) (Hz : 1 ≤ z) (Hend : bp + HDR * z ≤ u_brk s)
  (Hsz : hsize (u_mem s) bp = z) (H1 : ∀ b, b ∈ l1 → b.1 + HDR * b.2 ≤ bp) (H2 : ∀ b, b ∈ l2 → bp + HDR * z ≤ b.1)
  (Ek : (base, 0) :: l1 = k1 ++ [(p, ps)]).

Lemma full_split : (base, 0) :: l1 ++ l2 = k1 ++ (p, ps) :: l2.
Proof. rewrite app_comm_cons, Ek, <- app_assoc. done. Qed.
Lemma below b : b ∈ k1 ++ [(p, ps)] →
  base ≤ b.1 ∧ b.1 + HDR ≤ bp ∧ b.1 + HDR * b.2 ≤ bp ∧ 0 ≤ b.2 ∧ (b.1 = base → b.2 = 0).
Proof.
  intros Hin. assert (Hm : b = (base, 0) ∨ b ∈ l1) by (rewrite <- Ek in Hin; set_solver).
  destruct Hm as [->|Hin']; [simpl; unfold HDR in *; lia|].
  destruct (ordered_above _ _ b (hk_ord _ _ Hok)) as [? ?]; [set_solver|]. specialize (H1 b Hin'). unfold HDR in *. lia.
Qed.
Lemma below_p b : b ∈ k1 → b.1 + HDR ≤ p.
Proof.
  intros Hin. destruct k1 as [|b0 k1']; [set_solver|]. simpl in Ek. injection Ek as <- E1. assert (Ho := hk_ord _ _ Hok).
  rewrite E1, <- app_assoc in Ho. simpl in Ho. apply ordered_app in Ho as [Ho _].
  assert (Hp : base + HDR ≤ p) by (destruct (ordered_above _ _ (p, ps) Ho); [set_solver|simpl in *; lia]).
  apply elem_of_cons in Hin as [->|Hin]; [done|].
  clear -Ho Hin. revert Ho. generalize (base + HDR - 1). induction k1' as [|[a y] l IH]; intros lo; [set_solver|]. simpl.
  intros (Ha & Hy & Ho). apply elem_of_cons in Hin as [->|Hin]; [|by eapply IH].
  destruct (ordered_above _ _ (p, ps) Ho); [set_solver|]. simpl in *. unfold HDR in *. lia.
Qed.

Lemma scan_place fuel : (length (l1 ++ l2) + 2 < fuel)%nat → free_scan fuel bp s = Ok p s.
Proof.
  intros Hf. assert (Hl := hk_links _ _ Hok). assert (Ho := hk_ord _ _ Hok). rewrite full_split in Hl.
  apply (scan_finds s bp k1 p ps l2); try done.
  - unfold HDR in *. lia.
  - by rewrite <- Ek.
  - rewrite <- full_split. intros b [->|Hin]%elem_of_cons; [done|]. destruct (ordered_above _ _ b Ho Hin). unfold HDR in *. lia.
  - intros b Hin. destruct (below b Hin) as (_ & ? & _). unfold HDR in *. lia.
  - intros b Hin. specialize (H2 b Hin). unfold HDR in *. lia.
  - rewrite <- full_split. intros A x y B. by apply full_adjacent.
  - rewrite <- full_split. apply (hk_freep _ _ Hok).
  - assert (El := f_equal length full_split). simpl in El. rewrite !length_app in *. simpl in El. lia.
Qed.

Lemma order_l2 : ordered (bp + HDR * z - 1) l2.
Proof.
  assert (Ho := hk_ord _ _ Hok). destruct l2 as [|[a y] l2']; [done|]. apply ordered_app in Ho as [Hoa Hob].
  destruct (ordered_above _ _ (a, y) Hoa) as [_ Hy]; [set_solver|]. specialize (H2 (a, y) ltac:(set_solver)). simpl in *.
  split_and!; [lia|lia|done].
Qed.
Lemma order_l1 : ordered (base + HDR - 1) l1.
Proof.
  assert (Ho := hk_ord _ _ Hok). clear -Ho. revert Ho. generalize (base + HDR - 1).
  induction l1 as [|[a y] l IH]; intros lo; simpl; [done|]. intros (? & ? & ?). split_and!; auto.
Qed.
Lemma block_end bz l2' : z ≤ bz → (∀ x, in_free ((bp, bz) :: l2') x ↔ in_free ((bp, z) :: l2) x) → bp + HDR * bz ≤ u_brk s.
Proof.
  intros Hzb Hfr. assert (Hx : in_free ((bp, z) :: l2) (bp + HDR * bz - 1)).
  { apply Hfr. exists (bp, bz). split; [set_solver|]. unfold in_block, HDR in *. simpl. lia. }
  destruct Hx as ([a y] & [Hin|Hin]%elem_of_cons & Hx); unfold in_block in Hx; simpl in Hx.
  - injection Hin as -> ->. lia.
  - pose proof (hk_end _ _ Hok (a, y) ltac:(set_solver)) as He. simpl in He. lia.
Qed.

Lemma free_run fuel : (length (l1 ++ l2) + 2 < fuel)%nat →
  ∃ m fl', free fuel (bp + HDR) s = Ok tt (mkUheap m p (u_brk s) (u_lim s)) ∧
    links m ((base, 0) :: fl') base ∧ ordered (base + HDR - 1) fl' ∧ p ∈ base :: fl'.*1 ∧
    (length fl' ≤ S (length (l1 ++ l2)))%nat ∧ (∀ x, in_free fl' x ↔ in_free (l1 ++ l2) x ∨ in_block (bp, z) x) ∧
    (∀ x, ¬ in_free fl' x → ¬ (base ≤ x < base + HDR) → ld8 m x = ld8 (u_mem s) x).
Proof.
  intros Hf. assert (Hb := hk_brk _ _ Hok). assert (Hlim := hk_lim _ _ Hok). assert (Hb0 := hk_base _ _ Hok).
  assert (Hl := hk_links _ _ Hok). rewrite full_split in Hl. apply links_app in Hl as (Hlk & Hps & Hpp & Hl2).
  destruct (below (p, ps) ltac:(set_solver)) as (Hp1 & Hp2 & Hp3 & Hp4 & Hp5). simpl in *.
  destruct (join_next s bp z l2) as (m1 & bz & l2' & HJ1 & Hm1 & Hbz & Hbp1 & Hl21 & Ho21 & Hzb & Hlen & Hsub & Hfr1);
    [done|unfold HDR in *; lia|done|done|done|apply order_l2|lia|intros b Hin; pose proof (hk_end _ _ Hok b ltac:(set_solver)); lia|].
  assert (Hbzend := block_end bz l2' Hzb Hfr1).
  assert (Hpm1 : hptr m1 p = hptr (u_mem s) p ∧ hsize m1 p = hsize (u_mem s) p) by (apply (header_keep bp); [done|by left]).
  assert (Hk1 : links m1 k1 p).
  { revert Hlk. apply links_frame. intros b Hin. apply (header_keep bp); [done|]. left.
    destruct (below b ltac:(set_solver)) as (_ & ? & _). done. }
  assert (Hnx : 0 ≤ next l2' base < 2 ^ 64).
  { destruct l2' as [|[a y] l2'']; simpl; [unfold HDR in *; lia|]. destruct (ordered_above _ _ (a, y) Ho21) as [Ha Hy]; [set_solver|].
    pose proof (hk_end _ _ Hok (a, y) ltac:(set_solver)) as He. simpl in *. unfold HDR in *. lia. }
  destruct (join_prev (with_mem s m1) bp bz p ps k1 l2') as (m2 & T & HJ2 & Hm2 & HlT & HT); simpl; try done.
  1, 2: unfold HDR in *; lia.
  1: by rewrite (proj2 Hpm1).
  1: lia.
  1: by apply below_p.
  destruct (assemble k1 p ps T bp bz l1 l2') as (fl' & Efl & Hof & Hpf & Hlf & Hfr & Hpfree); [done|apply order_l1|lia|done|done|done|].
  rewrite Efl in HlT. simpl in HlT. exists m2, fl'. rewrite length_app. split_and!; [|apply HlT|apply HlT|apply HlT|done|done|lia| |].
  - unfold free. replace (u64 (bp + HDR - HDR)) with bp by (rewrite u64_small; unfold HDR in *; lia).
    rewrite (bind_Ok _ _ _ _ _ (scan_place fuel Hf)), bind_size, bind_ptr, Hsz, Hpp, (bind_Ok _ _ _ _ _ HJ1), bind_size.
    simpl. rewrite (proj2 Hpm1), Hps, (bind_Ok _ _ _ _ _ HJ2). done.
  - intros x. rewrite Hfr, Hfr1, in_free_cons, in_free_app. tauto.
  - intros x Hx Hxb. rewrite Hm2, Hm1; [done| |].
    + intros Hin. apply Hx, Hfr. right. rewrite Hfr1. exists (bp, z). split; [set_solver|]. unfold in_block, HDR in *. simpl. lia.
    + destruct Hpfree as [->|Hpfree]; [done|]. intros Hin. by apply Hx, Hpfree.
Qed.
End Free.

Lemma free_ok fuel s fl bp z :
  heap_ok s fl → base + HDR ≤ bp → 1 ≤ z → bp + HDR * z ≤ u_brk s → hsize (u_mem s) bp = z →
  (∀ b, b ∈ fl → b.1 + HDR * b.2 ≤ bp ∨ bp + HDR * z ≤ b.1) → (length fl + 2 < fuel)%nat →
  ∃ s' fl', free fuel (bp + HDR) s = Ok tt s' ∧ heap_ok s' fl' ∧ heap_frame s s' fl' ∧ u_brk s' = u_brk s ∧
    (length fl' ≤ S (length fl))%nat ∧ (∀ x, in_free fl' x ↔ in_free fl x ∨ in_block (bp, z) x).
Proof.
  intros Hok Hbp Hz Hend Hsz Hdis Hf.
  destruct (block_place _ _ bp z (hk_ord _ _ Hok) Hz Hdis) as (l1 & l2 & -> & H1 & H2).
  destruct (exists_last (l := (base, 0) :: l1)) as (k1 & [p ps] & Ek); [done|].
  destruct (free_run s l1 l2 k1 bp z p ps Hok Hbp Hz Hend Hsz H1 H2 Ek fuel Hf) as (m & fl' & Hrun & Hl & Ho & Hp & Hlen & Hfr & Hfrm).
  exists (mkUheap m p (u_brk s) (u_lim s)), fl'. split_and!; try done. destruct Hok as [Hb0 _ _ He Hb Hlim _]. split; try done.
  intros [a y] Hin. destruct (ordered_above _ _ (a, y) Ho Hin) as [Ha Hy]. simpl in *.
  assert (Hx : in_free (l1 ++ l2) (a + HDR * y - 1) ∨ in_block (bp, z) (a + HDR * y - 1)).
  { apply Hfr. exists (a, y). split; [done|]. unfold in_block, HDR in *. simpl. lia. }
  destruct Hx as [(b & Hb' & Hx)|Hx]; unfold in_block in Hx; simpl in Hx; [specialize (He b Hb')|]; lia.
Qed.

(** ** Taking a block out of the list *)

(** [bp] is a block of [n] units, taken from what [fl] and new memory had *)
Definition taken (s s' : uheap) (fl fl' : list (Z * Z)) (bp n : Z) : Prop :=
  heap_ok s' fl' ∧ base + HDR ≤ bp ∧ bp + HDR * n ≤ u_brk s' ∧ hsize (u_mem s') bp = n ∧
  (∀ x, in_free fl' x → ¬ in_block (bp, n) x) ∧
  (∀ x, in_free fl' x ∨ in_block (bp, n) x ↔ in_free fl x ∨ u_brk s ≤ x < u_brk s') ∧
  u_lim s' = u_lim s ∧
  (∀ x, x < u_brk s → ¬ in_free fl x → ¬ (base ≤ x < base + HDR) → ld8 (u_mem s') x = ld8 (u_mem s) x).

Lemma in_ordered_disjoint lo l1 b l2 x : ordered lo (l1 ++ b :: l2) → in_block b x → ¬ in_free (l1 ++ l2) x.
Proof.
  intros Ho Hb (c & Hc & Hx). destruct b as [a z]. apply elem_of_app in Hc as [Hc|Hc].
  - apply list_elem_of_split in Hc as (A & B & ->). destruct c as [c y]. rewrite <- app_assoc in Ho. simpl in Ho.
    apply ordered_app in Ho as [_ Ho]. destruct (ordered_above _ _ (a, z) Ho); [set_solver|]. unfold in_block in *. simpl in *. lia.
  - apply ordered_app in Ho as [_ Ho]. destruct (ordered_above _ _ c Ho Hc). unfold in_block in *. simpl in *. lia.
Qed.

(** the element before a free block *)
Lemma full_block fl C q y a z D : (base, 0) :: fl = C ++ (q, y) :: (a, z) :: D →
  ∃ C', fl = C' ++ (a, z) :: D ∧ ∀ l, ∃ fl', C ++ (q, y) :: l = (base, 0) :: fl' ∧ fl' = C' ++ l.
Proof.
  intros E. destruct C as [|c C]; simpl in E.
  - injection E as <- <- ->. exists []. split; [done|]. intros l. by exists l.
  - injection E as <- ->. exists (C ++ [(q, y)]). rewrite <- app_assoc. split; [done|]. intros l. exists (C ++ (q, y) :: l). by rewrite <- app_assoc.
Qed.

Lemma ordered_remove lo l1 b l2 : ordered lo (l1 ++ b :: l2) → ordered lo (l1 ++ l2).
Proof.
  revert lo. induction l1 as [|[c y] l1 IH]; intros lo; simpl.
  - destruct b as [a z]. intros (Ha & Hz & Ho). eapply ordered_weaken; [|done]. unfold HDR. lia.
  - intros (? & ? & ?). split_and!; auto.
Qed.

(** the headers of the list are apart *)
Lemma apart fl A x B : ordered (base + HDR - 1) fl → (base, 0) :: fl = A ++ x :: B →
  (∀ b, b ∈ A → b.1 + HDR ≤ x.1) ∧ (∀ b, b ∈ B → x.1 + HDR ≤ b.1).
Proof.
  intros Ho E. assert (Hgen : ∀ lo A' B', fl = A' ++ x :: B' → ordered lo fl →
    (∀ b, b ∈ A' → b.1 + HDR ≤ x.1) ∧ (∀ b, b ∈ B' → x.1 + HDR ≤ b.1)).
  { intros lo A' B' -> Ho'. destruct x as [a z]. split; intros b Hin.
    - apply list_elem_of_split in Hin as (A1 & A2 & ->). destruct b as [c y]. rewrite <- app_assoc in Ho'. simpl in Ho'.
      assert (Hy := ordered_above _ _ (c, y) Ho' ltac:(set_solver)). apply ordered_app in Ho' as [_ Ho'].
      destruct (ordered_above _ _ (a, z) Ho'); [set_solver|]. simpl in *. unfold HDR in *. lia.
    - assert (Hz := ordered_above _ _ (a, z) Ho' ltac:(set_solver)). apply ordered_app in Ho' as [_ Ho'].
      destruct (ordered_above _ _ b Ho' Hin). simpl in *. unfold HDR in *. lia. }
  destruct A as [|c A]; simpl in E.
  - injection E as <- ->. split; [set_solver|]. intros b Hin. destruct (ordered_above _ _ b Ho Hin). simpl. unfold HDR in *. lia.
  - injection E as <- E. destruct (Hgen _ A B E Ho) as [HA HB]. split; [|done]. intros b [->|Hin]%elem_of_cons; [|auto].
    destruct (ordered_above _ _ x Ho) as [Hx _]; [set_solver|]. simpl. lia.
Qed.

Section Take.
Context (s : uheap) (fl C D : list (Z * Z)) (q y a z n : Z).
Context (Hok : heap_ok s fl) (Hfull : (base, 0) :: fl = C ++ (q, y) :: (a, z) :: D) (Hn : 1 ≤ n ≤ z).

Lemma taken_bounds : base + HDR ≤ a ∧ a + HDR * z ≤ u_brk s ∧ u_brk s < 2 ^ 31 ∧ 0 < base ∧ base ≤ q ∧ q + HDR ≤ a.
Proof.
  destruct (full_block _ _ _ _ _ _ _ Hfull) as (C' & E & _).
  destruct (ordered_above _ _ (a, z) (hk_ord _ _ Hok)) as [Ha Hz]; [set_solver|].
  destruct (apart _ C (q, y) ((a, z) :: D) (hk_ord _ _ Hok) Hfull) as [_ HB].
  assert (Hq : base ≤ q).
  { assert (Hin : (q, y) ∈ (base, 0) :: fl) by (rewrite Hfull; set_solver). apply elem_of_cons in Hin as [Hin|Hin]; [injection Hin as -> _; done|].
    destruct (ordered_above _ _ (q, y) (hk_ord _ _ Hok) Hin). simpl in *. unfold HDR in *. lia. }
  pose proof (HB (a, z) ltac:(set_solver)). pose proof (hk_end _ _ Hok (a, z) ltac:(set_solver)). pose proof (hk_brk _ _ Hok). pose proof (hk_lim _ _ Hok). pose proof (hk_base _ _ Hok).
  simpl in *. unfold HDR in *. lia.
Qed.

Lemma header_free b x : b ∈ (base, 0) :: fl → b.1 ≤ x < b.1 + HDR → in_free fl x ∨ base ≤ x < base + HDR.
Proof.
  intros [->|Hin]%elem_of_cons Hx; [by right|]. left. exists b. split; [done|].
  destruct (ordered_above _ _ b (hk_ord _ _ Hok) Hin). unfold in_block, HDR in *. lia.
Qed.

(** the whole block *)
Lemma take_whole : z = n →
  let s' := mkUheap (st64 q (next D base) (u_mem s)) q (u_brk s) (u_lim s) in
  ∃ fl', taken s s' fl fl' a n ∧ (length fl' ≤ length fl)%nat.
Proof.
  intros Ez s'. destruct taken_bounds as (Ha & Hae & Hbr & Hb0 & Hq & Hqa). destruct (full_block _ _ _ _ _ _ _ Hfull) as (C' & E & Hrest).
  destruct (Hrest D) as (fl' & Efl' & ->). exists (C' ++ D).
  assert (Hnx : 0 ≤ next D base < 2 ^ 64).
  { destruct D as [|[c w] D']; simpl; [unfold HDR in *; lia|]. pose proof (hk_end _ _ Hok (c, w) ltac:(set_solver)).
    destruct (ordered_above _ _ (c, w) (hk_ord _ _ Hok)); [set_solver|]. simpl in *. unfold HDR in *. lia. }
  destruct (set_ptr_ok q (next D base) (u_mem s) Hnx) as (Hm & Hp & Hs).
  destruct (apart _ C (q, y) ((a, z) :: D) (hk_ord _ _ Hok) Hfull) as [HA HB].
  assert (Hl := hk_links _ _ Hok). rewrite Hfull in Hl. apply links_app in Hl as (HlC & Hsq & Hpq & Hsa & Hpa & HlD). simpl in HlC, HA, HB.
  assert (Hl' : links (u_mem s') ((base, 0) :: C' ++ D) base).
  { rewrite <- Efl'. apply links_app. split; [|split_and!; [by rewrite <- Hsq|done|]].
    - revert HlC. apply links_frame. intros b Hin. apply (header_keep q); [done|left; by apply HA].
    - revert HlD. apply links_frame. intros b Hin. apply (header_keep q); [done|right; apply HB; set_solver]. }
  assert (Ho := hk_ord _ _ Hok). rewrite E in Ho.
  split; [split_and!; [|done|subst z; done| | | |done|]|rewrite E, !length_app; simpl; lia].
  - split; [apply Hok|exact Hl'|by eapply ordered_remove|intros b Hin; apply (hk_end _ _ Hok); set_solver|apply Hok|apply Hok|].
    change (q ∈ base :: (C' ++ D).*1). change (base :: (C' ++ D).*1) with (((base, 0) :: C' ++ D).*1). rewrite <- Efl', fmap_app. set_solver.
  - change (hsize (st64 q (next D base) (u_mem s)) a = n). rewrite (proj2 (header_keep q a _ _ Hm ltac:(by right))). by rewrite Hsa.
  - intros x Hx Hb. subst n. by apply (in_ordered_disjoint _ _ _ _ x Ho Hb).
  - intros x. rewrite E, !in_free_app, in_free_cons. subst n. simpl. assert (¬ (u_brk s ≤ x < u_brk s)) by lia. tauto.
  - intros x Hx Hnf Hnb. apply Hm. intros Hin. destruct (header_free (q, y) x) as [?|?]; [rewrite Hfull; set_solver|done|done|done].
Qed.

(** the end of a larger block *)
Lemma take_part : n < z →
  let b := a + HDR * (z - n) in
  let s' := mkUheap (st32 (b + 8) n (st32 (a + 8) (z - n) (u_mem s))) q (u_brk s) (u_lim s) in
  ∃ fl', taken s s' fl fl' b n ∧ (length fl' ≤ length fl)%nat.
Proof.
  intros Hlt b s'. destruct taken_bounds as (Ha & Hae & Hbr & Hb0 & Hq & Hqa). destruct (full_block _ _ _ _ _ _ _ Hfull) as (C' & E & Hrest).
  assert (Hab : a + HDR ≤ b ∧ b + HDR * n = a + HDR * z) by (unfold b, HDR; lia). destruct Hab as [Hab Hbe].
  destruct (Hrest ((a, z - n) :: D)) as (fl' & Efl' & ->). exists (C' ++ (a, z - n) :: D).
  destruct (set_size_ok a (z - n) (u_mem s)) as (Hm1 & Hp1 & Hs1); [unfold HDR in *; lia|].
  destruct (set_size_ok b n (st32 (a + 8) (z - n) (u_mem s))) as (Hm2 & Hp2 & Hs2); [unfold HDR in *; lia|].
  set (m1 := st32 (a + 8) (z - n) (u_mem s)) in *.
  assert (Ho := hk_ord _ _ Hok). rewrite E in Ho. assert (HoD := proj2 (proj1 (ordered_app _ _ _ _ _) Ho)).
  assert (Efull2 : (base, 0) :: fl = (C ++ [(q, y)]) ++ (a, z) :: D) by (rewrite <- app_assoc; done).
  destruct (apart _ _ _ _ (hk_ord _ _ Hok) Efull2) as [HA HB]. simpl in HA, HB.
  assert (Hkeep : ∀ c, c + HDR ≤ a ∨ a + HDR * z ≤ c → hptr (u_mem s') c = hptr (u_mem s) c ∧ hsize (u_mem s') c = hsize (u_mem s) c).
  { intros c Hc. destruct (header_keep b c _ _ Hm2) as [E1 E2]; [unfold HDR in *; lia|].
    destruct (header_keep a c _ _ Hm1) as [E3 E4]; [unfold HDR in *; lia|]. unfold s'. cbn [u_mem]. by rewrite E1, E2, E3, E4. }
  destruct (header_keep b a _ _ Hm2) as [Eap Eas]; [by left|].
  assert (Hl := hk_links _ _ Hok). rewrite Efull2 in Hl. apply links_app in Hl as (HlC & Hsa & Hpa & HlD).
  assert (Hl' : links (u_mem s') ((base, 0) :: C' ++ (a, z - n) :: D) base).
  { rewrite <- Efl'. change (C ++ (q, y) :: (a, z - n) :: D) with (C ++ [(q, y)] ++ (a, z - n) :: D). rewrite app_assoc. apply links_app.
    split; [|split_and!; [by rewrite <- Hs1, <- Eas|by rewrite <- Hpa, <- Hp1, <- Eap|]].
    - revert HlC. apply links_frame. intros c Hin. apply Hkeep. left. by apply HA.
    - revert HlD. apply links_frame. intros c Hin. apply Hkeep. right. destruct (ordered_above _ _ c HoD Hin). lia. }
  split; [split_and!; [|unfold HDR in *; lia|simpl; lia|done| | |done|]|rewrite E, !length_app; simpl; lia].
  - split; [apply Hok|exact Hl'| | |apply Hok|apply Hok|].
    + apply ordered_app. split; [apply (ordered_resize _ _ _ z); [lia|]; by apply ordered_app in Ho as [? _]|].
      eapply ordered_weaken; [|exact HoD]. unfold HDR. lia.
    + intros c Hin. apply elem_of_app in Hin as [Hin|[->|Hin]%elem_of_cons]; [apply (hk_end _ _ Hok); set_solver|simpl; unfold HDR in *; lia|apply (hk_end _ _ Hok); set_solver].
    + change (q ∈ ((base, 0) :: C' ++ (a, z - n) :: D).*1). rewrite <- Efl', fmap_app. set_solver.
  - intros x (c & Hc & Hx) Hb. assert (Hin : in_block (a, z) x) by (unfold in_block in *; simpl in *; unfold HDR in *; lia).
    apply elem_of_app in Hc as [Hc|[->|Hc]%elem_of_cons].
    + apply (in_ordered_disjoint _ _ _ _ x Ho Hin). exists c. set_solver.
    + unfold in_block in *. simpl in *. unfold b, HDR in *. lia.
    + apply (in_ordered_disjoint _ _ _ _ x Ho Hin). exists c. set_solver.
  - intros x. rewrite E, !in_free_app, !in_free_cons. assert (Hs : in_block (a, z) x ↔ in_block (a, z - n) x ∨ in_block (b, n) x).
    { pose proof (in_block_join a (z - n) n x ltac:(lia) ltac:(lia)) as Hj. replace (z - n + n) with z in Hj by lia. exact Hj. }
    assert (¬ (u_brk s ≤ x < u_brk s)) by lia. simpl. tauto.
  - intros x Hx Hnf Hnb. assert (Hout : ¬ in_block (a, z) x) by (intros Hin; apply Hnf; exists (a, z); set_solver).
    unfold in_block in Hout. simpl in Hout. unfold s'. cbn [u_mem]. rewrite Hm2, Hm1; [done| |]; unfold HDR in *; lia.
Qed.

(** one round of [malloc] that finds a block *)
Lemma take_ok fuel : ∃ s' fl' bp, malloc_body fuel n (q, a) s = Ok (inr (bp + HDR)) s' ∧
  taken s s' fl fl' bp n ∧ u_brk s' = u_brk s ∧ (length fl' ≤ length fl)%nat.
Proof.
  destruct taken_bounds as (Ha & Hae & Hbr & Hb0 & Hq & Hqa).
  assert (Hl := hk_links _ _ Hok). rewrite Hfull in Hl. apply links_app in Hl as (_ & _ & _ & Hsa & Hpa & _).
  unfold malloc_body. rewrite bind_size, Hsa, (proj2 (Z.leb_le n z)) by lia. destruct (Z.eqb_spec z n) as [Ez|Ez].
  - destruct (take_whole Ez) as (fl' & Ht & Hlen). eexists _, fl', a. split_and!; [|exact Ht|done|done].
    rewrite bind_ptr, Hpa, bind_set_ptr. rewrite u64_small by (unfold HDR in *; lia). done.
  - destruct (take_part ltac:(lia)) as (fl' & Ht & Hlen). eexists _, fl', _. split_and!; [|exact Ht|done|done].
    assert (Eu : u32 (z - n) = z - n) by (unfold u32; apply Z.mod_small; unfold HDR in *; lia).
    rewrite bind_set_size, bind_size. cbn [u_mem]. rewrite Eu, (proj2 (proj2 (set_size_ok a (z - n) (u_mem s) ltac:(unfold HDR in *; lia)))).
    rewrite (u64_small (a + HDR * (z - n))) by (unfold HDR in *; lia). rewrite u64_small by (unfold HDR in *; lia). done.
Qed.
End Take.

(** ** The search *)

(** the elements [R] follow [q] in the circular list *)
Fixpoint path (m : gmap Z byte) (q : Z) (R : list (Z * Z)) : Prop :=
  match R with
  | [] => True
  | (a, z) :: R' => hptr m q = a ∧ hsize m a = z ∧ path m a R'
  end.

Lemma links_path m l : ∀ a z e ez R, links m ((a, z) :: l) e → hsize m e = ez → path m e R → path m a (l ++ (e, ez) :: R).
Proof.
  induction l as [|[b w] l IH]; intros a z e ez R; simpl.
  - intros (_ & Hp & _) He HR. done.
  - intros (_ & Hp & Hb & Hpb & Hl) He HR. split_and!; [done|done|]. by apply (IH b w e ez R).
Qed.

(** once around, from [f] to [f] *)
Lemma round_path m fl F1 f fz F2 : links m ((base, 0) :: fl) base → (base, 0) :: fl = F1 ++ (f, fz) :: F2 →
  path m f (F2 ++ F1 ++ [(f, fz)]).
Proof.
  intros Hl E. assert (Hl0 := Hl). rewrite E in Hl. apply links_app in Hl as (Hl1 & Hl2). destruct F1 as [|b0 F1]; simpl in E.
  - injection E as <- <- <-. apply (links_path m fl base 0); [done| |done]. by destruct Hl0.
  - injection E as <- ->. apply (links_path m F2 f fz base 0 (F1 ++ [(f, fz)])); [done|by destruct Hl0|].
    apply (links_path m F1 base 0); [done| |done]. by destruct Hl2.
Qed.

Section Search.
Context (s : uheap) (fl : list (Z * Z)) (n : Z) (fuel : nat).
Context (Hok : heap_ok s fl) (Hn : 1 ≤ n).

Lemma body_skip q a z : hsize (u_mem s) a = z → z < n → a ≠ u_freep s →
  malloc_body fuel n (q, a) s = Ok (inl (a, hptr (u_mem s) a)) s.
Proof.
  intros Hz Hlt Hne. unfold malloc_body. rewrite bind_size, Hz, (proj2 (Z.leb_gt n z)) by done.
  unfold bind at 1, gets. simpl. by rewrite (proj2 (Z.eqb_neq a _)).
Qed.
Lemma skip_all k R1 : ∀ q a z R2, path (u_mem s) q (R1 ++ (a, z) :: R2) → (∀ b, b ∈ R1 → b.2 < n ∧ b.1 ≠ u_freep s) →
  ∃ q', iterate (length R1 + k) (malloc_body fuel n) (q, hptr (u_mem s) q) s = iterate k (malloc_body fuel n) (q', a) s ∧
    hptr (u_mem s) q' = a ∧ hsize (u_mem s) a = z ∧ q' ∈ q :: R1.*1.
Proof.
  induction R1 as [|[b w] R1 IH]; intros q a z R2; simpl.
  - intros (Hp & Hz & _) _. exists q. rewrite Hp. split_and!; [done..|set_solver].
  - intros (Hp & Hw & HR) Hskip. destruct (Hskip (b, w)) as [Hlt Hne]; [set_solver|]. simpl in *.
    destruct (IH b a z R2 HR) as (q' & E & Hq' & Hz & Hin); [set_solver|].
    exists q'. rewrite Hp, (bind_Ok _ _ _ _ _ (body_skip q b w Hw Hlt Hne)). split_and!; [done..|set_solver].
Qed.

Lemma full_split_at q : q ∈ base :: fl.*1 → ∃ C y D, (base, 0) :: fl = C ++ (q, y) :: D.
Proof.
  change (base :: fl.*1) with (((base, 0) :: fl).*1). intros ([q' y] & -> & Hq)%list_elem_of_fmap.
  apply list_elem_of_split in Hq as (C & D & E). simpl. eauto.
Qed.

(** the search comes to every block *)
Lemma freep_round : ∃ R fz, path (u_mem s) (u_freep s) (R ++ [(u_freep s, fz)]) ∧
  (∀ b, b ∈ R → b.1 ≠ u_freep s) ∧ (∀ b, b ∈ (base, 0) :: fl ↔ b ∈ R ++ [(u_freep s, fz)]) ∧ length R = length fl.
Proof.
  destruct (full_split_at (u_freep s) (hk_freep _ _ Hok)) as (F1 & fz & F2 & E). exists (F2 ++ F1), fz.
  destruct (apart _ _ _ _ (hk_ord _ _ Hok) E) as [HA HB]. simpl in *. split_and!.
  - rewrite <- app_assoc. apply (round_path _ fl); [apply Hok|done].
  - intros b [Hb|Hb]%elem_of_app; [specialize (HB b Hb)|specialize (HA b Hb)]; unfold HDR in *; lia.
  - intros b. rewrite E. set_solver.
  - assert (El := f_equal length E). rewrite length_app in *. simpl in El. lia.
Qed.

(** a block that fits is found *)
Lemma find_fit k : (∃ b, b ∈ fl ∧ n ≤ b.2) → (length fl < k)%nat →
  ∃ s' fl' bp, iterate k (malloc_body fuel n) (u_freep s, hptr (u_mem s) (u_freep s)) s = Ok (bp + HDR) s' ∧
    taken s s' fl fl' bp n ∧ u_brk s' = u_brk s ∧ (length fl' ≤ length fl)%nat.
Proof.
  intros (b & Hb & Hfit) Hk. destruct freep_round as (R & fz & Hpath & HneR & Hall & HlR).
  assert (Hex : ∃ R1 a z R2, R ++ [(u_freep s, fz)] = R1 ++ (a, z) :: R2 ∧ n ≤ z ∧ ∀ c, c ∈ R1 → c.2 < n).
  { assert (Hin : b ∈ R ++ [(u_freep s, fz)]) by (apply Hall; set_solver). clear -Hin Hfit.
    induction (R ++ [(u_freep s, fz)]) as [|[a z] l IH]; [set_solver|]. destruct (Z.le_gt_cases n z) as [Hz|Hz].
    - exists [], a, z, l. set_solver.
    - apply elem_of_cons in Hin as [->|Hin]; [simpl in Hfit; lia|]. destruct (IH Hin) as (R1 & a' & z' & R2 & -> & Hz' & Hs).
      exists ((a, z) :: R1), a', z', R2. split_and!; [done|done|]. intros c [->|Hc]%elem_of_cons; [done|auto]. }
  destruct Hex as (R1 & a & z & R2 & ER & Hz & Hskip).
  assert (Hlen : (length R1 ≤ length R)%nat ∧ ∀ c, c ∈ R1 → c ∈ R).
  { clear -ER. revert R1 ER. induction R as [|r R IH]; intros R1 ER; destruct R1 as [|r1 R1]; simpl in *; try (split; [lia|set_solver]).
    - injection ER as _ ER. destruct R1; discriminate.
    - injection ER as <- ER. destruct (IH R1 ER). split; [lia|set_solver]. }
  destruct Hlen as [Hlen Hsub]. rewrite ER in Hpath.
  replace k with (length R1 + (k - length R1))%nat by lia.
  destruct (skip_all (k - length R1) R1 (u_freep s) a z R2 Hpath) as (q' & -> & Hq' & Ha & Hqin); [intros c Hc; split; auto|].
  assert (Hqfull : q' ∈ base :: fl.*1).
  { apply elem_of_cons in Hqin as [->|([c1 c2] & -> & Hc)%list_elem_of_fmap]; [apply Hok|]. apply Hsub in Hc.
    change (base :: fl.*1) with (((base, 0) :: fl).*1). apply list_elem_of_fmap. exists (c1, c2). split; [done|]. apply Hall. set_solver. }
  destruct (full_split_at q' Hqfull) as (C & y & D & E).
  assert (Hl := hk_links _ _ Hok). assert (Hb0 : hsize (u_mem s) base = 0) by (by destruct Hl).
  rewrite E in Hl. apply links_app in Hl as (_ & _ & Hpq & HlD). rewrite Hq' in Hpq.
  destruct D as [|[a' z'] D]; simpl in Hpq; [exfalso; rewrite Hpq in Ha; lia|]. subst a'. destruct HlD as (Hz' & _). assert (z' = z) as -> by congruence.
  destruct (take_ok s fl C D q' y a z n Hok E ltac:(lia) fuel) as (s' & fl' & bp & Hrun & Ht & Hbrk & Hlf).
  exists s', fl', bp. split; [|done]. destruct (k - length R1)%nat as [|k'] eqn:Ek; [lia|]. by apply iterate_done.
Qed.
End Search.

(** ** New memory *)

Lemma ordered_pair lo l b c : ordered lo l → b ∈ l → c ∈ l → b = c ∨ b.1 + HDR * b.2 < c.1 ∨ c.1 + HDR * c.2 < b.1.
Proof.
  revert lo. induction l as [|[a z] l IH]; intros lo; simpl; [set_solver|].
  intros (Ha & Hz & Ho) [->|Hb]%elem_of_cons [->|Hc]%elem_of_cons; [by left| | |by eapply IH].
  - right. left. by apply (ordered_above _ _ _ Ho).
  - right. right. by apply (ordered_above _ _ _ Ho).
Qed.
(** an interval of free memory is in one block *)
Lemma ordered_interval lo l x y : ordered lo l → x < y → (∀ i, x ≤ i < y → in_free l i) →
  ∃ b, b ∈ l ∧ b.1 ≤ x ∧ y ≤ b.1 + HDR * b.2.
Proof.
  intros Ho Hxy Hin. destruct (Hin x) as (b & Hb & Hx); [lia|]. exists b. unfold in_block in Hx. split_and!; [done|lia|].
  destruct (Z.le_gt_cases y (b.1 + HDR * b.2)) as [?|Hgt]; [done|]. exfalso.
  destruct (Hin (b.1 + HDR * b.2)) as (c & Hc & Hy); [lia|]. unfold in_block in Hy.
  destruct (ordered_pair _ _ b c Ho Hb Hc) as [<-|[?|?]]; lia.
Qed.

Definition core_units (n : Z) : Z := if n <? 4096 then 4096 else n.

Lemma morecore_ok fuel s fl n : heap_ok s fl → 1 ≤ n → HDR * n < 2 ^ 31 → (length fl + 2 < fuel)%nat →
  let nu := core_units n in
  (u_lim s < u_brk s + HDR * nu ∧ morecore fuel n s = Ok 0 s) ∨
  ∃ s1 fl1, morecore fuel n s = Ok (u_freep s1) s1 ∧ u_freep s1 ≠ 0 ∧ heap_ok s1 fl1 ∧ u_brk s1 = u_brk s + HDR * nu ∧
    u_lim s1 = u_lim s ∧ (length fl1 ≤ S (length fl))%nat ∧ (∃ b, b ∈ fl1 ∧ n ≤ b.2) ∧
    (∀ x, in_free fl1 x ↔ in_free fl x ∨ u_brk s ≤ x < u_brk s1) ∧
    (∀ x, x < u_brk s → ¬ in_free fl x → ¬ (base ≤ x < base + HDR) → ld8 (u_mem s1) x = ld8 (u_mem s) x).
Proof.
  intros Hok Hn Hsmall Hf nu. assert (Hnu : 1 ≤ nu ∧ n ≤ nu ∧ HDR * nu < 2 ^ 31) by (unfold nu, core_units, HDR in *; destruct (Z.ltb_spec n 4096); lia).
  destruct Hok as [Hb0 Hl Ho He Hb Hlim Hfp]. unfold morecore. fold (core_units n). fold nu. cbv zeta.
  assert (Ei : i32 (u64 (nu * HDR)) = HDR * nu) by (rewrite u64_small by (unfold HDR in *; lia); rewrite i32_small; unfold HDR in *; lia).
  assert (Esb : sbrk (u64 (nu * HDR)) s = if u_brk s + HDR * nu <=? u_lim s
    then Ok (u_brk s) (mkUheap (u_mem s) (u_freep s) (u_brk s + HDR * nu) (u_lim s)) else Ok (u64 (-1)) s).
  { unfold sbrk. rewrite Ei, (proj2 (Z.ltb_ge _ 0)) by (unfold HDR in *; lia). done. }
  destruct (Z.leb_spec (u_brk s + HDR * nu) (u_lim s)) as [Hfits|Hno]; rewrite (bind_Ok _ _ _ _ _ Esb); [right|left].
  2: { rewrite Z.eqb_refl. split; [lia|done]. }
  rewrite (proj2 (Z.eqb_neq (u_brk s) _)) by (unfold HDR in *; change (u64 (-1)) with (2 ^ 64 - 1); lia).
  rewrite bind_set_size. cbn [u_mem u_freep u_brk u_lim]. rewrite (u64_small (u_brk s + HDR)) by (unfold HDR in *; lia).
  destruct (set_size_ok (u_brk s) nu (u_mem s)) as (Hm & Hp & Hs); [unfold HDR in *; lia|].
  set (s0 := mkUheap (st32 (u_brk s + 8) nu (u_mem s)) (u_freep s) (u_brk s + HDR * nu) (u_lim s)).
  assert (Hok0 : heap_ok s0 fl).
  { split; try done; simpl; [|intros b Hin; specialize (He b Hin); unfold HDR in *; lia|unfold HDR in *; lia].
    change (links (u_mem s0) ((base, 0) :: fl) base). revert Hl. apply links_frame. intros b Hin. apply (header_keep (u_brk s)); [done|]. left.
    apply elem_of_cons in Hin as [->|Hin]; [simpl; lia|]. specialize (He b Hin). destruct (ordered_above _ _ b Ho Hin). unfold HDR in *. lia. }
  destruct (free_ok fuel s0 fl (u_brk s) nu Hok0) as (s1 & fl1 & Hrun & Hok1 & [Hlm Hfr] & Hbr & Hlen & Hin1); try done; try (simpl; unfold HDR in *; lia).
  { intros b Hin. left. by apply He. }
  exists s1, fl1. rewrite (bind_Ok _ _ _ _ _ Hrun). cbn [u_brk u_lim s0] in *. split_and!; try done.
  - pose proof (hk_freep _ _ Hok1) as [->|([c w] & -> & Hc)%list_elem_of_fmap]%elem_of_cons; [lia|].
    destruct (ordered_above _ _ (c, w) (hk_ord _ _ Hok1) Hc). simpl in *. unfold HDR in *. lia.
  - destruct (ordered_interval _ fl1 (u_brk s) (u_brk s + HDR * nu) (hk_ord _ _ Hok1)) as ([c w] & Hc & Hc1 & Hc2).
    + unfold HDR. lia.
    + intros i Hi. apply Hin1. right. unfold in_block. simpl. lia.
    + exists (c, w). split; [done|]. simpl in *. unfold HDR in *. lia.
  - intros x. rewrite Hin1, Hbr. unfold in_block. simpl. done.
  - intros x Hx Hnf Hnb. rewrite Hfr; [|rewrite Hin1; unfold in_block; simpl; intros [?|?]; [done|lia]|done]. apply Hm. lia.
Qed.

(** ** [malloc] *)

(** no block fits: the search goes round once and asks for memory *)
Lemma no_fit s fl n fuel k : heap_ok s fl → (∀ b, b ∈ fl → b.2 < n) → 1 ≤ n →
  iterate (length fl + S k) (malloc_body fuel n) (u_freep s, hptr (u_mem s) (u_freep s)) s =
    bind (let* p := morecore fuel n in if p =? 0 then ret (inr 0) else let* nx := ptr_of p in ret (inl (p, nx)))
      (λ r, match r with inl y => iterate k (malloc_body fuel n) y | inr v => ret v end) s.
Proof.
  intros Hok Hno Hn. destruct (freep_round s fl n Hok Hn) as (R & fz & Hpath & HneR & Hall & HlR).
  assert (Hsmall : ∀ b, b ∈ R ++ [(u_freep s, fz)] → b.2 < n).
  { intros b [->|Hb]%Hall%elem_of_cons; [simpl; lia|auto]. }
  rewrite <- HlR. destruct (skip_all s fl n fuel Hok Hn (S k) R (u_freep s) (u_freep s) fz [] Hpath) as (q & -> & _ & Hfz & _).
  { intros b Hb. split; [apply Hsmall; set_solver|by apply HneR]. }
  specialize (Hsmall (u_freep s, fz) ltac:(set_solver)). simpl in Hsmall.
  simpl iterate. unfold bind at 1. unfold malloc_body at 1. rewrite bind_size, Hfz, (proj2 (Z.leb_gt n fz)) by done.
  rewrite bind_freep, Z.eqb_refl. done.
Qed.

Lemma taken_grown s s1 s' fl fl1 fl' bp n : u_lim s1 = u_lim s → u_brk s ≤ u_brk s1 → u_brk s' = u_brk s1 →
  (∀ x, in_free fl1 x ↔ in_free fl x ∨ u_brk s ≤ x < u_brk s1) →
  (∀ x, x < u_brk s → ¬ in_free fl x → ¬ (base ≤ x < base + HDR) → ld8 (u_mem s1) x = ld8 (u_mem s) x) →
  taken s1 s' fl1 fl' bp n → taken s s' fl fl' bp n.
Proof.
  intros Hl Hb Hb' Hin Hfr (Hok & H1 & H2 & H3 & H4 & H5 & H6 & H7). unfold taken. split_and!; try done.
  - intros x. rewrite H5, Hin, Hb'. assert (¬ (u_brk s1 ≤ x < u_brk s1)) by lia. tauto.
  - by rewrite H6.
  - intros x Hx Hnf Hnb. rewrite H7, Hfr; [done..|lia| |done]. rewrite Hin. intros [?|?]; [done|lia].
Qed.

Definition search_result (n : Z) (s : uheap) (fl : list (Z * Z)) (v : Z) (s' : uheap) : Prop :=
  (v = 0 ∧ s' = s ∧ u_lim s < u_brk s + HDR * core_units n) ∨
  ∃ fl' bp, v = bp + HDR ∧ taken s s' fl fl' bp n ∧ u_brk s ≤ u_brk s'.

Lemma search_ok k fuel s fl n : heap_ok s fl → 1 ≤ n → HDR * n < 2 ^ 31 →
  (2 * length fl + 3 < k)%nat → (length fl + 2 < fuel)%nat →
  ∃ v s', iterate k (malloc_body fuel n) (u_freep s, hptr (u_mem s) (u_freep s)) s = Ok v s' ∧ search_result n s fl v s'.
Proof.
  intros Hok Hn Hs Hk Hf. unfold search_result. destruct (decide (Exists (λ b, n ≤ b.2) fl)) as [Hfit|Hno].
  - apply Exists_exists in Hfit. destruct (find_fit s fl n fuel Hok Hn k Hfit) as (s' & fl' & bp & Hrun & Ht & Hb & _); [lia|].
    exists (bp + HDR), s'. split; [done|]. right. exists fl', bp. split_and!; [done..|lia].
  - assert (Hrun := no_fit s fl n fuel (k - length fl - 1) Hok). assert (Hsm : ∀ b, b ∈ fl → b.2 < n).
    { intros b Hb. destruct (Z.lt_ge_cases b.2 n) as [?|Hge]; [done|]. exfalso. apply Hno, Exists_exists. by exists b. }
    specialize (Hrun Hsm Hn). replace (length fl + S (k - length fl - 1))%nat with k in Hrun by lia. rewrite Hrun. clear Hrun.
    destruct (morecore_ok fuel s fl n Hok Hn Hs Hf) as [[Hlim Hm]|(s1 & fl1 & Hm & Hp & Hok1 & Hbr & Hl & Hlen & Hfit & Hin & Hfr)];
      unfold bind at 1; rewrite (bind_Ok _ _ _ _ _ Hm).
    + exists 0, s. split; [done|]. by left.
    + rewrite (proj2 (Z.eqb_neq _ 0)), bind_ptr by done. simpl.
      destruct (find_fit s1 fl1 n fuel Hok1 Hn (k - length fl - 1) Hfit) as (s' & fl' & bp & Hrun & Ht & Hb & _); [lia|].
      exists (bp + HDR), s'. split; [done|]. right. exists fl', bp.
      assert (u_brk s ≤ u_brk s1) by (unfold core_units, HDR in *; destruct (n <? 4096); lia).
      split_and!; [done|by apply (taken_grown s s1 s' fl fl1)|lia].
Qed.

Lemma nunits_ok nbytes : 0 ≤ nbytes ≤ 2 ^ 31 - 64 →
  let n := nunits_of nbytes in 1 ≤ n ∧ HDR * n < 2 ^ 31 ∧ nbytes ≤ HDR * (n - 1).
Proof.
  intros Hb. unfold nunits_of, u32, HDR. rewrite Z.mod_small; [|split]; Z.to_euclidean_division_equations; lia.
Qed.

Lemma malloc_next fuel nbytes s fl : heap_ok s fl → 0 ≤ nbytes ≤ 2 ^ 31 - 64 → (2 * length fl + 3 < fuel)%nat →
  ∃ v s', malloc base fuel nbytes s = Ok v s' ∧ search_result (nunits_of nbytes) s fl v s'.
Proof.
  intros Hok Hb Hf. destruct (nunits_ok nbytes Hb) as (Hn & Hs & _).
  destruct (search_ok fuel fuel s fl (nunits_of nbytes) Hok Hn Hs) as (v & s' & Hrun & Hres); [lia|lia|].
  exists v, s'. split; [|done]. rewrite <- Hrun. unfold malloc. rewrite bind_freep, (proj2 (Z.eqb_neq (u_freep s) 0)); [done|].
  pose proof (hk_freep _ _ Hok) as Hp. apply elem_of_cons in Hp as [->|([c w] & -> & Hc)%list_elem_of_fmap]; [apply not_eq_sym, Z.lt_neq, Hok|].
  destruct (ordered_above _ _ (c, w) (hk_ord _ _ Hok) Hc). pose proof (hk_base _ _ Hok). simpl in *. unfold HDR in *. lia.
Qed.

(** the first call makes the list of the one static header *)
Definition first_heap (s : uheap) : uheap := mkUheap (st32 (base + 8) 0 (st64 base base (u_mem s))) base (u_brk s) (u_lim s).
Lemma first_ok s : 0 < base → base + HDR ≤ u_brk s ≤ u_lim s → u_lim s < 2 ^ 31 → heap_ok (first_heap s) [].
Proof.
  intros H0 Hb Hl. destruct (set_ptr_ok base base (u_mem s)) as (_ & Hp & _); [unfold HDR in *; lia|].
  destruct (set_size_ok base 0 (st64 base base (u_mem s))) as (_ & Hp' & Hz); [lia|].
  split; simpl; try done; [|set_solver..]. split_and!; [done| |done]. by rewrite Hp'.
Qed.
Lemma malloc_first fuel nbytes s : u_freep s = 0 → 0 < base → base + HDR ≤ u_brk s ≤ u_lim s → u_lim s < 2 ^ 31 →
  0 ≤ nbytes ≤ 2 ^ 31 - 64 → (3 < fuel)%nat →
  ∃ v s', malloc base fuel nbytes s = Ok v s' ∧ search_result (nunits_of nbytes) (first_heap s) [] v s'.
Proof.
  intros Hz H0 Hbr Hl Hb Hf. destruct (malloc_next fuel nbytes (first_heap s) [] (first_ok s H0 Hbr Hl) Hb) as (v & s' & Hrun & Hres); [simpl; lia|].
  exists v, s'. split; [|done]. rewrite <- Hrun. unfold malloc. rewrite !bind_freep, Hz. simpl u_freep at 1. rewrite (proj2 (Z.eqb_neq base 0)) by lia. done.
Qed.

(** ** What a program sees: the blocks it holds *)

Definition in_live (live : gmap Z Z) (x : Z) : Prop := ∃ a n, live !! a = Some n ∧ in_block (a, n) x.

(** [b0] is the break at the start; from there on every byte is in one block, held or free *)
Record held (b0 : Z) (s : uheap) (live : gmap Z Z) (fl : list (Z * Z)) : Prop := {
  hd_ok : heap_ok s fl;
  hd_base : base + HDR ≤ b0 ≤ u_brk s;
  hd_size a n : live !! a = Some n → 1 ≤ n ∧ hsize (u_mem s) a = n;
  hd_apart a n b k x : live !! a = Some n → live !! b = Some k → in_block (a, n) x → in_block (b, k) x → a = b;
  hd_not_free x : in_live live x → ¬ in_free fl x;
  hd_all x : in_live live x ∨ in_free fl x ↔ b0 ≤ x < u_brk s
}.
Definition unused (b0 : Z) (s : uheap) (live : gmap Z Z) : Prop :=
  u_freep s = 0 ∧ live = ∅ ∧ u_brk s = b0 ∧ 0 < base ∧ base + HDR ≤ b0 ≤ u_lim s ∧ u_lim s < 2 ^ 31.
Definition heap_inv (b0 : Z) (s : uheap) (live : gmap Z Z) : Prop := unused b0 s live ∨ ∃ fl, held b0 s live fl.

(** the bytes of the blocks in [live] are the same in both states *)
Definition kept (live : gmap Z Z) (s s' : uheap) : Prop := ∀ x, in_live live x → ld8 (u_mem s') x = ld8 (u_mem s) x.

Lemma in_live_insert live a n x : live !! a = None → in_live (<[a := n]> live) x ↔ in_block (a, n) x ∨ in_live live x.
Proof.
  intros Ha. split.
  - intros (b & k & [[<- <-]|[Hne Hb]]%lookup_insert_Some & Hx); [by left|right; by exists b, k].
  - intros [Hx|(b & k & Hb & Hx)]; [exists a, n; by rewrite lookup_insert_eq|]. exists b, k. split; [|done].
    by rewrite lookup_insert_ne by congruence.
Qed.
Lemma in_live_delete live a n x : live !! a = Some n → in_live live x ↔ in_block (a, n) x ∨ in_live (delete a live) x.
Proof. intros Ha. rewrite <- (insert_delete_id live a n Ha) at 1. apply in_live_insert, lookup_delete_eq. Qed.
Lemma kept_size live s s' a n : kept live s s' → live !! a = Some n → 1 ≤ n → hsize (u_mem s') a = hsize (u_mem s) a.
Proof.
  intros Hk Ha Hn. apply ld32_ext. intros i Hi. apply Hk. exists a, n. split; [done|]. unfold in_block, HDR. simpl. lia.
Qed.
Lemma in_block_first a n : 1 ≤ n → in_block (a, n) a.
Proof. unfold in_block, HDR. simpl. lia. Qed.
Lemma disjoint_sides b c : 1 ≤ b.2 → 1 ≤ c.2 → (∀ x, in_block b x → ¬ in_block c x) → b.1 + HDR * b.2 ≤ c.1 ∨ c.1 + HDR * c.2 ≤ b.1.
Proof. intros Hb Hc H. specialize (H (Z.max b.1 c.1)). unfold in_block, HDR in *. lia. Qed.

Lemma held_first b0 s : unused b0 s ∅ → held b0 (first_heap s) ∅ [] ∧ u_brk (first_heap s) = b0.
Proof.
  intros (_ & _ & Hb & H0 & Hbr & Hl). split; [|done]. assert (He : ∀ x, ¬ in_live ∅ x) by (by intros x (a & n & ? & _)).
  split; [apply first_ok; [done|lia|done]|simpl; lia|done|done|by intros x ?%He|].
  intros x. simpl. split; [intros [?%He|(b & ?%not_elem_of_nil & _)]; done|lia].
Qed.

Lemma held_malloc b0 s live fl n v s' : held b0 s live fl → 1 ≤ n → search_result n s fl v s' →
  kept live s s' ∧ u_lim s' = u_lim s ∧
  ((v = 0 ∧ held b0 s' live fl ∧ u_lim s < u_brk s + HDR * core_units n) ∨
   ∃ fl' bp, v = bp + HDR ∧ live !! bp = None ∧ held b0 s' (<[bp := n]> live) fl').
Proof.
  intros Hh Hn [(-> & -> & Hl)|(fl' & bp & -> & (Hok' & Hbp & Hend & Hsz & Hnf & Hin & Hlim & Hfr) & Hmono)]; [by split_and!; [intros x|..|left]|].
  assert (Hlo : ∀ x, in_live live x → b0 ≤ x < u_brk s) by (intros x Hx; apply (hd_all _ _ _ _ Hh); by left).
  assert (Hkept : kept live s s').
  { intros x Hx. pose proof (Hlo x Hx). pose proof (hd_base _ _ _ _ Hh).
    apply Hfr; [lia|by apply (hd_not_free _ _ _ _ Hh)|lia]. }
  assert (Hnew : ∀ x, in_block (bp, n) x → in_live live x → False).
  { intros x Hx Hlv. destruct (proj1 (Hin x)) as [?|?]; [by right| |specialize (Hlo x Hlv); lia].
    by apply (hd_not_free _ _ _ _ Hh x). }
  assert (Hnone : live !! bp = None).
  { destruct (live !! bp) as [k|] eqn:Ek; [|done]. exfalso. apply (Hnew bp (in_block_first bp n Hn)). exists bp, k. split; [done|].
    by apply in_block_first, (hd_size _ _ _ _ Hh bp). }
  split_and!; [done|by rewrite Hlim|right]. exists fl', bp. split_and!; [done|done|]. destruct Hh as [Hok Hb Hs Ha Hf Hall]. split; [done|lia|..].
  - intros a k [[<- <-]|[Hne Hk]]%lookup_insert_Some; [done|]. destruct (Hs a k Hk) as [? Ek]. split; [done|].
    etrans; [by apply (kept_size live s s' _ k)|done].
  - intros a j b k x [[<- <-]|[Hne Hk]]%lookup_insert_Some [[<- <-]|[Hne' Hk']]%lookup_insert_Some Hx Hx'; [done| | |by eapply Ha].
    all: exfalso; eapply (Hnew x); [done|]; eexists _, _; done.
  - intros x Hx Hx'. apply in_live_insert in Hx as [Hx|Hx]; [by apply (Hnf x)| |done].
    destruct (proj1 (Hin x)) as [?|?]; [by left|by apply (Hf x)|]. specialize (Hlo x Hx). lia.
  - intros x. rewrite in_live_insert by done. pose proof (Hall x). pose proof (Hin x).
    assert (b0 ≤ x < u_brk s' ↔ b0 ≤ x < u_brk s ∨ u_brk s ≤ x < u_brk s') by lia. tauto.
Qed.

Lemma held_free b0 s live fl a n fuel : held b0 s live fl → live !! a = Some n → (length fl + 2 < fuel)%nat →
  ∃ s' fl', free fuel (a + HDR) s = Ok tt s' ∧ held b0 s' (delete a live) fl' ∧ kept (delete a live) s s' ∧
    u_brk s' = u_brk s ∧ u_lim s' = u_lim s.
Proof.
  intros [Hok Hb Hs Ha Hf Hall] Hla Hfu. destruct (Hs a n Hla) as [Hn Hsz].
  assert (Hin : ∀ x, in_block (a, n) x → in_live live x) by (intros x Hx; by exists a, n).
  assert (Hlo : b0 ≤ a ∧ a + HDR * n ≤ u_brk s).
  { pose proof (proj1 (Hall a) (or_introl (Hin a (in_block_first a n Hn)))).
    pose proof (proj1 (Hall (a + HDR * n - 1)) (or_introl (Hin (a + HDR * n - 1) ltac:(unfold in_block, HDR; simpl; lia)))). lia. }
  destruct (free_ok fuel s fl a n Hok) as (s' & fl' & Hrun & Hok' & [Hlim Hfr] & Hbr & _ & Hin'); try done; [lia|lia| |].
  { intros b Hb'. apply (disjoint_sides b (a, n)); [|done|].
    - by apply (ordered_above _ _ b (hk_ord _ _ Hok)).
    - intros x Hx Hx'. apply (Hf x (Hin x Hx')). by exists b. }
  assert (Hother : ∀ x, in_live (delete a live) x → ¬ in_free fl' x ∧ b0 ≤ x).
  { intros x Hx. assert (Hx' : in_live live x) by (apply (in_live_delete _ a n); auto). split; [|apply Hall; by left].
    rewrite Hin'. intros [Hfx|Hax]; [by apply (Hf x)|]. destruct Hx as (c & k & [Hne Hc]%lookup_delete_Some & Hx).
    apply Hne. by apply (Ha a n c k x). }
  assert (Hk : kept (delete a live) s s').
  { intros x Hx. destruct (Hother x Hx). apply Hfr; [done|lia]. }
  exists s', fl'. split_and!; try done. split; [done|lia|..].
  - intros c k Hc. apply lookup_delete_Some in Hc as Hc'. destruct (Hs c k (proj2 Hc')) as [? Ek]. split; [done|].
    etrans; [by apply (kept_size (delete a live) s s' _ k)|done].
  - intros c j d k x [_ Hc]%lookup_delete_Some [_ Hd]%lookup_delete_Some. by apply Ha.
  - intros x Hx. by apply Hother.
  - intros x. rewrite Hin', Hbr, <- Hall, (in_live_delete live a n x Hla). tauto.
Qed.

(** a program writes only behind the headers of its blocks *)
Definition in_payload (live : gmap Z Z) (x : Z) : Prop := ∃ a n, live !! a = Some n ∧ a + HDR ≤ x < a + HDR * n.
Lemma held_write b0 s live fl m : held b0 s live fl → (∀ x, ¬ in_payload live x → ld8 m x = ld8 (u_mem s) x) →
  held b0 (with_mem s m) live fl.
Proof.
  intros [Hok Hb Hs Ha Hf Hall] Hm. assert (Hpl : ∀ x, in_payload live x → b0 ≤ x ∧ ¬ in_free fl x ∧ ∀ a n, live !! a = Some n → 1 ≤ n → ¬ (a ≤ x < a + HDR)).
  { intros x (a & n & Hla & Hx). assert (Hin : in_block (a, n) x) by (unfold in_block, HDR in *; simpl; lia).
    assert (Hlv : in_live live x) by (by exists a, n). split_and!; [apply Hall; by left|by apply Hf|].
    intros c k Hc Hk Hxc. assert (c = a) as -> by (apply (Ha c k a n x); [done..| |done]; unfold in_block, HDR in *; simpl; lia).
    unfold HDR in *. lia. }
  assert (Hsame : ∀ c, (∀ x, c ≤ x < c + HDR → ¬ in_payload live x) → hptr m c = hptr (u_mem s) c ∧ hsize m c = hsize (u_mem s) c).
  { intros c Hc. split; [apply ld64_ext|apply ld32_ext]; intros i Hi; apply Hm, Hc; unfold HDR; lia. }
  split; simpl; try done.
  - destruct Hok as [Hk1 Hk2 Hk3 Hk4 Hk5 Hk6 Hk7]. split; try done. change (links m ((base, 0) :: fl) base). revert Hk2. apply links_frame.
    intros b Hb'. apply Hsame. intros x Hx Hpx. destruct (Hpl x Hpx) as (Hx0 & Hnf & _).
    apply elem_of_cons in Hb' as [->|Hb']; [simpl in Hx; lia|]. apply Hnf. exists b. split; [done|].
    destruct (ordered_above _ _ b Hk3 Hb'). unfold in_block, HDR in *. lia.
  - intros a n Hla. destruct (Hs a n Hla) as [Hn En]. split; [done|].
    etrans; [|exact En]. apply Hsame. intros x Hx Hpx.
    by apply (proj2 (proj2 (Hpl x Hpx)) a n).
Qed.

(** C21: the user-level allocator is a correct allocator of disjoint blocks.
    Take a heap in which the program holds the blocks [live] (the initial
    state, with [freep] zero and no block, is one such).  With enough fuel
    every [malloc] of up to 2^31 - 64 bytes returns.  It returns null only if
    sbrk could not give the memory, or a new block with room for the bytes
    that overlaps no block held.  Every [free] of a held block returns.  In
    each case the blocks still held keep their bytes, they are disjoint from
    each other and from the free list, and every byte between the initial and
    the current break is in one block: nothing is lost.  The program's own
    stores behind the headers keep all that. *)
Theorem umalloc_correct b0 s live : heap_inv b0 s live →
  ∃ N, ∀ fuel, (N < fuel)%nat →
    (∀ nbytes, 0 ≤ nbytes ≤ 2 ^ 31 - 64 →
      ∃ v s', malloc base fuel nbytes s = Ok v s' ∧ kept live s s' ∧ u_lim s' = u_lim s ∧
        ((v = 0 ∧ heap_inv b0 s' live ∧ u_lim s < u_brk s + HDR * core_units (nunits_of nbytes)) ∨
         ∃ bp n, v = bp + HDR ∧ n = nunits_of nbytes ∧ nbytes ≤ HDR * (n - 1) ∧ live !! bp = None ∧ heap_inv b0 s' (<[bp := n]> live))) ∧
    (∀ a n, live !! a = Some n →
      ∃ s', free fuel (a + HDR) s = Ok tt s' ∧ kept (delete a live) s s' ∧ heap_inv b0 s' (delete a live) ∧ u_brk s' = u_brk s) ∧
    (∀ m, (∀ x, ¬ in_payload live x → ld8 m x = ld8 (u_mem s) x) → heap_inv b0 (with_mem s m) live).
Proof.
  intros [Hun|(fl & Hh)].
  - assert (Hun' := Hun). destruct Hun' as (Hz & -> & Hb & H0 & Hbr & Hl). destruct (held_first b0 s Hun) as [Hh Hb1].
    exists 3%nat. intros fuel Hf. split_and!; [|done|by left]. intros nbytes Hnb. destruct (nunits_ok nbytes Hnb) as (Hn & _ & Hroom).
    destruct (malloc_first fuel nbytes s) as (v & s' & Hrun & Hres); [done|done|lia|done..|].
    destruct (held_malloc b0 _ ∅ [] _ v s' Hh Hn Hres) as (_ & Hlim & Hcase). exists v, s'. split_and!; [done| |done|].
    { by intros x (? & ? & ? & _). }
    destruct Hcase as [(-> & Hh' & Hfull)|(fl' & bp & -> & Hnone & Hh')]; [left; split_and!; [done|right; eauto|done]|right].
    exists bp, (nunits_of nbytes). split_and!; [done..|]. right. eauto.
  - exists (2 * length fl + 3)%nat. intros fuel Hf. split_and!.
    + intros nbytes Hnb. destruct (nunits_ok nbytes Hnb) as (Hn & _ & Hroom).
      destruct (malloc_next fuel nbytes s fl (hd_ok _ _ _ _ Hh) Hnb Hf) as (v & s' & Hrun & Hres).
      destruct (held_malloc b0 _ _ _ _ v s' Hh Hn Hres) as (Hk & Hlim & Hcase). exists v, s'. split_and!; [done..|].
      destruct Hcase as [(-> & Hh' & Hfull)|(fl' & bp & -> & Hnone & Hh')]; [left; split_and!; [done|right; eauto|done]|right].
      exists bp, (nunits_of nbytes). split_and!; [done..|]. right. eauto.
    + intros a n Ha. destruct (held_free b0 s live fl a n fuel Hh Ha) as (s' & fl' & Hrun & Hh' & Hk & Hb & _); [lia|].
      exists s'. split_and!; [done|done|right; eauto|done].
    + intros m Hm. right. exists fl. by apply held_write.
Qed.
End Inv.

(** a heap with room for one request of 100 bytes *)
Definition demo_heap : uheap := mkUheap ∅ 0 4096 (2 ^ 20).
Lemma umalloc_correct_witness :
  (∃ N, ∀ fuel, (N < fuel)%nat → ∃ v s', malloc 1024 fuel 100 demo_heap = Ok v s' ∧
    ∃ bp, v = bp + HDR ∧ heap_inv 1024 4096 s' {[bp := nunits_of 100]}).
Proof.
  destruct (umalloc_correct 1024 4096 demo_heap ∅) as (N & HN).
  { left. unfold unused, HDR. simpl. split_and!; [done..|lia|lia|lia|lia]. }
  exists N. intros fuel Hf. destruct (HN fuel Hf) as [Hm _].
  destruct (Hm 100 ltac:(lia)) as (v & s' & Hrun & _ & _ & [(_ & _ & Hno)|(bp & n & -> & -> & _ & _ & Hi)]).
  { exfalso. revert Hno. vm_compute. discriminate. }
  exists (bp + HDR), s'. split; [done|]. exists bp. split; [done|exact Hi].
Defined.
