(* ===== verification/UPrintf.v ===== *)
(** * Formatted output of user programs (src/user/printf.c)

    Characters are written one by one with [write].  The variable arguments
    are a list; taking an argument that is not there, or one of the other kind,
    has no meaning in C and ends the model of the program. *)

From S2P Require Import Prelude Mem User.

Inductive vararg := VInt (x : Z) | VStr (s : option (list byte)).
Definition va_int (ap : list vararg) : option (Z * list vararg) :=
  match ap with VInt x :: ap' => Some (x, ap') | _ => None end.
Definition va_str (ap : list vararg) : option (option (list byte) * list vararg) :=
  match ap with VStr s :: ap' => Some (s, ap') | _ => None end.

Definition digits : list byte := str "0123456789ABCDEF".
Definition putc (fd : Z) (c : byte) : prog unit := call (Write fd [c]) ;! Ret tt.

(** the loop [do ... while((x /= base) != 0)]: the characters in [buf] *)
Fixpoint printint_digits (fuel : nat) (x base : Z) : list byte :=
  match fuel with
  | O => []
  | S fuel' =>
      let d := digits !!! Z.to_nat (x mod base) in
      if x / base =? 0 then [d] else d :: printint_digits fuel' (x / base) base
  end.
Definition printint_buf (xx base : Z) (sgn : bool) : list byte :=
  let neg := sgn && (xx <? 0) in
  let x := if neg then u32 (- xx) else u32 xx in
  printint_digits 32 x base ++ (if neg then [x2d] else []).
Definition printint (fd xx base : Z) (sgn : bool) : prog unit :=
  pfor (reverse (printint_buf xx base sgn)) (putc fd).

Definition printptr (fd x : Z) : prog unit :=
  putc fd x30 ;!
  putc fd x78 ;!
  pfor (seq 0 16) (λ i, putc fd (digits !!! Z.to_nat (Z.shiftr (u64 (Z.shiftl x (4 * Z.of_nat i))) 60))).

(** the loop over the format; [pct] is [state == '%'] *)
Fixpoint vprintf_loop (fd : Z) (pct : bool) (fmt : list byte) (ap : list vararg) : prog unit :=
  match fmt with
  | [] => Ret tt
  | c :: fmt' =>
      let int k := match va_int ap with Some (x, ap') => k x ;! vprintf_loop fd false fmt' ap' | None => Unfinished end in
      if negb pct then
        if bool_decide (c = x25) then vprintf_loop fd true fmt' ap else putc fd c ;! vprintf_loop fd false fmt' ap
      else if bool_decide (c = x64) then int (λ x, printint fd (i32 x) 10 true)
      else if bool_decide (c = x6c) then int (λ x, printint fd (i32 x) 10 false)
      else if bool_decide (c = x78) then int (λ x, printint fd (i32 x) 16 false)
      else if bool_decide (c = x70) then int (λ x, printptr fd (u64 x))
      else if bool_decide (c = x73) then
        match va_str ap with
        | Some (s, ap') => pfor (default (str "(null)") s) (putc fd) ;! vprintf_loop fd false fmt' ap'
        | None => Unfinished
        end
      else if bool_decide (c = x63) then int (λ x, putc fd (byte.of_Z x))
      else if bool_decide (c = x25) then putc fd c ;! vprintf_loop fd false fmt' ap
      else putc fd x25 ;! putc fd c ;! vprintf_loop fd false fmt' ap
  end.
Definition vprintf (fd : Z) (fmt : list byte) (ap : list vararg) : prog unit := vprintf_loop fd false fmt ap.
Definition fprintf (fd : Z) (fmt : list byte) (ap : list vararg) : prog unit := vprintf fd fmt ap.
Definition printf (fmt : list byte) (ap : list vararg) : prog unit := vprintf 1 fmt ap.

(** ** What is printed *)

Definition ptr_text (x : Z) : list byte :=
  [x30; x78] ++ ((λ i, digits !!! Z.to_nat (Z.shiftr (u64 (Z.shiftl x (4 * Z.of_nat i))) 60)) <$> seq 0 16).
(** the text of a conversion and the arguments that are left *)
Definition conversion (c : byte) (ap : list vararg) : option (list byte * list vararg) :=
  let int (f : Z → list byte) := '(x, ap') ← va_int ap; Some (f x, ap') in
  if bool_decide (c = x64) then int (λ x, reverse (printint_buf (i32 x) 10 true))
  else if bool_decide (c = x6c) then int (λ x, reverse (printint_buf (i32 x) 10 false))
  else if bool_decide (c = x78) then int (λ x, reverse (printint_buf (i32 x) 16 false))
  else if bool_decide (c = x70) then int (λ x, ptr_text (u64 x))
  else if bool_decide (c = x73) then '(s, ap') ← va_str ap; Some (default (str "(null)") s, ap')
  else if bool_decide (c = x63) then int (λ x, [byte.of_Z x])
  else if bool_decide (c = x25) then Some ([c], ap)
  else Some ([x25; c], ap).
Fixpoint format (pct : bool) (fmt : list byte) (ap : list vararg) : option (list byte) :=
  match fmt with
  | [] => Some []
  | c :: fmt' =>
      if negb pct then
        if bool_decide (c = x25) then format true fmt' ap else cons c <$> format false fmt' ap
      else '(t, ap') ← conversion c ap; app t <$> format false fmt' ap'
  end.

Section Prints.
Context (fd : Z) (Hfd : fd = 1 ∨ fd = 2).
Lemma prints_putc c : prints fd [c] (putc fd c).
Proof. by apply prints_write. Qed.
Lemma concat_singles {A} (l : list A) : concat ((λ a, [a]) <$> l) = l.
Proof. induction l as [|a l IH]; [done|]. rewrite fmap_cons. simpl. f_equal. exact IH. Qed.
Lemma prints_chars l : prints fd l (pfor l (putc fd)).
Proof. rewrite <- (concat_singles l) at 1. apply prints_for; [done|]. apply prints_putc. Qed.
Lemma prints_ptr x : prints fd (ptr_text x) (printptr fd x).
Proof.
  unfold ptr_text, printptr. change ([x30; x78] ++ ?l) with ([x30] ++ [x78] ++ l).
  apply prints_bind; [apply prints_putc|]. apply prints_bind; [apply prints_putc|].
  rewrite <- (concat_singles (_ <$> seq 0 16)), <- list_fmap_compose. apply prints_for; [done|]. intros i. apply prints_putc.
Qed.

Lemma vprintf_prints fmt : ∀ pct ap bs, format pct fmt ap = Some bs → prints fd bs (vprintf_loop fd pct fmt ap).
Proof.
  induction fmt as [|c fmt IH]; intros pct ap bs; cbn [vprintf_loop format].
  { intros [= <-]. by apply prints_ret. }
  destruct pct; cbn [negb].
  - intros ([t ap'] & Hc & (cs & Hcs & ->)%fmap_Some)%bind_Some. specialize (IH false ap' cs Hcs). unfold conversion in Hc.
    repeat (case_bool_decide; [try (apply bind_Some in Hc as ([y ap1] & Ey & [= <- <-]); rewrite Ey; apply prints_bind; [|exact IH])|]).
    1, 2, 3: apply prints_chars.
    + apply prints_ptr.
    + apply prints_chars.
    + apply prints_putc.
    + injection Hc as <- <-. apply prints_bind; [apply prints_putc|exact IH].
    + injection Hc as <- <-. change ([x25; c] ++ cs) with ([x25] ++ [c] ++ cs).
      apply prints_bind; [apply prints_putc|]. apply prints_bind; [apply prints_putc|exact IH].
  - case_bool_decide.
    + intros H'. by apply IH.
    + intros (cs & Hcs & ->)%fmap_Some. change (c :: cs) with ([c] ++ cs). apply prints_bind; [apply prints_putc|by apply IH].
Qed.
Lemma fprintf_prints fmt ap bs : format false fmt ap = Some bs → prints fd bs (fprintf fd fmt ap).
Proof. apply vprintf_prints. Qed.
End Prints.
Lemma printf_prints fmt ap bs w : format false fmt ap = Some bs → run_world (printf fmt ap) w = Done tt (emit 1 bs w).
Proof. intros H. exact (proj2 (fprintf_prints 1 (or_introl eq_refl) fmt ap bs H) w). Qed.
