(* ===== verification/UProgs.v ===== *)
(** * The small user programs (src/user/cat.c, wc.c, echo.c, ls.c, kill.c, ln.c,
    mkdir.c, rm.c, init.c, zombie.c, and the main function of grep.c)

    A program takes its arguments (with its own name) and ends in [exit].  A
    loop that the input or the children keep running takes the number of its
    rounds as fuel. *)

From S2P Require Import Prelude Mem Riscv User Ulib UPrintf Grep.

Abbreviation S_ s := (VStr (Some s)).

(** ** cat *)
Definition cat (fuel : nat) (fd : Z) : prog unit :=
  let! n := ploop fuel (λ _ : unit,
    let! '(n, buf) := call (Read fd 512) in
    if negb (0 <? n) then Ret (inr n) else
    let! w := call (Write 1 buf) in
    if negb (w =? n) then fprintf 2 (line "cat: write error") [] ;! exit 1 else Ret (inl tt)) tt in
  if n <? 0 then fprintf 2 (line "cat: read error") [] ;! exit 1 else Ret tt.

Definition cat_main (fuel : nat) (argv : list (list byte)) : prog unit :=
  if (length argv <=? 1)%nat then cat fuel 0 ;! exit 0 else
  pfor (tl argv) (λ arg,
    let! fd := call (Open arg 0) in
    if fd <? 0 then fprintf 2 (line "cat: cannot open %s") [S_ arg] ;! exit 1 else
    cat fuel fd ;!
    call (Close fd) ;! Ret tt) ;!
  exit 0.

(** ** wc *)
Definition wc_space : list byte := [x20; x0d; x09; x0a; x0b].
(** the counters [l], [w], [c] and the flag [inword] *)
Definition wc_char (st : Z * Z * Z * bool) (b : byte) : Z * Z * Z * bool :=
  let '(l, w, c, inword) := st in
  let c := i32 (c + 1) in
  let l := if bool_decide (b = x0a) then i32 (l + 1) else l in
  match strchr wc_space b with
  | Some _ => (l, w, c, false)
  | None => if negb inword then (l, i32 (w + 1), c, true) else (l, w, c, inword)
  end.
Definition wc (fuel : nat) (fd : Z) (name : list byte) : prog unit :=
  let! '(n, (l, w, c, _)) := ploop fuel (λ st,
    let! '(n, buf) := call (Read fd 512) in
    if negb (0 <? n) then Ret (inr (n, st)) else Ret (inl (foldl wc_char st buf))) (0, 0, 0, false) in
  if n <? 0 then printf (line "wc: read error") [] ;! exit 1 else
  printf (line "%d %d %d %s") [VInt l; VInt w; VInt c; S_ name].
Definition wc_main (fuel : nat) (argv : list (list byte)) : prog unit :=
  if (length argv <=? 1)%nat then wc fuel 0 [] ;! exit 0 else
  pfor (tl argv) (λ arg,
    let! fd := call (Open arg 0) in
    if fd <? 0 then printf (line "wc: cannot open %s") [S_ arg] ;! exit 1 else
    wc fuel fd arg ;!
    call (Close fd) ;! Ret tt) ;!
  exit 0.

(** ** grep *)
Definition grep_main (fuel : nat) (argv : list (list byte)) : prog unit :=
  match argv with
  | _ :: pattern :: files =>
      match files with
      | [] => grep fuel pattern 0 ;! exit 0
      | _ =>
          pfor files (λ arg,
            let! fd := call (Open arg 0) in
            if fd <? 0 then printf (line "grep: cannot open %s") [S_ arg] ;! exit 1 else
            grep fuel pattern fd ;!
            call (Close fd) ;! Ret tt) ;!
          exit 0
      end
  | _ => fprintf 2 (line "usage: grep pattern [file ...]") [] ;! exit 1
  end.

(** ** echo *)
Fixpoint echo_args (args : list (list byte)) : prog unit :=
  match args with
  | [] => Ret tt
  | a :: args' =>
      call (Write 1 a) ;!
      (match args' with [] => call (Write 1 [x0a]) | _ => call (Write 1 [x20]) end) ;!
      echo_args args'
  end.
Definition echo_main (argv : list (list byte)) : prog unit := echo_args (tl argv) ;! exit 0.

(** ** ls *)

(** the path after its last slash *)
Fixpoint after_slash (path p : list byte) : list byte :=
  match path with
  | [] => p
  | c :: path' => after_slash path' (if bool_decide (c = x2f) then path' else p)
  end.
Definition fmtname (path : list byte) : list byte :=
  let p := after_slash path path in
  if DIRSIZ <=? strlen p then p else p ++ replicate (Z.to_nat DIRSIZ - length p) x20.

(** a directory entry: two bytes of inode number and the name *)
Definition ls_entry (path de : list byte) : prog unit :=
  if le_combine (take 2 de) =? 0 then Ret tt else
  let buf := path ++ [x2f] ++ cstring (take (Z.to_nat DIRSIZ) (drop 2 de)) in
  let! '(r, st) := stat buf in
  if r <? 0 then printf (line "ls: cannot stat %s") [S_ buf]
  else printf (line "%s %d %d %d") [S_ (fmtname buf); VInt (us_type st); VInt (us_ino st); VInt (us_size st)].
Definition ls (fuel : nat) (path : list byte) : prog unit :=
  let! fd := call (Open path 0) in
  if fd <? 0 then fprintf 2 (line "ls: cannot open %s") [S_ path] else
  let! '(r, st) := call (Fstat fd) in
  if r <? 0 then
    fprintf 2 (line "ls: cannot stat %s") [S_ path] ;!
    call (Close fd) ;! Ret tt
  else
  (if us_type st =? T_FILE then
     printf (line "%s %d %d %l") [S_ (fmtname path); VInt (us_type st); VInt (us_ino st); VInt (us_size st)]
   else if us_type st =? T_DIR then
     if 512 <? strlen path + 1 + DIRSIZ + 1 then printf (line "ls: path too long") []
     else ploop fuel (λ _ : unit,
       let! '(n, de) := call (Read fd 16) in
       if negb (n =? 16) then Ret (inr tt) else ls_entry path de ;! Ret (inl tt)) tt
   else Ret tt) ;!
  call (Close fd) ;! Ret tt.
Definition ls_main (fuel : nat) (argv : list (list byte)) : prog unit :=
  if (length argv <? 2)%nat then ls fuel (str ".") ;! exit 0 else
  pfor (tl argv) (ls fuel) ;! exit 0.

(** ** kill: a signal for every pair of arguments *)
Fixpoint kill_args (args : list (list byte)) : prog unit :=
  match args with
  | pid :: signum :: args' => call (Kill (atoi pid) (atoi signum)) ;! kill_args args'
  | _ => Ret tt
  end.
Definition kill_main (argv : list (list byte)) : prog unit :=
  if (length argv <=? 2)%nat then fprintf 2 (line "usage: kill pid...") [] ;! exit 1 else
  kill_args (tl argv) ;! exit 0.

(** ** ln, mkdir, rm *)
Definition ln_main (argv : list (list byte)) : prog unit :=
  match argv with
  | [_; old; new] =>
      let! r := call (Link old new) in
      (if r <? 0 then fprintf 2 (line "link %s %s: failed") [S_ old; S_ new] else Ret tt) ;!
      exit 0
  | _ => fprintf 2 (line "Usage: ln old new") [] ;! exit 1
  end.

Fixpoint mkdir_args (args : list (list byte)) : prog unit :=
  match args with
  | [] => Ret tt
  | a :: args' =>
      let! r := call (Mkdir a) in
      if r <? 0 then fprintf 2 (line "mkdir: %s failed to create") [S_ a] else mkdir_args args'
  end.
Definition mkdir_main (argv : list (list byte)) : prog unit :=
  if (length argv <? 2)%nat then fprintf 2 (line "Usage: mkdir files...") [] ;! exit 1 else
  mkdir_args (tl argv) ;! exit 0.

Fixpoint rm_args (args : list (list byte)) : prog unit :=
  match args with
  | [] => Ret tt
  | a :: args' =>
      let! r := call (Unlink a) in
      if r <? 0 then fprintf 2 (line "rm: %s failed to delete") [S_ a] else rm_args args'
  end.
Definition rm_main (argv : list (list byte)) : prog unit :=
  if (length argv <? 2)%nat then fprintf 2 (line "Usage: rm files...") [] ;! exit 1 else
  rm_args (tl argv) ;! exit 0.

(** ** zombie *)
Definition zombie_main : prog unit :=
  let! pid := call Fork in
  (if 0 <? pid then call (Sleep 5) ;! Ret tt else Ret tt) ;!
  exit 0.

(** ** init: starts a shell, and another one whenever it has ended *)
Definition init_wait (fuel : nat) (pid : Z) : prog unit :=
  ploop fuel (λ _ : unit,
    let! wpid := call Wait in
    if wpid =? pid then Ret (inr tt)
    else if wpid <? 0 then printf (line "init: wait returned an error") [] ;! exit 1
    else Ret (inl tt)) tt.
Definition init_main (fuel : nat) : prog unit :=
  let! fd := call (Open (str "console") O_RDWR) in
  (if fd <? 0 then
     call (Mknod (str "console") CONSOLE 0) ;!
     call (Open (str "console") O_RDWR) ;! Ret tt
   else Ret tt) ;!
  call (Dup 0) ;!
  call (Dup 0) ;!
  ploop fuel (λ _ : unit,
    printf (line "init: starting sh") [] ;!
    let! pid := call Fork in
    if pid <? 0 then printf (line "init: fork failed") [] ;! exit 1
    else if pid =? 0 then
      call (Exec (str "sh") [str "sh"]) ;!
      printf (line "init: exec sh failed") [] ;!
      exit 1
    else init_wait fuel pid ;! Ret (inl tt)) tt.

(** ** cat copies *)

Lemma cat_filter fuel fd : ∀ io, (length (io_in io) < fuel)%nat →
  ∃ chunks, run_filter fd (cat fuel fd) io = Done tt (mkIo [] chunks (io_out io ++ io_in io)).
Proof.
  intros io Hf. unfold cat. rewrite run_filter_bind. set (body := λ _ : unit, _).
  assert (Hloop : ∃ chunks, run_filter fd (ploop fuel body tt) io = Done 0 (mkIo [] chunks (io_out io ++ io_in io))).
  { revert io Hf. induction fuel as [|fuel IH]; intros io Hf; [lia|]. cbn [ploop]. rewrite run_filter_bind.
    unfold body at 1, call. cbn [pbind run_filter]. rewrite Z.eqb_refl. destruct (decide (io_in io = [])) as [Hin|Hin].
    - rewrite read_end by done. simpl. eexists. by rewrite Hin, app_nil_r.
    - destruct (read_progress 512 io ltac:(lia) Hin) as (bs & io' & -> & Hbs & Hsplit & Hle & Hout).
      assert (Hlen : (0 < length bs)%nat) by (destruct bs; [done|simpl; lia]).
      rewrite (proj2 (Z.ltb_lt 0 _)) by lia. unfold call. cbn [negb pbind run_filter io_write]. rewrite !Z.eqb_refl. cbn [negb pbind run_filter].
      edestruct IH as (chunks & ->); [|exists chunks; do 2 f_equal; simpl; by rewrite Hsplit, Hout, app_assoc].
      simpl. rewrite Hsplit, length_app in Hf. lia. }
  destruct Hloop as (chunks & ->). by exists chunks.
Qed.

Lemma run_open {A} path (k : Z → prog A) w :
  run_world (let! fd := call (Open path 0) in k fd) w = let '(fd, w') := w_open path w in run_world (k fd) w'.
Proof. done. Qed.
(** a file through a fresh descriptor *)
Lemma open_file w path content fd : w_files w !! path = Some content → lowest_fd w = Some fd →
  w_open path w = (fd, with_io fd (mkIo content (w_chunks w) (w_out w)) w) ∧ w_fds w !! fd = None ∧ 0 ≤ fd.
Proof.
  intros Hf Hl. unfold w_open. rewrite Hf, Hl. split; [done|]. unfold lowest_fd in Hl.
  assert (Hin : fd ∈ filter (λ fd, fd ≠ 1 ∧ fd ≠ 2 ∧ w_fds w !! fd = None) (seqZ 0 (Z.of_nat NOFILE))).
  { destruct (filter _ _) as [|x l]; [done|]. injection Hl as ->. apply list_elem_of_here. }
  apply list_elem_of_filter in Hin as [(_ & _ & Hn) Hs]. apply elem_of_seqZ in Hs. split; [done|lia].
Qed.
Lemma close_file w fd io : w_fds w !! fd = None →
  set_fds (delete fd) (with_io fd io w) = mkWorld (w_files w) (w_fds w) (io_chunks io) (io_out io) (w_err w).
Proof. intros Hn. unfold set_fds, with_io. simpl. by rewrite delete_insert_id. Qed.

(** what [cat] prints, and the file that ends it *)
Fixpoint cat_files (files : gmap (list byte) (list byte)) (args : list (list byte)) : list byte * option (list byte) :=
  match args with
  | [] => ([], None)
  | a :: args' =>
      match files !! a with
      | Some content => let '(out, missing) := cat_files files args' in (content ++ out, missing)
      | None => ([], Some a)
      end
  end.

Definition cat_arg (fuel : nat) (arg : list byte) : prog unit :=
  let! fd := call (Open arg 0) in
  if fd <? 0 then fprintf 2 (line "cat: cannot open %s") [S_ arg] ;! exit 1 else
  cat fuel fd ;!
  call (Close fd) ;! Ret tt.

Lemma cat_arg_file fuel a content w fd : w_files w !! a = Some content → lowest_fd w = Some fd → (length content < fuel)%nat →
  ∃ chunks, run_world (cat_arg fuel a) w = Done tt (mkWorld (w_files w) (w_fds w) chunks (w_out w ++ content) (w_err w)).
Proof.
  intros Hf Hl Hfu. destruct (open_file w a content fd Hf Hl) as (Ho & Hn & Hfd). unfold cat_arg.
  rewrite run_open, Ho, (proj2 (Z.ltb_ge fd 0)), run_world_bind by done.
  destruct (cat_filter fuel fd (mkIo content (w_chunks w) (w_out w)) Hfu) as (chunks & Hc).
  rewrite (run_world_filter _ _ _ _ _ w Hc). exists chunks. simpl. rewrite lookup_insert_eq. rewrite close_file by done. done.
Qed.
Lemma cat_arg_missing fuel a w : w_files w !! a = None →
  run_world (cat_arg fuel a) w = Exited 1 (emit 2 (str "cat: cannot open " ++ a ++ [x0a]) w).
Proof.
  intros Hf. unfold cat_arg. rewrite run_open. unfold w_open. rewrite Hf.
  change (-1 <? 0) with true. cbv iota. rewrite run_world_bind.
  destruct (fprintf_prints 2 (or_intror eq_refl) (line "cat: cannot open %s") [S_ a] (str "cat: cannot open " ++ a ++ [x0a])) as [_ ->]; done.
Qed.

(** C26: [cat] with files for arguments prints their contents one after the other
    and exits with 0, whatever sizes the kernel's reads have; at a file that is
    not there it stops, names the file on its error output and exits with 1. *)
Theorem cat_concatenates fuel name args w :
  args ≠ [] → is_Some (lowest_fd w) → (∀ a content, w_files w !! a = Some content → (length content < fuel)%nat) →
  let '(out, missing) := cat_files (w_files w) args in
  ∃ chunks, run_world (cat_main fuel (name :: args)) w =
    Exited (if missing then 1 else 0)
      (mkWorld (w_files w) (w_fds w) chunks (w_out w ++ out)
        (w_err w ++ match missing with Some a => str "cat: cannot open " ++ a ++ [x0a] | None => [] end)).
Proof.
  intros Hne [fd Hl] Hfu. assert (Hm : cat_main fuel (name :: args) = (pfor args (cat_arg fuel) ;! exit 0)) by (by destruct args).
  rewrite Hm, run_world_bind. clear Hm Hne. revert w Hl Hfu. induction args as [|a args IH]; intros w Hl Hfu.
  { simpl. exists (w_chunks w). destruct w. simpl. by rewrite !app_nil_r. }
  cbn [cat_files]. destruct (w_files w !! a) as [content|] eqn:Hf.
  - destruct (cat_arg_file fuel a content w fd Hf Hl (Hfu _ _ Hf)) as (chunks & Hrun).
    specialize (IH (mkWorld (w_files w) (w_fds w) chunks (w_out w ++ content) (w_err w)) Hl Hfu). cbn [w_files w_fds w_out w_err] in IH.
    destruct (cat_files (w_files w) args) as [out missing]. destruct IH as (chunks' & IH). exists chunks'.
    change (pfor (a :: args) (cat_arg fuel)) with (cat_arg fuel a ;! pfor args (cat_arg fuel)).
    rewrite run_world_bind, Hrun, IH. by rewrite app_assoc.
  - exists (w_chunks w). change (pfor (a :: args) (cat_arg fuel)) with (cat_arg fuel a ;! pfor args (cat_arg fuel)).
    rewrite run_world_bind, cat_arg_missing by done. unfold emit. simpl. by rewrite app_nil_r.
Qed.
Lemma cat_concatenates_witness :
  let w := mkWorld {[str "a" := str "one "; str "b" := str "two"]} ∅ [0%nat; 1%nat] [] [] in
  ∃ chunks, run_world (cat_main 9 (str "cat" :: [str "a"; str "b"; str "c"; str "a"])) w =
    Exited 1 (mkWorld (w_files w) ∅ chunks (str "one two") (line "cat: cannot open c")).
Proof.
  intros w. destruct (cat_concatenates 9 (str "cat") [str "a"; str "b"; str "c"; str "a"] w) as (chunks & Hrun).
  - discriminate.
  - by exists 0.
  - intros a content Ha. change (w_files w) with ({[str "a" := str "one "; str "b" := str "two"]} : gmap (list byte) (list byte)) in Ha.
    apply lookup_insert_Some in Ha as [[_ <-]|[_ [_ <-]%lookup_singleton_Some]]; vm_compute; lia.
  - exists chunks. exact Hrun.
Defined.

(** ** wc counts *)

(** the pieces between white space, and those that are not empty *)
Fixpoint fields (bs : list byte) : list (list byte) :=
  match bs with
  | [] => [[]]
  | b :: bs' =>
      if bool_decide (b ∈ wc_space) then [] :: fields bs'
      else match fields bs' with f :: fs => (b :: f) :: fs | [] => [[b]] end
  end.
Definition words (bs : list byte) : list (list byte) := filter (λ f, f ≠ []) (fields bs).
Definition lines (bs : list byte) : list byte := filter (λ b, b = x0a) bs.

Lemma strchr_elem s c : strchr s c = None ↔ c ∉ s.
Proof.
  induction s as [|d s IH]; simpl; [set_solver|]. case_bool_decide as Hd; [set_solver|]. rewrite IH. set_solver.
Qed.
Lemma fields_cons bs : ∃ f fs, fields bs = f :: fs.
Proof. destruct bs as [|b bs]; simpl; [eauto|]. case_bool_decide; [eauto|]. destruct (fields bs); eauto. Qed.
(** the words that begin in [bs], which follows a word or not *)
Definition new_words (inword : bool) (bs : list byte) : list (list byte) :=
  if inword then filter (λ f, f ≠ []) (tl (fields bs)) else words bs.

Lemma quad_eq (a b c a' b' c' : Z) (d : bool) : a = a' → b = b' → c = c' → (a, b, c, d) = (a', b', c', d).
Proof. by intros -> -> ->. Qed.
Lemma wc_counts_from bs : ∀ l w c inword, 0 ≤ l → 0 ≤ w → 0 ≤ c →
  l + Z.of_nat (length bs) < 2 ^ 31 → w + Z.of_nat (length bs) < 2 ^ 31 → c + Z.of_nat (length bs) < 2 ^ 31 →
  ∃ inword', foldl wc_char (l, w, c, inword) bs =
    (l + Z.of_nat (length (lines bs)), w + Z.of_nat (length (new_words inword bs)), c + Z.of_nat (length bs), inword').
Proof.
  induction bs as [|b bs IH]; intros l w c inword Hl Hw Hc Hl' Hw' Hc'.
  { exists inword. destruct inword; simpl; repeat f_equal; lia. }
  cbn [length] in *. cbn [foldl]. unfold wc_char at 2. rewrite (i32_small (c + 1)), (i32_small (w + 1)), (i32_small (l + 1)) by lia.
  set (l1 := if bool_decide (b = x0a) then l + 1 else l).
  assert (Hl1 : l ≤ l1 ≤ l + 1 ∧ l1 + Z.of_nat (length (lines bs)) = l + Z.of_nat (length (lines (b :: bs)))).
  { unfold l1, lines. rewrite filter_cons. case_bool_decide; case_decide; try done; simpl; lia. }
  clearbody l1. destruct Hl1 as [Hl1 <-].
  assert (Hnew : length (new_words inword (b :: bs)) =
    (if bool_decide (b ∈ wc_space) then length (new_words false bs) else (if inword then 0 else 1) + length (new_words true bs))%nat).
  { unfold new_words, words. cbn [fields]. destruct (fields_cons bs) as (f & fs & ->). case_bool_decide; by destruct inword. }
  rewrite Hnew. destruct (strchr wc_space b) eqn:Es.
  - rewrite bool_decide_true by (destruct (decide (b ∈ wc_space)) as [?|Hn%strchr_elem]; [done|by rewrite Es in Hn]).
    destruct (IH l1 w (c + 1) false) as (iw & ->); try lia. exists iw. by apply quad_eq; lia.
  - apply strchr_elem in Es. rewrite bool_decide_false by done. destruct inword; simpl negb; cbv iota.
    + destruct (IH l1 w (c + 1) true) as (iw & ->); try lia. exists iw. by apply quad_eq; lia.
    + destruct (IH l1 (w + 1) (c + 1) true) as (iw & ->); try lia. exists iw. by apply quad_eq; lia.
Qed.

Definition wc_body (fd : Z) (st : Z * Z * Z * bool) : prog ((Z * Z * Z * bool) + Z * (Z * Z * Z * bool)) :=
  let! '(n, buf) := call (Read fd 512) in
  if negb (0 <? n) then Ret (inr (n, st)) else Ret (inl (foldl wc_char st buf)).
Lemma wc_loop fd fuel : ∀ st io, (length (io_in io) < fuel)%nat →
  ∃ chunks, run_filter fd (ploop fuel (wc_body fd) st) io = Done (0, foldl wc_char st (io_in io)) (mkIo [] chunks (io_out io)).
Proof.
  induction fuel as [|fuel IH]; intros st io Hf; [lia|]. cbn [ploop]. rewrite run_filter_bind.
  unfold wc_body at 1, call. cbn [pbind run_filter]. rewrite Z.eqb_refl. destruct (decide (io_in io = [])) as [Hin|Hin].
  - rewrite read_end by done. simpl. eexists. by rewrite Hin.
  - destruct (read_progress 512 io ltac:(lia) Hin) as (bs & io' & -> & Hbs & Hsplit & Hle & Hout).
    assert (Hlen : (0 < length bs)%nat) by (destruct bs; [done|simpl; lia]).
    rewrite (proj2 (Z.ltb_lt 0 _)) by lia. cbn [negb pbind run_filter].
    edestruct (IH (foldl wc_char st bs) io') as (chunks & ->); [rewrite Hsplit, length_app in Hf; lia|].
    exists chunks. by rewrite Hsplit, foldl_app, Hout.
Qed.

(** C27: [wc] terminates and prints the number of newlines of its input, the
    number of its words (the maximal pieces without white space) and of its
    bytes, whatever sizes the kernel's reads have: a word cut by the end of a
    buffer counts once. *)
Theorem wc_counts fuel fd name content chunks w :
  (length content < fuel)%nat → Z.of_nat (length content) < 2 ^ 31 →
  let count {A} (l : list A) := VInt (Z.of_nat (length l)) in
  ∃ text chunks',
    format false (line "%d %d %d %s") [count (lines content); count (words content); count content; S_ name] = Some text ∧
    run_world (wc fuel fd name) (with_io fd (mkIo content chunks (w_out w)) w) =
      Done tt (with_io fd (mkIo [] chunks' (w_out w ++ text)) w).
Proof.
  intros Hf Hlen count. destruct (wc_loop fd fuel (0, 0, 0, false) (mkIo content chunks (w_out w)) Hf) as (chunks' & Hloop).
  destruct (wc_counts_from content 0 0 0 false) as (iw & Hst); try lia. cbn [io_in io_out] in Hloop. rewrite Hst, !Z.add_0_l in Hloop.
  set (ap := [count _ (lines content); count _ (words content); count _ content; S_ name]).
  assert (Ht : ∃ text, format false (line "%d %d %d %s") ap = Some text) by (eexists; reflexivity).
  destruct Ht as [text Ht]. exists text, chunks'. split; [exact Ht|]. unfold wc. fold (wc_body fd). rewrite run_world_bind, (run_world_filter _ _ _ _ _ w Hloop).
  cbv beta iota. change (0 <? 0) with false. cbv iota.
  change (new_words false content) with (words content). unfold count in ap. fold ap.
  by rewrite (printf_prints _ _ _ _ Ht).
Qed.
Lemma wc_counts_witness :
  let w := mkWorld ∅ ∅ [] [] [] in
  ∃ chunks', run_world (wc 20 3 (str "f")) (with_io 3 (mkIo (str "ab cd " ++ line "  e") [2%nat; 0%nat] []) w) =
    Done tt (with_io 3 (mkIo [] chunks' (line "1 3 10 f")) w).
Proof.
  intros w. destruct (wc_counts 20 3 (str "f") (str "ab cd " ++ line "  e") [2%nat; 0%nat] w) as (text & chunks' & Ht & Hrun).
  - vm_compute. lia.
  - vm_compute. reflexivity.
  - exists chunks'. assert (E : text = line "1 3 10 f") by (vm_compute in Ht; by injection Ht as <-). rewrite <- E. exact Hrun.
Defined.
