(* ===== verification/Sh.v ===== *)
(** * The shell (src/user/sh.c)

    The parser works on positions of the line [buf], as the code does with
    pointers; the state of a parsing function is [*ps].  A word is the pair of
    positions of its ends.  [nulterminate] then cuts the line into strings.
    Nodes are allocated without failure.  A panic of the parser is its message;
    [runcmd] and [main] are trees of system calls. *)

From S2P Require Import Prelude Mem Riscv User Ulib UPrintf.

Definition MAXARGS : nat := 10.

(** ** Commands *)

(** [W] is the type of the words: positions in the parser, strings after it *)
Inductive cmd (W : Type) : Type :=
| EXEC (argv : list W)
| REDIR (c : cmd W) (file : W) (mode fd : Z)
| PIPE (left right : cmd W)
| LIST (left right : cmd W)
| BACK (c : cmd W).
Arguments EXEC {W} argv.
Arguments REDIR {W} c file mode fd.
Arguments PIPE {W} left right.
Arguments LIST {W} left right.
Arguments BACK {W} c.

Fixpoint cmd_map {V W : Type} (f : V → W) (c : cmd V) : cmd W :=
  match c with
  | EXEC argv => EXEC (f <$> argv)
  | REDIR c file mode fd => REDIR (cmd_map f c) (f file) mode fd
  | PIPE l r => PIPE (cmd_map f l) (cmd_map f r)
  | LIST l r => LIST (cmd_map f l) (cmd_map f r)
  | BACK c => BACK (cmd_map f c)
  end.
(** [cmd->argv[argc] = q] on the node that the redirections [c] are around *)
Fixpoint add_arg {W : Type} (w : W) (c : cmd W) : cmd W :=
  match c with
  | EXEC argv => EXEC (argv ++ [w])
  | REDIR c file mode fd => REDIR (add_arg w c) file mode fd
  | _ => c
  end.

(** ** Tokens *)

Definition whitespace : list byte := [x20; x09; x0d; x0a; x0b].
Definition symbols : list byte := str "<|>&;()".

Section Parser.
Context (buf : list byte) (es : nat).
Abbreviation P A := (M Empty_set nat A).

Definition at_ (s : nat) : byte := buf !!! s.
(** [while(s < es && f( *s)) s++], with [n = es - s] *)
Fixpoint skip_while (f : byte → bool) (n s : nat) : nat :=
  match n with
  | O => s
  | S n' => if f (at_ s) then skip_while f n' (S s) else s
  end.
Definition in_set (set : list byte) (c : byte) : bool := bool_decide (is_Some (strchr set c)).
Definition skip_white (s : nat) : nat := skip_while (in_set whitespace) (es - s) s.

(** the kind of the token and the positions [*q], [*eq] of its ends *)
Definition gettoken : P (byte * nat * nat) := λ s,
  let q := skip_white s in
  let c := at_ q in
  let '(r, eq) :=
    if bool_decide (c = x00) then (c, q)
    else if in_set [x7c; x28; x29; x3b; x26; x3c] c then (c, S q)
    else if bool_decide (c = x3e) then
      if bool_decide (at_ (S q) = x3e) then (x2b, S (S q)) else (c, S q)
    else (x61, skip_while (λ c, negb (in_set whitespace c) && negb (in_set symbols c)) (es - q) q) in
  Ok (r, q, eq) (skip_white eq).

Definition peek (toks : list byte) : P bool := λ s,
  let s := skip_white s in
  Ok (negb (bool_decide (at_ s = x00)) && in_set toks (at_ s)) s.

(** ** The parser *)

Definition redir_body (cmd : cmd (nat * nat)) : P (Sh.cmd (nat * nat) + Sh.cmd (nat * nat)) :=
  let* more := peek (str "<>") in
  if negb more then ret (inr cmd) else
  let* '(tok, _, _) := gettoken in
  let* '(t, q, eq) := gettoken in
  if negb (bool_decide (t = x61)) then panic "missing file for redirection" else
  ret (inl (
    if bool_decide (tok = x3c) then REDIR cmd (q, eq) O_RDONLY 0
    else if bool_decide (tok = x3e) then REDIR cmd (q, eq) (Z.lor O_WRONLY (Z.lor O_CREATE O_TRUNC)) 1
    else if bool_decide (tok = x2b) then REDIR cmd (q, eq) (Z.lor O_WRONLY O_CREATE) 1
    else cmd)).
Definition parseredirs (fuel : nat) (cmd : cmd (nat * nat)) : P (Sh.cmd (nat * nat)) := iterate fuel redir_body cmd.

Definition amp_body (cmd : cmd (nat * nat)) : P (Sh.cmd (nat * nat) + Sh.cmd (nat * nat)) :=
  let* more := peek (str "&") in
  if more then gettoken ;;; ret (inl (BACK cmd)) else ret (inr cmd).

Definition args_body (fuel : nat) (st : cmd (nat * nat) * nat) : P (cmd (nat * nat) * nat + cmd (nat * nat)) :=
  let '(cmd, argc) := st in
  let* stop := peek (str "|)&;") in
  if stop then ret (inr cmd) else
  let* '(tok, q, eq) := gettoken in
  if bool_decide (tok = x00) then ret (inr cmd)
  else if negb (bool_decide (tok = x61)) then panic "syntax" else
  let cmd := add_arg (q, eq) cmd in
  let argc := S argc in
  if (MAXARGS <=? argc)%nat then panic "too many args" else
  let* cmd := parseredirs fuel cmd in
  ret (inl (cmd, argc)).

Fixpoint parseline (fuel : nat) : P (cmd (nat * nat)) :=
  match fuel with
  | O => out_of_fuel
  | S f =>
      let* cmd := parsepipe f in
      let* cmd := iterate f amp_body cmd in
      let* more := peek (str ";") in
      if more then
        gettoken ;;;
        let* rest := parseline f in
        ret (LIST cmd rest)
      else ret cmd
  end
with parsepipe (fuel : nat) : P (cmd (nat * nat)) :=
  match fuel with
  | O => out_of_fuel
  | S f =>
      let* cmd := parseexec f in
      let* more := peek (str "|") in
      if more then
        gettoken ;;;
        let* rest := parsepipe f in
        ret (PIPE cmd rest)
      else ret cmd
  end
with parseexec (fuel : nat) : P (cmd (nat * nat)) :=
  match fuel with
  | O => out_of_fuel
  | S f =>
      let* block := peek (str "(") in
      if block then parseblock f else
      let* cmd := parseredirs f (EXEC []) in
      iterate f (args_body f) (cmd, 0%nat)
  end
with parseblock (fuel : nat) : P (cmd (nat * nat)) :=
  match fuel with
  | O => out_of_fuel
  | S f =>
      let* open := peek (str "(") in
      if negb open then panic "parseblock" else
      gettoken ;;;
      let* cmd := parseline f in
      let* closed := peek (str ")") in
      if negb closed then panic "syntax - missing )" else
      gettoken ;;;
      parseredirs f cmd
  end.
End Parser.

(** the line after a NUL is put behind every word *)
Fixpoint nulterminate (c : cmd (nat * nat)) (buf : list byte) : list byte :=
  match c with
  | EXEC argv => foldl (λ b w, <[w.2 := x00]> b) buf argv
  | REDIR c file _ _ => <[file.2 := x00]> (nulterminate c buf)
  | PIPE l r => nulterminate r (nulterminate l buf)
  | LIST l r => nulterminate r (nulterminate l buf)
  | BACK c => nulterminate c buf
  end.
(** the string at a word of the line *)
Definition word_at (buf : list byte) (w : nat * nat) : list byte := cstring (drop w.1 buf).

Inductive parsed :=
| Parsed (c : cmd (list byte))
| Leftovers (rest : list byte)
| Bad (msg : string)
| Endless.
(** [buf] is the line with its NUL *)
Definition parsecmd (fuel : nat) (buf : list byte) : parsed :=
  let es := length (cstring buf) in
  match bind (parseline buf es fuel) (λ cmd, peek buf es [] ;;; ret cmd) 0%nat with
  | Ok cmd s =>
      if bool_decide (s = es) then Parsed (cmd_map (word_at (nulterminate cmd buf)) cmd)
      else Leftovers (cstring (drop s buf))
  | Panic msg => Bad msg
  | Event e _ _ => match e with end
  | NoFuel => Endless
  end.

(** ** Running a command *)

Definition sh_panic {A : Type} (s : list byte) : prog A := fprintf 2 (line "%s") [VStr (Some s)] ;! exit 1.
Definition fork1 : prog Z :=
  let! pid := call Fork in
  if pid =? -1 then sh_panic (str "fork") else Ret pid.

Fixpoint runcmd (c : cmd (list byte)) : prog unit :=
  (match c with
   | EXEC argv =>
       match argv with
       | [] => exit 1
       | arg0 :: _ => call (Exec arg0 argv) ;! fprintf 2 (line "exec %s failed") [VStr (Some arg0)]
       end
   | REDIR c file mode fd =>
       call (Close fd) ;!
       let! r := call (Open file mode) in
       if r <? 0 then fprintf 2 (line "open %s failed") [VStr (Some file)] ;! exit 1 else
       runcmd c
   | LIST l r =>
       let! pid := fork1 in
       (if pid =? 0 then runcmd l else Ret tt) ;!
       call Wait ;!
       runcmd r
   | PIPE l r =>
       let! '(rc, (p0, p1)) := call Pipe in
       if rc <? 0 then sh_panic (str "pipe") else
       let! pid := fork1 in
       (if pid =? 0 then
          call (Close 1) ;! call (Dup p1) ;! call (Close p0) ;! call (Close p1) ;! runcmd l
        else Ret tt) ;!
       let! pid := fork1 in
       (if pid =? 0 then
          call (Close 0) ;! call (Dup p0) ;! call (Close p0) ;! call (Close p1) ;! runcmd r
        else Ret tt) ;!
       call (Close p0) ;! call (Close p1) ;! call Wait ;! call Wait ;! Ret tt
   | BACK c =>
       let! pid := fork1 in
       if pid =? 0 then runcmd c else Ret tt
   end) ;!
  exit 0.

(** the line that is read, without what follows a NUL *)
Definition getcmd : prog (list byte) :=
  fprintf 2 (str "$ ") [] ;!
  let! buf := gets 100 in
  Ret (cstring buf).

Definition sh_command (buf : list byte) : prog unit :=
  match parsecmd (4 * length buf + 8) (buf ++ [x00]) with
  | Parsed c => runcmd c
  | Leftovers rest => fprintf 2 (line "leftovers: %s") [VStr (Some rest)] ;! sh_panic (str "syntax")
  | Bad msg => sh_panic (str msg)
  | Endless => Unfinished
  end.
Definition sh_main (fuel : nat) : prog unit :=
  ploop fuel (λ _ : unit,
    let! fd := call (Open (str "console") O_RDWR) in
    if negb (0 <=? fd) then Ret (inr tt)
    else if 3 <=? fd then call (Close fd) ;! Ret (inr tt) else Ret (inl tt)) tt ;!
  ploop fuel (λ _ : unit,
    let! buf := getcmd in
    if bool_decide (buf = []) then Ret (inr tt) else
    if bool_decide (take 3 buf = str "cd ") then
      let path := drop 3 (take (length buf - 1) buf) in
      let! r := call (Chdir path) in
      (if r <? 0 then fprintf 2 (line "cannot cd %s") [VStr (Some path)] else Ret tt) ;!
      Ret (inl tt)
    else
      let! pid := fork1 in
      (if pid =? 0 then sh_command buf else Ret tt) ;!
      call Wait ;!
      Ret (inl tt)) tt ;!
  exit 0.
