(* ===== verification/ShSpec.v ===== *)
(** * The language of the shell (src/user/sh.c)

    A line is a list of tokens, and the tokens of a command are given by a
    grammar.  The parser terminates on every line, and what it builds, with the
    strings that [nulterminate] leaves in the buffer, is the command that the
    grammar gives to the line; it panics exactly on the other lines. *)

From S2P Require Import Prelude Mem Riscv User Ulib UPrintf Sh.

(** ** Tokens *)

Inductive tok := Word (w : list byte) | Sym (c : byte).

Definition word_char (c : byte) : bool := negb (bool_decide (c = x00)) && negb (in_set whitespace c) && negb (in_set symbols c).
Definition push (c : byte) (ts : list tok) : list tok :=
  match ts with Word w :: ts' => Word (c :: w) :: ts' | _ => Word [c] :: ts end.
(** [+] stands for [>>] *)
Fixpoint lex (l : list byte) : list tok :=
  match l with
  | [] => []
  | c :: l' =>
      if in_set whitespace c then lex l'
      else if in_set symbols c then
        match l' with
        | c' :: l'' => if bool_decide (c = x3e) && bool_decide (c' = x3e) then Sym x2b :: lex l'' else Sym c :: lex l'
        | [] => [Sym c]
        end
      else if word_char (chr l') then push c (lex l') else Word [c] :: lex l'
  end.

(** the character a token begins with *)
Definition tok_char (t : tok) : byte :=
  match t with Word w => chr w | Sym c => if bool_decide (c = x2b) then x3e else c end.
Definition head_in (set : list byte) (ts : list tok) : bool :=
  match ts with [] => false | t :: _ => in_set set (tok_char t) end.
(** the tokens that [lex] makes *)
Definition tok_ok (t : tok) : Prop :=
  match t with Word w => w ≠ [] ∧ forallb word_char w = true | Sym c => c = x2b ∨ in_set symbols c = true end.

Lemma in_set_elem s c : in_set s c = true ↔ c ∈ s.
Proof.
  unfold in_set. rewrite bool_decide_eq_true. induction s as [|d s IH]; simpl.
  - split; [by intros [? ?]|set_solver].
  - case_bool_decide as Hd; [subst; split; [set_solver|eauto]|]. rewrite IH. set_solver.
Qed.
Lemma word_char_true c : word_char c = true ↔ c ≠ x00 ∧ in_set whitespace c = false ∧ in_set symbols c = false.
Proof.
  unfold word_char. rewrite !andb_true_iff, !negb_true_iff, bool_decide_eq_false. tauto.
Qed.

Lemma lex_word w r : w ≠ [] → forallb word_char w = true → word_char (chr r) = false → lex (w ++ r) = Word w :: lex r.
Proof.
  intros Hne Hw Hr. induction w as [|c w IH]; [done|]. simpl in Hw. apply andb_true_iff in Hw as [(_ & H1 & H2)%word_char_true Hw].
  change ((c :: w) ++ r) with (c :: (w ++ r)). cbn [lex]. rewrite H1, H2. destruct w as [|d w].
  - cbn [app]. by rewrite Hr.
  - rewrite IH by done. change ((d :: w) ++ r) with (d :: (w ++ r)). cbn [chr hd]. simpl in Hw. apply andb_true_iff in Hw as [-> _]. done.
Qed.
Lemma lex_white w r : forallb (in_set whitespace) w = true → lex (w ++ r) = lex r.
Proof.
  induction w as [|c w IH]; simpl; [done|]. intros [-> Hw]%andb_true_iff. by apply IH.
Qed.
Lemma lex_sym c r : in_set whitespace c = false → in_set symbols c = true → c ≠ x3e → lex (c :: r) = Sym c :: lex r.
Proof. intros H1 H2 H3. cbn [lex]. rewrite H1, H2, (bool_decide_false (c = x3e)) by done. by destruct r. Qed.
Lemma lex_gt r : chr r ≠ x3e → lex (x3e :: r) = Sym x3e :: lex r.
Proof. intros H. cbn [lex]. destruct r as [|d r]; [done|]. simpl in H. rewrite (bool_decide_false (d = x3e)) by done. done. Qed.
Lemma lex_gtgt r : lex (x3e :: x3e :: r) = Sym x2b :: lex r.
Proof. done. Qed.

Lemma symbols_cases c : in_set symbols c = true → c = x3e ∨ in_set [x7c; x28; x29; x3b; x26; x3c] c = true.
Proof. rewrite !in_set_elem. intros H. destruct (decide (c = x3e)); [by left|right]. revert H. unfold symbols, str. simpl. set_solver. Qed.
Lemma symbols_false c : in_set symbols c = false → in_set [x7c; x28; x29; x3b; x26; x3c] c = false ∧ c ≠ x3e.
Proof.
  intros Hs. assert (Hn : ¬ in_set symbols c = true) by (by rewrite Hs). rewrite in_set_elem in Hn. split.
  - apply not_true_is_false. intros E. apply Hn. apply in_set_elem in E. revert E. unfold symbols, str. simpl. set_solver.
  - intros ->. apply Hn. unfold symbols, str. simpl. set_solver.
Qed.
Lemma symbols_not_word c : in_set symbols c = true → in_set whitespace c = false ∧ c ≠ x00.
Proof. rewrite in_set_elem. intros H. by repeat (apply elem_of_cons in H as [->|H]; [done|]); apply elem_of_nil in H. Qed.

(** ** The grammar *)

(** What the tokens [<], [>] and [>>] open, and as which descriptor. *)
Definition redir_of (c : byte) : option (Z * Z) :=
  if bool_decide (c = x3c) then Some (0, 0)
  else if bool_decide (c = x3e) then Some (0x601, 1)
  else if bool_decide (c = x2b) then Some (0x201, 1)
  else None.
(** the arguments of a simple command *)
Fixpoint nargs {W} (c : cmd W) : nat :=
  match c with EXEC argv => length argv | REDIR c _ _ _ => nargs c | _ => 0%nat end.

Inductive nonterminal := NLine | NBack | NPipe | NExec | NBlock | NSimple.
(** the tokens [ts] are a phrase that means [c] *)
Inductive derives : nonterminal → list tok → cmd (list byte) → Prop :=
| d_line ts c : derives NBack ts c → derives NLine ts c
| d_list ts1 ts2 c1 c2 : derives NBack ts1 c1 → derives NLine ts2 c2 → derives NLine (ts1 ++ Sym x3b :: ts2) (LIST c1 c2)
| d_front ts c : derives NPipe ts c → derives NBack ts c
| d_back ts c : derives NBack ts c → derives NBack (ts ++ [Sym x26]) (BACK c)
| d_exec ts c : derives NExec ts c → derives NPipe ts c
| d_pipe ts1 ts2 c1 c2 : derives NExec ts1 c1 → derives NPipe ts2 c2 → derives NPipe (ts1 ++ Sym x7c :: ts2) (PIPE c1 c2)
| d_exec_block ts c : derives NBlock ts c → derives NExec ts c
| d_exec_simple ts c : derives NSimple ts c → derives NExec ts c
| d_block ts c : derives NLine ts c → derives NBlock (Sym x28 :: ts ++ [Sym x29]) c
| d_block_redir ts c r f mode fd : derives NBlock ts c → redir_of r = Some (mode, fd) →
    derives NBlock (ts ++ [Sym r; Word f]) (REDIR c f mode fd)
| d_simple : derives NSimple [] (EXEC [])
| d_simple_arg ts c w : derives NSimple ts c → (nargs c < 9)%nat → derives NSimple (ts ++ [Word w]) (add_arg w c)
| d_simple_redir ts c r f mode fd : derives NSimple ts c → redir_of r = Some (mode, fd) →
    derives NSimple (ts ++ [Sym r; Word f]) (REDIR c f mode fd).

Lemma cstring_cut w r : x00 ∉ w → cstring (w ++ x00 :: r) = w.
Proof. induction w as [|c w IH]; intros H; [done|]. simpl. rewrite bool_decide_false by set_solver. f_equal. apply IH. set_solver. Qed.

(** ** The tokens at a position *)

Section Line.
Context (ln : list byte) (Hnul : x00 ∉ ln).
Abbreviation buf := (ln ++ [x00]).
Abbreviation es := (length ln).

Lemma at_end : at_ buf es = x00.
Proof. unfold at_. apply list_lookup_total_middle. done. Qed.
Lemma at_drop s : (s < es)%nat → drop s ln = at_ buf s :: drop (S s) ln ∧ at_ buf s ≠ x00.
Proof.
  intros Hs. destruct (lookup_lt_is_Some_2 ln s Hs) as [c Hc]. assert (Ha : at_ buf s = c).
  { unfold at_. apply list_lookup_total_correct. by apply lookup_app_l_Some. }
  rewrite Ha. split; [by apply drop_S|]. intros ->. apply Hnul. by apply list_elem_of_lookup_2 in Hc.
Qed.
Lemma chr_at s : (s ≤ es)%nat → chr (drop s ln) = at_ buf s.
Proof.
  intros Hs. destruct (decide (s = es)) as [->|Hne]; [by rewrite drop_all, at_end|]. by rewrite (proj1 (at_drop s ltac:(lia))).
Qed.

Lemma skip_while_spec f n : ∀ s, (s + n = es)%nat → let s' := skip_while buf f n s in
  ∃ w, drop s ln = w ++ drop s' ln ∧ forallb f w = true ∧ s' = (s + length w)%nat ∧ (s' ≤ es)%nat ∧ (s' = es ∨ f (at_ buf s') = false).
Proof.
  induction n as [|n IH]; intros s Hs; simpl.
  - exists []. split_and!; simpl; [done|done|lia|lia|left; lia].
  - destruct (f (at_ buf s)) eqn:Ef.
    + destruct (IH (S s) ltac:(lia)) as (w & Hd & Hw & E & Hle & Hend). exists (at_ buf s :: w).
      split_and!; [|simpl; by rewrite Ef|simpl; lia|done|done]. by rewrite (proj1 (at_drop s ltac:(lia))), Hd.
    + exists []. split_and!; simpl; [done|done|lia|lia|by right].
Qed.

(** the tokens from [s] on are [ts] *)
Definition on (s : nat) (ts : list tok) : Prop := (s ≤ es)%nat ∧ lex (drop s ln) = ts.
Lemma skip_white_on s ts : on s ts → let s' := skip_white buf es s in
  on s' ts ∧ (s' = es ∨ in_set whitespace (at_ buf s') = false).
Proof.
  intros [Hs <-] s'. destruct (skip_while_spec (in_set whitespace) (es - s) s ltac:(lia)) as (w & Hd & Hw & _ & Hle & Hend).
  split; [|done]. split; [done|]. by rewrite Hd, lex_white.
Qed.

Definition slice (w : nat * nat) : list byte := take (w.2 - w.1) (drop w.1 ln).
(** a word: its characters, and that another character follows *)
Definition good (w : nat * nat) : Prop :=
  (w.1 ≤ w.2 ≤ es)%nat ∧ forallb word_char (slice w) = true ∧ word_char (at_ buf w.2) = false.

(** the head of the tokens is at a position without white space *)
Inductive head_at (s : nat) : list tok → Prop :=
| head_end : s = es → head_at s []
| head_word eq w ts : (s < es)%nat → word_char (at_ buf s) = true → good (s, eq) → slice (s, eq) = w → w ≠ [] →
    eq = skip_while buf (λ c, negb (in_set whitespace c) && negb (in_set symbols c)) (es - s) s →
    on eq ts → head_at s (Word w :: ts)
| head_sym ts : (s < es)%nat → in_set symbols (at_ buf s) = true → at_ buf s ≠ x3e → on (S s) ts → head_at s (Sym (at_ buf s) :: ts)
| head_gt ts : (s < es)%nat → at_ buf s = x3e → at_ buf (S s) ≠ x3e → on (S s) ts → head_at s (Sym x3e :: ts)
| head_gtgt ts : (S s < es)%nat → at_ buf s = x3e → at_ buf (S s) = x3e → on (S (S s)) ts → head_at s (Sym x2b :: ts).

Lemma head_at_ok s ts : on s ts → s = es ∨ in_set whitespace (at_ buf s) = false → head_at s ts.
Proof.
  intros [Hs <-] Hw. destruct (decide (s = es)) as [->|Hne]; [rewrite drop_all; by apply head_end|].
  destruct Hw as [?|Hw]; [done|]. destruct (at_drop s ltac:(lia)) as [Hd H0]. destruct (in_set symbols (at_ buf s)) eqn:Hsym.
  - destruct (decide (at_ buf s = x3e)) as [Hgt|Hgt].
    + destruct (decide (at_ buf (S s) = x3e)) as [Hgt'|Hgt'].
      * assert (HS : (S s < es)%nat). { destruct (decide (S s = es)) as [E|]; [|lia]. by rewrite E, at_end in Hgt'. }
        rewrite Hd, (proj1 (at_drop (S s) HS)), Hgt, Hgt', lex_gtgt. apply head_gtgt; [done..|]. by split; [lia|].
      * rewrite Hd, Hgt, lex_gt by (by rewrite chr_at by lia). apply head_gt; [lia|done|done|]. by split; [lia|].
    + rewrite Hd, lex_sym by done. apply head_sym; [lia|done..|]. by split; [lia|].
  - assert (Hwc : word_char (at_ buf s) = true) by (by apply word_char_true).
    set (f := λ c, negb (in_set whitespace c) && negb (in_set symbols c)).
    destruct (skip_while_spec f (es - s) s ltac:(lia)) as (w & Hdw & Hf & E & Hle & Hend). set (eq := skip_while buf f (es - s) s) in *.
    assert (Hwne : w ≠ []).
    { intros ->. simpl in E. destruct Hend as [?|Hfe]; [lia|]. unfold f in Hfe. rewrite E, Nat.add_0_r, Hw, Hsym in Hfe. done. }
    assert (Hsl : slice (s, eq) = w). { unfold slice. simpl. rewrite Hdw, E. replace (s + length w - s)%nat with (length w) by lia. apply take_app_length. }
    assert (Hall : forallb word_char w = true).
    { apply forallb_forall. intros c Hc. apply word_char_true. assert (Hfc := proj1 (forallb_forall f w) Hf c Hc).
      unfold f in Hfc. rewrite andb_true_iff, !negb_true_iff in Hfc. split; [|done]. intros ->. apply Hnul.
      assert (Hin : x00 ∈ drop s ln) by (rewrite Hdw; apply elem_of_app; left; by apply list_elem_of_In).
      rewrite <- (take_drop s ln). set_solver. }
    assert (Heq : word_char (at_ buf eq) = false).
    { destruct Hend as [->|Hfe]; [by rewrite at_end|]. unfold word_char. unfold f in Hfe. by rewrite <- andb_assoc, Hfe, andb_false_r. }
    rewrite Hdw, lex_word; [|done|done|by rewrite chr_at]. apply (head_word s eq); try done; [lia|]. split; simpl; [lia|]. by rewrite Hsl.
Qed.

Lemma head_char s t ts : head_at s (t :: ts) → tok_char t = at_ buf s ∧ at_ buf s ≠ x00.
Proof.
  intros H. inversion H as [|eq w ts' Hs Hw Hg Hsl Hne Heq Hon|ts' Hs Hsym Hgt Hon|ts' Hs Hgt Hgt' Hon|ts' Hs Hgt Hgt' Hon]; subst; simpl.
  - split; [|by apply (at_drop s)]. unfold slice in *. simpl in *. destruct (at_drop s Hs) as [-> _].
    by destruct (_ - s)%nat as [|k].
  - split; [|by apply symbols_not_word]. rewrite bool_decide_false; [done|]. intros E. rewrite E in Hsym. discriminate.
  - by rewrite Hgt.
  - by rewrite Hgt.
Qed.

Lemma peek_ok set s ts : on s ts → ∃ s', peek buf es set s = Ok (head_in set ts) s' ∧ on s' ts ∧ head_at s' ts.
Proof.
  intros Hon. destruct (skip_white_on s ts Hon) as [Hon' Hw]. assert (Hh := head_at_ok _ _ Hon' Hw).
  exists (skip_white buf es s). split_and!; [|done|done]. unfold peek. f_equal. destruct ts as [|t ts].
  - inversion Hh as [E| | | |]. by rewrite E, at_end.
  - destruct (head_char _ _ _ Hh) as [Et H0]. simpl. rewrite Et, bool_decide_false by done. done.
Qed.

Lemma gettoken_end s : on s [] → ∃ q s', gettoken buf es s = Ok (x00, q, q) s' ∧ on s' [].
Proof.
  intros Hon. destruct (skip_white_on s [] Hon) as [Hon' Hw]. assert (Hh := head_at_ok _ _ Hon' Hw). inversion Hh as [E| | | |].
  exists es, (skip_white buf es es). split; [|apply skip_white_on; by rewrite <- E]. unfold gettoken. by rewrite E, at_end.
Qed.
Lemma gettoken_sym s c ts : on s (Sym c :: ts) → ∃ q eq s', gettoken buf es s = Ok (c, q, eq) s' ∧ on s' ts.
Proof.
  intros Hon. destruct (skip_white_on s _ Hon) as [Hon' Hw]. assert (Hh := head_at_ok _ _ Hon' Hw).
  unfold gettoken. set (q := skip_white buf es s) in *. destruct (head_char _ _ _ Hh) as [_ H0].
  inversion Hh as [| |ts' Hs Hsym Hgt Hon1|ts' Hs Hgt Hgt' Hon1|ts' Hs Hgt Hgt' Hon1]; subst; rewrite bool_decide_false by done.
  - destruct (symbols_cases _ Hsym) as [?| ->]; [done|]. eexists _, _, _. split; [done|]. by apply skip_white_on.
  - rewrite !Hgt. rewrite (bool_decide_false (at_ buf (S q) = x3e)) by done. simpl. eexists _, _, _. split; [done|]. by apply skip_white_on.
  - rewrite !Hgt, Hgt'. simpl. eexists _, _, _. split; [done|]. by apply skip_white_on.
Qed.
Lemma gettoken_word s w ts : on s (Word w :: ts) →
  ∃ q eq s', gettoken buf es s = Ok (x61, q, eq) s' ∧ on s' ts ∧ good (q, eq) ∧ slice (q, eq) = w.
Proof.
  intros Hon. destruct (skip_white_on s _ Hon) as [Hon' Hw]. assert (Hh := head_at_ok _ _ Hon' Hw).
  unfold gettoken. set (q := skip_white buf es s) in *. destruct (head_char _ _ _ Hh) as [_ H0].
  inversion Hh as [|eq w' ts' Hs (_ & _ & Hsym)%word_char_true Hg Hsl Hne Heq Hon1| | |]; subst.
  destruct (symbols_false _ Hsym) as [Hs1 Hs2]. rewrite bool_decide_false by done. rewrite Hs1, bool_decide_false by done.
  eexists _, _, _. split; [done|]. split_and!; [by apply skip_white_on|done|done].
Qed.

(** ** What the parser looks at *)

Lemma on_ok s t ts : on s (t :: ts) → tok_ok t.
Proof.
  intros Hon. destruct (skip_white_on s _ Hon) as [Hon' Hw]. assert (Hh := head_at_ok _ _ Hon' Hw).
  inversion Hh as [|eq w ts' Hs Hc (_ & Hg & _) Hsl Hne Heq Hon1| | |]; subst; simpl; [done|by right|by right|by left].
Qed.
Lemma sym_cases c : tok_ok (Sym c) → c ∈ [x3c; x7c; x3e; x26; x3b; x28; x29; x2b].
Proof. intros [->|H]; [set_solver|]. apply in_set_elem in H. revert H. unfold symbols, str. simpl. set_solver. Qed.
Lemma word_head w set : tok_ok (Word w) → set ⊆ symbols → in_set set (chr w) = false.
Proof.
  intros [Hne Hw] Hs. destruct w as [|c w]; [done|]. simpl in *. apply andb_true_iff in Hw as [(_ & _ & Hc)%word_char_true _].
  apply not_true_is_false. intros H%in_set_elem. apply Hs, in_set_elem in H. by rewrite H in Hc.
Qed.

Definition is_sym (c : byte) (ts : list tok) : bool := match ts with Sym d :: _ => bool_decide (d = c) | _ => false end.
Definition is_redir (ts : list tok) : bool := match ts with Sym d :: _ => bool_decide (is_Some (redir_of d)) | _ => false end.
Definition is_stop (ts : list tok) : bool := is_sym x7c ts || is_sym x29 ts || is_sym x26 ts || is_sym x3b ts.

Ltac each_sym H := apply sym_cases in H; repeat (apply elem_of_cons in H as [->|H]; [done|]); by apply elem_of_nil in H.
Lemma sym_symbols c : c ∈ [x7c; x26; x3b; x28; x29] → [c] ⊆ symbols.
Proof.
  intros Hc x Hx%list_elem_of_singleton. subst x. by repeat (apply elem_of_cons in Hc as [->|Hc]; [by apply in_set_elem|]); apply elem_of_nil in Hc.
Qed.
Lemma peek_sym c s ts : on s ts → c ∈ [x7c; x26; x3b; x28; x29] → ∃ s', peek buf es [c] s = Ok (is_sym c ts) s' ∧ on s' ts.
Proof.
  intros Hon Hc. destruct (peek_ok [c] s ts Hon) as (s' & Hp & Hon' & _). exists s'. split; [|done]. rewrite Hp. f_equal.
  destruct ts as [|t ts]; [done|]. apply on_ok in Hon. simpl. destruct t as [w|d].
  - by apply word_head, sym_symbols.
  - revert Hon. repeat (apply elem_of_cons in Hc as [->|Hc]; [intros Hon; each_sym Hon|]). by apply elem_of_nil in Hc.
Qed.
Lemma peek_redir s ts : on s ts → ∃ s', peek buf es (str "<>") s = Ok (is_redir ts) s' ∧ on s' ts.
Proof.
  intros Hon. destruct (peek_ok (str "<>") s ts Hon) as (s' & Hp & Hon' & _). exists s'. split; [|done]. rewrite Hp. f_equal.
  destruct ts as [|t ts]; [done|]. apply on_ok in Hon. simpl. destruct t as [w|d]; [|each_sym Hon].
  apply word_head; [done|]. intros x Hx. by repeat (apply elem_of_cons in Hx as [->|Hx]; [by apply in_set_elem|]); apply elem_of_nil in Hx.
Qed.
Lemma peek_stop s ts : on s ts → ∃ s', peek buf es (str "|)&;") s = Ok (is_stop ts) s' ∧ on s' ts.
Proof.
  intros Hon. destruct (peek_ok (str "|)&;") s ts Hon) as (s' & Hp & Hon' & _). exists s'. split; [|done]. rewrite Hp. f_equal.
  destruct ts as [|t ts]; [done|]. apply on_ok in Hon. simpl. destruct t as [w|d]; [|each_sym Hon].
  apply word_head; [done|]. intros x Hx. by repeat (apply elem_of_cons in Hx as [->|Hx]; [by apply in_set_elem|]); apply elem_of_nil in Hx.
Qed.

(** ** The parser terminates and builds what the grammar gives *)

Fixpoint cmd_all {W} (P : W → Prop) (c : cmd W) : Prop :=
  match c with
  | EXEC argv => Forall P argv
  | REDIR c file _ _ => cmd_all P c ∧ P file
  | PIPE l r | LIST l r => cmd_all P l ∧ cmd_all P r
  | BACK c => cmd_all P c
  end.
Definition view (c : cmd (nat * nat)) : cmd (list byte) := cmd_map slice c.
(** [c] is built from the tokens of [ts] that are behind [s] *)
Definition built (n : nonterminal) (ts : list tok) (s : nat) (c : cmd (nat * nat)) : Prop :=
  ∃ front rest, ts = front ++ rest ∧ on s rest ∧ derives n front (view c) ∧ cmd_all good c.
Definition rest (s : nat) : nat := length (lex (drop s ln)).
Abbreviation total := (wp (E:=Empty_set) (λ o, o ≠ None) (λ _ _, True) (λ _ _ _, True)).

Lemma on_rest s ts : on s ts → rest s = length ts.
Proof. intros [_ <-]. done. Qed.
Lemma built_rest n ts s c : built n ts s c → (rest s ≤ length ts)%nat.
Proof. intros (front & r & -> & Hon & _). rewrite (on_rest _ _ Hon), length_app. lia. Qed.
Lemma total_Ok {A} (r : run Empty_set nat A) a s Q : r = Ok a s → Q a s → total r Q.
Proof. by intros ->. Qed.
Lemma total_panic {A} msg Q : total (Panic msg : run Empty_set nat A) Q.
Proof. done. Qed.
Lemma view_add_arg w c : view (add_arg w c) = add_arg (slice w) (view c).
Proof. unfold view. induction c as [argv|c IH f m d| | |]; simpl; try done; [f_equal; by rewrite fmap_app|by rewrite IH]. Qed.
Lemma all_add_arg {W} (P : W → Prop) w c : cmd_all P c → P w → cmd_all P (add_arg w c).
Proof. induction c as [argv|c IH f m d| | |]; simpl; try done; [|tauto]. intros Ha Hw. apply Forall_app. auto. Qed.
Lemma nargs_map {V W} (f : V → W) c : nargs (cmd_map f c) = nargs c.
Proof. induction c; simpl; [by rewrite length_fmap|done..]. Qed.

(** one redirection *)
Lemma redir_step c s ts : on s ts →
  (is_redir ts = false ∧ ∃ s', redir_body buf es c s = Ok (inr c) s' ∧ on s' ts) ∨
  (is_redir ts = true ∧ ∃ msg, redir_body buf es c s = Panic msg ∧ ∀ r f ts', ts ≠ Sym r :: Word f :: ts') ∨
  (∃ r f ts' mode fd w s', ts = Sym r :: Word f :: ts' ∧ redir_of r = Some (mode, fd) ∧
     redir_body buf es c s = Ok (inl (REDIR c w mode fd)) s' ∧ on s' ts' ∧ good w ∧ slice w = f).
Proof.
  intros Hon. destruct (peek_redir s ts Hon) as (s1 & Hp & Hon1). unfold redir_body. rewrite (bind_Ok _ _ _ _ _ Hp).
  destruct (is_redir ts) eqn:Er; [right|left; split; [done|]; exists s1; done].
  destruct ts as [|[w|r] ts]; [done..|]. simpl in Er. apply bool_decide_eq_true in Er as [[mode fd] Er].
  destruct (gettoken_sym s1 r ts Hon1) as (q & eq & s2 & Hg & Hon2). cbn [negb]. rewrite (bind_Ok _ _ _ _ _ Hg).
  destruct ts as [|[f|d] ts].
  - destruct (gettoken_end s2 Hon2) as (q' & s3 & Hg' & _). rewrite (bind_Ok _ _ _ _ _ Hg'). left. split; [done|]. eexists. split; [done|]. done.
  - destruct (gettoken_word s2 f ts Hon2) as (q' & eq' & s3 & Hg' & Hon3 & Hgood & Hsl). rewrite (bind_Ok _ _ _ _ _ Hg'). right.
    exists r, f, ts, mode, fd, (q', eq'), s3. split_and!; try done. unfold redir_of in Er. simpl.
    repeat (case_bool_decide; [by injection Er as <- <-|]). done.
  - destruct (gettoken_sym s2 d ts Hon2) as (q' & eq' & s3 & Hg' & _). rewrite (bind_Ok _ _ _ _ _ Hg'). left. split; [done|].
    rewrite bool_decide_false; [eexists; split; [done|done]|]. intros ->. apply on_ok in Hon2. destruct Hon2; done.
Qed.

Lemma redirs_sound n ts fuel c s : n = NBlock ∨ n = NSimple → built n ts s c → (rest s < fuel)%nat →
  total (parseredirs buf es fuel c s) (λ c' s', built n ts s' c' ∧ nargs c' = nargs c ∧ (rest s' ≤ rest s)%nat).
Proof.
  intros Hn Hb Hf. unfold parseredirs.
  apply (wp_iterate_lt _ _ _ _ (λ c' s', built n ts s' c' ∧ nargs c' = nargs c ∧ (rest s' ≤ rest s)%nat) _ rest); [done|done|].
  clear Hb Hf. intros c1 s1 ((front & r & -> & Hon & Hd & Hg) & Hna & Hr).
  destruct (redir_step c1 s1 r Hon) as [(_ & s2 & -> & Hon2)|[(_ & msg & -> & _)|(o & f & r' & mode & fd & w & s2 & -> & Ho & -> & Hon2 & Hw & Hsl)]]; simpl.
  - rewrite (on_rest _ _ Hon), <- (on_rest _ _ Hon2) in Hr. split_and!; [|done|done]. by exists front, r.
  - done.
  - rewrite (on_rest _ _ Hon) in *. rewrite (on_rest _ _ Hon2). simpl in *. split; [|lia]. split_and!; [|done|lia].
    exists (front ++ [Sym o; Word f]), r'. rewrite <- app_assoc. split_and!; try done. subst f.
    unfold view. simpl. destruct Hn as [->| ->]; by constructor.
Qed.

Fixpoint simple {W} (c : cmd W) : Prop := match c with EXEC _ => True | REDIR c _ _ _ => simple c | _ => False end.
Lemma simple_add_arg {W} (w : W) c : simple c → simple (add_arg w c) ∧ nargs (add_arg w c) = S (nargs c).
Proof. induction c; simpl; try done. intros _. split; [done|]. rewrite length_app. simpl. lia. Qed.
Lemma derives_simple ts c : derives NSimple ts c → simple c.
Proof.
  remember NSimple as n eqn:En. induction 1; try discriminate; simpl; auto. by apply simple_add_arg, IHderives.
Qed.

(** one argument *)
Lemma args_step fuel c argc s ts : on s ts →
  (is_stop ts = true ∨ ts = []) ∧ (∃ s', args_body buf es fuel (c, argc) s = Ok (inr c) s' ∧ on s' ts) ∨
  (∃ d ts', ts = Sym d :: ts' ∧ is_stop ts = false ∧ ∃ msg, args_body buf es fuel (c, argc) s = Panic msg) ∨
  (∃ w ts', ts = Word w :: ts' ∧
    (((9 ≤ argc)%nat ∧ ∃ msg, args_body buf es fuel (c, argc) s = Panic msg) ∨
     ((argc < 9)%nat ∧ ∃ p s', on s' ts' ∧ good p ∧ slice p = w ∧
       args_body buf es fuel (c, argc) s = bind (parseredirs buf es fuel (add_arg p c)) (λ c', ret (inl (c', S argc))) s'))).
Proof.
  intros Hon. destruct (peek_stop s ts Hon) as (s1 & Hp & Hon1). unfold args_body. rewrite (bind_Ok _ _ _ _ _ Hp).
  destruct (is_stop ts) eqn:Es; [left; split; [by left|]; by exists s1|]. destruct ts as [|[w|d] ts].
  - left. split; [by right|]. destruct (gettoken_end s1 Hon1) as (q & s2 & Hg & Hon2). rewrite (bind_Ok _ _ _ _ _ Hg). by exists s2.
  - right. right. exists w, ts. split; [done|]. destruct (gettoken_word s1 w ts Hon1) as (q & eq & s2 & Hg & Hon2 & Hgd & Hsl).
    rewrite (bind_Ok _ _ _ _ _ Hg). cbv beta iota zeta. change (bool_decide (x61 = x00)) with false. change (bool_decide (x61 = x61)) with true.
    cbn [negb]. destruct (Nat.le_gt_cases 9 argc).
    + left. split; [done|]. eexists. rewrite (proj2 (Nat.leb_le MAXARGS (S argc))) by (unfold MAXARGS; lia). done.
    + right. split; [done|]. exists (q, eq), s2. split_and!; try done. rewrite (proj2 (Nat.leb_gt MAXARGS (S argc))) by (unfold MAXARGS; lia). done.
  - right. left. exists d, ts. split; [done|]. split; [done|]. destruct (gettoken_sym s1 d ts Hon1) as (q & eq & s2 & Hg & _).
    rewrite (bind_Ok _ _ _ _ _ Hg). apply on_ok, sym_cases in Hon. exists "syntax"%string.
    by repeat (apply elem_of_cons in Hon as [->|Hon]; [done|]); apply elem_of_nil in Hon.
Qed.

Lemma simple_sound fuel s ts : on s ts → (length ts < fuel)%nat →
  total (bind (parseredirs buf es fuel (EXEC [])) (λ c, iterate fuel (args_body buf es fuel) (c, 0%nat)) s) (λ c s', built NSimple ts s' c).
Proof.
  intros Hon Hf. assert (Hr : rest s = length ts) by (by apply on_rest).
  eapply wp_bind'; [apply (redirs_sound NSimple ts); [by right| |lia]|].
  { exists [], ts. split_and!; try done; simpl; [constructor|constructor]. }
  intros c s1 (Hb1 & Hn1 & Hr1). simpl in Hn1.
  apply (wp_iterate_lt _ _ _ _ (λ st s', built NSimple ts s' st.1 ∧ nargs st.1 = st.2) _ rest); [lia|done|].
  clear c s1 Hb1 Hn1 Hr1. intros [c argc] s1 [(front & r & -> & Hon1 & Hd & Hg) Hn]. simpl in Hn. rewrite length_app in Hf.
  assert (Hr1 : rest s1 = length r) by (by apply on_rest).
  destruct (args_step fuel c argc s1 r Hon1) as [(_ & s2 & -> & Hon2)|[(d & r' & _ & _ & msg & ->)|(w & r' & -> & [(_ & msg & ->)|(Ha & p & s2 & Hon2 & Hp & Hsl & ->)])]];
    simpl; [by exists front, r|done|done|].
  assert (Hr2 : rest s2 = length r') by (by apply on_rest). simpl in *.
  assert (Hsi : simple c) by (assert (Hsv := derives_simple _ _ Hd); clear -Hsv; induction c; simpl in *; auto).
  eapply wp_bind'; [apply (redirs_sound NSimple (front ++ Word w :: r')); [by right| |lia]|].
  - exists (front ++ [Word w]), r'. rewrite <- app_assoc. split_and!; [done|done| |by apply all_add_arg].
    rewrite view_add_arg, Hsl. apply d_simple_arg; [done|]. unfold view. rewrite nargs_map. lia.
  - intros c2 s3 (Hb & Hn2 & Hr3). simpl. split; [|lia]. split; [done|]. rewrite Hn2, (proj2 (simple_add_arg p c Hsi)). lia.
Qed.

Lemma built_as n n' ts s c : (∀ front, derives n front (view c) → derives n' front (view c)) → built n ts s c → built n' ts s c.
Proof. intros Hd (front & r & -> & Hon & H & Hg). exists front, r. auto. Qed.
Lemma is_sym_true c ts : is_sym c ts = true → ∃ ts', ts = Sym c :: ts'.
Proof. destruct ts as [|[w|d] ts]; try done. intros ->%bool_decide_eq_true. eauto. Qed.

(** the loop over [&] *)
Lemma amp_sound ts fuel c s : built NBack ts s c → (length ts < fuel)%nat →
  total (iterate fuel (amp_body buf es) c s) (λ c s', built NBack ts s' c).
Proof.
  intros Hb Hf. assert (Hr := built_rest _ _ _ _ Hb).
  apply (wp_iterate_lt _ _ _ _ (λ c s', built NBack ts s' c) _ rest); [lia|done|]. clear c s Hb Hr.
  intros c s (front & r & -> & Hon & Hd & Hg). unfold amp_body.
  destruct (peek_sym x26 s r Hon ltac:(set_solver)) as (s1 & Hp & Hon1). rewrite (bind_Ok _ _ _ _ _ Hp).
  destruct (is_sym x26 r) eqn:Ea; [|by exists front, r]. apply is_sym_true in Ea as (r' & ->).
  destruct (gettoken_sym s1 x26 r' Hon1) as (q & eq & s2 & Hg2 & Hon2). rewrite (bind_Ok _ _ _ _ _ Hg2).
  rewrite (on_rest _ _ Hon). simpl. rewrite (on_rest _ _ Hon2). split; [|lia].
  exists (front ++ [Sym x26]), r'. rewrite <- app_assoc. split_and!; try done. by apply d_back.
Qed.

Definition sound_at (fuel : nat) : Prop :=
  (∀ s ts, on s ts → (4 * length ts + 4 < fuel)%nat → total (parseline buf es fuel s) (λ c s', built NLine ts s' c)) ∧
  (∀ s ts, on s ts → (4 * length ts + 3 < fuel)%nat → total (parsepipe buf es fuel s) (λ c s', built NPipe ts s' c)) ∧
  (∀ s ts, on s ts → (4 * length ts + 2 < fuel)%nat → total (parseexec buf es fuel s) (λ c s', built NExec ts s' c)) ∧
  (∀ s ts, on s ts → (4 * length ts + 1 < fuel)%nat → total (parseblock buf es fuel s) (λ c s', built NBlock ts s' c)).

Lemma line_sound f s ts : sound_at f → on s ts → (4 * length ts + 4 < S f)%nat →
  total (parseline buf es (S f) s) (λ c s', built NLine ts s' c).
Proof.
  intros (Hline & Hpipe & _) Hon Hf. cbn [parseline]. eapply wp_bind'; [apply (Hpipe s ts); [done|lia]|].
  intros c s1 Hb1. eapply wp_bind'; [apply (amp_sound ts); [|lia]|].
  { revert Hb1. apply built_as. intros front. apply d_front. }
  clear c s1 Hb1. intros c s1 (front & r & -> & Hon1 & Hd & Hg). rewrite length_app in Hf.
  destruct (peek_sym x3b s1 r Hon1 ltac:(set_solver)) as (s2 & Hp & Hon2). rewrite (bind_Ok _ _ _ _ _ Hp).
  destruct (is_sym x3b r) eqn:Es; [|exists front, r; split_and!; try done; by apply d_line]. apply is_sym_true in Es as (r' & ->).
  destruct (gettoken_sym s2 x3b r' Hon2) as (q & eq & s3 & Hg3 & Hon3). rewrite (bind_Ok _ _ _ _ _ Hg3). simpl in Hf.
  eapply wp_bind'; [apply (Hline s3 r'); [done|lia]|]. intros c2 s4 (front2 & r2 & -> & Hon4 & Hd2 & Hg4). simpl.
  exists (front ++ Sym x3b :: front2), r2. rewrite <- app_assoc. split_and!; try done. by apply d_list.
Qed.
Lemma pipe_sound f s ts : sound_at f → on s ts → (4 * length ts + 3 < S f)%nat →
  total (parsepipe buf es (S f) s) (λ c s', built NPipe ts s' c).
Proof.
  intros (_ & Hpipe & Hexec & _) Hon Hf. cbn [parsepipe]. eapply wp_bind'; [apply (Hexec s ts); [done|lia]|].
  intros c s1 (front & r & -> & Hon1 & Hd & Hg). rewrite length_app in Hf.
  destruct (peek_sym x7c s1 r Hon1 ltac:(set_solver)) as (s2 & Hp & Hon2). rewrite (bind_Ok _ _ _ _ _ Hp).
  destruct (is_sym x7c r) eqn:Es; [|exists front, r; split_and!; try done; by apply d_exec]. apply is_sym_true in Es as (r' & ->).
  destruct (gettoken_sym s2 x7c r' Hon2) as (q & eq & s3 & Hg3 & Hon3). rewrite (bind_Ok _ _ _ _ _ Hg3). simpl in Hf.
  eapply wp_bind'; [apply (Hpipe s3 r'); [done|lia]|]. intros c2 s4 (front2 & r2 & -> & Hon4 & Hd2 & Hg4). simpl.
  exists (front ++ Sym x7c :: front2), r2. rewrite <- app_assoc. split_and!; try done. by apply d_pipe.
Qed.
Lemma exec_sound f s ts : sound_at f → on s ts → (4 * length ts + 2 < S f)%nat →
  total (parseexec buf es (S f) s) (λ c s', built NExec ts s' c).
Proof.
  intros (_ & _ & _ & Hblock) Hon Hf. cbn [parseexec].
  destruct (peek_sym x28 s ts Hon ltac:(set_solver)) as (s1 & Hp & Hon1). rewrite (bind_Ok _ _ _ _ _ Hp). destruct (is_sym x28 ts).
  - eapply wp_mono; [|apply (Hblock s1 ts); [done|lia]]. intros c s2. apply built_as. intros front. apply d_exec_block.
  - eapply wp_mono; [|apply (simple_sound f s1 ts); [done|lia]]. intros c s2. apply built_as. intros front. apply d_exec_simple.
Qed.
Lemma block_sound f s ts : sound_at f → on s ts → (4 * length ts + 1 < S f)%nat →
  total (parseblock buf es (S f) s) (λ c s', built NBlock ts s' c).
Proof.
  intros (Hline & _) Hon Hf. cbn [parseblock].
  destruct (peek_sym x28 s ts Hon ltac:(set_solver)) as (s1 & Hp & Hon1). rewrite (bind_Ok _ _ _ _ _ Hp).
  destruct (is_sym x28 ts) eqn:Es; [|done]. apply is_sym_true in Es as (r & ->). cbn [negb].
  destruct (gettoken_sym s1 x28 r Hon1) as (q & eq & s2 & Hg2 & Hon2). rewrite (bind_Ok _ _ _ _ _ Hg2). simpl in Hf.
  eapply wp_bind'; [apply (Hline s2 r); [done|lia]|]. intros c s3 (front & r2 & -> & Hon3 & Hd & Hg). rewrite length_app in Hf.
  destruct (peek_sym x29 s3 r2 Hon3 ltac:(set_solver)) as (s4 & Hp4 & Hon4). rewrite (bind_Ok _ _ _ _ _ Hp4).
  destruct (is_sym x29 r2) eqn:Es; [|done]. apply is_sym_true in Es as (r3 & ->). cbn [negb].
  destruct (gettoken_sym s4 x29 r3 Hon4) as (q' & eq' & s5 & Hg5 & Hon5). rewrite (bind_Ok _ _ _ _ _ Hg5). simpl in Hf.
  eapply wp_mono; [|apply (redirs_sound NBlock (Sym x28 :: front ++ Sym x29 :: r3)); [by left| |rewrite (on_rest _ _ Hon5); lia]].
  - by intros c' s' (? & _).
  - exists (Sym x28 :: front ++ [Sym x29]), r3. simpl. rewrite <- app_assoc. split_and!; try done. by apply d_block.
Qed.
Lemma parse_sound fuel : sound_at fuel.
Proof.
  induction fuel as [|f IH]; [split_and!; intros; lia|].
  split_and!; intros s ts; [by apply line_sound|by apply pipe_sound|by apply exec_sound|by apply block_sound].
Qed.

(** ** The parser finds every phrase of the grammar *)

(** the rest of [parseexec] once its redirections are read, and of [parseblock] *)
Definition exec_from (f g1 g2 : nat) (c : cmd (nat * nat)) (argc : nat) : M Empty_set nat (cmd (nat * nat)) :=
  bind (parseredirs buf es g1 c) (λ c', iterate g2 (args_body buf es f) (c', argc)).
Definition block_from (f g : nat) : M Empty_set nat (cmd (nat * nat)) :=
  let* open := peek buf es (str "(") in
  if negb open then panic "parseblock" else
  gettoken buf es ;;;
  let* cmd := parseline buf es f in
  let* closed := peek buf es (str ")") in
  if negb closed then panic "syntax - missing )" else
  gettoken buf es ;;;
  parseredirs buf es g cmd.

(** what may come after a phrase *)
Definition follow_exec (r : list tok) : Prop := r = [] ∨ is_stop r = true.
Definition follow_pipe (r : list tok) : Prop := follow_exec r ∧ is_sym x7c r = false.
Definition follow_line (r : list tok) : Prop := r = [] ∨ is_sym x29 r = true.

Definition found (r : list tok) (a : cmd (list byte)) (c : cmd (nat * nat)) (s : nat) : Prop := on s r ∧ view c = a.
Definition complete_at (n : nonterminal) (front : list tok) (a : cmd (list byte)) : Prop :=
  ∀ s r f, on s (front ++ r) → let len := length (front ++ r) in
  match n with
  | NLine => follow_line r → (4 * len + 4 < f)%nat → ∃ c s', parseline buf es f s = Ok c s' ∧ found r a c s'
  | NPipe => follow_pipe r → (4 * len + 3 < f)%nat → ∃ c s', parsepipe buf es f s = Ok c s' ∧ found r a c s'
  | NExec => follow_exec r → (4 * len + 2 < f)%nat → ∃ c s', parseexec buf es f s = Ok c s' ∧ found r a c s'
  | NBack => ∀ k, follow_pipe r → (4 * len + 3 < f)%nat → (len < k)%nat → ∃ c s' k', (length r < k')%nat ∧ found r a c s' ∧
      bind (parsepipe buf es f) (iterate k (amp_body buf es)) s = iterate k' (amp_body buf es) c s'
  | NBlock => ∀ g, (4 * len + 1 < S f)%nat → (len < g)%nat → ∃ c s' g', (length r < g')%nat ∧ found r a c s' ∧
      block_from f g s = parseredirs buf es g' c s'
  | NSimple => ∀ g1 g2, (len < f)%nat → (len < g1)%nat → (len < g2)%nat → ∃ c s' g1' g2',
      (length r < g1')%nat ∧ (length r < g2')%nat ∧ found r a c s' ∧
      exec_from f g1 g2 (EXEC []) 0 s = exec_from f g1' g2' c (nargs c) s'
  end.

Lemma redirs_end g c s r : on s r → is_redir r = false → (0 < g)%nat → ∃ s', parseredirs buf es g c s = Ok c s' ∧ on s' r.
Proof.
  intros Hon Hr Hg. destruct (redir_step c s r Hon) as [(_ & s' & Hb & Hon')|[(Hr' & _)|(o & f & r' & m & d & w & s' & -> & Ho & _)]].
  - exists s'. split; [|done]. destruct g as [|g]; [lia|]. by apply iterate_done.
  - by rewrite Hr in Hr'.
  - simpl in Hr. rewrite Ho in Hr. discriminate.
Qed.
Lemma follow_exec_redir r : follow_exec r → is_redir r = false ∧ is_sym x28 r = false.
Proof.
  intros [->|H]; [done|]. destruct r as [|[w|d] r]; [done..|]. unfold is_stop in H. simpl in *.
  repeat (case_bool_decide; [by subst d|]); done.
Qed.

(** one more redirection, or one more argument, is read *)
Lemma redir_next g c s o f mode fd r : on s (Sym o :: Word f :: r) → redir_of o = Some (mode, fd) → (0 < g)%nat →
  ∃ w s', parseredirs buf es g c s = parseredirs buf es (pred g) (REDIR c w mode fd) s' ∧ on s' r ∧ slice w = f.
Proof.
  intros Hon Ho Hg. destruct (redir_step c s _ Hon) as [(Hr & _)|[(_ & msg & _ & Hn)|(o' & f' & r' & m & d & w & s' & E & Ho' & Hb & Hon' & _ & Hsl)]].
  - simpl in Hr. rewrite Ho in Hr. discriminate.
  - by destruct (Hn o f r).
  - injection E as <- <- <-. rewrite Ho in Ho'. injection Ho' as <- <-. exists w, s'. split; [|done].
    destruct g as [|g]; [lia|]. by apply iterate_next.
Qed.
Lemma arg_next f g1 g2 c s w r : on s (Word w :: r) → (nargs c < 9)%nat → simple c → (0 < g1)%nat → (0 < g2)%nat →
  ∃ p s', exec_from f g1 g2 c (nargs c) s = exec_from f f (pred g2) (add_arg p c) (nargs (add_arg p c)) s' ∧ on s' r ∧ slice p = w.
Proof.
  intros Hon Hn Hs H1 H2. destruct (redirs_end g1 c s _ Hon eq_refl H1) as (s1 & Hr & Hon1). unfold exec_from at 1.
  rewrite (bind_Ok _ _ _ _ _ Hr). destruct g2 as [|g2]; [lia|].
  destruct (args_step f c (nargs c) s1 _ Hon1) as [([?|?] & _)|[(d & r' & ? & _)|(w' & r' & E & [(? & _)|(_ & p & s2 & Hon2 & _ & Hsl & Hb)])]]; try done; [lia|].
  injection E as <- <-. exists p, s2. split; [|done]. cbn [iterate pred]. unfold bind at 1. rewrite Hb, (proj2 (simple_add_arg p c Hs)).
  unfold exec_from, bind. destruct (parseredirs buf es f (add_arg p c) s2) as [| |[]|]; done.
Qed.

Lemma simple_head front a r : derives NSimple front a → is_sym x28 r = false → is_sym x28 (front ++ r) = false.
Proof.
  remember NSimple as n eqn:En. intros H. revert r. induction H as [| | | | | | | | | | |ts c w _ IH _|ts c o f m d _ IH Ho]; intros r1 Hr; try discriminate.
  - done.
  - rewrite <- app_assoc. by apply IH.
  - rewrite <- app_assoc. apply IH; [done|]. simpl. apply bool_decide_eq_false. intros ->. discriminate.
Qed.
Lemma block_head front a : derives NBlock front a → ∃ ts, front = Sym x28 :: ts.
Proof. remember NBlock as n eqn:En. induction 1; try discriminate; [eauto|]. destruct (IHderives En) as [ts' ->]. simpl. eauto. Qed.
Lemma simple_view c front : derives NSimple front (view c) → simple c.
Proof. intros H%derives_simple. induction c; simpl in *; auto. Qed.

Lemma complete_simple_arg ts c w : derives NSimple ts c → complete_at NSimple ts c → (nargs c < 9)%nat →
  complete_at NSimple (ts ++ [Word w]) (add_arg w c).
Proof.
  intros Hd IH Hn s r f Hon len g1 g2 Hf H1 H2. rewrite <- app_assoc in Hon. simpl in Hon.
  assert (El : len = length (ts ++ Word w :: r)) by (unfold len; by rewrite <- app_assoc).
  destruct (IH s (Word w :: r) f Hon g1 g2 ltac:(lia) ltac:(lia) ltac:(lia)) as (c1 & s1 & k1 & k2 & Hk1 & Hk2 & [Hon1 Hv] & ->).
  simpl in Hk1, Hk2. assert (Hs : simple c1) by (apply (simple_view c1 ts); by rewrite Hv).
  destruct (arg_next f k1 k2 c1 s1 w r Hon1) as (p & s2 & -> & Hon2 & Hsl); [|done|lia|lia|].
  { rewrite <- Hv in Hn. unfold view in Hn. by rewrite nargs_map in Hn. }
  exists (add_arg p c1), s2, f, (pred k2). split_and!; [rewrite El, length_app in Hf; simpl in Hf; lia|lia|split; [done|]|done].
  by rewrite view_add_arg, Hv, Hsl.
Qed.
Lemma complete_simple_redir ts c o f mode fd : complete_at NSimple ts c → redir_of o = Some (mode, fd) →
  complete_at NSimple (ts ++ [Sym o; Word f]) (REDIR c f mode fd).
Proof.
  intros IH Ho s r fu Hon len g1 g2 Hf H1 H2. rewrite <- app_assoc in Hon. simpl in Hon.
  assert (El : len = length (ts ++ Sym o :: Word f :: r)) by (unfold len; by rewrite <- app_assoc).
  destruct (IH s (Sym o :: Word f :: r) fu Hon g1 g2 ltac:(lia) ltac:(lia) ltac:(lia)) as (c1 & s1 & k1 & k2 & Hk1 & Hk2 & [Hon1 Hv] & ->).
  simpl in Hk1, Hk2. destruct (redir_next k1 c1 s1 o f mode fd r Hon1 Ho ltac:(lia)) as (w & s2 & Hr & Hon2 & Hsl).
  exists (REDIR c1 w mode fd), s2, (pred k1), k2. split_and!; [lia|lia|split; [done|]|].
  - unfold view in *. simpl. by rewrite Hv, Hsl.
  - unfold exec_from, bind. by rewrite Hr.
Qed.
Lemma complete_block_redir ts c o f mode fd : complete_at NBlock ts c → redir_of o = Some (mode, fd) →
  complete_at NBlock (ts ++ [Sym o; Word f]) (REDIR c f mode fd).
Proof.
  intros IH Ho s r fu Hon len g Hf Hg. rewrite <- app_assoc in Hon. simpl in Hon.
  assert (El : len = length (ts ++ Sym o :: Word f :: r)) by (unfold len; by rewrite <- app_assoc).
  destruct (IH s (Sym o :: Word f :: r) fu Hon g ltac:(lia) ltac:(lia)) as (c1 & s1 & g1 & Hg1 & [Hon1 Hv] & ->).
  simpl in Hg1. destruct (redir_next g1 c1 s1 o f mode fd r Hon1 Ho ltac:(lia)) as (w & s2 & Hr & Hon2 & Hsl).
  exists (REDIR c1 w mode fd), s2, (pred g1). split_and!; [lia|split; [done|]|done]. unfold view in *. simpl. by rewrite Hv, Hsl.
Qed.
Lemma complete_block ts c : complete_at NLine ts c → complete_at NBlock (Sym x28 :: ts ++ [Sym x29]) c.
Proof.
  intros IH s r f Hon len g Hf Hg. simpl in Hon. rewrite <- app_assoc in Hon. simpl in Hon.
  assert (El : len = S (length (ts ++ Sym x29 :: r))) by (unfold len; simpl; by rewrite <- app_assoc). unfold block_from.
  destruct (peek_sym x28 s _ Hon ltac:(set_solver)) as (s1 & Hp & Hon1). rewrite (bind_Ok _ _ _ _ _ Hp). cbn [is_sym bool_decide negb].
  change (bool_decide (x28 = x28)) with true. cbn [negb].
  destruct (gettoken_sym s1 x28 _ Hon1) as (q & eq & s2 & Hg2 & Hon2). rewrite (bind_Ok _ _ _ _ _ Hg2).
  destruct (IH s2 (Sym x29 :: r) f Hon2) as (c1 & s3 & Hl & Hon3 & Hv); [by right|lia|]. rewrite (bind_Ok _ _ _ _ _ Hl).
  destruct (peek_sym x29 s3 _ Hon3 ltac:(set_solver)) as (s4 & Hp4 & Hon4). rewrite (bind_Ok _ _ _ _ _ Hp4). cbn [is_sym].
  change (bool_decide (x29 = x29)) with true. cbn [negb].
  destruct (gettoken_sym s4 x29 _ Hon4) as (q' & eq' & s5 & Hg5 & Hon5). rewrite (bind_Ok _ _ _ _ _ Hg5).
  exists c1, s5, g. split_and!; [rewrite length_app in El; simpl in El; lia|done|done].
Qed.
Lemma complete_exec_block ts c : derives NBlock ts c → complete_at NBlock ts c → complete_at NExec ts c.
Proof.
  intros [ts' ->]%block_head IH s r f Hon len Hfo Hf. destruct f as [|[|f]]; [lia..|]. cbn [parseexec].
  destruct (peek_sym x28 s _ Hon ltac:(set_solver)) as (s1 & Hp & Hon1). rewrite (bind_Ok _ _ _ _ _ Hp). cbn [app is_sym].
  change (bool_decide (x28 = x28)) with true. cbv iota.
  destruct (IH s1 r f Hon1 f ltac:(unfold len in Hf; lia) ltac:(unfold len in Hf; lia)) as (c1 & s2 & g & Hg & [Hon2 Hv] & Hb).
  destruct (redirs_end g c1 s2 r Hon2) as (s3 & Hr & Hon3); [by apply follow_exec_redir|lia|].
  exists c1, s3. split; [|done]. by rewrite <- Hr, <- Hb.
Qed.
Lemma complete_exec_simple ts c : derives NSimple ts c → complete_at NSimple ts c → complete_at NExec ts c.
Proof.
  intros Hd IH s r f Hon len Hfo Hf. destruct (follow_exec_redir r Hfo) as [Hnr Hn28]. destruct f as [|f]; [lia|]. cbn [parseexec].
  destruct (peek_sym x28 s _ Hon ltac:(set_solver)) as (s1 & Hp & Hon1). rewrite (bind_Ok _ _ _ _ _ Hp).
  rewrite (simple_head _ _ _ Hd Hn28).
  destruct (IH s1 r f Hon1 f f ltac:(unfold len in Hf; lia) ltac:(unfold len in Hf; lia) ltac:(unfold len in Hf; lia)) as (c1 & s2 & g1 & g2 & Hg1 & Hg2 & [Hon2 Hv] & Hb).
  destruct (redirs_end g1 c1 s2 r Hon2 Hnr) as (s3 & Hr & Hon3); [lia|]. destruct g2 as [|g2]; [lia|].
  destruct (args_step f c1 (nargs c1) s3 r Hon3) as [(_ & s4 & Ha & Hon4)|[(d & r' & E & Hs & _)|(w & r' & E & _)]].
  - exists c1, s4. split; [|done]. unfold exec_from in Hb. rewrite (bind_Ok _ _ _ _ _ Hr) in Hb. cbn [iterate] in Hb. etrans; [exact Hb|].
    by rewrite (bind_Ok _ _ _ _ _ Ha).
  - destruct Hfo as [->|Hfo]; [done|congruence].
  - destruct Hfo as [->|Hfo]; [done|subst; done].
Qed.

Lemma complete_exec ts c : complete_at NExec ts c → complete_at NPipe ts c.
Proof.
  intros IH s r f Hon len [Hfo Hnp] Hf. destruct f as [|f]; [lia|]. cbn [parsepipe].
  destruct (IH s r f Hon Hfo ltac:(unfold len in Hf; lia)) as (c1 & s1 & He & Hon1 & Hv). rewrite (bind_Ok _ _ _ _ _ He).
  destruct (peek_sym x7c s1 r Hon1 ltac:(set_solver)) as (s2 & Hp & Hon2). rewrite (bind_Ok _ _ _ _ _ Hp), Hnp. by exists c1, s2.
Qed.
Lemma complete_pipe ts1 ts2 c1 c2 : complete_at NExec ts1 c1 → complete_at NPipe ts2 c2 → complete_at NPipe (ts1 ++ Sym x7c :: ts2) (PIPE c1 c2).
Proof.
  intros IH1 IH2 s r f Hon len Hfo Hf. rewrite <- app_assoc in Hon. simpl in Hon. destruct f as [|f]; [lia|]. cbn [parsepipe].
  assert (El : len = (length ts1 + S (length (ts2 ++ r)))%nat) by (unfold len; rewrite <- app_assoc, length_app; done).
  destruct (IH1 s (Sym x7c :: ts2 ++ r) f Hon) as (d1 & s1 & He & Hon1 & Hv1); [by right|rewrite length_app; simpl; lia|].
  rewrite (bind_Ok _ _ _ _ _ He).
  destruct (peek_sym x7c s1 _ Hon1 ltac:(set_solver)) as (s2 & Hp & Hon2). rewrite (bind_Ok _ _ _ _ _ Hp). cbn [is_sym].
  change (bool_decide (x7c = x7c)) with true. cbv iota.
  destruct (gettoken_sym s2 x7c _ Hon2) as (q & eq & s3 & Hg & Hon3). rewrite (bind_Ok _ _ _ _ _ Hg).
  destruct (IH2 s3 r f Hon3 Hfo) as (d2 & s4 & Hpp & Hon4 & Hv2); [lia|]. rewrite (bind_Ok _ _ _ _ _ Hpp).
  exists (PIPE d1 d2), s4. split; [done|]. split; [done|]. unfold view in *. simpl. by rewrite Hv1, Hv2.
Qed.
Lemma complete_front ts c : complete_at NPipe ts c → complete_at NBack ts c.
Proof.
  intros IH s r f Hon len k Hfo Hf Hk. destruct (IH s r f Hon Hfo Hf) as (c1 & s1 & Hp & Hfd).
  exists c1, s1, k. split_and!; [unfold len in Hk; rewrite length_app in Hk; lia|done|]. by rewrite (bind_Ok _ _ _ _ _ Hp).
Qed.
Lemma amp_end c s r k : on s r → is_sym x26 r = false → (0 < k)%nat → ∃ s', iterate k (amp_body buf es) c s = Ok c s' ∧ on s' r.
Proof.
  intros Hon Hn Hk. destruct (peek_sym x26 s r Hon ltac:(set_solver)) as (s1 & Hp & Hon1). exists s1. split; [|done].
  destruct k as [|k]; [lia|]. apply iterate_done. unfold amp_body. by rewrite (bind_Ok _ _ _ _ _ Hp), Hn.
Qed.
Lemma complete_back ts c : complete_at NBack ts c → complete_at NBack (ts ++ [Sym x26]) (BACK c).
Proof.
  intros IH s r f Hon len k Hfo Hf Hk. rewrite <- app_assoc in Hon. simpl in Hon.
  assert (El : len = length (ts ++ Sym x26 :: r)) by (unfold len; by rewrite <- app_assoc).
  destruct (IH s (Sym x26 :: r) f Hon k) as (c1 & s1 & k1 & Hk1 & [Hon1 Hv] & ->); [by split; [right|]|lia|lia|]. simpl in Hk1.
  destruct k1 as [|k1]; [lia|]. destruct (peek_sym x26 s1 _ Hon1 ltac:(set_solver)) as (s2 & Hp & Hon2).
  destruct (gettoken_sym s2 x26 r Hon2) as (q & eq & s3 & Hg & Hon3).
  exists (BACK c1), s3, k1. split_and!; [lia|split; [done|]|].
  - unfold view in *. simpl. by rewrite Hv.
  - apply iterate_next. unfold amp_body. rewrite (bind_Ok _ _ _ _ _ Hp). cbn [is_sym]. change (bool_decide (x26 = x26)) with true. cbv iota.
    by rewrite (bind_Ok _ _ _ _ _ Hg).
Qed.
Lemma follow_line_pipe r : follow_line r → follow_pipe r ∧ is_sym x26 r = false ∧ is_sym x3b r = false.
Proof.
  intros [->|H]; [split_and!; try done; split; [by left|done]|]. apply is_sym_true in H as [r' ->]. split_and!; try done. by split; [right|].
Qed.
Lemma line_start f s r c1 s1 k' :
  bind (parsepipe buf es f) (iterate f (amp_body buf es)) s = iterate k' (amp_body buf es) c1 s1 →
  on s1 r → is_sym x26 r = false → (0 < k')%nat →
  ∃ s2, on s2 r ∧ ∀ k : cmd (nat * nat) → M Empty_set nat (cmd (nat * nat)),
    bind (parsepipe buf es f) (λ cmd, bind (iterate f (amp_body buf es) cmd) k) s = k c1 s2.
Proof.
  intros Hrun Hon Hn Hk. destruct (amp_end c1 s1 r k' Hon Hn Hk) as (s2 & Ha & Hon2). exists s2. split; [done|]. intros k. rewrite Ha in Hrun.
  unfold bind in *. destruct (parsepipe buf es f s) as [c0 s0| |[]|]; try done. simpl in *. by rewrite Hrun.
Qed.
Lemma complete_line ts c : complete_at NBack ts c → complete_at NLine ts c.
Proof.
  intros IH s r f Hon len Hfo Hf. destruct (follow_line_pipe r Hfo) as (Hfp & H26 & H3b). destruct f as [|f]; [lia|]. cbn [parseline].
  destruct (IH s r f Hon f Hfp ltac:(unfold len in Hf; lia) ltac:(unfold len in Hf; lia)) as (c1 & s1 & k1 & Hk1 & [Hon1 Hv] & Hrun).
  destruct (line_start f s r c1 s1 k1 Hrun Hon1 H26) as (s2 & Hon2 & E); [lia|]. rewrite E. clear E.
  destruct (peek_sym x3b s2 r Hon2 ltac:(set_solver)) as (s3 & Hp & Hon3). rewrite (bind_Ok _ _ _ _ _ Hp), H3b. by exists c1, s3.
Qed.
Lemma complete_list ts1 ts2 c1 c2 : complete_at NBack ts1 c1 → complete_at NLine ts2 c2 → complete_at NLine (ts1 ++ Sym x3b :: ts2) (LIST c1 c2).
Proof.
  intros IH1 IH2 s r f Hon len Hfo Hf. rewrite <- app_assoc in Hon. simpl in Hon. destruct f as [|f]; [lia|]. cbn [parseline].
  assert (El : len = (length ts1 + S (length (ts2 ++ r)))%nat) by (unfold len; rewrite <- app_assoc, length_app; done).
  destruct (IH1 s (Sym x3b :: ts2 ++ r) f Hon f) as (d1 & s1 & k1 & Hk1 & [Hon1 Hv1] & Hrun);
    [by split; [right|]|rewrite length_app; simpl; lia|rewrite length_app; simpl; lia|].
  destruct (line_start f s _ d1 s1 k1 Hrun Hon1 eq_refl) as (s2 & Hon2 & E); [lia|]. rewrite E. clear E.
  destruct (peek_sym x3b s2 _ Hon2 ltac:(set_solver)) as (s3 & Hp & Hon3). rewrite (bind_Ok _ _ _ _ _ Hp). cbn [is_sym].
  change (bool_decide (x3b = x3b)) with true. cbv iota.
  destruct (gettoken_sym s3 x3b _ Hon3) as (q & eq & s4 & Hg & Hon4). rewrite (bind_Ok _ _ _ _ _ Hg).
  destruct (IH2 s4 r f Hon4 Hfo) as (d2 & s5 & Hl & Hon5 & Hv2); [lia|]. rewrite (bind_Ok _ _ _ _ _ Hl).
  exists (LIST d1 d2), s5. split; [done|]. split; [done|]. unfold view in *. simpl. by rewrite Hv1, Hv2.
Qed.
Lemma complete_simple : complete_at NSimple [] (EXEC []).
Proof.
  intros s r f Hon len g1 g2 Hf H1 H2. exists (EXEC []), s, g1, g2. by split_and!.
Qed.

Lemma parse_complete n ts c : derives n ts c → complete_at n ts c.
Proof.
  induction 1.
  - by apply complete_line.
  - by apply complete_list.
  - by apply complete_front.
  - by apply complete_back.
  - by apply complete_exec.
  - by apply complete_pipe.
  - by apply complete_exec_block.
  - by apply complete_exec_simple.
  - by apply complete_block.
  - by apply complete_block_redir.
  - apply complete_simple.
  - by apply complete_simple_arg.
  - by apply complete_simple_redir.
Qed.

(** ** The strings that are left in the line *)

Fixpoint ends (c : cmd (nat * nat)) : list nat :=
  match c with
  | EXEC argv => argv.*2
  | REDIR c file _ _ => ends c ++ [file.2]
  | PIPE l r | LIST l r => ends l ++ ends r
  | BACK c => ends c
  end.
Definition cut (b : list byte) (l : list nat) : list byte := foldl (λ b e, <[e := x00]> b) b l.
Lemma nulterminate_cut c : ∀ b, nulterminate c b = cut b (ends c).
Proof.
  unfold cut. induction c as [argv|c IH f m d|l IHl r IHr|l IHl r IHr|c IH]; intros b; cbn [nulterminate ends]; rewrite ?foldl_app, ?IH, ?IHr, ?IHl; try done.
  revert b. induction argv as [|w argv IH]; intros b; [done|]. apply IH.
Qed.
Lemma cut_lookup l : ∀ b i, (i < length b)%nat → cut b l !! i = if bool_decide (i ∈ l) then Some x00 else b !! i.
Proof.
  unfold cut. induction l as [|e l IH]; intros b i Hi; [done|]. cbn [foldl]. rewrite IH by (by rewrite length_insert).
  destruct (decide (i ∈ l)); [by rewrite !bool_decide_true by set_solver|]. rewrite (bool_decide_false (i ∈ l)) by done.
  destruct (decide (i = e)) as [->|Hne]; [rewrite bool_decide_true by set_solver; by apply list_lookup_insert_eq|].
  rewrite bool_decide_false by set_solver. by apply list_lookup_insert_ne.
Qed.
Lemma length_cut b l : length (cut b l) = length b.
Proof. unfold cut. revert b. induction l as [|e l IH]; intros b; [done|]. cbn [foldl]. by rewrite IH, length_insert. Qed.
Lemma cmd_all_ends c : cmd_all good c → ∀ e, e ∈ ends c → (e ≤ es)%nat ∧ word_char (at_ buf e) = false.
Proof.
  induction c as [argv|c IH f m d|l IHl r IHr|l IHl r IHr|c IH]; simpl; try set_solver.
  - intros H e (w & -> & Hw)%list_elem_of_fmap. destruct (proj1 (Forall_forall _ _) H w Hw) as (? & _ & ?). split; [lia|done].
  - intros [Hc (? & _ & ?)] e [He|He%list_elem_of_singleton]%elem_of_app; [by apply IH|subst; split; [lia|done]].
Qed.

Lemma word_at_slice l w : (∀ e, e ∈ l → word_char (at_ buf e) = false) → good w → w.2 ∈ l → word_at (cut buf l) w = slice w.
Proof.
  intros Hl ((Hqe & Hes) & Hw & He) Hin. unfold word_at. destruct w as [q eq]. simpl in *.
  assert (Hlen : length (cut buf l) = S es) by (rewrite length_cut, length_app; simpl; lia).
  assert (Hslice : take (eq - q) (drop q (cut buf l)) = slice (q, eq)).
  { apply list_eq. intros i. unfold slice. simpl. destruct (decide (i < eq - q)%nat) as [Hi|Hi].
    - rewrite !lookup_take_lt, !lookup_drop by done. rewrite cut_lookup by (rewrite length_app; simpl; lia).
      rewrite bool_decide_false; [apply lookup_app_l; lia|]. intros Hb%Hl.
      assert (Hc : slice (q, eq) !! i = Some (at_ buf (q + i))).
      { unfold slice. simpl. rewrite lookup_take_lt, lookup_drop by done. unfold at_. rewrite <- (lookup_app_l ln [x00]) by lia.
        apply list_lookup_lookup_total_lt. rewrite length_app. simpl. lia. }
      apply list_elem_of_lookup_2, list_elem_of_In in Hc. rewrite (proj1 (forallb_forall _ _) Hw _ Hc) in Hb. done.
    - rewrite !lookup_take_ge by lia. done. }
  assert (Hdrop : drop eq (cut buf l) = x00 :: drop (S eq) (cut buf l)).
  { apply drop_S. rewrite cut_lookup by (rewrite length_app; simpl; lia). by rewrite bool_decide_true. }
  rewrite <- (take_drop (eq - q) (drop q (cut buf l))), Hslice, drop_drop. replace (q + (eq - q))%nat with eq by lia. rewrite Hdrop.
  apply cstring_cut. intros H0%list_elem_of_In. by apply (proj1 (forallb_forall _ _) Hw) in H0.
Qed.
Lemma strings_view c : cmd_all good c → cmd_map (word_at (nulterminate c buf)) c = view c.
Proof.
  intros Hg. rewrite nulterminate_cut. assert (Hl := cmd_all_ends c Hg).
  assert (Hsub : ∀ e, e ∈ ends c → e ∈ ends c) by done. set (l := ends c) in Hl, Hsub at 2 |- *. clearbody l.
  assert (Hw : ∀ w, good w → w.2 ∈ l → word_at (cut buf l) w = slice w) by (intros w; apply word_at_slice; intros e He; by apply Hl).
  unfold view. induction c as [argv|c IH f m d|c1 IH1 c2 IH2|c1 IH1 c2 IH2|c IH]; simpl in *.
  - f_equal. apply list_fmap_ext. intros i w Hi%list_elem_of_lookup_2. apply Hw; [by apply (proj1 (Forall_forall _ _) Hg)|].
    apply Hsub, list_elem_of_fmap. eauto.
  - destruct Hg as [Hg Hf]. rewrite IH, Hw by set_solver. done.
  - destruct Hg as [Hg1 Hg2]. rewrite IH1, IH2 by set_solver. done.
  - destruct Hg as [Hg1 Hg2]. rewrite IH1, IH2 by set_solver. done.
  - rewrite IH by set_solver. done.
Qed.
End Line.

Lemma lex_length l : (length (lex l) ≤ length l)%nat.
Proof.
  induction l as [l IH] using (induction_ltof1 _ (@length byte)). unfold ltof in IH. destruct l as [|c l]; [done|].
  assert (IH1 : (length (lex l) ≤ length l)%nat) by (apply IH; simpl; lia). cbn [lex]. case_match; [simpl; lia|]. case_match.
  - destruct l as [|c' l]; [simpl; lia|]. case_match; [|simpl in *; lia]. specialize (IH l ltac:(simpl; lia)). simpl in *. lia.
  - case_match; [|simpl; lia]. unfold push. destruct (lex l) as [|[]]; simpl in *; lia.
Qed.
Lemma cstring_line ln : x00 ∉ ln → cstring (ln ++ [x00]) = ln.
Proof. apply cstring_cut. Qed.

Lemma parse_iff ln fuel : x00 ∉ ln → (4 * length ln + 4 < fuel)%nat →
  (∀ c, parsecmd fuel (ln ++ [x00]) = Parsed c ↔ derives NLine (lex ln) c) ∧ parsecmd fuel (ln ++ [x00]) ≠ Endless.
Proof.
  intros Hnul Hf. assert (Hlen := lex_length ln). assert (Hon : on ln 0 (lex ln)) by (split; [lia|done]).
  assert (Hs := proj1 (parse_sound ln Hnul fuel) 0%nat (lex ln) Hon ltac:(lia)). unfold parsecmd. rewrite cstring_line by done.
  destruct (parseline (ln ++ [x00]) (length ln) fuel 0%nat) as [c0 s0|msg|[]|] eqn:Erun; simpl in Hs; [| |done].
  - destruct Hs as (front & r & E & Hon0 & Hd & Hg). rewrite (bind_Ok _ _ _ _ _ Erun).
    destruct (peek_ok ln Hnul [] s0 r Hon0) as (s1 & Hp & Hon1 & Hh). rewrite (bind_Ok _ _ _ _ _ Hp). cbn [ret].
    assert (Hend : s1 = length ln ↔ r = []).
    { split; [intros ->; destruct Hon1 as [_ <-]; by rewrite drop_all|intros ->; by inversion Hh]. }
    split; [|by case_bool_decide]. intros c. split.
    + case_bool_decide as Hs1; [|done]. intros [= <-]. rewrite (strings_view ln Hnul) by done. rewrite E, (proj1 Hend Hs1), app_nil_r. done.
    + intros Hc. destruct (parse_complete ln Hnul _ _ _ Hc 0%nat [] fuel) as (c1 & s2 & Hrun & Hon2 & Hv);
        [by rewrite app_nil_r|by left|rewrite app_nil_r; lia|]. rewrite Erun in Hrun. injection Hrun as <- <-.
      assert (r = []) as -> by (destruct Hon0 as [_ <-]; by destruct Hon2). rewrite bool_decide_true by (by apply Hend).
      by rewrite (strings_view ln Hnul), Hv.
  - unfold bind. rewrite Erun. simpl. split; [|done]. intros c. split; [done|]. intros Hc.
    destruct (parse_complete ln Hnul _ _ _ Hc 0%nat [] fuel) as (c1 & s2 & Hrun & _);
      [by rewrite app_nil_r|by left|rewrite app_nil_r; lia|]. congruence.
Qed.

(** C22: the shell's parser implements its grammar.  On every line it terminates
    (the fuel is four times the length of the line), and it returns the command
    [c], with the strings that nulterminate cuts out of the buffer, exactly when
    the tokens of the line are a phrase that means [c]; on any other line it
    stops with one of its error messages. *)
Theorem parsecmd_correct ln fuel : x00 ∉ ln → (4 * length ln + 4 < fuel)%nat →
  (∀ c, parsecmd fuel (ln ++ [x00]) = Parsed c ↔ derives NLine (lex ln) c) ∧ parsecmd fuel (ln ++ [x00]) ≠ Endless.
Proof. apply parse_iff. Qed.
Lemma parsecmd_correct_witness :
  let ln := str "cat <in | (sort; wc) >>out &" in
  let c := BACK (PIPE (REDIR (EXEC [str "cat"]) (str "in") 0 0)
                      (REDIR (LIST (EXEC [str "sort"]) (EXEC [str "wc"])) (str "out") 0x201 1)) in
  derives NLine (lex ln) c ∧ ¬ (∃ c', derives NLine (lex (str "ls ( x")) c').
Proof.
  intros ln c. split.
  - apply (proj1 (parsecmd_correct ln 200 ltac:(vm_compute; set_solver) ltac:(vm_compute; lia))). vm_compute. reflexivity.
  - intros [c' Hc']. apply (proj1 (parsecmd_correct (str "ls ( x") 200 ltac:(vm_compute; set_solver) ltac:(vm_compute; lia))) in Hc'.
    vm_compute in Hc'. discriminate.
Defined.

(** ** What a command runs *)

(** what a descriptor refers to *)
Inductive handle := HStd (n : Z) | HFile (path : list byte) (mode : Z) | HRead (pipe : nat) | HWrite (pipe : nat).
Definition table := gmap Z handle.
Definition lowest (t : table) : option Z := head (filter (λ fd, t !! fd = None) (seqZ 0 16)).
(** the programs that are run, each with its arguments and its descriptors *)
Definition started := list (list (list byte) * table).

Section Run.
(** [opens file mode] says whether the file can be opened; [pid] is what fork
    returns in the parent. *)
Context (opens : list byte → Z → bool) (pid : Z) (Hpid : 0 < pid).

(** The processes that a program and its children become.  Pipes are numbered
    in the order in which they are made; [K] is what follows. *)
Fixpoint spawn {A : Type} (p : prog A) (K : A → table → nat → option (started * nat)) (t : table) (n : nat) : option (started * nat) :=
  match p with
  | Ret a => K a t n
  | Unfinished => None
  | Sys c k =>
      match c in sys R return (R → table → nat → option (started * nat)) → option (started * nat) with
      | Exec _ argv => λ _, Some ([(argv, t)], n)
      | Exit _ => λ _, Some ([], n)
      | Write _ bs => λ go, go (Z.of_nat (length bs)) t n
      | Wait => λ go, go pid t n
      | Close fd => λ go, go (if t !! fd then 0 else -1) (delete fd t) n
      | Open file mode => λ go,
          match lowest t with
          | Some fd => if opens file mode then go fd (<[fd := HFile file mode]> t) n else go (-1) t n
          | None => go (-1) t n
          end
      | Dup fd => λ go,
          match t !! fd, lowest t with
          | Some h, Some fd' => go fd' (<[fd' := h]> t) n
          | _, _ => go (-1) t n
          end
      | Pipe => λ go,
          match lowest t with
          | Some r =>
              match lowest (<[r := HRead n]> t) with
              | Some w => go (0, (r, w)) (<[w := HWrite n]> (<[r := HRead n]> t)) (S n)
              | None => go (-1, (0, 0)) t n
              end
          | None => go (-1, (0, 0)) t n
          end
      | Fork => λ go,
          '(child, n1) ← go 0 t n;
          '(parent, n2) ← go pid t n1;
          Some (child ++ parent, n2)
      | _ => λ _, None
      end (λ r, spawn (k r) K)
  end.

Lemma spawn_ext {A} (p : prog A) K K' : (∀ a t n, K a t n = K' a t n) → ∀ t n, spawn p K t n = spawn p K' t n.
Proof.
  intros HK. induction p as [a|R c k IH|]; intros t n; simpl; [done| |done].
  destruct c; try done; simpl; try apply IH; repeat (case_match; try done; try apply IH).
  rewrite IH. destruct (spawn (k 0) K' t n) as [[child n1]|]; [|done]. simpl. by rewrite IH.
Qed.
Lemma spawn_bind {A B} (p : prog A) (f : A → prog B) K t n :
  spawn (pbind p f) K t n = spawn p (λ a, spawn (f a) K) t n.
Proof.
  revert t n. induction p as [a|R c k IH|]; intros t n; simpl; [done| |done].
  destruct c; try done; simpl; try apply IH; repeat (case_match; try done; try apply IH).
  rewrite IH. destruct (spawn (k 0) _ t n) as [[child n1]|]; [|done]. simpl. by rewrite IH.
Qed.
Lemma spawn_chars l (K : unit → table → nat → option (started * nat)) t n : spawn (pfor l (putc 2)) K t n = K tt t n.
Proof. induction l as [|c l IH]; [done|]. exact IH. Qed.
Lemma spawn_message file (K : unit → table → nat → option (started * nat)) t n :
  spawn (fprintf 2 (line "open %s failed") [VStr (Some file)]) K t n = K tt t n.
Proof.
  change (fprintf 2 (line "open %s failed") [VStr (Some file)]) with
    (pfor (str "open ") (putc 2) ;! pfor file (putc 2) ;! pfor (line " failed") (putc 2)).
  by rewrite spawn_bind, spawn_chars, spawn_bind, !spawn_chars.
Qed.

(** ** The plan of a command *)

(** Redirections replace a descriptor, the sides of a pipe have its ends as
    output and input; no program has any other end of a pipe. *)
Fixpoint plan (c : cmd (list byte)) (t : table) (n : nat) : started * nat :=
  match c with
  | EXEC [] => ([], n)
  | EXEC argv => ([(argv, t)], n)
  | REDIR c file mode fd => if opens file mode then plan c (<[fd := HFile file mode]> t) n else ([], n)
  | PIPE l r =>
      let '(p1, n1) := plan l (<[1 := HWrite n]> t) (S n) in
      let '(p2, n2) := plan r (<[0 := HRead n]> t) n1 in
      (p1 ++ p2, n2)
  | LIST l r => let '(p1, n1) := plan l t n in let '(p2, n2) := plan r t n1 in (p1 ++ p2, n2)
  | BACK c => plan c t n
  end.
(** redirections of the standard input and output *)
Fixpoint std (c : cmd (list byte)) : Prop :=
  match c with
  | EXEC _ => True
  | REDIR c _ _ fd => std c ∧ (fd = 0 ∨ fd = 1)
  | PIPE l r | LIST l r => std l ∧ std r
  | BACK c => std c
  end.
Definition tbl (i o e : handle) : table := {[0 := i; 1 := o; 2 := e]}.


Section Calls.
Context {A : Type} (K : A → table → nat → option (started * nat)) (t : table) (n : nat).
Lemma spawn_close fd (k : Z → prog A) : spawn (let! r := call (Close fd) in k r) K t n = spawn (k (if t !! fd then 0 else -1)) K (delete fd t) n.
Proof. done. Qed.
Lemma spawn_wait (k : Z → prog A) : spawn (let! r := call Wait in k r) K t n = spawn (k pid) K t n.
Proof. done. Qed.
Lemma spawn_fork (k : Z → prog A) : spawn (let! p := fork1 in k p) K t n =
  ('(child, n1) ← spawn (k 0) K t n; '(parent, n2) ← spawn (k pid) K t n1; Some (child ++ parent, n2)).
Proof.
  rewrite spawn_bind. unfold fork1, call. cbn [pbind spawn]. change (0 =? -1) with false. rewrite (proj2 (Z.eqb_neq pid (-1))) by lia. done.
Qed.
Lemma spawn_open fd file mode (k : Z → prog A) : lowest t = Some fd → spawn (let! r := call (Open file mode) in k r) K t n =
  if opens file mode then spawn (k fd) K (<[fd := HFile file mode]> t) n else spawn (k (-1)) K t n.
Proof. intros E. unfold call. cbn [pbind spawn]. by rewrite E. Qed.
Lemma spawn_dup fd fd' h (k : Z → prog A) : t !! fd = Some h → lowest t = Some fd' →
  spawn (let! r := call (Dup fd) in k r) K t n = spawn (k fd') K (<[fd' := h]> t) n.
Proof. intros E E'. unfold call. cbn [pbind spawn]. by rewrite E, E'. Qed.
Lemma spawn_pipe r w (k : Z * (Z * Z) → prog A) : lowest t = Some r → lowest (<[r := HRead n]> t) = Some w →
  spawn (let! x := call Pipe in k x) K t n = spawn (k (0, (r, w))) K (<[w := HWrite n]> (<[r := HRead n]> t)) (S n).
Proof. intros E E'. unfold call. cbn [pbind spawn]. by rewrite E, E'. Qed.
End Calls.

Lemma plan_redir c K i o e n file mode fd : fd = 0 ∨ fd = 1 →
  (∀ K i o e n, spawn (runcmd c) K (tbl i o e) n = Some (plan c (tbl i o e) n)) →
  spawn (runcmd (REDIR c file mode fd)) K (tbl i o e) n = Some (plan (REDIR c file mode fd) (tbl i o e) n).
Proof.
  intros Hfd IH. cbn [runcmd plan]. rewrite spawn_bind, spawn_close.
  assert (El : lowest (delete fd (tbl i o e)) = Some fd) by (by destruct Hfd as [-> | ->]).
  rewrite (spawn_open _ _ _ fd) by done. rewrite (proj2 (Z.ltb_ge fd 0)) by lia. change (-1 <? 0) with true. cbv iota.
  destruct (opens file mode); [|by rewrite spawn_bind, spawn_message].
  destruct Hfd as [-> | ->]; [apply (IH _ (HFile file mode) o e)|apply (IH _ i (HFile file mode) e)].
Qed.
Lemma plan_pipe l r K i o e n :
  (∀ K i o e n, spawn (runcmd l) K (tbl i o e) n = Some (plan l (tbl i o e) n)) →
  (∀ K i o e n, spawn (runcmd r) K (tbl i o e) n = Some (plan r (tbl i o e) n)) →
  spawn (runcmd (PIPE l r)) K (tbl i o e) n = Some (plan (PIPE l r) (tbl i o e) n).
Proof.
  intros IHl IHr. cbn [runcmd plan]. rewrite spawn_bind, (spawn_pipe _ _ _ 3 4) by done. change (0 <? 0) with false. cbv beta iota.
  assert (Ep : (pid =? 0) = false) by (apply Z.eqb_neq; lia). rewrite spawn_fork, Ep. change (0 =? 0) with true. cbv beta iota.
  rewrite spawn_bind, spawn_close, (spawn_dup _ _ _ 4 1 (HWrite n)), !spawn_close by done.
  change (delete 4 _) with (tbl i (HWrite n) e). rewrite IHl. change (<[1 := HWrite n]> (tbl i o e)) with (tbl i (HWrite n) e).
  destruct (plan l (tbl i (HWrite n) e) (S n)) as [p1 n1]. cbn [mbind option_bind].
  rewrite spawn_bind. cbn [spawn]. rewrite spawn_fork, Ep. change (0 =? 0) with true. cbv beta iota.
  rewrite spawn_bind, spawn_close, (spawn_dup _ _ _ 3 0 (HRead n)), !spawn_close by done.
  change (delete 4 _) with (tbl (HRead n) o e). rewrite IHr. change (<[0 := HRead n]> (tbl i o e)) with (tbl (HRead n) o e).
  destruct (plan r (tbl (HRead n) o e) n1) as [p2 n2]. cbn [mbind option_bind].
  simpl. by rewrite app_nil_r.
Qed.
Lemma spawn_plan c : std c → ∀ K i o e n, spawn (runcmd c) K (tbl i o e) n = Some (plan c (tbl i o e) n).
Proof.
  assert (Ep : (pid =? 0) = false) by (apply Z.eqb_neq; lia).
  induction c as [argv|c IH file mode fd|l IHl r IHr|l IHl r IHr|c IH]; intros Hstd K i o e n.
  - by destruct argv as [|a argv].
  - destruct Hstd as [Hstd Hfd]. apply plan_redir; [done|]. by apply IH.
  - destruct Hstd as [Hl Hr]. apply plan_pipe; [by apply IHl|by apply IHr].
  - destruct Hstd as [Hl Hr]. cbn [runcmd plan]. rewrite spawn_bind, spawn_fork, Ep. change (0 =? 0) with true. cbv beta iota.
    rewrite spawn_bind, (IHl Hl). destruct (plan l (tbl i o e) n) as [p1 n1]. cbn [mbind option_bind].
    rewrite spawn_bind. cbn [spawn]. rewrite spawn_wait, (IHr Hr). by destruct (plan r (tbl i o e) n1).
  - cbn [runcmd plan]. rewrite spawn_bind, spawn_fork, Ep. change (0 =? 0) with true. cbv beta iota.
    rewrite (IH Hstd). destruct (plan c (tbl i o e) n) as [p1 n1]. simpl. by rewrite app_nil_r.
Qed.

Lemma derives_std nt ts c : derives nt ts c → std c.
Proof.
  assert (Hadd : ∀ w c, std c → std (add_arg w c)) by (intros w c'; induction c'; simpl; tauto).
  assert (Hr : ∀ o m d, redir_of o = Some (m, d) → d = 0 ∨ d = 1).
  { intros o m d. unfold redir_of. repeat (case_bool_decide; [intros [= <- <-]; auto|]). done. }
  induction 1; simpl; eauto.
Qed.

(** C23: what the shell does with a line.  If the line means the command [c], then
    the process that runs it, with its standard descriptors open, and all its
    children, execute exactly the programs of [c] with their arguments.
    Each has the descriptors that its redirections and its place in a pipeline
    give it, and no other end of any pipe is left open in it, so that readers
    see the end of their input; a program whose redirection cannot be opened is
    not run. *)
Theorem shell_runs ln c i o e n : x00 ∉ ln → derives NLine (lex ln) c → ∀ K,
  spawn (sh_command ln) K (tbl i o e) n = Some (plan c (tbl i o e) n).
Proof.
  intros Hnul Hd K. unfold sh_command. destruct (parse_iff ln (4 * length ln + 8) Hnul ltac:(lia)) as [Hp _].
  rewrite (proj2 (Hp c) Hd). apply spawn_plan. by apply derives_std in Hd.
Qed.
End Run.

Lemma shell_runs_witness :
  let ln := line "cat <in | grep x >>out ; (ls; wc) &" in
  let i := HStd 0 in let o := HStd 1 in let e := HStd 2 in
  spawn (λ f _, negb (bool_decide (f = str "none"))) 7 (sh_command ln) (λ _ _ _, None) (tbl i o e) 0%nat =
    Some ([([str "cat"], tbl (HFile (str "in") 0) (HWrite 0) e);
           ([str "grep"; str "x"], tbl (HRead 0) (HFile (str "out") 0x201) e);
           ([str "ls"], tbl i o e); ([str "wc"], tbl i o e)], 1%nat).
Proof.
  intros ln i o e.
  set (c := LIST (PIPE (REDIR (EXEC [str "cat"]) (str "in") 0 0) (REDIR (EXEC [str "grep"; str "x"]) (str "out") 0x201 1))
                 (BACK (LIST (EXEC [str "ls"]) (EXEC [str "wc"])))).
  assert (Hnul : x00 ∉ ln) by (vm_compute; set_solver).
  refine (eq_trans (shell_runs (λ f _, negb (bool_decide (f = str "none"))) 7 eq_refl ln c i o e 0%nat Hnul _ _) eq_refl).
  apply (proj1 (parse_iff ln 400 Hnul ltac:(vm_compute; lia))). vm_compute. reflexivity.
Defined.
